(** * A shallow embedding of the reactive core of Vue 2

    The development follows the two subsystems of the repository that carry
    the algorithms:

    - the virtual-tree reconciler of [core/vdom/patch.js]
      ([sameVnode], [findIdxInOld], [updateChildren], [patchVnode], ...);
    - the observer of [core/observer] ([Dep], [Watcher], [defineReactive],
      [set], the intercepted array methods).

    JavaScript values are modelled by the inductive type [value]; objects
    that the code mutates live in explicit stores and are threaded through
    state-passing functions.  Exceptions ([TypeError] raised when a
    property of [undefined] is read) are an explicit outcome. *)

From stdpp Require Import gmap strings list pretty sorting.
From Stdlib Require Import ZArith Lia.

Set Warnings "-register-all".
Set Default Proof Using "Type".
Open Scope Z_scope.

(** ** JavaScript values *)

Module JS.

(** Numbers: the integers and [NaN].  Strict equality identifies every
    non-[NaN] number with itself only, and [NaN] with nothing. *)
Inductive number :=
| NaN
| Num (z : Z).

(** Values: primitives, and references to heap objects (compared by
    identity). *)
Inductive value :=
| VUndef
| VNull
| VBool (b : bool)
| VNum (n : number)
| VStr (s : string)
| VRef (a : nat).

#[global] Instance number_eq_dec : EqDecision number.
Proof. solve_decision. Defined.

#[global] Instance value_eq_dec : EqDecision value.
Proof. solve_decision. Defined.

(** [a === b] *)
Definition strict_eq (a b : value) : bool :=
  match a, b with
  | VUndef, VUndef => true
  | VNull, VNull => true
  | VBool x, VBool y => Bool.eqb x y
  | VNum (Num x), VNum (Num y) => Z.eqb x y
  | VStr x, VStr y => String.eqb x y
  | VRef x, VRef y => Nat.eqb x y
  | _, _ => false
  end.

(** [a !== b] *)
Definition strict_neq (a b : value) : bool := negb (strict_eq a b).

(** Modelled from the spec: the helpers [isDef], [isUndef], [isTrue],
    [isObject] and [isPrimitive] of [shared/util], which is not under
    src/; they are the usual tests
    [v !== undefined && v !== null], [v === undefined || v === null],
    [v === true], [v !== null && typeof v === 'object'] and
    [typeof v] being string, number, symbol or boolean. *)
Definition isUndef (v : value) : bool :=
  match v with VUndef | VNull => true | _ => false end.

Definition isDef (v : value) : bool := negb (isUndef v).

Definition isTrue (v : value) : bool :=
  match v with VBool true => true | _ => false end.

Definition isObject (v : value) : bool :=
  match v with VRef _ => true | _ => false end.

Definition isPrimitive (v : value) : bool :=
  match v with VBool _ | VNum _ | VStr _ => true | _ => false end.

(** Truthiness, as tested by [if (v)] and [v && ...]. *)
Definition truthy (v : value) : bool :=
  match v with
  | VUndef | VNull => false
  | VBool b => b
  | VNum NaN => false
  | VNum (Num z) => negb (Z.eqb z 0)
  | VStr s => negb (String.eqb s "")
  | VRef _ => true
  end.

(** *** Numbers as strings ([Number::toString])

    The string of a number is made of the least number of significant
    digits that reads back as the same number, followed by zeros up to
    21 digits in all, and written with an exponent beyond that.  A
    number is a double: an integer below [2^53], or [m * 2^e] with
    [2^52 <= m < 2^53].

    [roundsTo x v]: the number nearest to the integer [v] is the
    positive number [x] (ties go to the even significand). *)
Definition roundsTo (x v : Z) : bool :=
  let p := Z.log2 x in
  if p <? 53 then v =? x
  else
    let u := 2 ^ (p - 52) in
    let d := if x =? 2 ^ p then u / 2 else u in
    if Z.even (x / u)
    then (2 * (v - x) <=? u) && (2 * (x - v) <=? d)
    else (2 * (v - x) <? u) && (2 * (x - v) <? d).

(** The multiple of the highest power of ten, from [10^m] down, that
    reads back as [x]; of two, the nearer one. *)
Fixpoint shortestDecimal (m : nat) (x : Z) : Z :=
  let q := 10 ^ Z.of_nat m in
  let v1 := x / q * q in
  let v2 := v1 + q in
  match roundsTo x v1, roundsTo x v2 with
  | true, true =>
      if x - v1 <? v2 - x then v1
      else if v2 - x <? x - v1 then v2
      else if Z.even (x / q) then v1 else v2
  | true, false => v1
  | false, true => v2
  | false, false =>
      match m with
      | O => x
      | S m' => shortestDecimal m' x
      end
  end.

Fixpoint stripZeros (s : string) : string :=
  match s with
  | EmptyString => EmptyString
  | String c r =>
      let r' := stripZeros r in
      if String.eqb r' "" && String.eqb (String c EmptyString) "0"
      then ""
      else String c r'
  end.

Definition positiveToString (x : Z) : string :=
  let ds := pretty (shortestDecimal (String.length (pretty x) - 1) x) in
  let n := String.length ds in
  if (n <=? 21)%nat then ds
  else
    match stripZeros ds with
    | String c r =>
        String c (if String.eqb r "" then "" else "." +:+ r) +:+
        "e+" +:+ pretty (Z.of_nat n - 1)
    | EmptyString => ds
    end.

Definition numberToString (z : Z) : string :=
  if z =? 0 then "0"
  else if z <? 0 then "-" +:+ positiveToString (- z)
  else positiveToString z.

(** [String(v)] on a primitive used as a property name.  The name of an
    object is made by its own [toString]; [[object Object]] is what
    [Object.prototype.toString] gives for a plain object. *)
Definition toPropertyKey (v : value) : string :=
  match v with
  | VUndef => "undefined"
  | VNull => "null"
  | VBool true => "true"
  | VBool false => "false"
  | VNum NaN => "NaN"
  | VNum (Num z) => numberToString z
  | VStr s => s
  | VRef _ => "[object Object]"
  end.

(** The own property names of [Object.prototype], which every object
    literal [{}] inherits: a read [map[key]] of one of them on a table
    that has no such property of its own finds the inherited member (a
    function, or the prototype itself under [__proto__]), and an
    assignment of a number to [__proto__] creates no own property. *)
Definition objectPrototypeNames : list string :=
  ["constructor"; "__defineGetter__"; "__defineSetter__"; "hasOwnProperty";
   "__lookupGetter__"; "__lookupSetter__"; "isPrototypeOf";
   "propertyIsEnumerable"; "toString"; "valueOf"; "__proto__";
   "toLocaleString"]%string.

(** The double-quote character, for messages that quote. *)
Definition dquote : string :=
  String (Ascii.Ascii false true false false false true false false) EmptyString.

(** A field typed [T | void] is an [option]; these lift it to a value
    where the code compares it with [===]. *)
Definition ostr (o : option string) : value :=
  match o with Some s => VStr s | None => VUndef end.

End JS.

Import JS.

(** ** Virtual nodes ([core/vdom/vnode.js]) *)

Module VDom.

(** Native handles ([vnode.elm]) are compared by identity. *)
Definition handle := nat.

(** An async component factory: a function object carrying the
    [error] and [resolved] properties read by the reconciler. *)
Record AsyncFactory := mkAsyncFactory {
  af_id : nat;
  af_error : value;
  af_resolved : value }.

(** [data.attrs], of which the reconciler reads [type]. *)
Record Attrs := mkAttrs { attrs_type : value }.

(** [data.hook]: which of the per-node hooks are defined. *)
Record NodeHooks := mkNodeHooks {
  h_init : bool;
  h_prepatch : bool;
  h_update : bool;
  h_postpatch : bool;
  h_create : bool;
  h_insert : bool;
  h_remove : bool;
  h_destroy : bool }.

(** [VNodeData], restricted to the members read in [patch.js].
    [pendingInsert] holds the identities of queued vnodes. *)
Record VNodeData := mkVNodeData {
  attrs : option Attrs;
  hook : option NodeHooks;
  pre : bool;
  keepAlive : bool;
  transition : bool;
  pendingInsert : option (list nat) }.

(** A component instance as seen from a placeholder vnode: its [$el] and
    the root vnode [_vnode] of its own render. *)
Record ComponentInstance (V : Type) := mkInst {
  inst_el : option handle;
  inst_vnode : option V }.
Arguments mkInst {V} _ _.
Arguments inst_el {V} _.
Arguments inst_vnode {V} _.

(** [class VNode].  [ref] is the identity of the object (what [===]
    compares) and [childrenRef] the identity of the array held in
    [children]; [componentOptions] tells whether the
    member is defined (the vnode stands for a component); [scopeIds] is the chain of [context.$options._scopeId]
    found by walking [vnode], [vnode.parent], ... in [setScope]. *)
Inductive VNode := mkVNode {
  ref : nat;
  tag : option string;
  data : option VNodeData;
  children : option (list VNode);
  childrenRef : nat;
  text : option string;
  elm : option handle;
  ns : option string;
  key : value;
  componentOptions : bool;
  componentInstance : option (ComponentInstance VNode);
  isStatic : bool;
  isRootInsert : bool;
  isComment : bool;
  isCloned : bool;
  isOnce : bool;
  asyncFactory : option AsyncFactory;
  isAsyncPlaceholder : bool;
  fnScopeId : option string;
  scopeIds : list string }.

(** [new VNode(tag, data, children, text, elm, ...)] at identity [r]:
    the constructor's defaults for every other member (the key comes
    from [data.key], given here as [k]). *)
Definition newVNode (r : nat) (tg : option string) (d : option VNodeData)
    (ch : option (list VNode)) (rc : nat) (tx : option string)
    (e : option handle) (k : value) (co : bool) (af : option AsyncFactory)
    : VNode :=
  {| ref := r; tag := tg; data := d; children := ch; childrenRef := rc;
     text := tx; elm := e;
     ns := None; key := k; componentOptions := co; componentInstance := None; isStatic := false;
     isRootInsert := true; isComment := false; isCloned := false;
     isOnce := false; asyncFactory := af; isAsyncPlaceholder := false;
     fnScopeId := None; scopeIds := [] |}.

(** Field updates ([vnode.elm = ...] and the like). *)
Definition set_elm (v : VNode) (e : option handle) : VNode :=
  {| ref := ref v; tag := tag v; data := data v; children := children v; childrenRef := childrenRef v;
     text := text v; elm := e; ns := ns v; key := key v;
     componentOptions := componentOptions v;
     componentInstance := componentInstance v; isStatic := isStatic v;
     isRootInsert := isRootInsert v; isComment := isComment v;
     isCloned := isCloned v; isOnce := isOnce v;
     asyncFactory := asyncFactory v;
     isAsyncPlaceholder := isAsyncPlaceholder v;
     fnScopeId := fnScopeId v; scopeIds := scopeIds v |}.

Definition set_componentInstance (v : VNode)
    (c : option (ComponentInstance VNode)) : VNode :=
  {| ref := ref v; tag := tag v; data := data v; children := children v; childrenRef := childrenRef v;
     text := text v; elm := elm v; ns := ns v; key := key v;
     componentOptions := componentOptions v;
     componentInstance := c; isStatic := isStatic v;
     isRootInsert := isRootInsert v; isComment := isComment v;
     isCloned := isCloned v; isOnce := isOnce v;
     asyncFactory := asyncFactory v;
     isAsyncPlaceholder := isAsyncPlaceholder v;
     fnScopeId := fnScopeId v; scopeIds := scopeIds v |}.

Definition set_isAsyncPlaceholder (v : VNode) (b : bool) : VNode :=
  {| ref := ref v; tag := tag v; data := data v; children := children v; childrenRef := childrenRef v;
     text := text v; elm := elm v; ns := ns v; key := key v;
     componentOptions := componentOptions v;
     componentInstance := componentInstance v; isStatic := isStatic v;
     isRootInsert := isRootInsert v; isComment := isComment v;
     isCloned := isCloned v; isOnce := isOnce v;
     asyncFactory := asyncFactory v;
     isAsyncPlaceholder := b;
     fnScopeId := fnScopeId v; scopeIds := scopeIds v |}.

Definition set_isRootInsert (v : VNode) (b : bool) : VNode :=
  {| ref := ref v; tag := tag v; data := data v; children := children v; childrenRef := childrenRef v;
     text := text v; elm := elm v; ns := ns v; key := key v;
     componentOptions := componentOptions v;
     componentInstance := componentInstance v; isStatic := isStatic v;
     isRootInsert := b; isComment := isComment v;
     isCloned := isCloned v; isOnce := isOnce v;
     asyncFactory := asyncFactory v;
     isAsyncPlaceholder := isAsyncPlaceholder v;
     fnScopeId := fnScopeId v; scopeIds := scopeIds v |}.

Definition set_children (v : VNode) (ch : option (list VNode)) : VNode :=
  {| ref := ref v; tag := tag v; data := data v; children := ch;
     childrenRef := childrenRef v;
     text := text v; elm := elm v; ns := ns v; key := key v;
     componentOptions := componentOptions v;
     componentInstance := componentInstance v; isStatic := isStatic v;
     isRootInsert := isRootInsert v; isComment := isComment v;
     isCloned := isCloned v; isOnce := isOnce v;
     asyncFactory := asyncFactory v;
     isAsyncPlaceholder := isAsyncPlaceholder v;
     fnScopeId := fnScopeId v; scopeIds := scopeIds v |}.

Definition set_data (v : VNode) (d : option VNodeData) : VNode :=
  {| ref := ref v; tag := tag v; data := d; children := children v; childrenRef := childrenRef v;
     text := text v; elm := elm v; ns := ns v; key := key v;
     componentOptions := componentOptions v;
     componentInstance := componentInstance v; isStatic := isStatic v;
     isRootInsert := isRootInsert v; isComment := isComment v;
     isCloned := isCloned v; isOnce := isOnce v;
     asyncFactory := asyncFactory v;
     isAsyncPlaceholder := isAsyncPlaceholder v;
     fnScopeId := fnScopeId v; scopeIds := scopeIds v |}.

(** [cloneVNode(vnode)], allocated at identity [r] with the copy
    [vnode.children.slice()] at identity [rc]: a shallow copy that keeps
    [elm], resets [componentInstance], [isOnce] and [isAsyncPlaceholder]
    to the constructor's defaults, and is flagged [isCloned]. *)
Definition cloneVNode (r rc : nat) (vnode : VNode) : VNode :=
  {| ref := r; tag := tag vnode; data := data vnode;
     children := children vnode; childrenRef := rc;
     text := text vnode; elm := elm vnode; ns := ns vnode;
     key := key vnode; componentOptions := componentOptions vnode;
     componentInstance := None;
     isStatic := isStatic vnode; isRootInsert := true;
     isComment := isComment vnode; isCloned := true; isOnce := false;
     asyncFactory := asyncFactory vnode; isAsyncPlaceholder := false;
     fnScopeId := fnScopeId vnode; scopeIds := scopeIds vnode |}.

(** *** Node identity ([sameVnode], [sameInputType]) *)

Section SameVnode.

(** [isTextInputType] comes from the platform ([web/util/element]); it
    is a parameter of the reconciler. *)
Variable isTextInputType : value -> bool.

(** [isDef(i = a.data) && isDef(i = i.attrs) && i.type]: [false] when
    [data] or [attrs] is missing, else the [type] attribute. *)
Definition inputTypeOf (a : VNode) : value :=
  match data a with
  | None => VBool false
  | Some d =>
      match attrs d with
      | None => VBool false
      | Some at_ => attrs_type at_
      end
  end.

Definition sameInputType (a b : VNode) : bool :=
  if negb (strict_eq (ostr (tag a)) (VStr "input")) then true
  else
    let typeA := inputTypeOf a in
    let typeB := inputTypeOf b in
    strict_eq typeA typeB || (isTextInputType typeA && isTextInputType typeB).

(** [a.asyncFactory === b.asyncFactory] *)
Definition sameFactory (a b : VNode) : bool :=
  match asyncFactory a, asyncFactory b with
  | None, None => true
  | Some f, Some g => Nat.eqb (af_id f) (af_id g)
  | _, _ => false
  end.

(** [sameVnode(a, b)].  The result is [None] when the evaluation throws:
    [b.asyncFactory.error] is read on an undefined [asyncFactory] (which
    takes the first disjunct to fail, [a] to be an async placeholder, and
    neither node to carry a factory). *)
Definition sameVnode (a b : VNode) : option bool :=
  if strict_eq (key a) (key b) then
    if strict_eq (ostr (tag a)) (ostr (tag b))
       && Bool.eqb (isComment a) (isComment b)
       && Bool.eqb (bool_decide (is_Some (data a))) (bool_decide (is_Some (data b)))
       && sameInputType a b
    then Some true
    else if isAsyncPlaceholder a && sameFactory a b then
      match asyncFactory b with
      | Some g => Some (isUndef (af_error g))
      | None => None
      end
    else Some false
  else Some false.

End SameVnode.

(** *** The adapter, the log and the patch monad *)

(** Module hooks collected in [cbs], and the per-node hooks of
    [data.hook]. *)
Inductive hookName := HCreate | HActivate | HUpdate | HRemove | HDestroy.
Inductive nodeHookName :=
| NInit | NPrepatch | NUpdate | NPostpatch | NCreate | NInsert | NRemove | NDestroy.

(** What the reconciler asks of its collaborators, in call order.  Vnodes
    are named by identity ([ref]); [None] for a vnode argument is
    [emptyNode] or an omitted argument. *)
Inductive event :=
| EvCreateElement (tg : string) (h : handle)
| EvCreateElementNS (nsp tg : string) (h : handle)
| EvCreateTextNode (tx : option string) (h : handle)
| EvCreateComment (tx : option string) (h : handle)
| EvInsertBefore (parent elm rf : option handle)
| EvAppendChild (parent elm : option handle)
| EvRemoveChild (parent el : option handle)
| EvSetTextContent (el : option handle) (tx : option string)
| EvSetStyleScope (el : option handle) (id : string)
| EvModuleHook (k : hookName) (i : nat) (old : option nat) (vnode : nat)
| EvNodeHook (k : nodeHookName) (old : option nat) (vnode : nat)
| EvRegisterRef (vnode : nat)
| EvHydrate (el : option handle) (vnode : nat)
| EvWarn (msg : string).

(** The backend handed to [createPatchFunction]: [nodeOps] over an
    abstract native tree [D], the module callbacks gathered in [cbs]
    (their number per hook and their effect on the native tree), and the
    behaviour of the collaborators that are opaque to the reconciler:
    the per-node hooks, component instantiation by the [init] /
    [prepatch] hooks, whether a remove hook calls the [rm] callback it
    is given before returning, [hydrate]'s DOM inspection, and the
    development-time configuration. *)
Class Backend (D : Type) := {
  createElement : string -> D -> handle * D;
  createElementNS : string -> string -> D -> handle * D;
  createTextNode : option string -> D -> handle * D;
  createComment : option string -> D -> handle * D;
  insertBefore : option handle -> option handle -> option handle -> D -> D;
  appendChild : option handle -> option handle -> D -> D;
  removeChild : option handle -> option handle -> D -> D;
  parentNode : option handle -> D -> option handle;
  nextSibling : option handle -> D -> option handle;
  setTextContent : option handle -> option string -> D -> D;
  setStyleScope : option handle -> string -> D -> D;
  cbs_length : hookName -> nat;
  cbs_run : hookName -> nat -> option VNode -> VNode -> D -> D;
  cbs_remove_calls_rm : nat -> VNode -> bool;
  hook_run : nodeHookName -> option VNode -> VNode -> D -> D;
  hook_remove_calls_rm : VNode -> bool;
  hook_init_instance : VNode -> D -> option (ComponentInstance VNode);
  hook_prepatch_instance : VNode -> VNode -> option (ComponentInstance VNode);
  hydrate_run : option handle -> VNode -> D -> bool * VNode * D;
  isUnknownElement_config : VNode -> bool;
  activeInstance_scopeId : VNode -> option string;
  isTextInputType : value -> bool }.

(** Build-time constant: [process.env.NODE_ENV === 'production'].  The
    model is of the web build, where [__WEEX__] is [false]. *)
Record BuildEnv := mkBuildEnv { production : bool }.

(** A removal callback made by [createRmCb]: the element it removes and
    its [listeners] counter. *)
Record RmCb := mkRmCb { rm_childElm : option handle; rm_listeners : Z }.

Section Patch.

Context {D : Type} `{Backend D}.
Variable env : BuildEnv.

(** The state a call of [patch] works on: the native tree, the log, the
    [insertedVnodeQueue] (vnode identities), the next free object
    identity, the counter [creatingElmInVPre] and the removal callbacks
    alive. *)
Record PState := mkPState {
  dom : D;
  log : list event;
  insertedVnodeQueue : list nat;
  nextRef : nat;
  creatingElmInVPre : Z;
  rmCbs : list RmCb }.

(** Outcome of a computation: a result and a state, a JavaScript
    exception, or exhaustion of the recursion budget of the model. *)
Inductive outcome (A : Type) :=
| Ok (a : A) (s : PState)
| Throw
| OutOfFuel.
Arguments Ok {A} _ _.
Arguments Throw {A}.
Arguments OutOfFuel {A}.

Definition M (A : Type) := PState -> outcome A.

Definition ret {A} (a : A) : M A := fun s => Ok a s.
Definition bind {A B} (m : M A) (k : A -> M B) : M B :=
  fun s => match m s with
           | Ok a s' => k a s'
           | Throw => Throw
           | OutOfFuel => OutOfFuel
           end.
Definition throw {A} : M A := fun _ => Throw.
Definition outOfFuel {A} : M A := fun _ => OutOfFuel.

Notation "'do' x <- m ; k" := (bind m (fun x => k))
  (at level 10, x pattern, m at level 100, k at level 200).
Notation "m ;; k" := (bind m (fun _ => k))
  (at level 100, k at level 200, right associativity).

Definition when (b : bool) (m : M unit) : M unit := if b then m else ret tt.

(** [for (i = 0; i < n; ++i) body(i)] *)
Fixpoint forUpTo (n : nat) (body : nat -> M unit) : M unit :=
  match n with
  | O => ret tt
  | S n' => forUpTo n' body ;; body n'
  end.

Definition emit (e : event) : M unit :=
  fun s => Ok tt (mkPState (dom s) (log s ++ [e]) (insertedVnodeQueue s)
                           (nextRef s) (creatingElmInVPre s) (rmCbs s)).

Definition onDom (f : D -> D) : M unit :=
  fun s => Ok tt (mkPState (f (dom s)) (log s) (insertedVnodeQueue s)
                           (nextRef s) (creatingElmInVPre s) (rmCbs s)).

Definition readDom {A} (f : D -> A) : M A := fun s => Ok (f (dom s)) s.

Definition allocDom (f : D -> handle * D) : M handle :=
  fun s => let '(h, d) := f (dom s) in
           Ok h (mkPState d (log s) (insertedVnodeQueue s)
                          (nextRef s) (creatingElmInVPre s) (rmCbs s)).

Definition freshRef : M nat :=
  fun s => Ok (nextRef s)
              (mkPState (dom s) (log s) (insertedVnodeQueue s)
                        (S (nextRef s)) (creatingElmInVPre s) (rmCbs s)).

Definition pushInserted (l : list nat) : M unit :=
  fun s => Ok tt (mkPState (dom s) (log s) (insertedVnodeQueue s ++ l)
                           (nextRef s) (creatingElmInVPre s) (rmCbs s)).

Definition addVPre (z : Z) : M unit :=
  fun s => Ok tt (mkPState (dom s) (log s) (insertedVnodeQueue s)
                           (nextRef s) (creatingElmInVPre s + z) (rmCbs s)).

Definition getVPre : M Z := fun s => Ok (creatingElmInVPre s) s.

Definition warn (msg : string) : M unit := emit (EvWarn msg).

(** The [nodeOps] calls, each recorded in the log. *)
Definition op_insertBefore (parent elm_ rf : option handle) : M unit :=
  emit (EvInsertBefore parent elm_ rf) ;; onDom (insertBefore parent elm_ rf).
Definition op_appendChild (parent elm_ : option handle) : M unit :=
  emit (EvAppendChild parent elm_) ;; onDom (appendChild parent elm_).
Definition op_removeChild (parent el : option handle) : M unit :=
  emit (EvRemoveChild parent el) ;; onDom (removeChild parent el).
Definition op_setTextContent (el : option handle) (tx : option string) : M unit :=
  emit (EvSetTextContent el tx) ;; onDom (setTextContent el tx).
Definition op_setStyleScope (el : option handle) (id : string) : M unit :=
  emit (EvSetStyleScope el id) ;; onDom (setStyleScope el id).
Definition op_createElement (tg : string) : M handle :=
  do h <- allocDom (createElement tg); emit (EvCreateElement tg h) ;; ret h.
Definition op_createElementNS (nsp tg : string) : M handle :=
  do h <- allocDom (createElementNS nsp tg); emit (EvCreateElementNS nsp tg h) ;; ret h.
Definition op_createTextNode (tx : option string) : M handle :=
  do h <- allocDom (createTextNode tx); emit (EvCreateTextNode tx h) ;; ret h.
Definition op_createComment (tx : option string) : M handle :=
  do h <- allocDom (createComment tx); emit (EvCreateComment tx h) ;; ret h.

(** [cbs[k][i](old, vnode)] and [data.hook[k](old, vnode)]. *)
Definition callModuleHook (k : hookName) (i : nat) (old : option VNode)
    (vnode : VNode) : M unit :=
  emit (EvModuleHook k i (ref <$> old) (ref vnode)) ;;
  onDom (cbs_run k i old vnode).

Definition callNodeHook (k : nodeHookName) (old : option VNode)
    (vnode : VNode) : M unit :=
  emit (EvNodeHook k (ref <$> old) (ref vnode)) ;;
  onDom (hook_run k old vnode).

Definition registerRef (vnode : VNode) : M unit := emit (EvRegisterRef (ref vnode)).

(** *** Creating native nodes *)

(** [insert(parent, elm, ref)] *)
Definition insert (parent elm_ rf : option handle) : M unit :=
  if bool_decide (is_Some parent) then
    if bool_decide (is_Some rf) then
      do p <- readDom (parentNode rf);
      if bool_decide (p = parent) then op_insertBefore parent elm_ rf
      else ret tt
    else op_appendChild parent elm_
  else ret tt.

(** [isPatchable(vnode)]; [None] when [_vnode] is missing on the way. *)
Fixpoint isPatchable (vnode : VNode) : option bool :=
  match componentInstance vnode with
  | Some ci =>
      match inst_vnode ci with
      | Some v' => isPatchable v'
      | None => None
      end
  | None => Some (bool_decide (is_Some (tag vnode)))
  end.

(** [invokeCreateHooks(vnode, insertedVnodeQueue)] *)
Definition invokeCreateHooks (vnode : VNode) : M unit :=
  forUpTo (cbs_length HCreate) (fun i => callModuleHook HCreate i None vnode) ;;
  match data vnode with
  | None => throw
  | Some d =>
      match hook d with
      | Some hk =>
          when (h_create hk) (callNodeHook NCreate None vnode) ;;
          when (h_insert hk) (pushInserted [ref vnode])
      | None => ret tt
      end
  end.

(** [setScope(vnode)] *)
Definition setScope (vnode : VNode) : M unit :=
  match fnScopeId vnode with
  | Some i => op_setStyleScope (elm vnode) i
  | None =>
      foldr (fun i k => op_setStyleScope (elm vnode) i ;; k) (ret tt)
            (scopeIds vnode)
  end ;;
  match activeInstance_scopeId vnode with
  | Some i => op_setStyleScope (elm vnode) i
  | None => ret tt
  end.

(** [initComponent(vnode, insertedVnodeQueue)]; returns the vnode as
    mutated. *)
Definition initComponent (vnode : VNode) : M VNode :=
  match data vnode, componentInstance vnode with
  | Some d, Some ci =>
      do vnode1 <-
        match pendingInsert d with
        | Some l =>
            pushInserted l ;;
            ret (set_data vnode
                   (Some (mkVNodeData (attrs d) (hook d) (pre d) (keepAlive d)
                                      (transition d) None)))
        | None => ret vnode
        end;
      let vnode2 := set_elm vnode1 (inst_el ci) in
      match isPatchable vnode2 with
      | None => throw
      | Some true =>
          invokeCreateHooks vnode2 ;; setScope vnode2 ;; ret vnode2
      | Some false =>
          registerRef vnode2 ;; pushInserted [ref vnode2] ;; ret vnode2
      end
  | _, _ => throw
  end.

(** The [while] loop of [reactivateComponent]: descend through component
    roots to the first one with a transition. *)
Fixpoint reactivateInner (innerNode : VNode) : M unit :=
  match componentInstance innerNode with
  | None => ret tt
  | Some ci =>
      match inst_vnode ci with
      | None => throw
      | Some inner' =>
          if match data inner' with Some d => transition d | None => false end
          then
            forUpTo (cbs_length HActivate)
                    (fun i => callModuleHook HActivate i None inner') ;;
            pushInserted [ref inner']
          else reactivateInner inner'
      end
  end.

(** [reactivateComponent(vnode, insertedVnodeQueue, parentElm, refElm)] *)
Definition reactivateComponent (vnode : VNode)
    (parentElm refElm : option handle) : M unit :=
  reactivateInner vnode ;; insert parentElm (elm vnode) refElm.

(** [createComponent(vnode, insertedVnodeQueue, parentElm, refElm)]:
    [Some vnode'] when it returned [true] (the vnode is a component and
    has been mounted), [None] otherwise, together with the vnode as the
    [init] hook left it. *)
Definition createComponent (vnode : VNode)
    (parentElm refElm : option handle) : M (bool * VNode) :=
  match data vnode with
  | Some d =>
      let isReactivated :=
        bool_decide (is_Some (componentInstance vnode)) && keepAlive d in
      do vnode1 <-
        (if match hook d with Some hk => h_init hk | None => false end then
           emit (EvNodeHook NInit None (ref vnode)) ;;
           do ci <- readDom (hook_init_instance vnode);
           onDom (hook_run NInit None vnode) ;;
           ret (set_componentInstance vnode ci)
         else ret vnode);
      if bool_decide (is_Some (componentInstance vnode1)) then
        do vnode2 <- initComponent vnode1;
        insert parentElm (elm vnode2) refElm ;;
        when isReactivated (reactivateComponent vnode2 parentElm refElm) ;;
        ret (true, vnode2)
      else ret (false, vnode1)
  | None => ret (false, vnode)
  end.

(** [checkDuplicateKeys(children)]: one warning per key seen before.
    [seenKeys] holds the names set to [true]; [seenKeys[key]] is truthy
    for them and for the names the object literal inherits. *)
Definition checkDuplicateKeys (children_ : list VNode) : M unit :=
  (fix go (l : list VNode) (seenKeys : gset string) : M unit :=
     match l with
     | [] => ret tt
     | vnode :: l' =>
         if isDef (key vnode) then
           let k := toPropertyKey (key vnode) in
           if bool_decide (k ∈ seenKeys)
              || bool_decide (k ∈ objectPrototypeNames) then
             warn ("Duplicate keys detected: '" +:+ k +:+
                   "'. This may cause an update error.") ;;
             go l' seenKeys
           else go l' ({[ k ]} ∪ seenKeys)
         else go l' seenKeys
     end) children_ ∅.

Definition unknownElementWarning (tg : string) : string :=
  "Unknown custom element: <" +:+ tg +:+
  "> - did you register the component correctly? For recursive components, " +:+
  "make sure to provide the 'name' option.".

(** [vnode.ns ? ... : ...] *)
Definition nsTruthy (vnode : VNode) : bool :=
  match ns vnode with Some s => negb (String.eqb s "") | None => false end.

(** [createElm(vnode, insertedVnodeQueue, parentElm, refElm, nested,
    ownerArray, index)].  [hasOwner] is [isDef(ownerArray)]; the result
    is the vnode that ends up at [ownerArray[index]] (the argument as
    mutated, or its clone). *)
Fixpoint createElm (vnode : VNode) (parentElm refElm : option handle)
    (nested hasOwner : bool) {struct vnode} : M VNode :=
  do vnode0 <-
    (if bool_decide (is_Some (elm vnode)) && hasOwner then
       do r <- freshRef; do rc <- freshRef; ret (cloneVNode r rc vnode)
     else ret vnode);
  let vnode1 := set_isRootInsert vnode0 (negb nested) in
  do cr <- createComponent vnode1 parentElm refElm;
  let '(isComponent, vnode2) := cr in
  if isComponent then ret vnode2
  else
    let data_ := data vnode2 in
    let inPre := match data_ with Some d => pre d | None => false end in
    match tag vnode2 with
    | Some tg =>
        when (negb (production env))
          (when inPre (addVPre 1) ;;
           do n <- getVPre;
           when (Z.eqb n 0 && negb (nsTruthy vnode2)
                 && isUnknownElement_config vnode2)
                (warn (unknownElementWarning tg))) ;;
        do h <- (match ns vnode2 with
                 | Some nsp =>
                     if nsTruthy vnode2 then op_createElementNS nsp tg
                     else op_createElement tg
                 | None => op_createElement tg
                 end);
        let vnode3 := set_elm vnode2 (Some h) in
        setScope vnode3 ;;
        (* createChildren(vnode, children, insertedVnodeQueue) *)
        do ch' <-
          match children vnode with
          | Some ch =>
              when (negb (production env)) (checkDuplicateKeys ch) ;;
              do l <-
                (fix createAll (l : list VNode) : M (list VNode) :=
                   match l with
                   | [] => ret []
                   | c :: l' =>
                       do c' <- createElm c (Some h) None true true;
                       do r <- createAll l';
                       ret (c' :: r)
                   end) ch;
              ret (Some l)
          | None =>
              match text vnode3 with
              | Some tx =>
                  do t <- op_createTextNode (Some tx);
                  op_appendChild (Some h) (Some t) ;;
                  ret None
              | None => ret None
              end
          end;
        let vnode4 := set_children vnode3 ch' in
        when (bool_decide (is_Some data_)) (invokeCreateHooks vnode4) ;;
        insert parentElm (elm vnode4) refElm ;;
        when (negb (production env) && inPre) (addVPre (-1)) ;;
        ret vnode4
    | None =>
        if isComment vnode2 then
          do h <- op_createComment (text vnode2);
          let vnode3 := set_elm vnode2 (Some h) in
          insert parentElm (elm vnode3) refElm ;;
          ret vnode3
        else
          do h <- op_createTextNode (text vnode2);
          let vnode3 := set_elm vnode2 (Some h) in
          insert parentElm (elm vnode3) refElm ;;
          ret vnode3
    end.

(** Array read [a[i]] at a JavaScript index. *)
Definition at_ {A} (l : list A) (i : Z) : option A :=
  if Z.ltb i 0 then None else l !! Z.to_nat i.

(** [addVnodes(parentElm, refElm, vnodes, startIdx, endIdx,
    insertedVnodeQueue)]; returns [vnodes] as left by the calls. *)
Fixpoint addVnodesFrom (n : nat) (parentElm refElm : option handle)
    (vnodes : list VNode) (startIdx : Z) : M (list VNode) :=
  match n with
  | O => ret vnodes
  | S n' =>
      match at_ vnodes startIdx with
      | None => throw
      | Some v =>
          do v' <- createElm v parentElm refElm false true;
          addVnodesFrom n' parentElm refElm
                        (<[Z.to_nat startIdx := v']> vnodes) (startIdx + 1)
      end
  end.

Definition addVnodes (parentElm refElm : option handle)
    (vnodes : list VNode) (startIdx endIdx : Z) : M (list VNode) :=
  addVnodesFrom (Z.to_nat (endIdx - startIdx + 1)) parentElm refElm vnodes startIdx.

(** *** Removing native nodes *)

(** [removeNode(el)] *)
Definition removeNode (el : option handle) : M unit :=
  do parent <- readDom (parentNode el);
  if bool_decide (is_Some parent) then op_removeChild parent el else ret tt.

(** [createRmCb(childElm, listeners)]: the callback is named by its
    position in [rmCbs]. *)
Definition createRmCb (childElm : option handle) (listeners : Z) : M nat :=
  fun s => Ok (length (rmCbs s))
              (mkPState (dom s) (log s) (insertedVnodeQueue s) (nextRef s)
                        (creatingElmInVPre s)
                        (rmCbs s ++ [mkRmCb childElm listeners])).

(** [rm.listeners += n] *)
Definition addListeners (rm : nat) (n : Z) : M unit :=
  fun s => match rmCbs s !! rm with
           | None => Throw
           | Some cb =>
               Ok tt (mkPState (dom s) (log s) (insertedVnodeQueue s)
                        (nextRef s) (creatingElmInVPre s)
                        (<[rm := mkRmCb (rm_childElm cb) (rm_listeners cb + n)]>
                           (rmCbs s)))
           end.

(** A call [rm()] of the function made by [createRmCb]:
    [if (--remove.listeners === 0) removeNode(childElm)]. *)
Definition callRm (rm : nat) : M unit :=
  fun s => match rmCbs s !! rm with
           | None => Throw
           | Some cb =>
               let n := rm_listeners cb - 1 in
               let s' := mkPState (dom s) (log s) (insertedVnodeQueue s)
                           (nextRef s) (creatingElmInVPre s)
                           (<[rm := mkRmCb (rm_childElm cb) n]> (rmCbs s)) in
               if Z.eqb n 0 then removeNode (rm_childElm cb) s' else Ok tt s'
           end.

(** [removeAndInvokeRemoveHook(vnode, rm)] *)
Fixpoint removeAndInvokeRemoveHook (vnode : VNode) (rm : option nat)
    {struct vnode} : M unit :=
  if bool_decide (is_Some rm) || bool_decide (is_Some (data vnode)) then
    let listeners := Z.of_nat (cbs_length HRemove) + 1 in
    do rm' <- match rm with
              | Some r => addListeners r listeners ;; ret r
              | None => createRmCb (elm vnode) listeners
              end;
    match componentInstance vnode with
    | Some ci =>
        match inst_vnode ci with
        | Some i =>
            if bool_decide (is_Some (data i))
            then removeAndInvokeRemoveHook i (Some rm')
            else ret tt
        | None => ret tt
        end
    | None => ret tt
    end ;;
    forUpTo (cbs_length HRemove)
      (fun i => callModuleHook HRemove i None vnode ;;
                when (cbs_remove_calls_rm i vnode) (callRm rm')) ;;
    match data vnode with
    | None => throw
    | Some d =>
        if match hook d with Some hk => h_remove hk | None => false end then
          callNodeHook NRemove None vnode ;;
          when (hook_remove_calls_rm vnode) (callRm rm')
        else callRm rm'
    end
  else removeNode (elm vnode).

(** [invokeDestroyHook(vnode)] *)
Fixpoint invokeDestroyHook (vnode : VNode) : M unit :=
  match data vnode with
  | Some d =>
      when (match hook d with Some hk => h_destroy hk | None => false end)
           (callNodeHook NDestroy None vnode) ;;
      forUpTo (cbs_length HDestroy) (fun i => callModuleHook HDestroy i None vnode)
  | None => ret tt
  end ;;
  match children vnode with
  | Some ch =>
      (fix destroyAll (l : list VNode) : M unit :=
         match l with
         | [] => ret tt
         | c :: l' => invokeDestroyHook c ;; destroyAll l'
         end) ch
  | None => ret tt
  end.

(** [removeVnodes(vnodes, startIdx, endIdx)] *)
Fixpoint removeVnodesFrom (n : nat) (vnodes : list (option VNode))
    (startIdx : Z) : M unit :=
  match n with
  | O => ret tt
  | S n' =>
      match mjoin (at_ vnodes startIdx) with
      | Some ch =>
          if bool_decide (is_Some (tag ch)) then
            removeAndInvokeRemoveHook ch None ;; invokeDestroyHook ch
          else removeNode (elm ch)
      | None => ret tt
      end ;;
      removeVnodesFrom n' vnodes (startIdx + 1)
  end.

Definition removeVnodes (vnodes : list (option VNode)) (startIdx endIdx : Z)
    : M unit :=
  removeVnodesFrom (Z.to_nat (endIdx - startIdx + 1)) vnodes startIdx.

(** *** The keyed list diff *)

(** [map[key] = i] on a table made by [{}]: an own property, except
    under [__proto__], where the inherited setter is called and leaves
    the table alone when given a number. *)
Definition assignKey (k : string) (i : Z) (map : gmap string Z)
    : gmap string Z :=
  if String.eqb k "__proto__" then map else <[k := i]> map.

(** [map[key]] on such a table: the index stored under the name,
    [undefined] when there is none, and for a name that the table
    inherits and does not have itself the member of [Object.prototype],
    which is defined and is no index. *)
Inductive tableValue :=
| TIndex (i : Z)
| TInherited.

Definition readKey (map : gmap string Z) (k : string) : option tableValue :=
  match map !! k with
  | Some i => Some (TIndex i)
  | None =>
      if bool_decide (k ∈ objectPrototypeNames) then Some TInherited else None
  end.

(** [createKeyToOldIdx(children, beginIdx, endIdx)]: the table holds its
    own properties; a later index overwrites an earlier one under the
    same key.  [None] when a slot of the range is [undefined]. *)
Fixpoint createKeyToOldIdxFrom (n : nat) (children_ : list (option VNode))
    (i : Z) (map : gmap string Z) : option (gmap string Z) :=
  match n with
  | O => Some map
  | S n' =>
      match mjoin (at_ children_ i) with
      | None => None
      | Some c =>
          let key_ := key c in
          createKeyToOldIdxFrom n' children_ (i + 1)
            (if isDef key_ then assignKey (toPropertyKey key_) i map else map)
      end
  end.

Definition createKeyToOldIdx (children_ : list (option VNode))
    (beginIdx endIdx : Z) : option (gmap string Z) :=
  createKeyToOldIdxFrom (Z.to_nat (endIdx - beginIdx + 1)) children_ beginIdx ∅.

(** [findIdxInOld(node, oldCh, start, end)]: the scan runs over
    [start <= i < end].  The outer [option] is an exception of
    [sameVnode], the inner one the [undefined] returned when the loop
    finds nothing. *)
Fixpoint findIdxInOldFrom (n : nat) (node : VNode) (oldCh : list (option VNode))
    (i : Z) : option (option Z) :=
  match n with
  | O => Some None
  | S n' =>
      match mjoin (at_ oldCh i) with
      | Some c =>
          match sameVnode isTextInputType node c with
          | None => None
          | Some true => Some (Some i)
          | Some false => findIdxInOldFrom n' node oldCh (i + 1)
          end
      | None => findIdxInOldFrom n' node oldCh (i + 1)
      end
  end.

Definition findIdxInOld (node : VNode) (oldCh : list (option VNode))
    (start end_ : Z) : option (option Z) :=
  findIdxInOldFrom (Z.to_nat (end_ - start)) node oldCh start.

Definition lift {A} (o : option A) : M A :=
  match o with Some a => ret a | None => throw end.

(** The local variables of [updateChildren]. *)
Record LoopState := mkLoopState {
  oldStartIdx : Z;
  newStartIdx : Z;
  oldEndIdx : Z;
  oldStartVnode : option VNode;
  oldEndVnode : option VNode;
  newEndIdx : Z;
  newStartVnode : option VNode;
  newEndVnode : option VNode;
  oldKeyToIdx : option (gmap string Z);
  oldCh : list (option VNode);
  newCh : list VNode }.

Section UpdateChildren.

(** [patchVnode], as called from [updateChildren] with
    [ownerArray = newCh], and no [removeOnly]. *)
Variable patch : VNode -> VNode -> M VNode.
Variable parentElm : option handle.
Variable canMove : bool.

Definition storeNew (l : list VNode) (i : Z) (v : VNode) : list VNode :=
  <[Z.to_nat i := v]> l.

(** One iteration of the [while] loop. *)
Definition step (ls : LoopState) : M LoopState :=
  let '(mkLoopState oSI nSI oEI oSV oEV nEI nSV nEV k2i oCh nCh) := ls in
  match oSV with
  | None =>
      (* Vnode has been moved left *)
      ret (mkLoopState (oSI + 1) nSI oEI (mjoin (at_ oCh (oSI + 1))) oEV
                       nEI nSV nEV k2i oCh nCh)
  | Some oldStart =>
  match oEV with
  | None =>
      ret (mkLoopState oSI nSI (oEI - 1) oSV (mjoin (at_ oCh (oEI - 1)))
                       nEI nSV nEV k2i oCh nCh)
  | Some oldEnd =>
  do newStart <- lift nSV;
  do same1 <- lift (sameVnode isTextInputType oldStart newStart);
  if same1 then
    do v <- patch oldStart newStart;
    let nCh' := storeNew nCh nSI v in
    ret (mkLoopState (oSI + 1) (nSI + 1) oEI (mjoin (at_ oCh (oSI + 1))) oEV
                     nEI (at_ nCh' (nSI + 1)) nEV k2i oCh nCh')
  else
  do newEnd <- lift nEV;
  do same2 <- lift (sameVnode isTextInputType oldEnd newEnd);
  if same2 then
    do v <- patch oldEnd newEnd;
    let nCh' := storeNew nCh nEI v in
    ret (mkLoopState oSI nSI (oEI - 1) oSV (mjoin (at_ oCh (oEI - 1)))
                     (nEI - 1) nSV (at_ nCh' (nEI - 1)) k2i oCh nCh')
  else
  do same3 <- lift (sameVnode isTextInputType oldStart newEnd);
  if same3 then
    (* Vnode moved right *)
    do v <- patch oldStart newEnd;
    let nCh' := storeNew nCh nEI v in
    when canMove
      (do sib <- readDom (nextSibling (elm oldEnd));
       op_insertBefore parentElm (elm oldStart) sib) ;;
    ret (mkLoopState (oSI + 1) nSI oEI (mjoin (at_ oCh (oSI + 1))) oEV
                     (nEI - 1) nSV (at_ nCh' (nEI - 1)) k2i oCh nCh')
  else
  do same4 <- lift (sameVnode isTextInputType oldEnd newStart);
  if same4 then
    (* Vnode moved left *)
    do v <- patch oldEnd newStart;
    let nCh' := storeNew nCh nSI v in
    when canMove (op_insertBefore parentElm (elm oldEnd) (elm oldStart)) ;;
    ret (mkLoopState oSI (nSI + 1) (oEI - 1) oSV (mjoin (at_ oCh (oEI - 1)))
                     nEI (at_ nCh' (nSI + 1)) nEV k2i oCh nCh')
  else
    do table <- match k2i with
                | Some t => ret t
                | None => lift (createKeyToOldIdx oCh oSI oEI)
                end;
    do idxInOld <-
      (if isDef (key newStart)
       then ret (readKey table (toPropertyKey (key newStart)))
       else do i <- lift (findIdxInOld newStart oCh oSI oEI);
            ret (TIndex <$> i));
    do r <-
      match idxInOld with
      | None =>
          (* New element *)
          do v <- createElm newStart parentElm (elm oldStart) false true;
          ret (oCh, storeNew nCh nSI v)
      | Some TInherited =>
          (* [oldCh[idxInOld]] is [undefined], and [sameVnode] reads
             [vnodeToMove.key] *)
          throw
      | Some (TIndex i) =>
          do vnodeToMove <- lift (mjoin (at_ oCh i));
          do same5 <- lift (sameVnode isTextInputType vnodeToMove newStart);
          if same5 then
            do v <- patch vnodeToMove newStart;
            when canMove
              (op_insertBefore parentElm (elm vnodeToMove) (elm oldStart)) ;;
            ret (<[Z.to_nat i := None]> oCh, storeNew nCh nSI v)
          else
            (* same key but different element. treat as new element *)
            do v <- createElm newStart parentElm (elm oldStart) false true;
            ret (oCh, storeNew nCh nSI v)
      end;
    let '(oCh', nCh') := r in
    ret (mkLoopState oSI (nSI + 1) oEI oSV oEV
                     nEI (at_ nCh' (nSI + 1)) nEV (Some table) oCh' nCh')
  end
  end.

Definition loopCond (ls : LoopState) : bool :=
  Z.leb (oldStartIdx ls) (oldEndIdx ls) && Z.leb (newStartIdx ls) (newEndIdx ls).

(** The [while] loop, with a budget of iterations. *)
Fixpoint loop (fuel : nat) (ls : LoopState) : M LoopState :=
  if loopCond ls then
    match fuel with
    | O => outOfFuel
    | S fuel' => do ls' <- step ls; loop fuel' ls'
    end
  else ret ls.

Definition initLoop (oldCh_ : list (option VNode)) (newCh_ : list VNode)
    : LoopState :=
  let oldEndIdx_ := Z.of_nat (length oldCh_) - 1 in
  let newEndIdx_ := Z.of_nat (length newCh_) - 1 in
  mkLoopState 0 0 oldEndIdx_ (mjoin (at_ oldCh_ 0)) (mjoin (at_ oldCh_ oldEndIdx_))
              newEndIdx_ (at_ newCh_ 0) (at_ newCh_ newEndIdx_) None oldCh_ newCh_.

(** What follows the loop: add the remaining new nodes or remove the
    remaining old ones. *)
Definition finish (ls : LoopState) : M (list VNode) :=
  if Z.gtb (oldStartIdx ls) (oldEndIdx ls) then
    let refElm := match at_ (newCh ls) (newEndIdx ls + 1) with
                  | None => None
                  | Some v => elm v
                  end in
    addVnodes parentElm refElm (newCh ls) (newStartIdx ls) (newEndIdx ls)
  else if Z.gtb (newStartIdx ls) (newEndIdx ls) then
    removeVnodes (oldCh ls) (oldStartIdx ls) (oldEndIdx ls) ;;
    ret (newCh ls)
  else ret (newCh ls).

(** [updateChildren(parentElm, oldCh, newCh, insertedVnodeQueue,
    removeOnly)]; returns [newCh] as the call leaves it.  Every
    iteration moves a cursor, so [length oldCh + length newCh]
    iterations are enough. *)
Definition updateChildrenWith (oldCh_ : list (option VNode))
    (newCh_ : list VNode) : M (list VNode) :=
  when (negb (production env)) (checkDuplicateKeys newCh_) ;;
  do ls <- loop (length oldCh_ + length newCh_) (initLoop oldCh_ newCh_);
  finish ls.

End UpdateChildren.

(** [hydrate(elm, vnode, insertedVnodeQueue)], a browser-only routine
    that inspects the DOM: delegated to the backend. *)
Definition hydrate (el : option handle) (vnode : VNode) : M (bool * VNode) :=
  emit (EvHydrate el (ref vnode)) ;;
  fun s => let '(b, v, d) := hydrate_run el vnode (dom s) in
           Ok (b, v) (mkPState d (log s) (insertedVnodeQueue s) (nextRef s)
                               (creatingElmInVPre s) (rmCbs s)).

(** [patchVnode(oldVnode, vnode, insertedVnodeQueue, ownerArray, index,
    removeOnly)], with a budget [depth] on the nesting of children.
    [hasOwner] is [isDef(ownerArray)]; the result is the new vnode as
    mutated (or its clone, which then sits at [ownerArray[index]]). *)
Fixpoint patchVnode (depth : nat) (oldVnode vnode : VNode)
    (hasOwner removeOnly : bool) : M VNode :=
  match depth with
  | O => outOfFuel
  | S depth' =>
  if Nat.eqb (ref oldVnode) (ref vnode) then ret vnode
  else
  do vnode0 <-
    (if bool_decide (is_Some (elm vnode)) && hasOwner then
       (* clone reused vnode *)
       do r <- freshRef; do rc <- freshRef; ret (cloneVNode r rc vnode)
     else ret vnode);
  let elm_ := elm oldVnode in
  let vnode1 := set_elm vnode0 elm_ in
  if isAsyncPlaceholder oldVnode then
    do af <- lift (asyncFactory vnode1);
    if isDef (af_resolved af) then
      do r <- hydrate (elm oldVnode) vnode1; ret (snd r)
    else ret (set_isAsyncPlaceholder vnode1 true)
  else
  (* reuse element for static trees *)
  if isStatic vnode1 && isStatic oldVnode
     && strict_eq (key vnode1) (key oldVnode)
     && (isCloned vnode1 || isOnce vnode1)
  then ret (set_componentInstance vnode1 (componentInstance oldVnode))
  else
  let data_ := data vnode1 in
  let hk := data_ ≫= hook in
  do vnode2 <-
    (if match hk with Some h => h_prepatch h | None => false end then
       callNodeHook NPrepatch (Some oldVnode) vnode1 ;;
       ret (set_componentInstance vnode1 (hook_prepatch_instance oldVnode vnode1))
     else ret vnode1);
  let oldCh_ := children oldVnode in
  let ch := children vnode2 in
  match data_ with
  | Some _ =>
      do patchable <- lift (isPatchable vnode2);
      when patchable
        (forUpTo (cbs_length HUpdate)
                 (fun i => callModuleHook HUpdate i (Some oldVnode) vnode2) ;;
         when (match hk with Some h => h_update h | None => false end)
              (callNodeHook NUpdate (Some oldVnode) vnode2))
  | None => ret tt
  end ;;
  do vnode3 <-
    match text vnode2 with
    | None =>
        match oldCh_, ch with
        | Some o, Some c =>
            if negb (Nat.eqb (childrenRef oldVnode) (childrenRef vnode2)) then
              do c' <- updateChildrenWith
                         (fun a b => patchVnode depth' a b true false)
                         elm_ (negb removeOnly) (Some <$> o) c;
              ret (set_children vnode2 (Some c'))
            else ret vnode2
        | None, Some c =>
            when (negb (production env)) (checkDuplicateKeys c) ;;
            when (bool_decide (is_Some (text oldVnode)))
                 (op_setTextContent elm_ (Some "")) ;;
            do c' <- addVnodes elm_ None c 0 (Z.of_nat (length c) - 1);
            ret (set_children vnode2 (Some c'))
        | Some o, None =>
            removeVnodes (Some <$> o) 0 (Z.of_nat (length o) - 1) ;;
            ret vnode2
        | None, None =>
            when (bool_decide (is_Some (text oldVnode)))
                 (op_setTextContent elm_ (Some "")) ;;
            ret vnode2
        end
    | Some _ =>
        when (strict_neq (ostr (text oldVnode)) (ostr (text vnode2)))
             (op_setTextContent elm_ (text vnode2)) ;;
        ret vnode2
    end;
  when (match hk with Some h => h_postpatch h | None => false end)
       (callNodeHook NPostpatch (Some oldVnode) vnode3) ;;
  ret vnode3
  end.

(** [updateChildren] with the reconciler's own [patchVnode]. *)
Definition updateChildren (depth : nat) (parentElm : option handle)
    (oldCh_ : list (option VNode)) (newCh_ : list VNode) (removeOnly : bool)
    : M (list VNode) :=
  updateChildrenWith (fun a b => patchVnode depth a b true false)
                     parentElm (negb removeOnly) oldCh_ newCh_.

End Patch.

Arguments PState D : clear implicits.
Arguments mkPState {D} _ _ _ _ _ _.
Arguments outcome D A : clear implicits.
Arguments Ok {D A} _ _.
Arguments Throw {D A}.
Arguments OutOfFuel {D A}.
Arguments M D A : clear implicits.

Notation "'do' x <- m ; k" := (bind m (fun x => k))
  (at level 10, x pattern, m at level 100, k at level 200).
Notation "m ;; k" := (bind m (fun _ => k))
  (at level 100, k at level 200, right associativity).

(** *** A concrete backend

    Modelled from the spec: the native-tree adapter and the platform
    modules are external collaborators (section 6 of the specification:
    [createHandle], [insert(parentHandle, handle, beforeHandle|null)],
    [remove(handle)], [setText]); they are not under src/.  This
    instance keeps, for every parent handle, the ordered list of its
    child handles, and is used to run the reconciler on concrete
    inputs. *)

Record FlatDom := mkFlatDom {
  fd_next : handle;
  fd_kids : list (handle * list handle) }.

Definition fd_detach (e : handle) (kids : list (handle * list handle))
    : list (handle * list handle) :=
  (fun pl => (fst pl, filter (fun x => x <> e) (snd pl))) <$> kids.

Fixpoint fd_insert_in (e : handle) (rf : option handle) (l : list handle)
    : list handle :=
  match l with
  | [] => [e]
  | x :: l' => if bool_decide (rf = Some x) then e :: x :: l'
               else x :: fd_insert_in e rf l'
  end.

Fixpoint fd_place (p e : handle) (rf : option handle)
    (kids : list (handle * list handle)) : list (handle * list handle) :=
  match kids with
  | [] => [(p, [e])]
  | (q, l) :: kids' =>
      if Nat.eqb p q then (q, fd_insert_in e rf l) :: kids'
      else (q, l) :: fd_place p e rf kids'
  end.

Definition fd_insertBefore (parent elm_ rf : option handle) (d : FlatDom)
    : FlatDom :=
  match parent, elm_ with
  | Some p, Some e =>
      mkFlatDom (fd_next d) (fd_place p e rf (fd_detach e (fd_kids d)))
  | _, _ => d
  end.

Definition fd_removeChild (parent el : option handle) (d : FlatDom) : FlatDom :=
  match el with
  | Some e => mkFlatDom (fd_next d) (fd_detach e (fd_kids d))
  | None => d
  end.

Definition fd_parentNode (el : option handle) (d : FlatDom) : option handle :=
  match el with
  | Some e =>
      fst <$> head (filter (fun pl => bool_decide (e ∈ snd pl)) (fd_kids d))
  | None => None
  end.

Fixpoint fd_next_in (e : handle) (l : list handle) : option handle :=
  match l with
  | [] => None
  | x :: l' => if Nat.eqb x e then head l' else fd_next_in e l'
  end.

Definition fd_nextSibling (el : option handle) (d : FlatDom) : option handle :=
  match el with
  | Some e =>
      head (filter (fun pl => bool_decide (e ∈ snd pl)) (fd_kids d))
        ≫= (fun pl => fd_next_in e (snd pl))
  | None => None
  end.

Definition fd_create (d : FlatDom) : handle * FlatDom :=
  (fd_next d, mkFlatDom (S (fd_next d)) (fd_kids d)).

Definition fd_childrenOf (p : handle) (d : FlatDom) : list handle :=
  default [] (snd <$> head (filter (fun pl => Nat.eqb (fst pl) p) (fd_kids d))).

(** Modelled from the spec: [isTextInputType] of [web/util/element],
    not under src/; the text-like input types of the web platform. *)
Definition webTextInputType (v : value) : bool :=
  match v with
  | VStr s =>
      bool_decide (s ∈ ["text"; "number"; "password"; "search"; "email";
                        "tel"; "url"]%string)
  | _ => false
  end.

#[global] Instance flatBackend : Backend FlatDom := {|
  createElement := fun _ => fd_create;
  createElementNS := fun _ _ => fd_create;
  createTextNode := fun _ => fd_create;
  createComment := fun _ => fd_create;
  insertBefore := fd_insertBefore;
  appendChild := fun p e => fd_insertBefore p e None;
  removeChild := fd_removeChild;
  parentNode := fd_parentNode;
  nextSibling := fd_nextSibling;
  setTextContent := fun _ _ d => d;
  setStyleScope := fun _ _ d => d;
  cbs_length := fun _ => 1%nat;
  cbs_run := fun _ _ _ _ d => d;
  cbs_remove_calls_rm := fun _ _ => true;
  hook_run := fun _ _ _ d => d;
  hook_remove_calls_rm := fun _ => true;
  hook_init_instance := fun v _ => componentInstance v;
  hook_prepatch_instance := fun old _ => componentInstance old;
  hydrate_run := fun el v d => (true, set_elm v el, d);
  isUnknownElement_config := fun _ => false;
  activeInstance_scopeId := fun _ => None;
  isTextInputType := webTextInputType |}.

Definition flatState (d : FlatDom) : PState FlatDom :=
  mkPState d [] [] 1000%nat 0 [].

(** *** Classes of events and of keys *)

(** Events by which a native node is created, mounted for the first
    time or removed; the others are moves ([insertBefore]), updates of
    an existing node and warnings. *)
Definition createsOrRemoves (e : event) : bool :=
  match e with
  | EvCreateElement _ _ | EvCreateElementNS _ _ _ | EvCreateTextNode _ _
  | EvCreateComment _ _ | EvAppendChild _ _ | EvRemoveChild _ _
  | EvSetStyleScope _ _ | EvRegisterRef _ | EvHydrate _ _ => true
  | EvModuleHook k _ _ _ =>
      match k with HUpdate => false | _ => true end
  | EvNodeHook k _ _ =>
      match k with NPrepatch | NUpdate | NPostpatch => false | _ => true end
  | EvInsertBefore _ _ _ | EvSetTextContent _ _ | EvWarn _ => false
  end.

(** The name under which a node's key is entered in the key table. *)
Definition keyName (v : VNode) : string := toPropertyKey (key v).

(** The list [l] rotated left by [k] places ([k] at most the length;
    beyond it the list is left as it is). *)
Definition rotation {A} (k : nat) (l : list A) : list A :=
  drop k l ++ take k l.

(** [s2] follows [s1] by calls none of which creates, mounts for the
    first time or removes a native node. *)
Definition quietSince {D} (s1 s2 : PState D) : Prop :=
  exists evs, log s2 = log s1 ++ evs /\
              Forall (fun e => createsOrRemoves e = false) evs.

(** *** The loop of [updateChildren] on keyed lists

    The state of the loop, related to the lists [old0] and [new0] the
    call started from. *)
Section KeyedInvariant.
Context {D : Type}.
Variable patch : VNode -> VNode -> M D VNode.
Variables old0 new0 : list VNode.
Variable s0 : PState D.

(** An old index still between the cursors whose slot has not been
    cleared, and a new index still between the cursors. *)
Definition liveOld (ls : LoopState) (i : Z) : Prop :=
  oldStartIdx ls <= i <= oldEndIdx ls /\ mjoin (at_ (oldCh ls) i) = at_ old0 i.

Definition pendingNew (ls : LoopState) (j : Z) : Prop :=
  newStartIdx ls <= j <= newEndIdx ls.

(** Every old node of [Lo] has its key among the new nodes of [Nn], and
    the other way round. *)
Definition coversB (Lo Nn : Z -> Prop) : Prop :=
  forall i o, Lo i -> at_ old0 i = Some o ->
    exists j n, Nn j /\ at_ new0 j = Some n /\ key n = key o.

Definition coversC (Lo Nn : Z -> Prop) : Prop :=
  forall j n, Nn j -> at_ new0 j = Some n ->
    exists i o, Lo i /\ at_ old0 i = Some o /\ key o = key n.

(** What holds of the loop state [ls] and the patch state [s] before
    each iteration. *)
Record Inv (ls : LoopState) (s : PState D) : Prop := mkInv {
  inv_olo : 0 <= oldStartIdx ls;
  inv_ohi : oldEndIdx ls < Z.of_nat (length old0);
  inv_oord : oldStartIdx ls <= oldEndIdx ls + 1;
  inv_nlo : 0 <= newStartIdx ls;
  inv_nhi : newEndIdx ls < Z.of_nat (length new0);
  inv_nord : newStartIdx ls <= newEndIdx ls + 1;
  inv_olen : length (oldCh ls) = length old0;
  inv_nlen : length (newCh ls) = length new0;
  inv_content : forall i, oldStartIdx ls <= i <= oldEndIdx ls ->
    mjoin (at_ (oldCh ls) i) = None \/ mjoin (at_ (oldCh ls) i) = at_ old0 i;
  inv_new : forall j, pendingNew ls j -> at_ (newCh ls) j = at_ new0 j;
  inv_cache_o : oldStartIdx ls <= oldEndIdx ls ->
    oldStartVnode ls = mjoin (at_ (oldCh ls) (oldStartIdx ls)) /\
    oldEndVnode ls = mjoin (at_ (oldCh ls) (oldEndIdx ls));
  inv_cache_n : newStartIdx ls <= newEndIdx ls ->
    newStartVnode ls = at_ (newCh ls) (newStartIdx ls) /\
    newEndVnode ls = at_ (newCh ls) (newEndIdx ls);
  inv_B : coversB (liveOld ls) (pendingNew ls);
  inv_C : coversC (liveOld ls) (pendingNew ls);
  inv_table :
    match oldKeyToIdx ls with
    | None => forall i, oldStartIdx ls <= i <= oldEndIdx ls ->
                        mjoin (at_ (oldCh ls) i) = at_ old0 i
    | Some t => forall i o, oldStartIdx ls <= i <= oldEndIdx ls ->
                            at_ old0 i = Some o -> t !! keyName o = Some i
    end;
  inv_exhaust : newStartIdx ls > newEndIdx ls -> oldStartIdx ls > oldEndIdx ls;
  inv_done : forall j, 0 <= j < Z.of_nat (length new0) -> ~ pendingNew ls j ->
    exists n o v s1 s2,
      at_ new0 j = Some n /\ o ∈ old0 /\ key o = key n /\
      quietSince s0 s1 /\ patch o n s1 = Ok v s2 /\ quietSince s2 s /\
      at_ (newCh ls) j = Some v /\ elm v = elm o;
  inv_log : quietSince s0 s }.

(** The number of indices left between the cursors. *)
Definition measure (ls : LoopState) : Z :=
  (oldEndIdx ls - oldStartIdx ls + 1) + (newEndIdx ls - newStartIdx ls + 1).

End KeyedInvariant.

(** *** The identity rule in the words of the specification

    "Two Tree Nodes are the same logical node iff they have equal key
    and equal tag and equal kind (element vs text vs comment) and
    matching component-ness." *)
Definition sameLogicalNode_spec (a b : VNode) : Prop :=
  key a = key b /\
  tag a = tag b /\
  isComment a = isComment b /\
  bool_decide (is_Some (tag a)) = bool_decide (is_Some (tag b)) /\
  componentOptions a = componentOptions b.

(** What [sameInputType] asks of two nodes. *)
Definition inputTypesAgree (isT : value -> bool) (a b : VNode) : Prop :=
  tag a = Some "input"%string ->
  (inputTypeOf a = inputTypeOf b /\ inputTypeOf a <> VNum NaN) \/
  (isT (inputTypeOf a) = true /\ isT (inputTypeOf b) = true).

(** The second way of being the same node: [a] is an async placeholder
    whose factory is [b]'s, and that factory recorded no error. *)
Definition asyncPlaceholderFor (a b : VNode) : Prop :=
  isAsyncPlaceholder a = true /\
  exists f g, asyncFactory a = Some f /\ asyncFactory b = Some g /\
              af_id f = af_id g /\ isUndef (af_error g) = true.

(** Two [<input>] elements with the same key that differ in [type]. *)
Definition inputOfType (r : nat) (ty : string) : VNode :=
  newVNode r (Some "input"%string)
    (Some (mkVNodeData (Some (mkAttrs (VStr ty))) None false false false None))
    None 0 None None (VStr "field") false None.

(** A hoisted static [<div>] with key [s], children [ch] and handle
    [e]; [cloned] is its [isCloned] flag. *)
Definition staticDiv (r : nat) (ch : list VNode) (rc : nat)
    (e : option handle) (cloned : bool) : VNode :=
  {| ref := r; tag := Some "div"%string;
     data := Some (mkVNodeData None None false false false None);
     children := Some ch; childrenRef := rc; text := None; elm := e;
     ns := None; key := VStr "s"; componentOptions := false;
     componentInstance := None; isStatic := true; isRootInsert := true;
     isComment := false; isCloned := cloned; isOnce := false;
     asyncFactory := None; isAsyncPlaceholder := false;
     fnScopeId := None; scopeIds := [] |}.

(** A text vnode, as made by [createTextVNode]. *)
Definition textVNode (r : nat) (tx : string) (e : option handle) : VNode :=
  newVNode r None None None 0 (Some tx) e VUndef false None.

(** Inputs for the static short-circuit: a rendered static [<div>]
    with one text child, and its next generation without children. *)
Definition staticOld : VNode :=
  staticDiv 1 [textVNode 2 "a" (Some 11%nat)] 50 (Some 10%nat) false.
Definition staticNew (cloned : bool) : VNode := staticDiv 3 [] 51 None cloned.
Definition staticDom : FlatDom := mkFlatDom 100%nat [(10%nat, [11%nat])].

(** Inputs for the keyless fallback: an old list [<div>, component]
    whose component was resolved by the async factory [asyncF], and a
    new list [placeholder, <span>] whose first node is an async
    placeholder of the same factory. *)
Definition asyncF : AsyncFactory := mkAsyncFactory 7 VUndef (VRef 70).

Definition plainData : VNodeData := mkVNodeData None None false false false None.

Definition oldDiv : VNode :=
  newVNode 11 (Some "div"%string) (Some plainData) None 0 None (Some 1%nat)
           VUndef false None.

Definition oldResolved : VNode :=
  newVNode 12 (Some "vue-component-1-async"%string) (Some plainData) None 0
           None (Some 2%nat) VUndef true (Some asyncF).

Definition newPlaceholder : VNode :=
  {| ref := 21; tag := None; data := None; children := None;
     childrenRef := 0; text := Some ""%string; elm := None; ns := None;
     key := VUndef; componentOptions := false; componentInstance := None;
     isStatic := false; isRootInsert := true; isComment := true;
     isCloned := false; isOnce := false; asyncFactory := Some asyncF;
     isAsyncPlaceholder := true; fnScopeId := None; scopeIds := [] |}.

Definition newSpan : VNode :=
  newVNode 22 (Some "span"%string) (Some plainData) None 0 None None
           VUndef false None.

Definition fallbackOld : list VNode := [oldDiv; oldResolved].
Definition fallbackNew : list VNode := [newPlaceholder; newSpan].
Definition fallbackDom : FlatDom := mkFlatDom 100%nat [(0%nat, [1%nat; 2%nat])].

(** Inputs for the keyed diff: three list items under the parent [0],
    and the same items, rendered again, rotated by two places. *)
Definition keyedItem (r : nat) (k : Z) (e : option handle) : VNode :=
  newVNode r (Some "li"%string) (Some plainData) None 0 None e (VNum (Num k))
           false None.
Definition rotOld : list VNode :=
  [keyedItem 11 1 (Some 1%nat); keyedItem 12 2 (Some 2%nat);
   keyedItem 13 3 (Some 3%nat)].
Definition rotNew : list VNode :=
  [keyedItem 23 3 None; keyedItem 21 1 None; keyedItem 22 2 None].
Definition rotDom : FlatDom := mkFlatDom 100%nat [(0%nat, [1; 2; 3]%nat)].

(** Four list items keyed by name, the third one by [__proto__], and
    the same items, rendered again, rotated by two places. *)
Definition namedItem (r : nat) (k : string) (e : option handle) : VNode :=
  newVNode r (Some "li"%string) (Some plainData) None 0 None e (VStr k)
           false None.
Definition protoOld : list VNode :=
  [namedItem 11 "a" (Some 1%nat); namedItem 12 "b" (Some 2%nat);
   namedItem 13 "__proto__" (Some 3%nat); namedItem 14 "d" (Some 4%nat)].
Definition protoNew : list VNode :=
  [namedItem 23 "__proto__" None; namedItem 24 "d" None;
   namedItem 21 "a" None; namedItem 22 "b" None].
Definition protoDom : FlatDom := mkFlatDom 100%nat [(0%nat, [1; 2; 3; 4]%nat)].

(** *** Further notions for the properties of the reconciler *)

(** Child [j] of [ch] is defined and carries a key named [k]. *)
Definition hasKeyAt (ch : list (option VNode)) (j : Z) (k : string) : Prop :=
  exists c, mjoin (at_ ch j) = Some c /\ isDef (key c) = true /\
            toPropertyKey (key c) = k.

(** The message of [checkDuplicateKeys]. *)
Definition dupWarning (k : string) : string :=
  "Duplicate keys detected: '" +:+ k +:+ "'. This may cause an update error.".

(** The names of the keys of the children that have one, in order. *)
Definition keyedNames (l : list VNode) : list string :=
  keyName <$> filter (fun v => isDef (key v) = true) l.

(** The state [s] with [evs] added to its log. *)
Definition addLog {D} (s : PState D) (evs : list event) : PState D :=
  mkPState (dom s) (log s ++ evs) (insertedVnodeQueue s) (nextRef s)
           (creatingElmInVPre s) (rmCbs s).

(** A computation that never exhausts a budget of the model. *)
Definition inBudget {D A} (m : M D A) : Prop := forall s, m s <> OutOfFuel.

(** [patch] on the pairs of two lists, from the left. *)
Fixpoint patchPairs {D} (patch : VNode -> VNode -> M D VNode)
    (os ns : list VNode) : M D (list VNode) :=
  match os, ns with
  | o :: os', n :: ns' =>
      do v <- patch o n;
      do vs <- patchPairs patch os' ns';
      ret (v :: vs)
  | _, _ => ret []
  end.

(** Events of the removal of a native node: [removeChild] and the
    [remove] and [destroy] hooks. *)
Definition removes (e : event) : bool :=
  match e with
  | EvRemoveChild _ _ => true
  | EvModuleHook k _ _ _ =>
      match k with HRemove | HDestroy => true | _ => false end
  | EvNodeHook k _ _ =>
      match k with NRemove | NDestroy => true | _ => false end
  | _ => false
  end.

(** [s'] follows [s] by calls that remove nothing, with the counter
    [creatingElmInVPre] moved by [delta]. *)
Definition creates {D} (delta : Z) (s s' : PState D) : Prop :=
  creatingElmInVPre s' = creatingElmInVPre s + delta /\
  exists evs, log s' = log s ++ evs /\ Forall (fun e => removes e = false) evs.

Definition creating {D A} (delta : Z) (m : M D A) : Prop :=
  forall s a s', m s = Ok a s' -> creates delta s s'.

(** Every vnode of the tree holds a native handle. *)
Fixpoint rendered (v : VNode) : bool :=
  bool_decide (is_Some (elm v)) &&
  match tag v, children v with
  | Some _, Some ch =>
      (fix all (l : list VNode) : bool :=
         match l with
         | [] => true
         | c :: l' => rendered c && all l'
         end) ch
  | _, _ => true
  end.

(** The vnode is no component: it has no [init] hook and no component
    instance. *)
Definition plainNode (v : VNode) : bool :=
  match data v with
  | Some d => negb (match hook d with Some hk => h_init hk | None => false end)
  | None => true
  end &&
  match componentInstance v with Some _ => false | None => true end.

(** No vnode of the tree is a component. *)
Fixpoint plainTree (v : VNode) : bool :=
  plainNode v &&
  match children v with
  | Some ch =>
      (fix all (l : list VNode) : bool :=
         match l with
         | [] => true
         | c :: l' => plainTree c && all l'
         end) ch
  | None => true
  end.

Section MountedInvariant.
Variables (olds news : list VNode) (Q : VNode -> Prop).

(** The invariant of the loop of [updateChildren] for a property [Q] of
    the children it has dealt with: the new children outside the window
    of the two cursors have [Q], the ones inside are as they were
    given, and the old children all come from the old list. *)
Record Mounted (ls : LoopState) : Prop := mkMounted {
  m_len : length (newCh ls) = length news;
  m_lo : 0 <= newStartIdx ls;
  m_hi : newEndIdx ls < Z.of_nat (length news);
  m_done : forall j v, at_ (newCh ls) j = Some v ->
             j < newStartIdx ls \/ newEndIdx ls < j -> Q v;
  m_todo : forall j, newStartIdx ls <= j <= newEndIdx ls ->
             at_ (newCh ls) j = at_ news j;
  m_old : forall j c, mjoin (at_ (oldCh ls) j) = Some c -> c ∈ olds;
  m_osv : forall c, oldStartVnode ls = Some c -> c ∈ olds;
  m_oev : forall c, oldEndVnode ls = Some c -> c ∈ olds;
  m_nsv : newStartIdx ls <= newEndIdx ls ->
          newStartVnode ls = at_ (newCh ls) (newStartIdx ls);
  m_nev : newStartIdx ls <= newEndIdx ls ->
          newEndVnode ls = at_ (newCh ls) (newEndIdx ls) }.
End MountedInvariant.

(** The number of calls of [rm] made while a vnode with [data] is
    removed: one by each module [remove] hook that calls it back, and
    one by the vnode's own [remove] hook if it calls it back, or by
    [removeAndInvokeRemoveHook] itself when there is no such hook. *)
Definition removeCalls {D} `{Backend D} (vnode : VNode) : Z :=
  Z.of_nat (length (List.filter (fun i => cbs_remove_calls_rm i vnode)
                                (seq 0 (cbs_length HRemove)))) +
  match data vnode ≫= hook with
  | Some hk =>
      if h_remove hk then (if hook_remove_calls_rm vnode then 1 else 0) else 1
  | None => 1
  end.

Definition isRemoveChild (e : event) : bool :=
  match e with EvRemoveChild _ _ => true | _ => false end.

(** Between [s] and [s'] no native node was removed. *)
Definition keepsMounted {D} (s s' : PState D) : Prop :=
  exists evs, log s' = log s ++ evs /\
              Forall (fun e => isRemoveChild e = false) evs.

(** The module [remove] hooks among the first [j] that call [rm]. *)
Definition countCalls {D} `{Backend D} (vnode : VNode) (j : nat) : Z :=
  Z.of_nat (length (List.filter (fun i => cbs_remove_calls_rm i vnode) (seq 0 j))).


(** [createElm] on the vnodes of a list in order, each inserted before
    [refElm]. *)
Fixpoint createEach {D} `{Backend D} (env : BuildEnv)
    (parentElm refElm : option handle) (ns : list VNode) : M D (list VNode) :=
  match ns with
  | [] => ret []
  | n :: ns' =>
      do v <- createElm env n parentElm refElm false true;
      do vs <- createEach env parentElm refElm ns';
      ret (v :: vs)
  end.

(** Inputs: the items of [rotOld] with the first two swapped (a
    reordering that is no rotation), and two items with keys of their
    own. *)
Definition swapNew : list VNode :=
  [keyedItem 22 2 None; keyedItem 21 1 None; keyedItem 23 3 None].
Definition otherNew : list VNode :=
  [keyedItem 31 7 None; keyedItem 32 8 None].

(** Inputs: the items of [rotOld] rendered again in the same order, a
    fourth item, and a [v-pre] element with one text child. *)
Definition sameOrderNew : list VNode :=
  [keyedItem 21 1 None; keyedItem 22 2 None; keyedItem 23 3 None].
Definition preElement : VNode :=
  newVNode 31 (Some "pre"%string)
           (Some (mkVNodeData None None true false false None))
           (Some [textVNode 32 "x" None]) 60 None None VUndef false None.

End VDom.

(** ** The observer ([core/observer]) *)

Module Reactive.

(** *** Objects, dependency nodes and watchers *)

(** What [Array.isArray], [isPlainObject], [_isVue] and
    [instanceof VNode] tell apart. *)
Inductive okind := KPlain | KArray | KVue | KVNode | KOther.

#[global] Instance okind_eq_dec : EqDecision okind.
Proof. solve_decision. Defined.

(** [class Observer]: its [dep] (by id) and [vmCount]; [value] is the
    object carrying it as [__ob__]. *)
Record Observer := mkObserver { ob_dep : nat; vmCount : nat }.

(** An own property.  A property converted by [defineReactive] has
    [p_dep = Some dep]; then [p_val], [p_childOb] and [p_shallow] are
    the closure variables [val], [childOb] (the address of the observed
    child, when there is one) and [shallow].  [p_getter] and [p_setter]
    name the accessor functions that were defined on the property
    beforehand, [p_customSetter] says whether a [customSetter] was
    given. *)
Record PropCell := mkProp {
  p_val : value;
  p_dep : option nat;
  p_childOb : option nat;
  p_shallow : bool;
  p_getter : option nat;
  p_setter : option nat;
  p_configurable : bool;
  p_customSetter : bool }.

(** A heap object: its own enumerable properties in [Object.keys]
    order, its elements when it is an array, and [__ob__]. *)
Record Obj := mkObj {
  o_kind : okind;
  o_props : list (string * PropCell);
  o_elems : list value;
  o_ob : option Observer;
  o_extensible : bool;
  o_frozen : bool }.

(** [class Dep]: the id is the key under which it is stored. *)
Record Dep := mkDep { subs : list nat }.

(** [class Watcher]; [deps] and [newDeps] hold dependency nodes by id.
    The getter and the callback are code, kept outside the state. *)
Record Watcher := mkWatcher {
  vm : nat;
  deep : bool;
  user : bool;
  lazy : bool;
  sync : bool;
  dirty : bool;
  active : bool;
  deps : list nat;
  newDeps : list nat;
  depIds : gset nat;
  newDepIds : gset nat;
  value_ : value }.

(** The part of a component instance the watcher touches. *)
Record Vm := mkVm { _watchers : list nat; _isBeingDestroyed : bool }.

(** Calls that leave the core, in order. *)
Inductive revent :=
| EvUpdate (w : nat)
| EvCallback (w : nat) (newValue oldValue : value)
| EvHandleError (w : nat) (info : string)
| EvCustomSetter (obj : nat) (key_ : string)
| EvWarn (msg : string).

(** The state: the heap, dependency nodes with the counter [uid] of
    [dep.js], watchers, instances, [Dep.target] and [targetStack],
    [shouldObserve], the scheduler's queue, and the log. *)
Record RState := mkRState {
  heap : gmap nat Obj;
  depStore : gmap nat Dep;
  depUid : nat;
  watchers : gmap nat Watcher;
  vms : gmap nat Vm;
  target : option nat;
  targetStack : list (option nat);
  shouldObserve : bool;
  queue : list nat;
  has : gset nat;
  waiting : bool;
  rlog : list revent }.

Definition set_heap (s : RState) (h : gmap nat Obj) : RState :=
  mkRState h (depStore s) (depUid s) (watchers s) (vms s)
           (target s) (targetStack s) (shouldObserve s) (queue s) (has s)
           (waiting s) (rlog s).
Definition set_depStore (s : RState) (d : gmap nat Dep) : RState :=
  mkRState (heap s) d (depUid s) (watchers s) (vms s)
           (target s) (targetStack s) (shouldObserve s) (queue s) (has s)
           (waiting s) (rlog s).
Definition set_depUid (s : RState) (n : nat) : RState :=
  mkRState (heap s) (depStore s) n (watchers s) (vms s)
           (target s) (targetStack s) (shouldObserve s) (queue s) (has s)
           (waiting s) (rlog s).
Definition set_watchers (s : RState) (w : gmap nat Watcher) : RState :=
  mkRState (heap s) (depStore s) (depUid s) w (vms s)
           (target s) (targetStack s) (shouldObserve s) (queue s) (has s)
           (waiting s) (rlog s).
Definition set_vms (s : RState) (v : gmap nat Vm) : RState :=
  mkRState (heap s) (depStore s) (depUid s) (watchers s) v
           (target s) (targetStack s) (shouldObserve s) (queue s) (has s)
           (waiting s) (rlog s).
Definition set_target (s : RState) (t : option nat)
    (st : list (option nat)) : RState :=
  mkRState (heap s) (depStore s) (depUid s) (watchers s) (vms s)
           t st (shouldObserve s) (queue s) (has s) (waiting s) (rlog s).
Definition set_queue (s : RState) (q : list nat) (h : gset nat)
    (w : bool) : RState :=
  mkRState (heap s) (depStore s) (depUid s) (watchers s) (vms s)
           (target s) (targetStack s) (shouldObserve s) q h w (rlog s).
Definition set_rlog (s : RState) (l : list revent) : RState :=
  mkRState (heap s) (depStore s) (depUid s) (watchers s) (vms s)
           (target s) (targetStack s) (shouldObserve s) (queue s) (has s)
           (waiting s) l.

(** Outcome of a computation: a result, a JavaScript exception (with
    the state at the point where it was thrown), or [OutOfFuel]: the
    recursion budget of the model is exhausted, or the step leads to a
    state that the model does not represent (an assignment to the
    [__ob__] of an observed object or to the [length] of an array, a
    second accessor wrapped around a reactive property).  No theorem
    concludes anything about the code from an [OutOfFuel]. *)
Inductive outcome (A : Type) :=
| Ok (a : A) (s : RState)
| Throw (s : RState)
| OutOfFuel.
Arguments Ok {A} _ _.
Arguments Throw {A} _.
Arguments OutOfFuel {A}.

Definition R (A : Type) := RState -> outcome A.

Definition ret {A} (a : A) : R A := fun s => Ok a s.
Definition bind {A B} (m : R A) (k : A -> R B) : R B :=
  fun s => match m s with
           | Ok a s' => k a s'
           | Throw s' => Throw s'
           | OutOfFuel => OutOfFuel
           end.
Definition throw {A} : R A := fun s => Throw s.
Definition outOfFuel {A} : R A := fun _ => OutOfFuel.

Notation "'do' x <- m ; k" := (bind m (fun x => k))
  (at level 10, x pattern, m at level 100, k at level 200).
Notation "m ;; k" := (bind m (fun _ => k))
  (at level 100, k at level 200, right associativity).

Definition when (b : bool) (m : R unit) : R unit := if b then m else ret tt.

(** [for] over the elements of a list, in order. *)
Fixpoint forEach {A} (l : list A) (body : A -> R unit) : R unit :=
  match l with
  | [] => ret tt
  | x :: l' => body x ;; forEach l' body
  end.

Definition emit (e : revent) : R unit :=
  fun s => Ok tt (set_rlog s (rlog s ++ [e])).

Definition getWatcher (w : nat) : R Watcher :=
  fun s => match watchers s !! w with Some x => Ok x s | None => Throw s end.
Definition putWatcher (w : nat) (x : Watcher) : R unit :=
  fun s => Ok tt (set_watchers s (<[w := x]> (watchers s))).
Definition getDep (d : nat) : R Dep :=
  fun s => match depStore s !! d with Some x => Ok x s | None => Throw s end.
Definition putDep (d : nat) (x : Dep) : R unit :=
  fun s => Ok tt (set_depStore s (<[d := x]> (depStore s))).
Definition getObj (a : nat) : R Obj :=
  fun s => match heap s !! a with Some x => Ok x s | None => Throw s end.
Definition putObj (a : nat) (x : Obj) : R unit :=
  fun s => Ok tt (set_heap s (<[a := x]> (heap s))).

(** *** [dep.js] *)

(** [new Dep()]: [this.id = uid++; this.subs = []]. *)
Definition newDep : R nat :=
  fun s => Ok (depUid s)
              (set_depUid (set_depStore s (<[depUid s := mkDep []]> (depStore s)))
                          (S (depUid s))).

(** Modelled from the spec: [remove(arr, item)] of [shared/util], not
    under src/: it deletes the first occurrence of the item. *)
Fixpoint remove (arr : list nat) (item : nat) : list nat :=
  match arr with
  | [] => []
  | x :: arr' => if Nat.eqb x item then arr' else x :: remove arr' item
  end.

(** [dep.addSub(sub)] *)
Definition addSub (d sub : nat) : R unit :=
  do x <- getDep d; putDep d (mkDep (subs x ++ [sub])).

(** [dep.removeSub(sub)] *)
Definition removeSub (d sub : nat) : R unit :=
  do x <- getDep d; putDep d (mkDep (remove (subs x) sub)).

(** [pushTarget(target)] and [popTarget()] *)
Definition pushTarget (t : option nat) : R unit :=
  fun s => Ok tt (set_target s t (targetStack s ++ [t])).

Definition popTarget : R unit :=
  fun s => let st := removelast (targetStack s) in
           Ok tt (set_target s (mjoin (last st)) st).

(** [watcher.addDep(dep)] *)
Definition addDep (w d : nat) : R unit :=
  do x <- getWatcher w;
  if bool_decide (d ∈ newDepIds x) then ret tt
  else
    putWatcher w (mkWatcher (vm x) (deep x) (user x) (lazy x) (sync x)
                            (dirty x) (active x) (deps x) (newDeps x ++ [d])
                            (depIds x) ({[ d ]} ∪ newDepIds x) (value_ x)) ;;
    when (negb (bool_decide (d ∈ depIds x))) (addSub d w).

(** [dep.depend()] *)
Definition depend (d : nat) : R unit :=
  fun s => match target s with
           | Some w => addDep w d s
           | None => Ok tt s
           end.

(** [watcher.cleanupDeps()] *)
Definition cleanupDeps (w : nat) : R unit :=
  do x <- getWatcher w;
  forEach (rev (deps x))
    (fun d => when (negb (bool_decide (d ∈ newDepIds x))) (removeSub d w)) ;;
  do x' <- getWatcher w;
  putWatcher w (mkWatcher (vm x') (deep x') (user x') (lazy x') (sync x')
                          (dirty x') (active x') (newDeps x') []
                          (newDepIds x') ∅ (value_ x')).

(** *** The environment

    Build and configuration constants, and the host functions of
    [shared/util] and of the language that the observer calls:
    [isValidArrayIndex], the integer conversion applied to the arguments
    of [splice], membership in [Object.prototype] and in the rest of the
    prototype chain of each kind of object, the host's
    [Array.prototype.sort], and the string that the host makes of an
    object used as a property name (by the object's [toString]). *)
Class Env := mkEnv {
  production : bool;
  configAsync : bool;
  isServerRendering : bool;
  isValidArrayIndex : value -> bool;
  toInteger : value -> Z;
  inObjectPrototype : string -> bool;
  inPrototypeOf : okind -> string -> bool;
  jsSort : list value -> list value -> list value;
  objectToString : nat -> string }.

(** User code: the getter and the callback of each watcher, and the
    accessor functions found on properties before they are made
    reactive ([accessorGet g obj] is [g.call(obj)]); and
    [watcher.expression], which the constructor sets to the source text
    of the getter, or to the empty string in a production build. *)
Class UserCode := mkUserCode {
  getterOf : nat -> R value;
  cbOf : nat -> value -> value -> R unit;
  accessorGet : nat -> nat -> R value;
  accessorSet : nat -> nat -> value -> R unit;
  expressionOf : nat -> string }.

Section Observer.

Context `{Env} `{UserCode}.

Definition warn (msg : string) : R unit := emit (EvWarn msg).

Definition lift {A} (o : option A) : R A :=
  match o with Some a => ret a | None => throw end.

Fixpoint lookupProp (k : string) (l : list (string * PropCell))
    : option PropCell :=
  match l with
  | [] => None
  | (k', c) :: l' => if String.eqb k k' then Some c else lookupProp k l'
  end.

(** Redefine the own property [k], keeping its place among the keys,
    or append it when it is new. *)
Fixpoint storeProp (k : string) (c : PropCell) (l : list (string * PropCell))
    : list (string * PropCell) :=
  match l with
  | [] => [(k, c)]
  | (k', c') :: l' =>
      if String.eqb k k' then (k, c) :: l' else (k', c') :: storeProp k c l'
  end.

Definition putProp (a : nat) (k : string) (c : PropCell) : R unit :=
  do o <- getObj a;
  putObj a (mkObj (o_kind o) (storeProp k c (o_props o)) (o_elems o) (o_ob o)
                  (o_extensible o) (o_frozen o)).

Definition isArray (v : value) : R bool :=
  fun s => match v with
           | VRef a =>
               match heap s !! a with
               | Some o => Ok (bool_decide (o_kind o = KArray)) s
               | None => Throw s
               end
           | _ => Ok false s
           end.

(** [e && e.__ob__ && e.__ob__.dep.depend()] *)
Definition dependOnOb (e : value) : R unit :=
  match e with
  | VRef a =>
      do o <- getObj a;
      match o_ob o with
      | Some ob => depend (ob_dep ob)
      | None => ret tt
      end
  | _ => ret tt
  end.

(** [dependArray(value)], with a budget on the nesting of arrays. *)
Fixpoint dependArray (fuel : nat) (value : nat) : R unit :=
  match fuel with
  | O => outOfFuel
  | S fuel' =>
      do o <- getObj value;
      forEach (o_elems o)
        (fun e =>
           dependOnOb e ;;
           do isA <- isArray e;
           match e with
           | VRef a => when isA (dependArray fuel' a)
           | _ => ret tt
           end)
  end.

(** [reactiveGetter], the [get] accessor installed by [defineReactive]
    on property [k] of [obj]. *)
Definition reactiveGetter (fuel : nat) (obj : nat) (k : string) : R value :=
  do o <- getObj obj;
  do c <- lift (lookupProp k (o_props o));
  do dep <- lift (p_dep c);
  do value <- match p_getter c with
              | Some g => accessorGet g obj
              | None => ret (p_val c)
              end;
  (fun s =>
     if bool_decide (is_Some (target s)) then
       (depend dep ;;
        match p_childOb c with
        | Some child =>
            dependOnOb (VRef child) ;;
            do isA <- isArray value;
            match value with
            | VRef a => when isA (dependArray fuel a)
            | _ => ret tt
            end
        | None => ret tt
        end) s
     else Ok tt s) ;;
  ret value.

(** The read [obj[k]] of an own property (inherited ones read as
    [undefined]). *)
Definition getProp (fuel : nat) (obj : nat) (k : string) : R value :=
  do o <- getObj obj;
  match lookupProp k (o_props o) with
  | None => ret VUndef
  | Some c =>
      match p_dep c with
      | Some _ => reactiveGetter fuel obj k
      | None =>
          match p_getter c with
          | Some g => accessorGet g obj
          | None => ret (p_val c)
          end
      end
  end.

(** [_traverse(val, seen)] of [traverse.js], with a budget on the depth
    of the value; the set [seen] is threaded. *)
Fixpoint _traverse (fuel : nat) (val : value) (seen : gset nat)
    : R (gset nat) :=
  match fuel with
  | O => outOfFuel
  | S fuel' =>
      match val with
      | VRef a =>
          do o <- getObj a;
          if o_frozen o || bool_decide (o_kind o = KVNode) then ret seen
          else
            let visit (seen1 : gset nat) : R (gset nat) :=
              if bool_decide (o_kind o = KArray) then
                foldr (fun e k seen2 =>
                         do seen3 <- _traverse fuel' e seen2; k seen3)
                      ret (rev (o_elems o)) seen1
              else
                foldr (fun kc k seen2 =>
                         do v <- getProp fuel' a (fst kc);
                         do seen3 <- _traverse fuel' v seen2; k seen3)
                      ret (rev (o_props o)) seen1 in
            match o_ob o with
            | Some ob =>
                if bool_decide (ob_dep ob ∈ seen) then ret seen
                else visit ({[ ob_dep ob ]} ∪ seen)
            | None => visit seen
            end
      | _ => ret seen
      end
  end.

(** [traverse(val)] *)
Definition traverse (fuel : nat) (val : value) : R unit :=
  do _ <- _traverse fuel val ∅; ret tt.

(** *** [watcher.js] *)

(** Modelled from the spec: [queueWatcher] of the scheduler, not under
    src/ (section 4.3): "an append-only queue of pending Computations
    plus a has-queued set keyed by Computation id to prevent duplicate
    enqueueing"; "if a flush is not already scheduled, schedule one". *)
Definition queueWatcher (w : nat) : R unit :=
  fun s => if bool_decide (w ∈ has s) then Ok tt s
           else Ok tt (set_queue s (queue s ++ [w]) ({[ w ]} ∪ has s) true).

Definition handleError (w : nat) (info : string) : R unit :=
  emit (EvHandleError w info).

(** The [info] of the two calls: the words followed by
    [watcher.expression] in double quotes. *)
Definition getterInfo (w : nat) : string :=
  "getter for watcher " +:+ dquote +:+ expressionOf w +:+ dquote.

Definition callbackInfo (w : nat) : string :=
  "callback for watcher " +:+ dquote +:+ expressionOf w +:+ dquote.

(** [watcher.get()].  The [finally] block runs on both exits of the
    getter; an exception of a non-user watcher is thrown again after
    it. *)
Definition get (fuel : nat) (w : nat) : R value :=
  pushTarget (Some w) ;;
  do x <- getWatcher w;
  let finally_ (value : value) : R unit :=
    when (deep x) (traverse fuel value) ;;
    popTarget ;;
    cleanupDeps w in
  fun s =>
    match getterOf w s with
    | Ok value s1 => (finally_ value ;; ret value) s1
    | Throw s1 =>
        if user x then
          (handleError w (getterInfo w) ;;
           finally_ VUndef ;; ret VUndef) s1
        else
          match finally_ VUndef s1 with
          | Ok _ s2 => Throw s2
          | Throw s2 => Throw s2
          | OutOfFuel => OutOfFuel
          end
    | OutOfFuel => OutOfFuel
    end.

Definition set_value (x : Watcher) (v : value) : Watcher :=
  mkWatcher (vm x) (deep x) (user x) (lazy x) (sync x) (dirty x) (active x)
            (deps x) (newDeps x) (depIds x) (newDepIds x) v.

Definition set_dirty (x : Watcher) (b : bool) : Watcher :=
  mkWatcher (vm x) (deep x) (user x) (lazy x) (sync x) b (active x)
            (deps x) (newDeps x) (depIds x) (newDepIds x) (value_ x).

Definition set_active (x : Watcher) (b : bool) : Watcher :=
  mkWatcher (vm x) (deep x) (user x) (lazy x) (sync x) (dirty x) b
            (deps x) (newDeps x) (depIds x) (newDepIds x) (value_ x).

(** [cb.call(vm, value, oldValue)], recorded in the log. *)
Definition callCb (w : nat) (value oldValue : value) : R unit :=
  emit (EvCallback w value oldValue) ;; cbOf w value oldValue.

(** [watcher.run()] *)
Definition run (fuel : nat) (w : nat) : R unit :=
  do x <- getWatcher w;
  if active x then
    do value <- get fuel w;
    do x1 <- getWatcher w;
    if strict_neq value (value_ x1) || isObject value || deep x1 then
      let oldValue := value_ x1 in
      putWatcher w (set_value x1 value) ;;
      if user x1 then
        fun s => match callCb w value oldValue s with
                 | Throw s1 => handleError w (callbackInfo w) s1
                 | other => other
                 end
      else callCb w value oldValue
    else ret tt
  else ret tt.

(** [watcher.update()] *)
Definition update (fuel : nat) (w : nat) : R unit :=
  emit (EvUpdate w) ;;
  do x <- getWatcher w;
  if lazy x then putWatcher w (set_dirty x true)
  else if sync x then run fuel w
  else queueWatcher w.

(** [watcher.evaluate()] *)
Definition evaluate (fuel : nat) (w : nat) : R unit :=
  do v <- get fuel w;
  do x <- getWatcher w;
  putWatcher w (set_dirty (set_value x v) false).


(** [watcher.teardown()] *)
Definition teardown (w : nat) : R unit :=
  do x <- getWatcher w;
  if active x then
    (fun s => match vms s !! vm x with
              | None => Throw s
              | Some v =>
                  if _isBeingDestroyed v then Ok tt s
                  else Ok tt (set_vms s (<[vm x := mkVm (remove (_watchers v) w)
                                                     (_isBeingDestroyed v)]> (vms s)))
              end) ;;
    forEach (rev (deps x)) (fun d => removeSub d w) ;;
    do x1 <- getWatcher w;
    putWatcher w (set_active x1 false)
  else ret tt.

(** The watchers [dep.notify()] calls, in call order: a copy of [subs],
    sorted by id outside production when [config.async] is off. *)
Definition notifyList (d : Dep) : list nat :=
  if negb production && negb configAsync
  then merge_sort Nat.le (subs d)
  else subs d.

(** [dep.notify()] *)
Definition notify (fuel : nat) (d : nat) : R unit :=
  do x <- getDep d;
  forEach (notifyList x) (update fuel).

(** *** [observer/index.js] *)

Definition set_cell (c : PropCell) (v : value) (child : option nat) : PropCell :=
  mkProp v (p_dep c) child (p_shallow c) (p_getter c) (p_setter c)
         (p_configurable c) (p_customSetter c).

Definition set_ob (o : Obj) (ob : option Observer) : Obj :=
  mkObj (o_kind o) (o_props o) (o_elems o) ob (o_extensible o) (o_frozen o).

Definition set_elems (o : Obj) (l : list value) : Obj :=
  mkObj (o_kind o) (o_props o) l (o_ob o) (o_extensible o) (o_frozen o).

(** [observe(value, asRootData)] and
    [defineReactive(obj, key, val, customSetter, shallow)], with a
    budget on the nesting of the value.  [observe] returns the address
    of the object whose [__ob__] it returns; [val = None] is a call of
    [defineReactive] with two arguments.  On a property that is
    already reactive the code wraps the accessor that is there; the
    model has no such property and gives no result there (as when its
    budget is used up). *)
Fixpoint observe (fuel : nat) (value : value) (asRootData : bool)
    : R (option nat) :=
  match fuel with
  | O => outOfFuel
  | S fuel' =>
      match value with
      | VRef a =>
          do o <- getObj a;
          if bool_decide (o_kind o = KVNode) then ret None
          else
            do ob <-
              match o_ob o with
              | Some _ => ret (Some a)
              | None =>
                  do should <- (fun s => Ok (shouldObserve s) s);
                  if should && negb isServerRendering
                     && (bool_decide (o_kind o = KArray)
                         || bool_decide (o_kind o = KPlain))
                     && o_extensible o
                     && negb (bool_decide (o_kind o = KVue))
                  then
                    (* new Observer(value) *)
                    do d <- newDep;
                    putObj a (set_ob o (Some (mkObserver d 0))) ;;
                    (if bool_decide (o_kind o = KArray) then
                       forEach (o_elems o)
                         (fun e => do _ <- observe fuel' e false; ret tt)
                     else
                       forEach (o_props o)
                         (fun kc =>
                            defineReactive fuel' a (fst kc) None false false)) ;;
                    ret (Some a)
                  else ret None
              end;
            match ob with
            | Some b =>
                when asRootData
                  (do o1 <- getObj b;
                   match o_ob o1 with
                   | Some x =>
                       putObj b (set_ob o1 (Some (mkObserver (ob_dep x)
                                                             (S (vmCount x)))))
                   | None => throw
                   end) ;;
                ret ob
            | None => ret ob
            end
      | _ => ret None
      end
  end
with defineReactive (fuel : nat) (obj : nat) (key_ : string)
    (val : option value) (customSetter shallow : bool) : R unit :=
  match fuel with
  | O => outOfFuel
  | S fuel' =>
      do dep <- newDep;
      do o <- getObj obj;
      let property := lookupProp key_ (o_props o) in
      if match property with
         | Some c => negb (p_configurable c)
         | None => false
         end
      then ret tt
      else
        match property ≫= p_dep with
        | Some _ => outOfFuel
        | None =>
            let getter := property ≫= p_getter in
            let setter := property ≫= p_setter in
            do val1 <-
              match val with
              | Some v => ret v
              | None =>
                  if negb (bool_decide (is_Some getter))
                     || bool_decide (is_Some setter)
                  then
                    match property with
                    | Some c =>
                        match p_getter c with
                        | Some g => accessorGet g obj
                        | None => ret (p_val c)
                        end
                    | None => ret VUndef
                    end
                  else ret VUndef
              end;
            do childOb <- (if shallow then ret None
                           else observe fuel' val1 false);
            do o1 <- getObj obj;
            if negb (bool_decide (is_Some (lookupProp key_ (o_props o1))))
               && negb (o_extensible o1)
            then throw
            else
              putProp obj key_
                (mkProp val1 (Some dep) childOb shallow getter setter true
                        customSetter)
        end
  end.

(** [observer.observeArray(items)] *)
Definition observeArray (fuel : nat) (items : list value) : R unit :=
  forEach items (fun e => do _ <- observe fuel e false; ret tt).

(** [reactiveSetter], the [set] accessor installed by [defineReactive]
    on property [k] of [obj]. *)
Definition reactiveSetter (fuel : nat) (obj : nat) (k : string)
    (newVal : value) : R unit :=
  do o <- getObj obj;
  do c <- lift (lookupProp k (o_props o));
  do dep <- lift (p_dep c);
  do value <- match p_getter c with
              | Some g => accessorGet g obj
              | None => ret (p_val c)
              end;
  if strict_eq newVal value
     || (strict_neq newVal newVal && strict_neq value value)
  then ret tt
  else
    when (negb production && p_customSetter c)
         (emit (EvCustomSetter obj k)) ;;
    if bool_decide (is_Some (p_getter c))
       && negb (bool_decide (is_Some (p_setter c)))
    then ret tt
    else
      match p_setter c with
      | Some f => accessorSet f obj newVal
      | None =>
          do o1 <- getObj obj;
          do c1 <- lift (lookupProp k (o_props o1));
          putProp obj k (set_cell c1 newVal (p_childOb c1))
      end ;;
      do childOb <- (if p_shallow c then ret None
                     else observe fuel newVal false);
      do o2 <- getObj obj;
      do c2 <- lift (lookupProp k (o_props o2));
      putProp obj k (set_cell c2 (p_val c2) childOb) ;;
      notify fuel dep.

(** *** [observer/array.js] *)

Inductive method := Push | Pop | Shift | Unshift | Splice | Sort | Reverse.

Definition num (n : nat) : value := VNum (Num (Z.of_nat n)).

(** A new array, at an address not in use. *)
Definition allocArray (l : list value) : R value :=
  fun s => let a := fresh (dom (heap s)) in
           Ok (VRef a)
              (set_heap s (<[a := mkObj KArray [] l None true false]> (heap s))).

(** The start index and the number of deleted elements of
    [splice(...args)] on an array of length [len]. *)
Definition spliceStart (len : Z) (args : list value) : Z :=
  match args with
  | [] => 0
  | start :: _ =>
      let r := toInteger start in
      if Z.ltb r 0 then Z.max (len + r) 0 else Z.min r len
  end.

Definition spliceDeleteCount (len : Z) (args : list value) : Z :=
  match args with
  | [] => 0
  | [_] => len - spliceStart len args
  | _ :: dc :: _ =>
      Z.min (Z.max (toInteger dc) 0) (len - spliceStart len args)
  end.

(** An array holds at most [2^32 - 1] elements. *)
Definition maxArrayLength : Z := 2 ^ 32 - 1.

(** The elements [l] stored in the array [o] at address [this] by a
    method of the host.  When that makes the array longer than it can
    be, the method raises a [RangeError] as it sets [length] (the
    elements it stored by then are not kept in the state of the
    exception). *)
Definition storeElems (this : nat) (o : Obj) (l : list value) : R unit :=
  if (Z.of_nat (length (o_elems o)) <? Z.of_nat (length l))
     && (maxArrayLength <? Z.of_nat (length l))
  then throw
  else putObj this (set_elems o l).

(** [arrayProto[method].apply(this, args)], on an array that is not
    frozen. *)
Definition original (m : method) (this : nat) (args : list value) : R value :=
  do o <- getObj this;
  let l := o_elems o in
  match m with
  | Push =>
      storeElems this o (l ++ args) ;;
      ret (num (length (l ++ args)))
  | Pop =>
      match last l with
      | Some x => putObj this (set_elems o (removelast l)) ;; ret x
      | None => ret VUndef
      end
  | Shift =>
      match l with
      | x :: l' => putObj this (set_elems o l') ;; ret x
      | [] => ret VUndef
      end
  | Unshift =>
      storeElems this o (args ++ l) ;;
      ret (num (length (args ++ l)))
  | Splice =>
      let len := Z.of_nat (length l) in
      let start := Z.to_nat (spliceStart len args) in
      let dc := Z.to_nat (spliceDeleteCount len args) in
      storeElems this o (take start l ++ drop 2 args ++ drop (start + dc) l) ;;
      allocArray (take dc (drop start l))
  | Sort =>
      putObj this (set_elems o (jsSort args l)) ;; ret (VRef this)
  | Reverse =>
      putObj this (set_elems o (rev l)) ;; ret (VRef this)
  end.

(** [inserted] after the [switch] of [mutator]; [None] is
    [undefined]. *)
Definition insertedBy (m : method) (args : list value) : option (list value) :=
  match m with
  | Push | Unshift => Some args
  | Splice => Some (drop 2 args)
  | _ => None
  end.

(** [mutator(...args)], the function installed in [arrayMethods] for
    [method]. *)
Definition mutator (fuel : nat) (m : method) (this : nat) (args : list value)
    : R value :=
  do result <- original m this args;
  do o <- getObj this;
  let ob := o_ob o in
  match insertedBy m args with
  | Some inserted =>
      match ob with
      | Some _ => observeArray fuel inserted
      | None => throw
      end
  | None => ret tt
  end ;;
  match ob with
  | Some b => notify fuel (ob_dep b)
  | None => throw
  end ;;
  ret result.

(** A method call [arr.method(...args)]: an observed array has
    [arrayMethods] in front of [Array.prototype]. *)
Definition callMethod (fuel : nat) (m : method) (this : nat)
    (args : list value) : R value :=
  do o <- getObj this;
  if bool_decide (is_Some (o_ob o)) then mutator fuel m this args
  else original m this args.

(** The name of a key: [String(key)] for a primitive, and what the
    host makes of an object. *)
Definition propertyKey (key_ : value) : string :=
  match key_ with
  | VRef a => objectToString a
  | _ => toPropertyKey key_
  end.

(** The index [i < n] that the property name [k] writes, if any. *)
Definition indexKey (k : string) (n : nat) : option nat :=
  List.find (fun i => String.eqb k (toPropertyKey (num i))) (seq 0 n).

(** Modelled from the spec: [hasOwn(obj, key)] of [shared/util], which
    is not under src/; it is
    [Object.prototype.hasOwnProperty.call(obj, key)].  The own
    properties of an object are its named properties, [__ob__] once it
    is observed and, for an array, [length] and the indices of its
    elements. *)
Definition hasOwn (o : Obj) (k : string) : bool :=
  bool_decide (is_Some (lookupProp k (o_props o)))
  || (bool_decide (is_Some (o_ob o)) && String.eqb k "__ob__")
  || (bool_decide (o_kind o = KArray)
      && (String.eqb k "length"
          || bool_decide (is_Some (indexKey k (length (o_elems o)))))).

(** [key in target]: an own property, or one of the prototype chain. *)
Definition hasProperty (o : Obj) (k : string) : bool :=
  hasOwn o k
  || inPrototypeOf (o_kind o) k
  || inObjectPrototype k.

(** The assignment [obj[k] = v] to an own or a new property.  An
    index within an array writes the element.  Two assignments lead out
    of the states of the model, which then gives no result (as when its
    budget is used up): to [__ob__] of an observed object, which would
    leave something else than the observer there, and to [length] of an
    array, which converts the value to a length. *)
Definition assign (fuel : nat) (obj : nat) (k : string) (v : value) : R unit :=
  do o <- getObj obj;
  match lookupProp k (o_props o) with
  | Some c =>
      match p_dep c with
      | Some _ => reactiveSetter fuel obj k v
      | None =>
          match p_setter c, p_getter c with
          | Some f, _ => accessorSet f obj v
          | None, Some _ => throw
          | None, None =>
              if o_frozen o then throw
              else putProp obj k (set_cell c v (p_childOb c))
          end
      end
  | None =>
      if bool_decide (is_Some (o_ob o)) && String.eqb k "__ob__" then outOfFuel
      else if bool_decide (o_kind o = KArray) && String.eqb k "length"
      then outOfFuel
      else
        match (if bool_decide (o_kind o = KArray)
               then indexKey k (length (o_elems o)) else None) with
        | Some i =>
            if o_frozen o then throw
            else putObj obj (set_elems o (<[i := v]> (o_elems o)))
        | None =>
            if o_extensible o then
              putProp obj k (mkProp v None None false None None true false)
            else throw
        end
  end.

Definition rootWarning : string :=
  "Avoid adding reactive properties to a Vue instance or its root $data " +:+
  "at runtime - declare it upfront in the data option.".

(** [set(target, key, val)].  The assignment
    [target.length = Math.max(target.length, key)] raises a
    [TypeError] on a frozen array and a [RangeError] beyond the
    greatest length of an array; a primitive target fails at
    [key in target]. *)
Definition set (fuel : nat) (target : value) (key_ : value) (val : value)
    : R value :=
  when (negb production && (isUndef target || isPrimitive target))
       (warn ("Cannot set reactive property on undefined, null, or " +:+
              "primitive value: " +:+ toPropertyKey target)) ;;
  match target with
  | VRef a =>
      do o <- getObj a;
      if bool_decide (o_kind o = KArray) && isValidArrayIndex key_ then
        let n := Z.to_nat (toInteger key_) in
        (if o_frozen o
            || (maxArrayLength <? Z.max (Z.of_nat (length (o_elems o)))
                                        (toInteger key_))
         then throw
         else putObj a (set_elems o (o_elems o ++
                                       replicate (n - length (o_elems o)) VUndef))) ;;
        do _ <- callMethod fuel Splice a [key_; VNum (Num 1); val];
        ret val
      else
        let k := propertyKey key_ in
        if hasProperty o k && negb (inObjectPrototype k) then
          assign fuel a k val ;; ret val
        else
          let ob := o_ob o in
          if bool_decide (o_kind o = KVue)
             || match ob with
                | Some b => negb (Nat.eqb (vmCount b) 0)
                | None => false
                end
          then
            when (negb production) (warn rootWarning) ;;
            ret val
          else
            match ob with
            | None => assign fuel a k val ;; ret val
            | Some b =>
                defineReactive fuel a k (Some val) false false ;;
                notify fuel (ob_dep b) ;;
                ret val
            end
  | _ => throw
  end.

End Observer.

(** *** The subscription invariant

    Watcher [w] has no duplicates in [deps] and [newDeps], its id sets
    mirror the two lists, and it occurs in the subscriber list of a
    dependency node exactly once when the node is in [deps] or
    [newDeps], and not at all otherwise.  A new watcher satisfies it
    (both lists are empty and nobody lists it), and [addDep] and
    [cleanupDeps] keep it. *)
Definition subscribed (w : nat) (s : RState) : Prop :=
  exists x,
    watchers s !! w = Some x /\
    NoDup (deps x) /\ NoDup (newDeps x) /\
    (forall d, d ∈ depIds x <-> d ∈ deps x) /\
    (forall d, d ∈ newDepIds x <-> d ∈ newDeps x) /\
    (forall d, d ∈ deps x \/ d ∈ newDeps x -> is_Some (depStore s !! d)) /\
    (forall d dp, depStore s !! d = Some dp ->
       count_occ Nat.eq_dec (subs dp) w =
       if bool_decide (d ∈ deps x \/ d ∈ newDeps x) then 1%nat else 0%nat).

(** The getter of a watcher whose evaluation reads the dependency nodes
    [reads], in this order (each read of a reactive property calls
    [dep.depend()]), and returns [v]. *)
Definition readingGetter (reads : list nat) (v : value) : R value :=
  forEach reads depend ;; ret v.

(** *** A host and inputs for running the model *)

(** A host for running the model on the inputs below, which use
    numbers as array indices, plain objects without a prototype chain of
    their own, and watcher queues that are already in order of id: on
    these the index test is [0 <= z], the prototype of the object adds
    no name, and [sort] leaves the list alone.  The theorems are stated
    over any [Env]; this instance only serves to evaluate them. *)
#[global] Instance hostEnv : Env := {|
  production := false;
  configAsync := true;
  isServerRendering := false;
  isValidArrayIndex := fun v =>
    match v with VNum (Num z) => Z.leb 0 z | _ => false end;
  toInteger := fun v => match v with VNum (Num z) => z | _ => 0 end;
  inObjectPrototype := fun k => bool_decide (k ∈ objectPrototypeNames);
  inPrototypeOf := fun _ _ => false;
  jsSort := fun _ l => l;
  objectToString := fun _ => "[object Object]" |}.

(** The same host in a production build. *)
Definition productionEnv : Env :=
  mkEnv true true false isValidArrayIndex toInteger inObjectPrototype
        inPrototypeOf jsSort objectToString.

(** User code in which every getter reads the dependency nodes
    [reads] and returns [v], and callbacks do nothing. *)
Definition readingCode (reads : list nat) (v : value) : UserCode :=
  mkUserCode (fun _ => readingGetter reads v) (fun _ _ _ => ret tt)
             (fun _ _ => ret VUndef) (fun _ _ _ => ret tt) (fun _ => "").

Definition emptyState : RState :=
  mkRState ∅ ∅ 0 ∅ ∅ None [] true [] ∅ false [].

(** Watcher 5 read the nodes 0 and 1 in its previous evaluation and
    only node 0 in the current one. *)
Definition staleWatcher : Watcher :=
  mkWatcher 0 false false false false false true [0; 1]%nat [0%nat]
            (list_to_set [0; 1]%nat) (list_to_set [0%nat]) VUndef.

Definition staleState : RState :=
  set_watchers
    (set_depStore emptyState
       (<[0%nat := mkDep [5%nat]]> (<[1%nat := mkDep [5%nat]]> ∅)))
    (<[5%nat := staleWatcher]> ∅).



(** A root data object [{count: 0}] at address 1, observed for one
    instance, its property read by watcher 5; and an observed array
    [[1]] at address 2. *)
Definition rootData : Obj :=
  mkObj KPlain
        [("count"%string,
          mkProp (VNum (Num 0)) (Some 0%nat) None false None None true false)]
        [] (Some (mkObserver 1 1)) true false.

Definition observedArray : Obj :=
  mkObj KArray [] [VNum (Num 1)] (Some (mkObserver 2 0)) true false.

Definition rootWatcher : Watcher :=
  mkWatcher 0 false false false false false true [0%nat] []
            (list_to_set [0%nat]) ∅ (VNum (Num 0)).

Definition rootState : RState :=
  set_heap
    (set_watchers
       (set_depStore (set_depUid emptyState 3)
          (<[0%nat := mkDep [5%nat]]>
             (<[1%nat := mkDep []]> (<[2%nat := mkDep []]> ∅))))
       (<[5%nat := rootWatcher]> ∅))
    (<[1%nat := rootData]> (<[2%nat := observedArray]> ∅)).

(** *** [del] of [observer/index.js] *)

Section ObserverDel.
Context `{Env} `{UserCode}.

(** [delete l[k]] on the list of own properties. *)
Fixpoint dropProp (k : string) (l : list (string * PropCell))
    : list (string * PropCell) :=
  match l with
  | [] => []
  | (k', c) :: l' =>
      if String.eqb k k' then l' else (k', c) :: dropProp k l'
  end.

(** [delete obj[k]] in strict code, for an own property [k]: a
    [TypeError] when the property is not configurable (every property
    of a frozen object, and [length] of an array); an element that is
    deleted leaves a hole, which reads as [undefined]. *)
Definition deleteProp (a : nat) (k : string) : R unit :=
  do o <- getObj a;
  if o_frozen o then throw
  else
    match lookupProp k (o_props o) with
    | Some c =>
        if p_configurable c then
          putObj a (mkObj (o_kind o) (dropProp k (o_props o)) (o_elems o)
                          (o_ob o) (o_extensible o) (o_frozen o))
        else throw
    | None =>
        if bool_decide (is_Some (o_ob o)) && String.eqb k "__ob__" then
          putObj a (set_ob o None)
        else if String.eqb k "length" then throw
        else
          match indexKey k (length (o_elems o)) with
          | Some i => putObj a (set_elems o (<[i := VUndef]> (o_elems o)))
          | None => ret tt
          end
    end.

Definition delWarning : string :=
  "Avoid deleting properties on a Vue instance or its root $data " +:+
  "- just set it to null.".

(** [del(target, key)].  On a primitive, [target.__ob__] and
    [target._isVue] are [undefined] (a [TypeError] for [undefined] and
    [null]), and only a string has own properties, none of which can
    be deleted. *)
Definition del (fuel : nat) (target : value) (key_ : value) : R unit :=
  when (negb production && (isUndef target || isPrimitive target))
       (warn ("Cannot delete reactive property on undefined, null, or " +:+
              "primitive value: " +:+ toPropertyKey target)) ;;
  match target with
  | VRef a =>
      do o <- getObj a;
      if bool_decide (o_kind o = KArray) && isValidArrayIndex key_ then
        do _ <- callMethod fuel Splice a [key_; VNum (Num 1)];
        ret tt
      else
        let ob := o_ob o in
        if bool_decide (o_kind o = KVue)
           || match ob with
              | Some b => negb (Nat.eqb (vmCount b) 0)
              | None => false
              end
        then when (negb production) (warn delWarning)
        else
          let k := propertyKey key_ in
          if negb (hasOwn o k) then ret tt
          else
            deleteProp a k ;;
            match ob with
            | None => ret tt
            | Some b => notify fuel (ob_dep b)
            end
  | VUndef | VNull => throw
  | VStr str =>
      let k := propertyKey key_ in
      if String.eqb k "length"
         || bool_decide (is_Some (indexKey k (String.length str)))
      then throw
      else ret tt
  | VBool _ | VNum _ => ret tt
  end.

End ObserverDel.

(** A computation that leaves [Dep.target] and [targetStack] as it found
    them, on a normal return and on an exception. *)
Definition keepsTarget {A} (m : R A) : Prop :=
  forall s, match m s with
            | Ok _ s' | Throw s' =>
                target s' = target s /\ targetStack s' = targetStack s
            | OutOfFuel => True
            end.

(** What observing keeps of a property, of an object and of the heap:
    a reactive property stays reactive and a configurable one
    configurable; an object keeps its kind, its observer ([__ob__],
    named by its [dep]) and its properties; every object stays. *)
Definition cellGrows (c c' : PropCell) : Prop :=
  (is_Some (p_dep c) -> is_Some (p_dep c')) /\
  (p_configurable c = true -> p_configurable c' = true).

Definition objGrows (o o' : Obj) : Prop :=
  o_kind o' = o_kind o /\
  (forall b, o_ob o = Some b ->
     exists b', o_ob o' = Some b' /\ ob_dep b' = ob_dep b) /\
  (forall k c, lookupProp k (o_props o) = Some c ->
     exists c', lookupProp k (o_props o') = Some c' /\ cellGrows c c').

Definition grows (s s' : RState) : Prop :=
  forall a o, heap s !! a = Some o ->
    exists o', heap s' !! a = Some o' /\ objGrows o o'.

Definition growing {A} (m : R A) : Prop :=
  forall s a s', m s = Ok a s' -> grows s s'.





(** Inputs: a state like [rootState] with the instance of watcher 5,
    an observed plain object [{a: 1}] at address 3 that is no root
    data, and a plain object [{}] at address 4 without observer. *)
Definition observedChild : Obj :=
  mkObj KPlain
        [("a"%string,
          mkProp (VNum (Num 1)) (Some 3%nat) None false None None true false)]
        [] (Some (mkObserver 4 0)) true false.

Definition plainObject : Obj := mkObj KPlain [] [] None true false.

Definition childState : RState :=
  set_vms
    (set_heap
       (set_depStore (set_depUid rootState 5)
          (<[3%nat := mkDep []]> (<[4%nat := mkDep []]> (depStore rootState))))
       (<[3%nat := observedChild]> (<[4%nat := plainObject]> (heap rootState))))
    (<[0%nat := mkVm [5%nat] false]> ∅).

(** The properties of a flat reactive object: each own property is a
    reactive data property holding a primitive. *)
Definition flatReactive (s : RState) (o : Obj) : Prop :=
  forall k c, lookupProp k (o_props o) = Some c ->
    exists d, p_dep c = Some d /\ is_Some (depStore s !! d) /\
              p_getter c = None /\ p_childOb c = None /\
              isObject (p_val c) = false.


(** Inputs: a deep watcher 5 in a state like [childState], with an
    array [[child, 1]] at address 7 whose first element is the observed
    object at address 3. *)
Definition deepWatcher : Watcher :=
  mkWatcher 0 true false false false false true [0%nat] []
            (list_to_set [0%nat]) ∅ (VNum (Num 0)).

Definition mixedArray : Obj :=
  mkObj KArray [] [VRef 3; VNum (Num 1)] None true false.

Definition deepState : RState :=
  set_watchers
    (set_heap childState (<[7%nat := mixedArray]> (heap childState)))
    (<[5%nat := deepWatcher]> ∅).

(** Inputs: user code whose getters throw, and a user watcher 5 in a
    state like [rootState]. *)
Definition throwingCode : UserCode :=
  mkUserCode (fun _ => throw) (fun _ _ _ => ret tt) (fun _ _ => ret VUndef)
             (fun _ _ _ => ret tt) (fun _ => "this.total").

Definition userWatcher : Watcher :=
  mkWatcher 0 false true false false false true [0%nat] []
            (list_to_set [0%nat]) ∅ (VNum (Num 0)).

Definition userState : RState :=
  set_watchers rootState (<[5%nat := userWatcher]> ∅).

End Reactive.

(** * Properties *)

(** ** Strict equality *)

Module JSFacts.

Lemma strict_eq_spec a b :
  strict_eq a b = true <-> a = b /\ a <> VNum NaN.
Proof.
  destruct a as [| |x|[|x]|x|x], b as [| |y|[|y]|y|y]; simpl;
    try (split; [discriminate | intros [? ?]; congruence]);
    try (split; [intros _; split; congruence | reflexivity]).
  - destruct x, y; simpl; split; try discriminate; try (intros [? ?]; congruence);
      intros _; split; congruence.
  - rewrite Z.eqb_eq. split; [intros ->; split; congruence | intros [? ?]; congruence].
  - rewrite String.eqb_eq. split; [intros ->; split; congruence | intros [? ?]; congruence].
  - rewrite Nat.eqb_eq. split; [intros ->; split; congruence | intros [? ?]; congruence].
Qed.

Lemma strict_eq_refl a : a <> VNum NaN -> strict_eq a a = true.
Proof. intros H. apply strict_eq_spec. auto. Qed.

Lemma strict_eq_sym a b : strict_eq a b = strict_eq b a.
Proof.
  destruct (strict_eq a b) eqn:E1, (strict_eq b a) eqn:E2; try reflexivity.
  - apply strict_eq_spec in E1 as [-> H]. rewrite strict_eq_refl in E2; congruence.
  - apply strict_eq_spec in E2 as [-> H]. rewrite strict_eq_refl in E1; congruence.
Qed.

Lemma strict_neq_self a : strict_neq a a = true <-> a = VNum NaN.
Proof.
  unfold strict_neq. split.
  - intros H. destruct (decide (a = VNum NaN)) as [|Hn]; [assumption|].
    rewrite strict_eq_refl in H by assumption. discriminate.
  - intros ->. reflexivity.
Qed.

End JSFacts.

(** ** The reconciler *)

Module VDomFacts.

Import JSFacts VDom.

Lemma ostr_eq (x y : option string) :
  strict_eq (ostr x) (ostr y) = true <-> x = y.
Proof.
  rewrite strict_eq_spec. destruct x, y; simpl; split;
    try (intros [? ?]; congruence); try (intros ?; split; congruence).
Qed.

Lemma eqb_is_Some {A B} (x : option A) (y : option B) :
  Bool.eqb (bool_decide (is_Some x)) (bool_decide (is_Some y)) = true
  <-> (is_Some x <-> is_Some y).
Proof.
  rewrite Bool.eqb_true_iff.
  destruct x as [x|], y as [y|]; simpl; split; intros H;
    try reflexivity; try discriminate.
  - split; eauto.
  - exfalso. assert (Hs : is_Some (Some x)) by eauto.
    apply H in Hs. destruct Hs; discriminate.
  - exfalso. assert (Hs : is_Some (Some y)) by eauto.
    apply H in Hs. destruct Hs; discriminate.
  - split; intros [? ?]; discriminate.
Qed.

Lemma sameInputType_spec isT a b :
  sameInputType isT a b = true <-> inputTypesAgree isT a b.
Proof.
  unfold sameInputType, inputTypesAgree.
  destruct (strict_eq (ostr (tag a)) (VStr "input")) eqn:E; simpl.
  - change (VStr "input") with (ostr (Some "input"%string)) in E.
    apply ostr_eq in E. rewrite Bool.orb_true_iff, Bool.andb_true_iff, strict_eq_spec.
    split; [intros Hd _; exact Hd | intros Hi; exact (Hi E)].
  - split; [|reflexivity]. intros _ Ht.
    change (VStr "input") with (ostr (Some "input"%string)) in E.
    apply (proj2 (ostr_eq _ _)) in Ht. congruence.
Qed.

(** [sameVnode(a, b)] is [true] exactly when the keys are strictly
    equal and either the tags agree, the comment flags agree, both or
    neither carry [data], and (for [<input>]) the input types are
    compatible; or [a] is an async placeholder standing for [b]'s
    factory. *)
Lemma sameVnode_true_iff (isT : value -> bool) (a b : VNode) :
  sameVnode isT a b = Some true <->
  (key a = key b /\ key a <> VNum NaN) /\
  ((tag a = tag b /\ isComment a = isComment b /\
    (is_Some (data a) <-> is_Some (data b)) /\ inputTypesAgree isT a b)
   \/ asyncPlaceholderFor a b).
Proof.
  unfold sameVnode.
  destruct (strict_eq (key a) (key b)) eqn:Ek.
  2:{ split; [discriminate|]. intros [Hk _]. apply strict_eq_spec in Hk. congruence. }
  apply strict_eq_spec in Ek.
  destruct (strict_eq (ostr (tag a)) (ostr (tag b))
            && Bool.eqb (isComment a) (isComment b)
            && Bool.eqb (bool_decide (is_Some (data a))) (bool_decide (is_Some (data b)))
            && sameInputType isT a b) eqn:E1.
  - split; [intros _|reflexivity]. split; [exact Ek|left].
    apply andb_prop in E1 as [E1 E4]. apply andb_prop in E1 as [E1 E3].
    apply andb_prop in E1 as [E1 E2].
    split; [by apply ostr_eq|]. split; [by apply Bool.eqb_prop|].
    split; [by apply eqb_is_Some|]. by apply sameInputType_spec.
  - assert (Hno : ~ (tag a = tag b /\ isComment a = isComment b /\
              (is_Some (data a) <-> is_Some (data b)) /\ inputTypesAgree isT a b)).
    { intros (Ht & Hc & Hd & Hi).
      apply (proj2 (ostr_eq _ _)) in Ht. apply (proj2 (eqb_is_Some _ _)) in Hd.
      apply (proj2 (sameInputType_spec _ _ _)) in Hi.
      rewrite Ht, Hc, Hd, Hi, Bool.eqb_reflx in E1. discriminate. }
    unfold asyncPlaceholderFor, sameFactory.
    destruct (isAsyncPlaceholder a) eqn:Ea; simpl.
    + destruct (asyncFactory a) as [f|] eqn:Ef, (asyncFactory b) as [g|] eqn:Eg; simpl.
      * destruct (Nat.eqb (af_id f) (af_id g)) eqn:Eid.
        -- apply Nat.eqb_eq in Eid. split.
           ++ intros [= Hu]. split; [exact Ek|right]. split; [reflexivity|].
              exists f, g. auto.
           ++ intros [_ [Hc|(_ & f' & g' & Hf & Hg & _ & Hu)]]; [tauto|].
              congruence.
        -- apply Nat.eqb_neq in Eid. split; [discriminate|].
           intros [_ [Hc|(_ & f' & g' & Hf & Hg & Hid & Hu)]]; [tauto|congruence].
      * split; [discriminate|].
        intros [_ [Hc|(_ & f' & g' & Hf & Hg & _)]]; [tauto|congruence].
      * split; [discriminate|].
        intros [_ [Hc|(_ & f' & g' & Hf & Hg & _)]]; [tauto|congruence].
      * split; [discriminate|].
        intros [_ [Hc|(_ & f' & g' & Hf & Hg & _)]]; [tauto|congruence].
    + split; [discriminate|].
      intros [_ [Hc|(Hp & _)]]; [tauto|congruence].
Qed.

(** How [updateChildren] uses [sameVnode]: at the first probe and at
    the lookup of a key. *)
Section Reuse.
Context {D : Type} `{Backend D}.

Lemma step_first_probe (env : BuildEnv) (patch : VNode -> VNode -> M D VNode)
    (parentElm : option handle) (canMove : bool) (a b : VNode)
    (oSI nSI oEI nEI : Z) (oldEnd newEnd : VNode)
    (k2i : option (gmap string Z)) (oCh : list (option VNode))
    (nCh : list VNode) (s : PState D) :
  sameVnode isTextInputType a b = Some true ->
  step env patch parentElm canMove
    (mkLoopState oSI nSI oEI (Some a) (Some oldEnd) nEI (Some b)
                 (Some newEnd) k2i oCh nCh) s =
  (do v <- patch a b;
   ret (mkLoopState (oSI + 1) (nSI + 1) oEI (mjoin (at_ oCh (oSI + 1)))
          (Some oldEnd) nEI (at_ (storeNew nCh nSI v) (nSI + 1))
          (Some newEnd) k2i oCh (storeNew nCh nSI v))) s.
Proof.
  intros Hs. unfold step.
  unfold bind at 1. unfold lift at 1. unfold ret at 1.
  unfold bind at 1. rewrite Hs. reflexivity.
Qed.

Lemma step_keyed_lookup (env : BuildEnv) (patch : VNode -> VNode -> M D VNode)
    (parentElm : option handle) (canMove : bool) (a b : VNode)
    (oSI nSI oEI nEI : Z) (oldStart oldEnd newEnd : VNode)
    (table : gmap string Z) (oCh : list (option VNode))
    (nCh : list VNode) (i : Z) (same : bool) (s : PState D) :
  sameVnode isTextInputType oldStart b = Some false ->
  sameVnode isTextInputType oldEnd newEnd = Some false ->
  sameVnode isTextInputType oldStart newEnd = Some false ->
  sameVnode isTextInputType oldEnd b = Some false ->
  isDef (key b) = true ->
  table !! toPropertyKey (key b) = Some i ->
  mjoin (at_ oCh i) = Some a ->
  sameVnode isTextInputType a b = Some same ->
  step env patch parentElm canMove
    (mkLoopState oSI nSI oEI (Some oldStart) (Some oldEnd) nEI (Some b)
                 (Some newEnd) (Some table) oCh nCh) s =
  (if same then
     do v <- patch a b;
     when canMove (op_insertBefore parentElm (elm a) (elm oldStart)) ;;
     ret (mkLoopState oSI (nSI + 1) oEI (Some oldStart) (Some oldEnd) nEI
            (at_ (storeNew nCh nSI v) (nSI + 1)) (Some newEnd) (Some table)
            (<[Z.to_nat i := None]> oCh) (storeNew nCh nSI v))
   else
     do v <- createElm env b parentElm (elm oldStart) false true;
     ret (mkLoopState oSI (nSI + 1) oEI (Some oldStart) (Some oldEnd) nEI
            (at_ (storeNew nCh nSI v) (nSI + 1)) (Some newEnd) (Some table)
            oCh (storeNew nCh nSI v))) s.
Proof.
  intros H1 H2 H3 H4 Hk Ht Hi Hs. unfold step.
  unfold bind at 1. unfold lift at 1. unfold ret at 1.
  unfold bind at 1. rewrite H1. unfold lift at 1. unfold ret at 1.
  unfold bind at 1. unfold lift at 1. unfold ret at 1.
  unfold bind at 1. rewrite H2. unfold lift at 1. unfold ret at 1.
  unfold bind at 1. rewrite H3. unfold lift at 1. unfold ret at 1.
  unfold bind at 1. rewrite H4. unfold lift at 1. unfold ret at 1.
  rewrite Hk. unfold bind at 1. unfold ret at 1.
  unfold bind at 1. unfold ret at 1. unfold readKey. rewrite Ht.
  unfold bind at 1. unfold bind at 1. rewrite Hi. unfold lift at 1. unfold ret at 1.
  unfold bind at 1. rewrite Hs. unfold lift at 1. unfold ret at 1.
  destruct same.
  - unfold bind. destruct (patch a b s) as [v s1| |]; [|reflexivity..].
    destruct (when canMove _ s1) as [[] s2| |]; reflexivity.
  - unfold bind. destruct (createElm _ _ _ _ _ _ s); reflexivity.
Qed.

(** C5 (as amended).  [sameVnode(a, b)] is [true] exactly when the keys
    are strictly equal and either the tags agree, the comment flags
    agree, both or neither carry [data], and (for [<input>]) the input
    types are compatible; or [a] is an async placeholder standing for
    [b]'s factory.  In [updateChildren] it decides between reuse and
    replacement: when it holds of the old and the new start node, the
    step is the patch of the one against the other; when the key of the
    new start node is found in the key table, the node found is patched
    and moved if it holds of the pair, and the new start node is
    created with [createElm] if it does not. *)
Theorem sameVnode_iff (a b : VNode) :
  (sameVnode isTextInputType a b = Some true <->
   (key a = key b /\ key a <> VNum NaN) /\
   ((tag a = tag b /\ isComment a = isComment b /\
     (is_Some (data a) <-> is_Some (data b)) /\
     inputTypesAgree isTextInputType a b)
    \/ asyncPlaceholderFor a b)) /\
  (forall env (patch : VNode -> VNode -> M D VNode) parentElm canMove
          oSI nSI oEI nEI oldEnd newEnd k2i oCh nCh s,
     sameVnode isTextInputType a b = Some true ->
     step env patch parentElm canMove
       (mkLoopState oSI nSI oEI (Some a) (Some oldEnd) nEI (Some b)
                    (Some newEnd) k2i oCh nCh) s =
     (do v <- patch a b;
      ret (mkLoopState (oSI + 1) (nSI + 1) oEI (mjoin (at_ oCh (oSI + 1)))
             (Some oldEnd) nEI (at_ (storeNew nCh nSI v) (nSI + 1))
             (Some newEnd) k2i oCh (storeNew nCh nSI v))) s) /\
  (forall env (patch : VNode -> VNode -> M D VNode) parentElm canMove
          oSI nSI oEI nEI oldStart oldEnd newEnd table oCh nCh i same s,
     sameVnode isTextInputType oldStart b = Some false ->
     sameVnode isTextInputType oldEnd newEnd = Some false ->
     sameVnode isTextInputType oldStart newEnd = Some false ->
     sameVnode isTextInputType oldEnd b = Some false ->
     isDef (key b) = true ->
     table !! toPropertyKey (key b) = Some i ->
     mjoin (at_ oCh i) = Some a ->
     sameVnode isTextInputType a b = Some same ->
     step env patch parentElm canMove
       (mkLoopState oSI nSI oEI (Some oldStart) (Some oldEnd) nEI (Some b)
                    (Some newEnd) (Some table) oCh nCh) s =
     (if same then
        do v <- patch a b;
        when canMove (op_insertBefore parentElm (elm a) (elm oldStart)) ;;
        ret (mkLoopState oSI (nSI + 1) oEI (Some oldStart) (Some oldEnd) nEI
               (at_ (storeNew nCh nSI v) (nSI + 1)) (Some newEnd) (Some table)
               (<[Z.to_nat i := None]> oCh) (storeNew nCh nSI v))
      else
        do v <- createElm env b parentElm (elm oldStart) false true;
        ret (mkLoopState oSI (nSI + 1) oEI (Some oldStart) (Some oldEnd) nEI
               (at_ (storeNew nCh nSI v) (nSI + 1)) (Some newEnd) (Some table)
               oCh (storeNew nCh nSI v))) s).
Proof.
  split; [apply sameVnode_true_iff|]. split.
  - intros. by apply step_first_probe.
  - intros. by apply step_keyed_lookup.
Qed.

End Reuse.

Lemma sameVnode_iff_witness :
  let env := mkBuildEnv false in
  let patch := fun a b => patchVnode env 1 a b true false in
  let a := keyedItem 13 3 (Some 3%nat) in
  let b := keyedItem 23 3 None in
  let oldStart := keyedItem 11 1 (Some 1%nat) in
  let oldEnd := keyedItem 14 4 (Some 4%nat) in
  let newEnd := keyedItem 22 2 None in
  let oCh := Some <$> [oldStart; keyedItem 12 2 (Some 2%nat); a; oldEnd] in
  let nCh := [b; keyedItem 24 4 None; keyedItem 21 1 None; newEnd] in
  let table : gmap string Z := {[ "3"%string := 2 ]} in
  let s := flatState (mkFlatDom 100%nat [(0%nat, [1; 2; 3; 4]%nat)]) in
  sameVnode isTextInputType a b = Some true /\
  step env patch (Some 0%nat) true
    (mkLoopState 2 0 3 (Some a) (Some oldEnd) 3 (Some b) (Some newEnd)
                 None oCh nCh) s =
  (do v <- patch a b;
   ret (mkLoopState (2 + 1) (0 + 1) 3 (mjoin (at_ oCh (2 + 1))) (Some oldEnd) 3
          (at_ (storeNew nCh 0 v) (0 + 1)) (Some newEnd) None oCh
          (storeNew nCh 0 v))) s /\
  step env patch (Some 0%nat) true
    (mkLoopState 0 0 3 (Some oldStart) (Some oldEnd) 3 (Some b) (Some newEnd)
                 (Some table) oCh nCh) s =
  (do v <- patch a b;
   when true (op_insertBefore (Some 0%nat) (elm a) (elm oldStart)) ;;
   ret (mkLoopState 0 (0 + 1) 3 (Some oldStart) (Some oldEnd) 3
          (at_ (storeNew nCh 0 v) (0 + 1)) (Some newEnd) (Some table)
          (<[Z.to_nat 2 := None]> oCh) (storeNew nCh 0 v))) s.
Proof.
  intros env patch a b oldStart oldEnd newEnd oCh nCh table s.
  destruct (sameVnode_iff a b) as (Hiff & Hprobe & Hlookup).
  split; [apply Hiff; vm_compute; intuition (discriminate || eauto)|].
  split.
  - apply Hprobe. reflexivity.
  - apply (Hlookup env patch (Some 0%nat) true 0 0 3 3 oldStart oldEnd newEnd
             table oCh nCh 2 true s); reflexivity.
Defined.

(** C5, counterexample.  Two [<input>] elements with the same key, tag
    and kind, neither a component, of types [checkbox] and [radio]:
    the specification's rule calls them the same node, [sameVnode] does
    not. *)
Lemma sameVnode_not_spec_rule :
  ~ (sameVnode webTextInputType (inputOfType 1 "checkbox") (inputOfType 2 "radio")
       = Some true
     <-> sameLogicalNode_spec (inputOfType 1 "checkbox") (inputOfType 2 "radio")).
Proof.
  intros [_ H].
  assert (Hs : sameLogicalNode_spec (inputOfType 1 "checkbox") (inputOfType 2 "radio")).
  { repeat split. }
  specialize (H Hs). vm_compute in H. discriminate.
Qed.

(** C6 (as amended).  When both vnodes are static, their keys are
    strictly equal, the old one is not an async placeholder, and the new
    one is a clone or a [v-once] node (or is cloned by [patchVnode]
    itself because it already has a handle and sits in an array), then
    [patchVnode] returns at once: the new vnode carries the old handle
    and the old component instance, and neither the log nor the native
    tree changed. *)
Theorem patchVnode_static_shortcut {D} `{Backend D} (env : BuildEnv)
    (depth : nat) (oldVnode vnode : VNode) (hasOwner removeOnly : bool)
    (s : PState D) :
  isStatic vnode = true ->
  isStatic oldVnode = true ->
  strict_eq (key vnode) (key oldVnode) = true ->
  isAsyncPlaceholder oldVnode = false ->
  ref oldVnode <> ref vnode ->
  isCloned vnode || isOnce vnode
    || (bool_decide (is_Some (elm vnode)) && hasOwner) = true ->
  exists v' s',
    patchVnode env (S depth) oldVnode vnode hasOwner removeOnly s = Ok v' s' /\
    elm v' = elm oldVnode /\
    componentInstance v' = componentInstance oldVnode /\
    log s' = log s /\ dom s' = dom s /\
    insertedVnodeQueue s' = insertedVnodeQueue s.
Proof.
  intros Hs Hso Hk Ha Hr Hc.
  apply Nat.eqb_neq in Hr.
  cbn [patchVnode]. rewrite Hr.
  destruct (bool_decide (is_Some (elm vnode)) && hasOwner) eqn:Ecl.
  - (* the vnode is cloned on the way in *)
    unfold bind, freshRef, ret. cbn [dom log insertedVnodeQueue nextRef].
    rewrite Ha. cbn. rewrite Hs, Hso, Hk. cbn.
    eexists _, _. split; [reflexivity|]. cbn. auto.
  - rewrite Bool.orb_false_r in Hc.
    unfold bind, ret. rewrite Ha. cbn. rewrite Hs, Hso, Hk, Hc. cbn.
    eexists _, _. split; [reflexivity|]. cbn. auto.
Qed.

Lemma patchVnode_static_shortcut_witness :
  exists v' s',
    patchVnode (mkBuildEnv false) 2 staticOld (staticNew true) false false
               (flatState staticDom) = Ok v' s' /\
    elm v' = elm staticOld /\
    componentInstance v' = componentInstance staticOld /\
    log s' = log (flatState staticDom) /\
    dom s' = dom (flatState staticDom) /\
    insertedVnodeQueue s' = insertedVnodeQueue (flatState staticDom).
Proof.
  apply (patchVnode_static_shortcut (mkBuildEnv false) 1 staticOld
           (staticNew true) false false (flatState staticDom));
    [reflexivity | reflexivity | reflexivity | reflexivity
    | simpl; lia | reflexivity].
Defined.

(** C6, counterexample.  Both vnodes are static with the same key, but
    the new one is neither a clone nor a [v-once] node: [patchVnode]
    runs the update hook and diffs the children (the old text child is
    removed from the native tree). *)
Lemma patchVnode_static_not_cloned_diffs :
  isStatic (staticNew false) = true /\
  isStatic staticOld = true /\
  key (staticNew false) = key staticOld /\
  exists v' s',
    patchVnode (mkBuildEnv false) 2 staticOld (staticNew false) false false
               (flatState staticDom) = Ok v' s' /\
    log s' = [EvModuleHook HUpdate 0 (Some 1%nat) 3;
              EvRemoveChild (Some 10%nat) (Some 11%nat)].
Proof.
  repeat split. eexists _, _. split; vm_compute; reflexivity.
Qed.

Section FindIdx.
Context {D : Type} `{Backend D}.

Lemma findIdxInOldFrom_none (n : nat) (node : VNode) (oCh : list (option VNode)) (i : Z) :
  (forall j c, i <= j < i + Z.of_nat n -> mjoin (at_ oCh j) = Some c ->
               sameVnode isTextInputType node c = Some false) ->
  findIdxInOldFrom n node oCh i = Some None.
Proof.
  revert i. induction n as [|n IH]; intros i Hno; [reflexivity|].
  cbn [findIdxInOldFrom].
  destruct (mjoin (at_ oCh i)) as [c|] eqn:Ec.
  - rewrite (Hno i c) by (try assumption; lia).
    apply IH. intros j c' Hj. apply Hno. lia.
  - apply IH. intros j c' Hj. apply Hno. lia.
Qed.

Lemma findIdxInOldFrom_found (n : nat) (node : VNode) (oCh : list (option VNode))
    (i j : Z) (c : VNode) :
  i <= j < i + Z.of_nat n ->
  mjoin (at_ oCh j) = Some c ->
  sameVnode isTextInputType node c = Some true ->
  (forall j' c', i <= j' < j -> mjoin (at_ oCh j') = Some c' ->
                 sameVnode isTextInputType node c' = Some false) ->
  findIdxInOldFrom n node oCh i = Some (Some j).
Proof.
  revert i. induction n as [|n IH]; intros i Hj Hc Hs Hno; [lia|].
  cbn [findIdxInOldFrom].
  destruct (decide (i = j)) as [->|Hne].
  - rewrite Hc, Hs. reflexivity.
  - destruct (mjoin (at_ oCh i)) as [c'|] eqn:Ec.
    + rewrite (Hno i c') by (try assumption; lia).
      apply IH; try assumption; [lia|]. intros j' c'' Hj'. apply Hno. lia.
    + apply IH; try assumption; [lia|]. intros j' c'' Hj'. apply Hno. lia.
Qed.


(** C7 (as amended).  In the fallback step (no positional probe
    matched) with a keyless new start node, [findIdxInOld] scans the old
    range from [oldStartIdx] up to, but not including, [oldEndIdx], for
    the first defined node [c] with [sameVnode(newStart, c)].  The step
    is [createElm(newStart, ..., parentElm, oldStart.elm, ...)] followed
    by the advance of the new start cursor exactly when the scan finds
    nothing or the node found fails the reverse test
    [sameVnode(c, newStart)]; otherwise the node found is patched and
    moved, and no handle is created. *)
Theorem keyless_fallback_step (env : BuildEnv) (patch : VNode -> VNode -> M D VNode)
    (parentElm : option handle) (canMove : bool)
    (oSI nSI oEI nEI : Z) (oldStart oldEnd newStart newEnd : VNode)
    (k2i : option (gmap string Z)) (table : gmap string Z)
    (oCh : list (option VNode)) (nCh : list VNode) (s : PState D) :
  let ls := mkLoopState oSI nSI oEI (Some oldStart) (Some oldEnd) nEI
                        (Some newStart) (Some newEnd) k2i oCh nCh in
  let advance (oCh' : list (option VNode)) (v : VNode) :=
    mkLoopState oSI (nSI + 1) oEI (Some oldStart) (Some oldEnd) nEI
                (at_ (storeNew nCh nSI v) (nSI + 1)) (Some newEnd)
                (Some table) oCh' (storeNew nCh nSI v) in
  let create : M D LoopState :=
    do v <- createElm env newStart parentElm (elm oldStart) false true;
    ret (advance oCh v) in
  let noMatchBefore (i : Z) :=
    forall j c, oSI <= j < i -> mjoin (at_ oCh j) = Some c ->
                sameVnode isTextInputType newStart c = Some false in
  sameVnode isTextInputType oldStart newStart = Some false ->
  sameVnode isTextInputType oldEnd newEnd = Some false ->
  sameVnode isTextInputType oldStart newEnd = Some false ->
  sameVnode isTextInputType oldEnd newStart = Some false ->
  isDef (key newStart) = false ->
  match k2i with
  | Some t => t = table
  | None => createKeyToOldIdx oCh oSI oEI = Some table
  end ->
  (noMatchBefore oEI -> step env patch parentElm canMove ls s = create s) /\
  (forall i c,
      oSI <= i < oEI ->
      mjoin (at_ oCh i) = Some c ->
      sameVnode isTextInputType newStart c = Some true ->
      noMatchBefore i ->
      (sameVnode isTextInputType c newStart = Some false ->
       step env patch parentElm canMove ls s = create s) /\
      (sameVnode isTextInputType c newStart = Some true ->
       step env patch parentElm canMove ls s =
       (do v <- patch c newStart;
        when canMove (op_insertBefore parentElm (elm c) (elm oldStart)) ;;
        ret (advance (<[Z.to_nat i := None]> oCh) v)) s)).
Proof.
  intros ls advance create noMatchBefore H1 H2 H3 H4 Hk Ht.
  assert (Hstep : forall idx,
            findIdxInOld newStart oCh oSI oEI = Some idx ->
            step env patch parentElm canMove ls s =
            (do r <- match idx with
                     | None =>
                         do v <- createElm env newStart parentElm (elm oldStart) false true;
                         ret (oCh, storeNew nCh nSI v)
                     | Some i =>
                         do vnodeToMove <- lift (mjoin (at_ oCh i));
                         do same5 <- lift (sameVnode isTextInputType vnodeToMove newStart);
                         if same5 then
                           do v <- patch vnodeToMove newStart;
                           when canMove
                             (op_insertBefore parentElm (elm vnodeToMove) (elm oldStart)) ;;
                           ret (<[Z.to_nat i := None]> oCh, storeNew nCh nSI v)
                         else
                           do v <- createElm env newStart parentElm (elm oldStart) false true;
                           ret (oCh, storeNew nCh nSI v)
                     end;
             let '(oCh', nCh') := r in
             ret (mkLoopState oSI (nSI + 1) oEI (Some oldStart) (Some oldEnd)
                              nEI (at_ nCh' (nSI + 1)) (Some newEnd) (Some table) oCh' nCh')) s).
  { intros idx Hidx. unfold ls, step.
    unfold bind at 1. unfold lift at 1. unfold ret at 1.
    unfold bind at 1. rewrite H1. unfold lift at 1. unfold ret at 1.
    unfold bind at 1. unfold lift at 1. unfold ret at 1.
    unfold bind at 1. rewrite H2. unfold lift at 1. unfold ret at 1.
    unfold bind at 1. rewrite H3. unfold lift at 1. unfold ret at 1.
    unfold bind at 1. rewrite H4. unfold lift at 1. unfold ret at 1.
    rewrite Hk, Hidx.
    destruct k2i as [t|]; [subst t|rewrite Ht]; destruct idx; reflexivity. }
  split.
  - intros Hno. rewrite (Hstep None).
    + unfold create, bind, ret. destruct (createElm _ _ _ _ _ _ s); reflexivity.
    + unfold findIdxInOld. apply findIdxInOldFrom_none.
      intros j c Hj. apply Hno. lia.
  - intros i c Hi Hc Hs Hno.
    assert (Hf : findIdxInOld newStart oCh oSI oEI = Some (Some i)).
    { unfold findIdxInOld. apply findIdxInOldFrom_found with c; try assumption. lia. }
    rewrite (Hstep _ Hf). split; intros Hv.
    + unfold create, bind, lift, ret. rewrite Hc, Hv.
      destruct (createElm _ _ _ _ _ _ s); reflexivity.
    + unfold bind, lift, ret. rewrite Hc, Hv.
      destruct (patch c newStart s) as [v s1| |]; try reflexivity.
      destruct (when canMove _ s1); reflexivity.
Qed.

End FindIdx.


Lemma keyless_fallback_step_witness :
  let env := mkBuildEnv false in
  let patch := fun a b => patchVnode env 1 a b true false in
  let oCh := Some <$> fallbackOld in
  let s := flatState fallbackDom in
  let ls := mkLoopState 0 0 1 (Some oldDiv) (Some oldResolved) 1
                        (Some newPlaceholder) (Some newSpan) None oCh fallbackNew in
  let advance (oCh' : list (option VNode)) (v : VNode) :=
    mkLoopState 0 (0 + 1) 1 (Some oldDiv) (Some oldResolved) 1
                (at_ (storeNew fallbackNew 0 v) (0 + 1)) (Some newSpan)
                (Some ∅) oCh' (storeNew fallbackNew 0 v) in
  let create : M FlatDom LoopState :=
    do v <- createElm env newPlaceholder (Some 0%nat) (elm oldDiv) false true;
    ret (advance oCh v) in
  let noMatchBefore (i : Z) :=
    forall j c, 0 <= j < i -> mjoin (at_ oCh j) = Some c ->
                sameVnode isTextInputType newPlaceholder c = Some false in
  (noMatchBefore 1 -> step env patch (Some 0%nat) true ls s = create s) /\
  (forall i c,
      0 <= i < 1 ->
      mjoin (at_ oCh i) = Some c ->
      sameVnode isTextInputType newPlaceholder c = Some true ->
      noMatchBefore i ->
      (sameVnode isTextInputType c newPlaceholder = Some false ->
       step env patch (Some 0%nat) true ls s = create s) /\
      (sameVnode isTextInputType c newPlaceholder = Some true ->
       step env patch (Some 0%nat) true ls s =
       (do v <- patch c newPlaceholder;
        when true (op_insertBefore (Some 0%nat) (elm c) (elm oldDiv)) ;;
        ret (advance (<[Z.to_nat i := None]> oCh) v)) s)).
Proof.
  apply (keyless_fallback_step (mkBuildEnv false)
           (fun a b => patchVnode (mkBuildEnv false) 1 a b true false)
           (Some 0%nat) true 0 0 1 1 oldDiv oldResolved newPlaceholder newSpan
           None ∅ (Some <$> fallbackOld) fallbackNew (flatState fallbackDom));
    reflexivity.
Defined.

(** C7, counterexample.  The node at the old end index satisfies the
    scan's test against the keyless new start node, so a scan "through
    old-end inclusive" would find it; [findIdxInOld] stops before it and
    returns [undefined], and [updateChildren] creates a fresh comment
    handle for the new start node. *)
Lemma keyless_scan_stops_before_old_end :
  fallbackOld !! 1%nat = Some oldResolved /\
  sameVnode webTextInputType newPlaceholder oldResolved = Some true /\
  findIdxInOld newPlaceholder (Some <$> fallbackOld) 0 1 = Some None /\
  exists l s',
    updateChildren (mkBuildEnv false) 1 (Some 0%nat) (Some <$> fallbackOld)
                   fallbackNew false (flatState fallbackDom) = Ok l s' /\
    head (log s') = Some (EvCreateComment (Some ""%string) 100%nat).
Proof.
  split; [reflexivity|]. split; [reflexivity|]. split; [reflexivity|].
  eexists _, _. split; vm_compute; reflexivity.
Qed.

(** *** C1: the keyed diff

    Array reads. *)
Lemma at_Some {A} (l : list A) (i : Z) (x : A) :
  at_ l i = Some x <-> 0 <= i /\ l !! Z.to_nat i = Some x.
Proof.
  unfold at_. destruct (Z.ltb_spec i 0); split.
  - discriminate.
  - intros [? _]. lia.
  - auto.
  - tauto.
Qed.

Lemma at_range {A} (l : list A) (i : Z) (x : A) :
  at_ l i = Some x -> 0 <= i < Z.of_nat (length l).
Proof.
  intros [Hi Hl]%at_Some. apply lookup_lt_Some in Hl. lia.
Qed.

Lemma at_is_Some {A} (l : list A) (i : Z) :
  0 <= i < Z.of_nat (length l) -> is_Some (at_ l i).
Proof.
  intros Hi. unfold at_. destruct (Z.ltb_spec i 0); [lia|].
  apply lookup_lt_is_Some. lia.
Qed.

Lemma at_None {A} (l : list A) (i : Z) :
  at_ l i = None <-> i < 0 \/ Z.of_nat (length l) <= i.
Proof.
  unfold at_. destruct (Z.ltb_spec i 0).
  - split; auto.
  - rewrite lookup_ge_None. lia.
Qed.

Lemma at_elem_of {A} (l : list A) (i : Z) (x : A) : at_ l i = Some x -> x ∈ l.
Proof. intros [_ Hl]%at_Some. by eapply list_elem_of_lookup_2. Qed.

Lemma elem_of_at {A} (l : list A) (x : A) : x ∈ l -> exists i, at_ l i = Some x.
Proof.
  intros [i Hi]%list_elem_of_lookup_1. exists (Z.of_nat i).
  apply at_Some. rewrite Nat2Z.id. split; [lia|done].
Qed.

Lemma at_insert_eq {A} (l : list A) (i : Z) (v : A) :
  0 <= i < Z.of_nat (length l) -> at_ (<[Z.to_nat i := v]> l) i = Some v.
Proof.
  intros Hi. apply at_Some. split; [lia|]. apply list_lookup_insert_eq. lia.
Qed.

Lemma at_insert_ne {A} (l : list A) (i j : Z) (v : A) :
  0 <= i -> i <> j -> at_ (<[Z.to_nat i := v]> l) j = at_ l j.
Proof.
  intros Hi Hne. unfold at_. destruct (Z.ltb_spec j 0); [done|].
  apply list_lookup_insert_ne. lia.
Qed.

Lemma at_fmap {A B} (f : A -> B) (l : list A) (i : Z) :
  at_ (f <$> l) i = f <$> at_ l i.
Proof. unfold at_. destruct (Z.ltb i 0); [done|]. apply list_lookup_fmap. Qed.

Lemma at_Some_fmap {A} (l : list A) (i : Z) :
  mjoin (at_ (Some <$> l) i) = at_ l i.
Proof. rewrite at_fmap. by destruct (at_ l i). Qed.

Lemma at_inj {A B} `{EqDecision B} (f : A -> B) (l : list A) (i j : Z) (a b : A) :
  NoDup (f <$> l) -> at_ l i = Some a -> at_ l j = Some b -> f a = f b -> i = j.
Proof.
  intros Hnd [Hi Ha]%at_Some [Hj Hb]%at_Some Hf.
  assert (Z.to_nat i = Z.to_nat j); [|lia].
  eapply NoDup_lookup; [exact Hnd| |].
  - rewrite list_lookup_fmap, Ha. reflexivity.
  - rewrite list_lookup_fmap, Hb. cbn. by rewrite Hf.
Qed.

(** Keys and [sameVnode]. *)
Section SameKeys.
Context {D : Type} `{Backend D}.

Lemma sameVnode_key_ne (a b : VNode) :
  key a <> key b -> sameVnode isTextInputType a b = Some false.
Proof.
  intros Hne. unfold sameVnode.
  destruct (strict_eq (key a) (key b)) eqn:E; [|reflexivity].
  apply strict_eq_spec in E as [? _]. done.
Qed.

Lemma sameVnode_true_key (a b : VNode) :
  sameVnode isTextInputType a b = Some true -> key a = key b.
Proof.
  unfold sameVnode.
  destruct (strict_eq (key a) (key b)) eqn:E; [|discriminate].
  apply strict_eq_spec in E as [? _]. done.
Qed.

Lemma quietSince_refl (s : PState D) : quietSince s s.
Proof. exists []. split; [by rewrite app_nil_r|constructor]. Qed.

Lemma quietSince_trans (s1 s2 s3 : PState D) :
  quietSince s1 s2 -> quietSince s2 s3 -> quietSince s1 s3.
Proof.
  intros (e1 & H1 & F1) (e2 & H2 & F2). exists (e1 ++ e2).
  split; [rewrite H2, H1; by rewrite app_assoc|by apply Forall_app].
Qed.

(** The key table of a range without cleared slots. *)
Lemma createKeyToOldIdxFrom_spec (old0 : list VNode) (oCh : list (option VNode))
    (n : nat) (i : Z) (m : gmap string Z) :
  NoDup (keyName <$> old0) ->
  Forall (fun v => isDef (key v) = true) old0 ->
  Forall (fun v => keyName v <> "__proto__"%string) old0 ->
  0 <= i -> i + Z.of_nat n <= Z.of_nat (length old0) ->
  (forall i', i <= i' < i + Z.of_nat n -> mjoin (at_ oCh i') = at_ old0 i') ->
  exists t,
    createKeyToOldIdxFrom n oCh i m = Some t /\
    (forall i' o, i <= i' < i + Z.of_nat n -> at_ old0 i' = Some o ->
                  t !! keyName o = Some i') /\
    (forall k, (forall i' o, i <= i' < i + Z.of_nat n -> at_ old0 i' = Some o ->
                             keyName o <> k) -> t !! k = m !! k).
Proof.
  intros Hnd Hprop Hproto. revert i m.
  induction n as [|n IH]; intros i m Hi Hn Hlive.
  - exists m. split; [reflexivity|]. split; [intros; lia|done].
  - cbn [createKeyToOldIdxFrom].
    destruct (at_is_Some old0 i) as [o Ho]; [lia|].
    rewrite (Hlive i) by lia. rewrite Ho.
    assert (Hdef : isDef (key o) = true).
    { rewrite Forall_forall in Hprop. apply Hprop.
      by eapply at_elem_of. }
    rewrite Hdef.
    assert (Hown : assignKey (toPropertyKey (key o)) i m
                   = <[toPropertyKey (key o) := i]> m).
    { unfold assignKey.
      rewrite Forall_forall in Hproto.
      pose proof (Hproto o (at_elem_of _ _ _ Ho)) as Hne.
      unfold keyName in Hne. by apply String.eqb_neq in Hne as ->. }
    rewrite Hown.
    destruct (IH (i + 1) (<[toPropertyKey (key o) := i]> m)) as (t & Hrun & Hin & Hout).
    { lia. } { lia. } { intros i' Hi'. apply Hlive. lia. }
    exists t. split; [exact Hrun|]. split.
    + intros i' o' Hi' Ho'. destruct (decide (i' = i)) as [->|Hne].
      * assert (o' = o) by congruence. subst o'.
        rewrite Hout.
        -- apply lookup_insert_eq.
        -- intros i2 o2 Hi2 Ho2 Heq.
           assert (i2 = i); [|lia].
           eapply (at_inj keyName old0 i2 i o2 o); eauto.
      * apply Hin; [lia|done].
    + intros k Hk. rewrite Hout.
      * apply lookup_insert_ne. apply (Hk i o); [lia|done].
      * intros i' o' Hi'. apply Hk. lia.
Qed.

End SameKeys.

(** The loop of [updateChildren] on an old list with distinct defined
    keys and a new list whose keys are a permutation of them, given a
    [patch] that succeeds on nodes of equal key, keeps the handle and
    neither creates nor removes native nodes. *)
Section Keyed.
Context {D : Type} `{Backend D}.
Variable env : BuildEnv.
Variable patch : VNode -> VNode -> M D VNode.
Variable parentElm : option handle.
Variable canMove : bool.
Variables old0 new0 : list VNode.
Variable s0 : PState D.

Set Default Proof Using "All".

Local Abbreviation liveOld := (VDom.liveOld old0).
Local Abbreviation coversB := (VDom.coversB old0 new0).
Local Abbreviation coversC := (VDom.coversC old0 new0).
Local Abbreviation Inv := (VDom.Inv patch old0 new0 s0).

Hypothesis Hold : NoDup (keyName <$> old0).
Hypothesis Hnew : NoDup (keyName <$> new0).
Hypothesis Hkeyed_old : Forall (fun v => isDef (key v) = true) old0.
Hypothesis Hkeyed_new : Forall (fun v => isDef (key v) = true) new0.
Hypothesis Hproto : Forall (fun v => keyName v <> "__proto__"%string) old0.
Hypothesis Hkeys : (key <$> new0) ≡ₚ (key <$> old0).
Hypothesis Hsame : forall o n, o ∈ old0 -> n ∈ new0 -> key o = key n ->
  sameVnode isTextInputType o n = Some true.

Hypothesis Hpatch : forall o n s, o ∈ old0 -> n ∈ new0 -> key o = key n ->
  exists v s', patch o n s = Ok v s' /\ elm v = elm o /\ quietSince s s'.

Lemma old_key_inj i j a b :
  at_ old0 i = Some a -> at_ old0 j = Some b -> key a = key b -> i = j.
Proof.
  intros Ha Hb Hk. eapply (at_inj keyName old0 i j a b); eauto.
  unfold keyName. by rewrite Hk.
Qed.

Lemma new_key_inj i j a b :
  at_ new0 i = Some a -> at_ new0 j = Some b -> key a = key b -> i = j.
Proof.
  intros Ha Hb Hk. eapply (at_inj keyName new0 i j a b); eauto.
  unfold keyName. by rewrite Hk.
Qed.

Lemma old_has_new o : o ∈ old0 -> exists j n, at_ new0 j = Some n /\ key n = key o.
Proof.
  intros Ho.
  assert (Hk : key o ∈ key <$> new0).
  { rewrite Hkeys. by apply list_elem_of_fmap_2. }
  apply list_elem_of_fmap in Hk as (n & Hkn & Hn).
  apply elem_of_at in Hn as [j Hj]. eauto.
Qed.

Lemma new_has_old n : n ∈ new0 -> exists i o, at_ old0 i = Some o /\ key o = key n.
Proof.
  intros Hn.
  assert (Hk : key n ∈ key <$> old0).
  { rewrite <- Hkeys. by apply list_elem_of_fmap_2. }
  apply list_elem_of_fmap in Hk as (o & Hko & Ho).
  apply elem_of_at in Ho as [i Hi]. eauto.
Qed.

Lemma same_old_new o n :
  o ∈ old0 -> n ∈ new0 ->
  sameVnode isTextInputType o n = Some (bool_decide (key o = key n)).
Proof.
  intros Ho Hn. case_bool_decide.
  - by apply Hsame.
  - by apply sameVnode_key_ne.
Qed.

Lemma covers_remove (Lo Lo' Nn Nn' : Z -> Prop) (io jn : Z) (o n : VNode) :
  at_ old0 io = Some o -> at_ new0 jn = Some n -> key o = key n ->
  (forall i, Lo' i <-> Lo i /\ i <> io) ->
  (forall j, Nn' j <-> Nn j /\ j <> jn) ->
  coversB Lo Nn -> coversC Lo Nn -> coversB Lo' Nn' /\ coversC Lo' Nn'.
Proof.
  intros Ho Hn Hk HLo HNn HB HC. split.
  - intros i o' [Hi Hne]%HLo Ho'.
    destruct (HB i o' Hi Ho') as (j & n' & Hj & Hn' & Hk').
    exists j, n'. split; [|done]. apply HNn. split; [done|].
    intros ->. assert (n' = n) by congruence. subst n'.
    apply Hne. eapply old_key_inj; eauto. congruence.
  - intros j n' [Hj Hne]%HNn Hn'.
    destruct (HC j n' Hj Hn') as (i & o' & Hi & Ho' & Hk').
    exists i, o'. split; [|done]. apply HLo. split; [done|].
    intros ->. assert (o' = o) by congruence. subst o'.
    apply Hne. eapply new_key_inj; eauto. congruence.
Qed.

Lemma covers_equiv (Lo Lo' Nn Nn' : Z -> Prop) :
  (forall i, Lo' i <-> Lo i) -> (forall j, Nn' j <-> Nn j) ->
  coversB Lo Nn -> coversC Lo Nn -> coversB Lo' Nn' /\ coversC Lo' Nn'.
Proof.
  intros HLo HNn HB HC. split.
  - intros i o Hi%HLo Ho. destruct (HB i o Hi Ho) as (j & n & Hj & ?).
    exists j, n. split; [by apply HNn|done].
  - intros j n Hj%HNn Hn. destruct (HC j n Hj Hn) as (i & o & Hi & ?).
    exists i, o. split; [by apply HLo|done].
Qed.

Lemma liveOld_old ls s i :
  Inv ls s -> liveOld ls i -> exists o, at_ old0 i = Some o /\ o ∈ old0 /\
                                       mjoin (at_ (oldCh ls) i) = Some o.
Proof.
  intros HI [Hr Hl]. destruct (at_is_Some old0 i) as [o Ho].
  { destruct HI. lia. }
  exists o. split; [done|]. split; [by eapply at_elem_of|congruence].
Qed.

Lemma pendingNew_new ls s j :
  Inv ls s -> pendingNew ls j -> exists n, at_ new0 j = Some n /\ n ∈ new0 /\
                                          at_ (newCh ls) j = Some n.
Proof.
  intros HI Hr. destruct (at_is_Some new0 j) as [n Hn].
  { destruct HI. unfold pendingNew in Hr. lia. }
  exists n. split; [done|]. split; [by eapply at_elem_of|].
  by rewrite (inv_new _ _ _ _ _ _ HI j Hr).
Qed.

(** One old node and one new node with the same key leave the ranges. *)
Lemma Inv_consume (ls ls' : LoopState) (s s' : PState D) (io jn : Z)
    (o n v : VNode) (s1 s2 : PState D) :
  Inv ls s ->
  oldStartIdx ls <= oldEndIdx ls ->
  newStartIdx ls <= newEndIdx ls ->
  liveOld ls (oldStartIdx ls) -> liveOld ls (oldEndIdx ls) ->
  liveOld ls io -> at_ old0 io = Some o ->
  pendingNew ls jn -> at_ new0 jn = Some n ->
  key o = key n ->
  patch o n s1 = Ok v s2 -> elm v = elm o ->
  quietSince s0 s1 -> quietSince s2 s' ->
  quietSince s s' ->
  newCh ls' = <[Z.to_nat jn := v]> (newCh ls) ->
  (jn = newStartIdx ls /\ newStartIdx ls' = newStartIdx ls + 1 /\
   newEndIdx ls' = newEndIdx ls) \/
  (jn = newEndIdx ls /\ newStartIdx ls' = newStartIdx ls /\
   newEndIdx ls' = newEndIdx ls - 1) ->
  (io = oldStartIdx ls /\ oldStartIdx ls' = oldStartIdx ls + 1 /\
   oldEndIdx ls' = oldEndIdx ls /\ oldCh ls' = oldCh ls) \/
  (io = oldEndIdx ls /\ oldStartIdx ls' = oldStartIdx ls /\
   oldEndIdx ls' = oldEndIdx ls - 1 /\ oldCh ls' = oldCh ls) \/
  (oldStartIdx ls < io < oldEndIdx ls /\ oldStartIdx ls' = oldStartIdx ls /\
   oldEndIdx ls' = oldEndIdx ls /\
   oldCh ls' = <[Z.to_nat io := None]> (oldCh ls)) ->
  (oldStartIdx ls' <= oldEndIdx ls' ->
   oldStartVnode ls' = mjoin (at_ (oldCh ls') (oldStartIdx ls')) /\
   oldEndVnode ls' = mjoin (at_ (oldCh ls') (oldEndIdx ls'))) ->
  (newStartIdx ls' <= newEndIdx ls' ->
   newStartVnode ls' = at_ (newCh ls') (newStartIdx ls') /\
   newEndVnode ls' = at_ (newCh ls') (newEndIdx ls')) ->
  ((oldKeyToIdx ls' = oldKeyToIdx ls /\ oldCh ls' = oldCh ls) \/
   exists t, oldKeyToIdx ls' = Some t /\
             forall i o', oldStartIdx ls <= i <= oldEndIdx ls ->
                          at_ old0 i = Some o' -> t !! keyName o' = Some i) ->
  Inv ls' s' /\ measure ls' < measure ls.
Proof.
  intros HI Hol Hnl HlS HlE Hlio Ho Hpjn Hn Hk Hp He Hq1 Hq2 Hq HnCh Hnshape
    Hoshape Hco Hcn Htab.
  pose proof HI as [I1 I2 I3 I4 I5 I6 I7 I8 I9 I10 I11 I12 I13 I14 I15 I16 I17 I18].
  assert (Hio_r : oldStartIdx ls <= io <= oldEndIdx ls) by (destruct Hlio; lia).
  assert (Hjn_r : newStartIdx ls <= jn <= newEndIdx ls) by exact Hpjn.
  (* how the live and pending sets change *)
  assert (HLo : forall i, liveOld ls' i <-> liveOld ls i /\ i <> io).
  { intros i. unfold VDom.liveOld.
    destruct Hoshape as [(-> & -> & -> & ->)|[(-> & -> & -> & ->)|(Hin & -> & -> & ->)]].
    - split; [intros [? ?]; repeat split; [lia..|done|lia]|intros [[? ?] ?]; split; [lia|done]].
    - split; [intros [? ?]; repeat split; [lia..|done|lia]|intros [[? ?] ?]; split; [lia|done]].
    - destruct (decide (i = io)) as [->|Hne].
      + rewrite at_insert_eq by lia. cbn.
        split; [intros [? Hc]|intros [_ ?]; done].
        destruct (at_is_Some old0 io) as [? Hs]; [lia|]. congruence.
      + rewrite at_insert_ne by lia. tauto. }
  assert (HNn : forall j, pendingNew ls' j <-> pendingNew ls j /\ j <> jn).
  { intros j. unfold pendingNew.
    destruct Hnshape as [(-> & -> & ->)|(-> & -> & ->)]; lia. }
  destruct (covers_remove (liveOld ls) (liveOld ls') (pendingNew ls)
              (pendingNew ls') io jn o n Ho Hn Hk HLo HNn I13 I14) as [HB' HC'].
  assert (Hmeasure : measure ls' < measure ls).
  { unfold measure.
    destruct Hnshape as [(_ & -> & ->)|(_ & -> & ->)];
    destruct Hoshape as [(_ & -> & -> & _)|[(_ & -> & -> & _)|(_ & -> & -> & _)]]; lia. }
  split; [|exact Hmeasure].
  assert (Holen : length (oldCh ls') = length old0).
  { destruct Hoshape as [(_ & _ & _ & ->)|[(_ & _ & _ & ->)|(_ & _ & _ & ->)]];
      [done|done|by rewrite length_insert]. }
  assert (Hsingle : newStartIdx ls' > newEndIdx ls' -> oldStartIdx ls = oldEndIdx ls /\ io = oldStartIdx ls).
  { intros Hempty.
    assert (Hj : newStartIdx ls = newEndIdx ls /\ jn = newStartIdx ls).
    { destruct Hnshape as [(-> & Ha & Hb)|(-> & Ha & Hb)]; lia. }
    destruct Hj as [Hj1 Hj2].
    assert (Hall : forall i, liveOld ls i -> i = io).
    { intros i Hi. destruct (liveOld_old ls s i HI Hi) as (o' & Ho' & _ & _).
      destruct (I13 i o' Hi Ho') as (j & n' & Hj & Hn' & Hk').
      assert (j = jn) by (unfold pendingNew in Hj; lia). subst j.
      assert (n' = n) by congruence. subst n'.
      eapply old_key_inj; eauto. congruence. }
    pose proof (Hall _ HlS). pose proof (Hall _ HlE). lia. }
  constructor.
  - destruct Hoshape as [(_ & -> & _)|[(_ & -> & _)|(_ & -> & _)]]; lia.
  - destruct Hoshape as [(_ & _ & -> & _)|[(_ & _ & -> & _)|(_ & _ & -> & _)]]; lia.
  - destruct Hoshape as [(_ & -> & -> & _)|[(_ & -> & -> & _)|(_ & -> & -> & _)]]; lia.
  - destruct Hnshape as [(_ & -> & _)|(_ & -> & _)]; lia.
  - destruct Hnshape as [(_ & _ & ->)|(_ & _ & ->)]; lia.
  - destruct Hnshape as [(_ & -> & ->)|(_ & -> & ->)]; lia.
  - exact Holen.
  - rewrite HnCh, length_insert. exact I8.
  - intros i Hi.
    destruct Hoshape as [(_ & Ha & Hb & ->)|[(_ & Ha & Hb & ->)|(_ & Ha & Hb & ->)]];
      rewrite Ha, Hb in Hi.
    + apply I9. lia.
    + apply I9. lia.
    + destruct (decide (i = io)) as [->|Hne].
      * left. rewrite at_insert_eq by lia. done.
      * rewrite at_insert_ne by lia. apply I9. lia.
  - intros j Hj. apply HNn in Hj as [Hj Hne]. rewrite HnCh.
    rewrite at_insert_ne by (unfold pendingNew in Hpjn; lia). by apply I10.
  - exact Hco.
  - exact Hcn.
  - exact HB'.
  - exact HC'.
  - destruct Htab as [[-> Hsame_ch]|(t & -> & Ht)].
    + destruct (oldKeyToIdx ls) as [t|].
      * intros i o' Hi. apply I15.
        destruct Hoshape as [(_ & Ha & Hb & _)|[(_ & Ha & Hb & _)|(_ & Ha & Hb & _)]];
          rewrite Ha, Hb in Hi; lia.
      * intros i Hi.
        destruct Hoshape as [(_ & Ha & Hb & Hch)|[(_ & Ha & Hb & Hch)|(Hin & Ha & Hb & Hch)]];
          rewrite Ha, Hb in Hi.
        -- rewrite Hch. apply I15. lia.
        -- rewrite Hch. apply I15. lia.
        -- (* the table exists once a slot has been cleared *)
           exfalso. destruct Hlio as [_ Hl].
           assert (Hnone : at_ (oldCh ls) io = Some None).
           { rewrite <- Hsame_ch, Hch. apply at_insert_eq. lia. }
           rewrite Hnone in Hl. cbn in Hl. congruence.
    + intros i o' Hi. apply Ht.
      destruct Hoshape as [(_ & Ha & Hb & _)|[(_ & Ha & Hb & _)|(_ & Ha & Hb & _)]];
        rewrite Ha, Hb in Hi; lia.
  - intros Hempty. destruct (Hsingle Hempty) as [Heq Hio].
    destruct Hoshape as [(_ & -> & -> & _)|[(_ & -> & -> & _)|(Hin & -> & -> & _)]]; lia.
  - intros j Hj Hnp.
    destruct (decide (j = jn)) as [->|Hne].
    + exists n, o, v, s1, s2. split; [done|]. split; [by eapply at_elem_of|].
      split; [done|]. split; [done|]. split; [done|]. split; [done|].
      split; [|done].
      rewrite HnCh. apply at_insert_eq. lia.
    + destruct (I17 j Hj)
        as (n' & o' & v' & s1' & s2' & ? & ? & ? & ? & ? & Hq' & Hat & ?).
      { intros Hc. apply Hnp, HNn. done. }
      exists n', o', v', s1', s2'. repeat (split; [done|]).
      split; [by eapply quietSince_trans|]. split; [|done].
      rewrite HnCh, at_insert_ne by (unfold pendingNew in Hpjn; lia). done.
  - eapply quietSince_trans; eauto.
Qed.

Lemma Inv_skip (ls ls' : LoopState) (s : PState D) :
  Inv ls s ->
  oldStartIdx ls <= oldEndIdx ls ->
  newStartIdx ls <= newEndIdx ls ->
  (oldStartIdx ls' = oldStartIdx ls + 1 /\ oldEndIdx ls' = oldEndIdx ls /\
   mjoin (at_ (oldCh ls) (oldStartIdx ls)) = None) \/
  (oldStartIdx ls' = oldStartIdx ls /\ oldEndIdx ls' = oldEndIdx ls - 1 /\
   mjoin (at_ (oldCh ls) (oldEndIdx ls)) = None) ->
  oldCh ls' = oldCh ls -> newCh ls' = newCh ls ->
  newStartIdx ls' = newStartIdx ls -> newEndIdx ls' = newEndIdx ls ->
  newStartVnode ls' = newStartVnode ls -> newEndVnode ls' = newEndVnode ls ->
  oldKeyToIdx ls' = oldKeyToIdx ls ->
  (oldStartIdx ls' <= oldEndIdx ls' ->
   oldStartVnode ls' = mjoin (at_ (oldCh ls') (oldStartIdx ls')) /\
   oldEndVnode ls' = mjoin (at_ (oldCh ls') (oldEndIdx ls'))) ->
  Inv ls' s /\ measure ls' < measure ls.
Proof.
  intros HI Hol Hnl Hshape HoCh HnCh HnS HnE HnSV HnEV Htab Hco.
  pose proof HI as [I1 I2 I3 I4 I5 I6 I7 I8 I9 I10 I11 I12 I13 I14 I15 I16 I17 I18].
  assert (Hr : oldStartIdx ls <= oldStartIdx ls' /\ oldEndIdx ls' <= oldEndIdx ls /\
               oldStartIdx ls' <= oldEndIdx ls' + 1 /\ measure ls' < measure ls).
  { unfold measure. rewrite HnS, HnE.
    destruct Hshape as [(-> & -> & _)|(-> & -> & _)]; lia. }
  destruct Hr as (R1 & R2 & R3 & R4).
  assert (HLo : forall i, liveOld ls' i <-> liveOld ls i).
  { intros i. unfold VDom.liveOld. rewrite HoCh. split.
    - intros [? ?]. split; [lia|done].
    - intros [Hi Hl]. split; [|done].
      destruct (at_is_Some old0 i) as [o Ho]; [lia|].
      rewrite Ho in Hl.
      destruct Hshape as [(-> & -> & Hn)|(-> & -> & Hn)].
      + assert (i <> oldStartIdx ls) by (intros ->; congruence). lia.
      + assert (i <> oldEndIdx ls) by (intros ->; congruence). lia. }
  assert (HNn : forall j, pendingNew ls' j <-> pendingNew ls j).
  { intros j. unfold pendingNew. rewrite HnS, HnE. tauto. }
  destruct (covers_equiv _ _ _ _ HLo HNn I13 I14) as [HB' HC'].
  split; [|exact R4]. constructor.
  - lia.
  - lia.
  - lia.
  - lia.
  - lia.
  - lia.
  - by rewrite HoCh.
  - by rewrite HnCh.
  - intros i Hi. rewrite HoCh. apply I9. lia.
  - intros j Hj%HNn. rewrite HnCh. by apply I10.
  - exact Hco.
  - intros Hle. rewrite HnSV, HnEV, HnCh, HnS, HnE. apply I12. lia.
  - exact HB'.
  - exact HC'.
  - rewrite Htab, HoCh. destruct (oldKeyToIdx ls).
    + intros i o Hi. apply I15. lia.
    + intros i Hi. apply I15. lia.
  - lia.
  - intros j Hj Hnp.
    destruct (I17 j Hj) as (n' & o' & v' & s1' & s2' & ? & ? & ? & ? & Hat & ?).
    { intros Hc. apply Hnp, HNn. done. }
    exists n', o', v', s1', s2'. rewrite HnCh. done.
  - exact I18.
Qed.

Lemma op_insertBefore_quiet (p e r : option handle) (s : PState D) :
  exists s', op_insertBefore p e r s = Ok tt s' /\ quietSince s s'.
Proof.
  eexists. split; [reflexivity|]. exists [EvInsertBefore p e r].
  split; [reflexivity|]. by repeat constructor.
Qed.

Lemma move_right_quiet (a b : option handle) (s : PState D) :
  exists s',
    when canMove (do sib <- readDom (nextSibling a);
                  op_insertBefore parentElm b sib) s = Ok tt s' /\
    quietSince s s'.
Proof.
  destruct canMove; cbn.
  - apply op_insertBefore_quiet.
  - exists s. split; [reflexivity|apply quietSince_refl].
Qed.

Lemma move_left_quiet (a b : option handle) (s : PState D) :
  exists s',
    when canMove (op_insertBefore parentElm a b) s = Ok tt s' /\
    quietSince s s'.
Proof.
  destruct canMove; cbn.
  - apply op_insertBefore_quiet.
  - exists s. split; [reflexivity|apply quietSince_refl].
Qed.

Lemma table_ready (ls : LoopState) (s : PState D) :
  Inv ls s -> oldStartIdx ls <= oldEndIdx ls ->
  exists t,
    match oldKeyToIdx ls with
    | Some t => ret t
    | None => lift (createKeyToOldIdx (oldCh ls) (oldStartIdx ls) (oldEndIdx ls))
    end s = Ok t s /\
    forall i o, oldStartIdx ls <= i <= oldEndIdx ls ->
                at_ old0 i = Some o -> t !! keyName o = Some i.
Proof.
  intros HI Hol. pose proof (inv_table _ _ _ _ _ _ HI) as Ht.
  destruct (oldKeyToIdx ls) as [t|].
  - exists t. split; [reflexivity|exact Ht].
  - destruct (createKeyToOldIdxFrom_spec old0 (oldCh ls)
                (Z.to_nat (oldEndIdx ls - oldStartIdx ls + 1)) (oldStartIdx ls) ∅
                Hold Hkeyed_old Hproto) as (t & Hrun & Hin & _).
    + apply HI.
    + pose proof (inv_ohi _ _ _ _ _ _ HI). lia.
    + intros i Hi. apply Ht. lia.
    + exists t. unfold createKeyToOldIdx. rewrite Hrun. split; [reflexivity|].
      intros i o Hi. apply Hin. lia.
Qed.

Lemma step_inv (ls : LoopState) (s : PState D) :
  Inv ls s -> loopCond ls = true ->
  exists ls' s', step env patch parentElm canMove ls s = Ok ls' s' /\
                 Inv ls' s' /\ measure ls' < measure ls.
Proof.
  intros HI Hc. unfold loopCond in Hc.
  apply andb_true_iff in Hc as [Hol%Z.leb_le Hnl%Z.leb_le].
  pose proof (inv_cache_o _ _ _ _ _ _ HI Hol) as [HcS HcE].
  pose proof (inv_cache_n _ _ _ _ _ _ HI Hnl) as [HnS HnE].
  pose proof (inv_content _ _ _ _ _ _ HI) as Hcont.
  pose proof (inv_log _ _ _ _ _ _ HI) as Hq0.
  pose proof (inv_new _ _ _ _ _ _ HI) as Hnew'.
  pose proof (inv_olo _ _ _ _ _ _ HI) as B1. pose proof (inv_ohi _ _ _ _ _ _ HI) as B2.
  pose proof (inv_nlo _ _ _ _ _ _ HI) as B3. pose proof (inv_nhi _ _ _ _ _ _ HI) as B4.
  pose proof (inv_olen _ _ _ _ _ _ HI) as B5. pose proof (inv_nlen _ _ _ _ _ _ HI) as B6.
  destruct (oldStartVnode ls) as [oldStart|] eqn:EoS.
  2: { exists (mkLoopState (oldStartIdx ls + 1) (newStartIdx ls) (oldEndIdx ls)
                 (mjoin (at_ (oldCh ls) (oldStartIdx ls + 1))) (oldEndVnode ls)
                 (newEndIdx ls) (newStartVnode ls) (newEndVnode ls)
                 (oldKeyToIdx ls) (oldCh ls) (newCh ls)), s.
       split.
       { destruct ls; cbn in *. rewrite EoS. reflexivity. }
       apply Inv_skip; cbn; try done; try apply quietSince_refl. auto. }
  destruct (oldEndVnode ls) as [oldEnd|] eqn:EoE.
  2: { exists (mkLoopState (oldStartIdx ls) (newStartIdx ls) (oldEndIdx ls - 1)
                 (oldStartVnode ls) (mjoin (at_ (oldCh ls) (oldEndIdx ls - 1)))
                 (newEndIdx ls) (newStartVnode ls) (newEndVnode ls)
                 (oldKeyToIdx ls) (oldCh ls) (newCh ls)), s.
       split.
       { destruct ls; cbn in *. rewrite EoS, EoE. reflexivity. }
       apply Inv_skip; cbn; try done; [auto|].
       intros _. split; [|done]. by rewrite EoS. }
  assert (HlS : liveOld ls (oldStartIdx ls)).
  { split; [lia|]. destruct (Hcont (oldStartIdx ls)) as [E|E]; [lia| |done].
    congruence. }
  assert (HlE : liveOld ls (oldEndIdx ls)).
  { split; [lia|]. destruct (Hcont (oldEndIdx ls)) as [E|E]; [lia| |done].
    congruence. }
  assert (HoS : at_ old0 (oldStartIdx ls) = Some oldStart).
  { destruct HlS as [_ <-]. done. }
  assert (HoE : at_ old0 (oldEndIdx ls) = Some oldEnd).
  { destruct HlE as [_ <-]. done. }
  destruct (at_is_Some new0 (newStartIdx ls)) as [newStart HnS0]; [lia|].
  destruct (at_is_Some new0 (newEndIdx ls)) as [newEnd HnE0]; [lia|].
  assert (HpS : pendingNew ls (newStartIdx ls)) by (unfold pendingNew; lia).
  assert (HpE : pendingNew ls (newEndIdx ls)) by (unfold pendingNew; lia).
  assert (EnS : newStartVnode ls = Some newStart).
  { rewrite HnS, (Hnew' _ HpS). done. }
  assert (EnE : newEndVnode ls = Some newEnd).
  { rewrite HnE, (Hnew' _ HpE). done. }
  assert (MoS : oldStart ∈ old0) by (by eapply at_elem_of).
  assert (MoE : oldEnd ∈ old0) by (by eapply at_elem_of).
  assert (MnS : newStart ∈ new0) by (by eapply at_elem_of).
  assert (MnE : newEnd ∈ new0) by (by eapply at_elem_of).
  pose proof (same_old_new _ _ MoS MnS) as S1.
  pose proof (same_old_new _ _ MoE MnE) as S2.
  pose proof (same_old_new _ _ MoS MnE) as S3.
  pose proof (same_old_new _ _ MoE MnS) as S4.
  destruct (decide (key oldStart = key newStart)) as [K1|K1].
  { rewrite bool_decide_eq_true_2 in S1 by done.
    destruct (Hpatch oldStart newStart s MoS MnS K1) as (v & s2 & Hp & He & Hq).
    exists (mkLoopState (oldStartIdx ls + 1) (newStartIdx ls + 1) (oldEndIdx ls)
              (mjoin (at_ (oldCh ls) (oldStartIdx ls + 1))) (oldEndVnode ls)
              (newEndIdx ls)
              (at_ (storeNew (newCh ls) (newStartIdx ls) v) (newStartIdx ls + 1))
              (newEndVnode ls) (oldKeyToIdx ls) (oldCh ls)
              (storeNew (newCh ls) (newStartIdx ls) v)), s2.
    split.
    { destruct ls; cbn in *. rewrite EoS, EoE, EnS. unfold bind at 1. cbn.
      unfold bind at 1. rewrite S1. cbn. unfold bind at 1. rewrite Hp.
      reflexivity. }
    eapply (Inv_consume ls _ s s2 (oldStartIdx ls) (newStartIdx ls)
              oldStart newStart v s s2); cbn; try done; try apply quietSince_refl.
    - left. done.
    - left. done.
    - intros _. split; [done|]. by rewrite EoE.
    - intros Hle. split; [done|]. rewrite EnE. unfold storeNew.
      rewrite at_insert_ne by lia. by rewrite (Hnew' _ HpE).
    - left. done. }
  rewrite bool_decide_eq_false_2 in S1 by done.
  destruct (decide (key oldEnd = key newEnd)) as [K2|K2].
  { rewrite bool_decide_eq_true_2 in S2 by done.
    destruct (Hpatch oldEnd newEnd s MoE MnE K2) as (v & s2 & Hp & He & Hq).
    exists (mkLoopState (oldStartIdx ls) (newStartIdx ls) (oldEndIdx ls - 1)
              (oldStartVnode ls) (mjoin (at_ (oldCh ls) (oldEndIdx ls - 1)))
              (newEndIdx ls - 1) (newStartVnode ls)
              (at_ (storeNew (newCh ls) (newEndIdx ls) v) (newEndIdx ls - 1))
              (oldKeyToIdx ls) (oldCh ls)
              (storeNew (newCh ls) (newEndIdx ls) v)), s2.
    split.
    { destruct ls; cbn in *. rewrite EoS, EoE, EnS, EnE. unfold bind at 1. cbn.
      unfold bind at 1. rewrite S1. cbn.
      unfold bind at 1. rewrite S2. cbn. unfold bind at 1. rewrite Hp.
      reflexivity. }
    eapply (Inv_consume ls _ s s2 (oldEndIdx ls) (newEndIdx ls)
              oldEnd newEnd v s s2); cbn; try done; try apply quietSince_refl.
    - right. done.
    - right. left. done.
    - intros _. split; [|done]. by rewrite EoS.
    - intros Hle. split; [|done]. rewrite EnS. unfold storeNew.
      rewrite at_insert_ne by lia. by rewrite (Hnew' _ HpS).
    - left. done. }
  rewrite bool_decide_eq_false_2 in S2 by done.
  destruct (decide (key oldStart = key newEnd)) as [K3|K3].
  { rewrite bool_decide_eq_true_2 in S3 by done.
    destruct (Hpatch oldStart newEnd s MoS MnE K3) as (v & s2 & Hp & He & Hq).
    destruct (move_right_quiet (elm oldEnd) (elm oldStart) s2) as (s3 & Hm & Hq3).
    exists (mkLoopState (oldStartIdx ls + 1) (newStartIdx ls) (oldEndIdx ls)
              (mjoin (at_ (oldCh ls) (oldStartIdx ls + 1))) (oldEndVnode ls)
              (newEndIdx ls - 1) (newStartVnode ls)
              (at_ (storeNew (newCh ls) (newEndIdx ls) v) (newEndIdx ls - 1))
              (oldKeyToIdx ls) (oldCh ls)
              (storeNew (newCh ls) (newEndIdx ls) v)), s3.
    split.
    { destruct ls; cbn in *. rewrite EoS, EoE, EnS, EnE. unfold bind at 1. cbn.
      unfold bind at 1. rewrite S1. cbn.
      unfold bind at 1. rewrite S2. cbn. unfold bind at 1. rewrite S3. cbn.
      unfold bind at 1. rewrite Hp. unfold bind at 1. rewrite Hm.
      reflexivity. }
    eapply (Inv_consume ls _ s s3 (oldStartIdx ls) (newEndIdx ls)
              oldStart newEnd v s s2); cbn; try done; try apply quietSince_refl.
    - by eapply quietSince_trans.
    - right. done.
    - left. done.
    - intros _. split; [done|]. by rewrite EoE.
    - intros Hle. split; [|done]. rewrite EnS. unfold storeNew.
      rewrite at_insert_ne by lia. by rewrite (Hnew' _ HpS).
    - left. done. }
  rewrite bool_decide_eq_false_2 in S3 by done.
  destruct (decide (key oldEnd = key newStart)) as [K4|K4].
  { rewrite bool_decide_eq_true_2 in S4 by done.
    destruct (Hpatch oldEnd newStart s MoE MnS K4) as (v & s2 & Hp & He & Hq).
    destruct (move_left_quiet (elm oldEnd) (elm oldStart) s2) as (s3 & Hm & Hq3).
    exists (mkLoopState (oldStartIdx ls) (newStartIdx ls + 1) (oldEndIdx ls - 1)
              (oldStartVnode ls) (mjoin (at_ (oldCh ls) (oldEndIdx ls - 1)))
              (newEndIdx ls)
              (at_ (storeNew (newCh ls) (newStartIdx ls) v) (newStartIdx ls + 1))
              (newEndVnode ls) (oldKeyToIdx ls) (oldCh ls)
              (storeNew (newCh ls) (newStartIdx ls) v)), s3.
    split.
    { destruct ls; cbn in *. rewrite EoS, EoE, EnS, EnE. unfold bind at 1. cbn.
      unfold bind at 1. rewrite S1. cbn.
      unfold bind at 1. rewrite S2. cbn. unfold bind at 1. rewrite S3. cbn.
      unfold bind at 1. rewrite S4. cbn.
      unfold bind at 1. rewrite Hp. unfold bind at 1. rewrite Hm.
      reflexivity. }
    eapply (Inv_consume ls _ s s3 (oldEndIdx ls) (newStartIdx ls)
              oldEnd newStart v s s2); cbn; try done; try apply quietSince_refl.
    - by eapply quietSince_trans.
    - left. done.
    - right. left. done.
    - intros _. split; [|done]. by rewrite EoS.
    - intros Hle. split; [done|]. rewrite EnE. unfold storeNew.
      rewrite at_insert_ne by lia. by rewrite (Hnew' _ HpE).
    - left. done. }
  rewrite bool_decide_eq_false_2 in S4 by done.
  (* the key table *)
  destruct (table_ready ls s HI Hol) as (t & Htrun & Htin).
  destruct (inv_C _ _ _ _ _ _ HI _ _ HpS HnS0) as (i & o & Hli & Ho & Hk).
  assert (Hir : oldStartIdx ls <= i <= oldEndIdx ls) by (destruct Hli; lia).
  assert (i <> oldStartIdx ls) by (intros ->; congruence).
  assert (i <> oldEndIdx ls) by (intros ->; congruence).
  assert (Mo : o ∈ old0) by (by eapply at_elem_of).
  assert (Hdef : isDef (key newStart) = true).
  { rewrite Forall_forall in Hkeyed_new. auto. }
  assert (Hlook : t !! toPropertyKey (key newStart) = Some i).
  { rewrite <- Hk. by apply Htin. }
  assert (Hmv : mjoin (at_ (oldCh ls) i) = Some o).
  { destruct Hli as [_ ->]. done. }
  pose proof (Hsame o newStart Mo MnS Hk) as S5.
  destruct (Hpatch o newStart s Mo MnS Hk) as (v & s2 & Hp & He & Hq).
  destruct (move_left_quiet (elm o) (elm oldStart) s2) as (s3 & Hm & Hq3).
  exists (mkLoopState (oldStartIdx ls) (newStartIdx ls + 1) (oldEndIdx ls)
            (oldStartVnode ls) (oldEndVnode ls) (newEndIdx ls)
            (at_ (storeNew (newCh ls) (newStartIdx ls) v) (newStartIdx ls + 1))
            (newEndVnode ls) (Some t) (<[Z.to_nat i := None]> (oldCh ls))
            (storeNew (newCh ls) (newStartIdx ls) v)), s3.
  split.
  { destruct ls; cbn in *. rewrite EoS, EoE, EnS, EnE. unfold bind at 1. cbn.
    unfold bind at 1. rewrite S1. cbn.
    unfold bind at 1. rewrite S2. cbn. unfold bind at 1. rewrite S3. cbn.
    unfold bind at 1. rewrite S4. cbn.
    unfold bind at 1. rewrite Htrun. rewrite Hdef.
    unfold bind at 1. cbn. unfold readKey. rewrite Hlook.
    unfold bind at 1. unfold bind at 1. rewrite Hmv. cbn.
    unfold bind at 1. rewrite S5. cbn.
    unfold bind at 1. rewrite Hp. unfold bind at 1. rewrite Hm.
    reflexivity. }
  eapply (Inv_consume ls _ s s3 i (newStartIdx ls) o newStart v s s2);
    cbn; try done; try apply quietSince_refl.
  - by eapply quietSince_trans.
  - left. done.
  - right. right. split; [lia|done].
  - intros _. rewrite !at_insert_ne by lia. rewrite EoS, EoE. done.
  - intros Hle. split; [done|]. rewrite EnE. unfold storeNew.
    rewrite at_insert_ne by lia. by rewrite (Hnew' _ HpE).
  - right. exists t. done.
Qed.

Lemma loop_inv (fuel : nat) (ls : LoopState) (s : PState D) :
  Inv ls s -> measure ls <= Z.of_nat fuel ->
  exists ls' s', loop env patch parentElm canMove fuel ls s = Ok ls' s' /\
                 Inv ls' s' /\ loopCond ls' = false.
Proof.
  revert ls s. induction fuel as [|fuel IH]; intros ls s HI Hm.
  - destruct (loopCond ls) eqn:Hc.
    + exfalso. unfold loopCond in Hc.
      apply andb_true_iff in Hc as [?%Z.leb_le ?%Z.leb_le].
      unfold measure in Hm. lia.
    + exists ls, s. cbn. rewrite Hc. done.
  - destruct (loopCond ls) eqn:Hc.
    + destruct (step_inv ls s HI Hc) as (ls1 & s1 & Hstep & HI1 & Hlt).
      destruct (IH ls1 s1 HI1) as (ls2 & s2 & Hloop & HI2 & Hc2); [lia|].
      exists ls2, s2. cbn. rewrite Hc. unfold bind. rewrite Hstep. done.
    + exists ls, s. cbn. rewrite Hc. done.
Qed.

Lemma finish_inv (ls : LoopState) (s : PState D) :
  Inv ls s -> loopCond ls = false ->
  finish env parentElm ls s = Ok (newCh ls) s /\ newStartIdx ls > newEndIdx ls.
Proof.
  intros HI Hc.
  assert (Hn : newStartIdx ls > newEndIdx ls).
  { destruct (Z.le_gt_cases (newStartIdx ls) (newEndIdx ls)) as [Hle|]; [|lia].
    exfalso.
    destruct (at_is_Some new0 (newStartIdx ls)) as [n Hn].
    { pose proof (inv_nlo _ _ _ _ _ _ HI). pose proof (inv_nhi _ _ _ _ _ _ HI). lia. }
    destruct (inv_C _ _ _ _ _ _ HI (newStartIdx ls) n) as (i & o & [Hi _] & _);
      [unfold pendingNew; lia|done|].
    unfold loopCond in Hc. apply andb_false_iff in Hc as [?%Z.leb_gt|?%Z.leb_gt]; lia. }
  split; [|exact Hn].
  pose proof (inv_exhaust _ _ _ _ _ _ HI Hn) as Ho.
  unfold finish. destruct (Z.gtb_spec (oldStartIdx ls) (oldEndIdx ls)); [|lia].
  unfold addVnodes.
  replace (Z.to_nat (newEndIdx ls - newStartIdx ls + 1)) with 0%nat by lia.
  reflexivity.
Qed.

Lemma Inv_init (s : PState D) :
  quietSince s0 s -> Inv (initLoop (Some <$> old0) new0) s.
Proof.
  intros Hq0.
  assert (Hlen : length new0 = length old0).
  { apply Permutation_length in Hkeys. by rewrite !length_fmap in Hkeys. }
  unfold initLoop. constructor; cbn; rewrite ?length_fmap.
  - lia.
  - lia.
  - lia.
  - lia.
  - lia.
  - lia.
  - done.
  - done.
  - intros i _. right. apply at_Some_fmap.
  - done.
  - done.
  - done.
  - intros i o [Hi _] Ho. cbn in Hi.
    destruct (old_has_new o) as (j & n & Hn & Hk); [by eapply at_elem_of|].
    exists j, n. split; [|done]. unfold pendingNew. cbn.
    apply at_range in Hn. lia.
  - intros j n Hj Hn.
    destruct (new_has_old n) as (i & o & Ho & Hk); [by eapply at_elem_of|].
    exists i, o. split; [|done]. split; cbn; [|apply at_Some_fmap].
    apply at_range in Ho. lia.
  - intros i _. apply at_Some_fmap.
  - lia.
  - intros j Hj Hnp. exfalso. apply Hnp. unfold pendingNew. cbn. lia.
  - exact Hq0.
Qed.

Lemma checkDuplicateKeys_quiet (l : list VNode) (s : PState D) :
  exists s', checkDuplicateKeys l s = Ok tt s' /\ quietSince s s'.
Proof.
  unfold checkDuplicateKeys. generalize (∅ : gset string). revert s.
  induction l as [|v l IH]; intros s seen.
  - exists s. split; [reflexivity|apply quietSince_refl].
  - destruct (isDef (key v)) eqn:Hd; [|apply IH].
    destruct (bool_decide (toPropertyKey (key v) ∈ seen)
              || bool_decide (toPropertyKey (key v) ∈ objectPrototypeNames));
      [|apply IH].
    unfold bind, warn, emit.
    edestruct IH as (s' & Hrun & Hq). exists s'. split; [exact Hrun|].
    eapply quietSince_trans; [|exact Hq].
    eexists [_]. split; [reflexivity|]. by repeat constructor.
Qed.

Lemma updateChildrenWith_keyed :
  exists res s',
    updateChildrenWith env patch parentElm canMove (Some <$> old0) new0 s0
      = Ok res s' /\
    quietSince s0 s' /\
    length res = length new0 /\
    forall j n, at_ new0 j = Some n ->
      exists o v s1 s2,
        o ∈ old0 /\ key o = key n /\
        quietSince s0 s1 /\ patch o n s1 = Ok v s2 /\ quietSince s2 s' /\
        at_ res j = Some v /\ elm v = elm o.
Proof.
  assert (Hck : exists sc,
            when (negb (production env)) (checkDuplicateKeys new0) s0
              = Ok tt sc /\ quietSince s0 sc).
  { destruct (production env); cbn.
    - exists s0. split; [reflexivity|apply quietSince_refl].
    - apply checkDuplicateKeys_quiet. }
  destruct Hck as (sc & Hck & Hq1).
  destruct (loop_inv (length (Some <$> old0) + length new0)
              (initLoop (Some <$> old0) new0) sc (Inv_init sc Hq1))
    as (ls & s & Hloop & HI & Hc).
  { unfold measure, initLoop. cbn. lia. }
  destruct (finish_inv ls s HI Hc) as [Hfin Hn].
  exists (newCh ls), s. split.
  { unfold updateChildrenWith. unfold bind at 1.
    rewrite Hck. unfold bind. rewrite Hloop. exact Hfin. }
  split; [exact (inv_log _ _ _ _ _ _ HI)|].
  split; [exact (inv_nlen _ _ _ _ _ _ HI)|].
  intros j n Hj.
  destruct (inv_done _ _ _ _ _ _ HI j)
    as (n' & o & v & s1 & s2 & Hn' & Ho & Hk & Hq1' & Hp & Hq2' & Hat & He).
  { by eapply at_range. }
  { unfold pendingNew. lia. }
  assert (n' = n) by congruence. subst n'.
  exists o, v, s1, s2. done.
Qed.

End Keyed.

Set Default Proof Using "Type".

(** What [patchVnode] leaves in [elm]. *)
Section PatchElm.
Context {D : Type} `{Backend D}.
Variable env : BuildEnv.

Lemma bind_Ok {A B} (m : M D A) (k : A -> M D B) (s s' : PState D) (b : B) :
  bind m k s = Ok b s' -> exists a s1, m s = Ok a s1 /\ k a s1 = Ok b s'.
Proof.
  unfold bind. destruct (m s) as [a s1| |]; [|discriminate..]. eauto.
Qed.

Lemma bind_ret {A B} (a : A) (k : A -> M D B) : bind (ret a) k = k a.
Proof. reflexivity. Qed.

Lemma ret_Ok {A} (a b : A) (s s' : PState D) :
  ret a s = Ok b s' -> b = a /\ s' = s.
Proof. unfold ret. intros [= -> ->]. done. Qed.

Lemma patchVnode_elm (depth : nat) (o n v : VNode) (hasOwner removeOnly : bool)
    (s s' : PState D) :
  patchVnode env depth o n hasOwner removeOnly s = Ok v s' ->
  (ref o = ref n -> elm n = elm o) ->
  quietSince s s' ->
  elm v = elm o.
Proof.
  intros Hrun Hid Hq. destruct depth as [|d]; [discriminate|].
  cbn [patchVnode] in Hrun.
  destruct (Nat.eqb_spec (ref o) (ref n)) as [E|E].
  { apply ret_Ok in Hrun as [-> _]. auto. }
  apply bind_Ok in Hrun as (vnode0 & s1 & H0 & Hrun).
  assert (Hlog1 : log s1 = log s).
  { destruct (bool_decide (is_Some (elm n)) && hasOwner).
    - cbv in H0. by injection H0 as _ <-.
    - apply ret_Ok in H0 as [_ ->]. done. }
  set (vnode1 := set_elm vnode0 (elm o)) in *.
  assert (E1 : elm vnode1 = elm o) by reflexivity.
  clearbody vnode1.
  destruct (isAsyncPlaceholder o).
  { apply bind_Ok in Hrun as (af & s2 & Haf & Hrun).
    assert (s2 = s1) as ->.
    { destruct (asyncFactory vnode1); [|discriminate].
      by apply ret_Ok in Haf as [_ ->]. }
    destruct (isDef (af_resolved af)).
    - exfalso. apply bind_Ok in Hrun as ([b r] & s3 & Hh & Hrun).
      apply ret_Ok in Hrun as [_ ->].
      unfold hydrate, bind, emit in Hh.
      destruct (hydrate_run (elm o) vnode1 _) as [[b' v'] d'].
      injection Hh as _ _ <-. cbn in Hq.
      destruct Hq as (evs & Hl & Hf). cbn in Hl. rewrite Hlog1 in Hl.
      apply app_inv_head in Hl. subst evs.
      inversion Hf as [|? ? Hx _]. discriminate.
    - apply ret_Ok in Hrun as [-> _]. exact E1. }
  destruct (_ && _ && _ && _).
  { apply ret_Ok in Hrun as [-> _]. exact E1. }
  apply bind_Ok in Hrun as (vnode2 & s2 & H2 & Hrun).
  apply bind_Ok in Hrun as (u & s3 & _ & Hrun).
  apply bind_Ok in Hrun as (vnode3 & s4 & H3 & Hrun).
  apply bind_Ok in Hrun as (u' & s5 & _ & Hrun).
  apply ret_Ok in Hrun as [-> _].
  assert (E2 : elm vnode2 = elm o).
  { destruct (match data vnode1 ≫= hook with Some h => h_prepatch h | None => false end).
    - apply bind_Ok in H2 as (? & ? & _ & H2). by apply ret_Ok in H2 as [-> _].
    - by apply ret_Ok in H2 as [-> _]. }
  rewrite <- E2. clear -H3.
  destruct (text vnode2).
  { apply bind_Ok in H3 as (? & ? & _ & H3). by apply ret_Ok in H3 as [-> _]. }
  destruct (children o), (children vnode2).
  - destruct (negb _).
    + apply bind_Ok in H3 as (? & ? & _ & H3). by apply ret_Ok in H3 as [-> _].
    + by apply ret_Ok in H3 as [-> _].
  - apply bind_Ok in H3 as (? & ? & _ & H3). by apply ret_Ok in H3 as [-> _].
  - apply bind_Ok in H3 as (? & ? & _ & H3).
    apply bind_Ok in H3 as (? & ? & _ & H3).
    apply bind_Ok in H3 as (? & ? & _ & H3). by apply ret_Ok in H3 as [-> _].
  - apply bind_Ok in H3 as (? & ? & _ & H3). by apply ret_Ok in H3 as [-> _].
Qed.

End PatchElm.

(** Patching a leaf. *)
Section Rotation.
Context {D : Type} `{Backend D}.
Variable env : BuildEnv.

Lemma forUpTo_update_quiet (n : nat) (o v : VNode) (s : PState D) :
  exists s', forUpTo n (fun i => callModuleHook HUpdate i (Some o) v) s = Ok tt s' /\
             quietSince s s'.
Proof.
  induction n as [|n (s1 & IH & Hq)]; cbn.
  - exists s. split; [reflexivity|apply quietSince_refl].
  - unfold bind at 1. rewrite IH. eexists. split; [reflexivity|].
    eapply quietSince_trans; [exact Hq|].
    exists [EvModuleHook HUpdate n (Some (ref o)) (ref v)].
    split; [reflexivity|]. by repeat constructor.
Qed.

Lemma setText_quiet (b : bool) (e : option handle) (t : option string)
    (s : PState D) :
  exists s', when b (op_setTextContent e t) s = Ok tt s' /\ quietSince s s'.
Proof.
  destruct b; cbn.
  - eexists. split; [reflexivity|]. exists [EvSetTextContent e t].
    split; [reflexivity|]. by repeat constructor.
  - exists s. split; [reflexivity|apply quietSince_refl].
Qed.

(** A leaf without vnode hooks, freshly rendered, is patched in place. *)
Lemma patchVnode_leaf_quiet (d : nat) (o n : VNode) (s : PState D) :
  ref o <> ref n -> elm n = None ->
  isAsyncPlaceholder o = false -> isStatic n = false ->
  children o = None -> children n = None ->
  componentInstance n = None -> data n ≫= hook = None ->
  exists v s', patchVnode env (S d) o n true false s = Ok v s' /\
               quietSince s s'.
Proof.
  intros Href Helm Hasync Hstatic Hco Hcn Hci Hhook.
  cbn [patchVnode]. destruct (Nat.eqb_spec (ref o) (ref n)) as [|_]; [done|].
  rewrite Helm, bool_decide_eq_false_2 by (intros [? ?]; done).
  cbn [andb]. rewrite bind_ret, Hasync.
  set (v1 := set_elm n (elm o)).
  change (isStatic v1) with (isStatic n). rewrite Hstatic. cbn [andb].
  change (data v1) with (data n). rewrite Hhook, bind_ret.
  assert (HA : exists s1,
    match data n with
    | Some _ =>
        do patchable <- lift (isPatchable v1);
        when patchable
          (forUpTo (cbs_length HUpdate)
             (fun i => callModuleHook HUpdate i (Some o) v1) ;;
           when false (callNodeHook NUpdate (Some o) v1))
    | None => ret tt
    end s = Ok tt s1 /\ quietSince s s1).
  { destruct (data n).
    - assert (Hp : isPatchable v1 = Some (bool_decide (is_Some (tag n)))).
      { destruct n; cbn in *. subst. reflexivity. }
      rewrite Hp. cbn [lift]. rewrite bind_ret.
      destruct (bool_decide (is_Some (tag n))); cbn [when].
      + destruct (forUpTo_update_quiet (cbs_length HUpdate) o v1 s)
          as (s1 & Hrun & Hq).
        exists s1. unfold bind. rewrite Hrun. done.
      + exists s. split; [reflexivity|apply quietSince_refl].
    - exists s. split; [reflexivity|apply quietSince_refl]. }
  destruct HA as (s1 & HA & Hq1).
  assert (HB : exists s2,
    match text v1 with
    | Some _ =>
        when (strict_neq (ostr (text o)) (ostr (text v1)))
             (op_setTextContent (elm o) (text v1)) ;;
        ret v1
    | None =>
        when (bool_decide (is_Some (text o)))
             (op_setTextContent (elm o) (Some "")) ;;
        ret v1
    end s1 = Ok v1 s2 /\ quietSince s1 s2).
  { destruct (text v1) as [tx|].
    - destruct (setText_quiet (strict_neq (ostr (text o)) (ostr (Some tx)))
                  (elm o) (Some tx) s1) as (s3 & Hrun & Hq).
      exists s3. unfold bind. rewrite Hrun. done.
    - destruct (setText_quiet (bool_decide (is_Some (text o)))
                  (elm o) (Some "") s1) as (s3 & Hrun & Hq).
      exists s3. unfold bind. rewrite Hrun. done. }
  destruct HB as (s2 & HB & Hq2).
  exists v1, s2. split; [|by eapply quietSince_trans].
  unfold bind at 1. rewrite HA. rewrite Hco.
  change (children v1) with (children n). rewrite Hcn.
  unfold bind at 1. rewrite HB. reflexivity.
Qed.

End Rotation.

(** [updateChildren] with the reconciler's own [patchVnode]. *)
Section KeyedLists.
Context {D : Type} `{Backend D}.
Variable env : BuildEnv.

Lemma rotation_Permutation {A} (k : nat) (l : list A) : rotation k l ≡ₚ l.
Proof.
  unfold rotation. rewrite Permutation_app_comm. by rewrite take_drop.
Qed.

(** The keyed diff of a list against a permutation of its keys. *)
Lemma updateChildren_keyed_permutation (depth : nat) (parentElm : option handle)
    (removeOnly : bool) (old new : list VNode) (s : PState D) :
  NoDup (keyName <$> old) ->
  Forall (fun v => isPrimitive (key v) = true) old ->
  Forall (fun v => keyName v <> "__proto__"%string) old ->
  key <$> new ≡ₚ key <$> old ->
  (forall o n, o ∈ old -> n ∈ new -> key o = key n ->
     sameVnode isTextInputType o n = Some true) ->
  (forall o n, o ∈ old -> n ∈ new -> ref o = ref n -> elm n = elm o) ->
  (forall o n s1, o ∈ old -> n ∈ new -> key o = key n ->
     exists v s2, patchVnode env depth o n true false s1 = Ok v s2 /\
                  quietSince s1 s2) ->
  exists res s',
    updateChildren env depth parentElm (Some <$> old) new removeOnly s
      = Ok res s' /\
    quietSince s s' /\
    length res = length new /\
    (forall j n, at_ new j = Some n ->
       exists o v s1 s2,
         o ∈ old /\ key o = key n /\
         quietSince s s1 /\
         patchVnode env depth o n true false s1 = Ok v s2 /\
         quietSince s2 s' /\
         at_ res j = Some v /\ elm v = elm o) /\
    (forall o, o ∈ old -> exists j v, at_ res j = Some v /\ elm v = elm o).
Proof.
  intros Hold Hprim Hproto Hkeys Hsame Hident Hpatch.
  assert (Hkeyed : Forall (fun v => isDef (key v) = true) old).
  { eapply Forall_impl; [exact Hprim|]. intros v Hv. cbn in Hv.
    by destruct (key v). }
  assert (Hnew : NoDup (keyName <$> new)).
  { assert (E : forall l : list VNode, keyName <$> l = toPropertyKey <$> (key <$> l)).
    { intros l. by rewrite <- list_fmap_compose. }
    rewrite E, Hkeys, <- E. exact Hold. }
  assert (Hkeyed_new : Forall (fun v => isDef (key v) = true) new).
  { assert (E : forall l : list VNode,
               Forall (fun v => isDef (key v) = true) l <->
               Forall (fun k => isDef k = true) (key <$> l)).
    { intros l. by rewrite Forall_fmap. }
    apply E. rewrite Hkeys. by apply E. }
  destruct (updateChildrenWith_keyed env
              (fun a b => patchVnode env depth a b true false)
              parentElm (negb removeOnly) old new s
              Hold Hnew Hkeyed Hkeyed_new Hproto Hkeys Hsame)
    as (res & s' & Hrun & Hq & Hlen & Hall).
  { intros o n s1 Ho Hn Hk.
    destruct (Hpatch o n s1 Ho Hn Hk) as (v & s2 & Hp & Hq).
    exists v, s2. split; [done|]. split; [|done].
    eapply patchVnode_elm; eauto. }
  exists res, s'. split; [exact Hrun|]. split; [exact Hq|].
  split; [exact Hlen|]. split; [exact Hall|].
  intros o Ho.
  assert (Hk : key o ∈ key <$> new).
  { rewrite Hkeys. by apply list_elem_of_fmap_2. }
  apply list_elem_of_fmap in Hk as (n & Hkn & Hn).
  apply elem_of_at in Hn as [j Hj].
  destruct (Hall j n Hj) as (o' & v & s1 & s2 & Ho' & Hk' & _ & _ & _ & Hat & He).
  exists j, v. split; [done|]. rewrite He.
  apply elem_of_at in Ho as [i Hi]. apply elem_of_at in Ho' as [i' Hi'].
  assert (i' = i).
  { eapply (at_inj keyName old i' i o' o); eauto.
    unfold keyName. congruence. }
  subst i'. congruence.
Qed.

End KeyedLists.

Lemma keyedItem_patch_quiet (r r' : nat) (k k' : Z) (e : option handle)
    (s : PState FlatDom) :
  r <> r' ->
  exists v s',
    patchVnode (mkBuildEnv false) 1 (keyedItem r k e) (keyedItem r' k' None)
               true false s = Ok v s' /\
    quietSince s s'.
Proof. intros Hr. by apply patchVnode_leaf_quiet. Qed.

(** The two examples of the specification, run on the flat native tree:
    the rotation [[1; 2; 3]] to [[3; 1; 2]] and the reversal [[1; 2]] to
    [[2; 1]] take one [insertBefore] each, and the parent's children
    are the old handles in the new order. *)
Lemma rotation_native_order :
  exists res s',
    updateChildren (mkBuildEnv false) 1 (Some 0%nat) (Some <$> rotOld) rotNew
                   false (flatState rotDom) = Ok res s' /\
    elm <$> res = [Some 3; Some 1; Some 2]%nat /\
    fd_kids (dom s') = [(0, [3; 1; 2])]%nat /\
    log s' = [EvModuleHook HUpdate 0 (Some 13%nat) 23;
              EvInsertBefore (Some 0%nat) (Some 3%nat) (Some 1%nat);
              EvModuleHook HUpdate 0 (Some 11%nat) 21;
              EvModuleHook HUpdate 0 (Some 12%nat) 22].
Proof. eexists _, _. split; [vm_compute; reflexivity|]. by vm_compute. Qed.

Lemma reversal_native_order :
  exists res s',
    updateChildren (mkBuildEnv false) 1 (Some 0%nat)
      (Some <$> [keyedItem 11 1 (Some 1%nat); keyedItem 12 2 (Some 2%nat)])
      [keyedItem 22 2 None; keyedItem 21 1 None]
      false (flatState (mkFlatDom 100%nat [(0%nat, [1; 2]%nat)])) = Ok res s' /\
    elm <$> res = [Some 2; Some 1]%nat /\
    fd_kids (dom s') = [(0, [2; 1])]%nat /\
    Forall (fun e => createsOrRemoves e = false) (log s').
Proof.
  eexists _, _. split; [vm_compute; reflexivity|].
  split; [by vm_compute|]. split; [by vm_compute|].
  vm_compute. repeat constructor.
Qed.

(** C1, failing input.  Four keyed list items, the third one keyed
    [__proto__], against the same items rendered again and rotated by
    two places: the keys are distinct, the new keys are the old ones
    rotated, and nodes of equal key are the same logical node.  At the
    first iteration no probe of the four ends matches; the key table
    made by [createKeyToOldIdx] has no entry of its own under
    [__proto__], so that the lookup of the first new key finds the
    member of [Object.prototype] instead of an index, and
    [updateChildren] throws, in every build. *)
Theorem updateChildren_proto_key_throws (env : BuildEnv) :
  key <$> protoNew = rotation 2 (key <$> protoOld) /\
  NoDup (keyName <$> protoOld) /\
  (forall o n, o ∈ protoOld -> n ∈ protoNew -> key o = key n ->
     sameVnode webTextInputType o n = Some true) /\
  (exists t, createKeyToOldIdx (Some <$> protoOld) 0 3 = Some t /\
             t !! "__proto__"%string = None /\
             readKey t "__proto__" = Some TInherited) /\
  updateChildren env 1 (Some 0%nat) (Some <$> protoOld) protoNew false
                 (flatState protoDom) = Throw.
Proof.
  split; [reflexivity|].
  split; [apply (bool_decide_unpack _); vm_compute; exact I|].
  split.
  { intros o n Ho Hn.
    repeat (apply elem_of_cons in Ho as [->|Ho]);
      repeat (apply elem_of_cons in Hn as [->|Hn]);
      try (by apply elem_of_nil in Ho); try (by apply elem_of_nil in Hn);
      (reflexivity || discriminate). }
  split.
  { eexists. split; [reflexivity|]. split; vm_compute; reflexivity. }
  destruct env as [[|]]; vm_compute; reflexivity.
Qed.

End VDomFacts.

(** ** The observer *)

Module ReactiveFacts.

Import Reactive.

Lemma count_remove_same (l : list nat) (w : nat) :
  count_occ Nat.eq_dec (remove l w) w = pred (count_occ Nat.eq_dec l w).
Proof.
  induction l as [|a l IH]; [reflexivity|]. cbn [remove].
  destruct (Nat.eqb a w) eqn:E.
  - apply Nat.eqb_eq in E. subst a. rewrite count_occ_cons_eq by reflexivity. reflexivity.
  - apply Nat.eqb_neq in E. rewrite !count_occ_cons_neq by assumption. exact IH.
Qed.

Lemma count_remove_other (l : list nat) (w x : nat) :
  x <> w -> count_occ Nat.eq_dec (remove l w) x = count_occ Nat.eq_dec l x.
Proof.
  intros Hne. induction l as [|a l IH]; [reflexivity|]. cbn [remove].
  destruct (Nat.eqb a w) eqn:E.
  - apply Nat.eqb_eq in E. subst a. rewrite count_occ_cons_neq by congruence. reflexivity.
  - destruct (decide (a = x)) as [->|Hax].
    + rewrite !count_occ_cons_eq by reflexivity. f_equal. exact IH.
    + rewrite !count_occ_cons_neq by assumption. exact IH.
Qed.

Lemma count_app_one (l : list nat) (w : nat) :
  count_occ Nat.eq_dec (l ++ [w]) w = S (count_occ Nat.eq_dec l w).
Proof. rewrite count_occ_app. simpl. destruct (Nat.eq_dec w w); [lia|congruence]. Qed.

Lemma count_zero_not_elem (l : list nat) (w : nat) :
  count_occ Nat.eq_dec l w = 0%nat <-> w ∉ l.
Proof.
  rewrite list_elem_of_In. symmetry. apply count_occ_not_In.
Qed.

Lemma count_notifyList `{Env} (dp : Dep) (w : nat) :
  count_occ Nat.eq_dec (notifyList dp) w = count_occ Nat.eq_dec (subs dp) w.
Proof.
  unfold notifyList.
  destruct (negb production && negb configAsync); [|reflexivity].
  apply Permutation_count_occ. apply merge_sort_Permutation.
Qed.

(* addDep *)
Lemma addDep_ok (w d : nat) (s : RState) :
  subscribed w s ->
  is_Some (depStore s !! d) ->
  exists s',
    addDep w d s = Ok tt s' /\
    subscribed w s' /\
    target s' = target s /\ targetStack s' = targetStack s /\
    rlog s' = rlog s /\ heap s' = heap s /\
    (forall e, is_Some (depStore s !! e) -> is_Some (depStore s' !! e)) /\
    exists x x',
      watchers s !! w = Some x /\ watchers s' !! w = Some x' /\
      deps x' = deps x /\ depIds x' = depIds x /\
      deep x' = deep x /\ user x' = user x /\
      d ∈ newDeps x' /\
      (forall e, e ∈ newDeps x' <-> e ∈ newDeps x \/ e = d).
Proof.
  intros (x & Hx & Hnd & Hnn & Hid & Hnid & Hex & Hcnt) [dp Hdp].
  unfold addDep, bind, getWatcher. rewrite Hx.
  destruct (bool_decide (d ∈ newDepIds x)) eqn:Ein.
  - apply bool_decide_eq_true in Ein. apply Hnid in Ein.
    exists s. split; [reflexivity|]. split; [exists x; auto 10|].
    repeat (split; [reflexivity|]). split; [auto|].
    exists x, x. repeat (split; [done|]). intros e. split; [auto|].
    intros [?| ->]; done.
  - apply bool_decide_eq_false in Ein.
    assert (Hdn : d ∉ newDeps x) by (intros ?; apply Ein, Hnid; done).
    unfold putWatcher, when. cbn.
    set (x' := mkWatcher (vm x) (deep x) (user x) (lazy x) (sync x) (dirty x)
                 (active x) (deps x) (newDeps x ++ [d]) (depIds x)
                 ({[d]} ∪ newDepIds x) (value_ x)).
    destruct (bool_decide (d ∈ depIds x)) eqn:Eold; cbn.
    + apply bool_decide_eq_true in Eold. apply Hid in Eold.
      eexists. split; [reflexivity|]. cbn.
      split.
      { exists x'. cbn. rewrite lookup_insert_eq. split; [done|].
        split; [done|]. split.
        { apply NoDup_app. split; [done|]. split; [|apply NoDup_singleton].
          intros e He Hed. apply list_elem_of_singleton in Hed. subst. done. }
        split; [done|]. split.
        { intros e. rewrite elem_of_union, elem_of_singleton, elem_of_app,
            list_elem_of_singleton, Hnid. tauto. }
        split.
        { intros e [He|He]; [apply Hex; auto|].
          apply elem_of_app in He as [He|He]; [apply Hex; auto|].
          apply list_elem_of_singleton in He. subst. eauto. }
        intros e ep Hep. rewrite (Hcnt e ep Hep).
        erewrite bool_decide_ext; [reflexivity|].
        rewrite elem_of_app, list_elem_of_singleton.
        split; [tauto|]. intros [?|[?| ->]]; auto. }
      repeat (split; [reflexivity|]). split; [auto|].
      exists x, x'. cbn. rewrite lookup_insert_eq.
      repeat (split; [done|]). split.
      { apply elem_of_app. right. by apply list_elem_of_singleton. }
      intros e. rewrite elem_of_app, list_elem_of_singleton. tauto.
    + apply bool_decide_eq_false in Eold.
      assert (Hdo : d ∉ deps x) by (intros ?; apply Eold, Hid; done).
      unfold addSub, bind, getDep, putDep. cbn. rewrite Hdp.
      eexists. split; [reflexivity|]. cbn.
      split.
      { exists x'. cbn. rewrite lookup_insert_eq. split; [done|].
        split; [done|]. split.
        { apply NoDup_app. split; [done|]. split; [|apply NoDup_singleton].
          intros e He Hed. apply list_elem_of_singleton in Hed. subst. done. }
        split; [done|]. split.
        { intros e. rewrite elem_of_union, elem_of_singleton, elem_of_app,
            list_elem_of_singleton, Hnid. tauto. }
        split.
        { intros e He. destruct (decide (e = d)) as [->|Hne].
          - rewrite lookup_insert_eq. eauto.
          - rewrite lookup_insert_ne by done. apply Hex.
            destruct He as [He|He]; [auto|].
            apply elem_of_app in He as [He|He]; [auto|].
            apply list_elem_of_singleton in He. done. }
        intros e ep. destruct (decide (e = d)) as [->|Hne].
        - rewrite lookup_insert_eq. intros [= <-]. cbn.
          rewrite count_app_one, (Hcnt d dp Hdp).
          rewrite (bool_decide_eq_false_2 (d ∈ deps x ∨ d ∈ newDeps x)) by tauto.
          rewrite bool_decide_eq_true_2; [done|].
          right. apply elem_of_app. right. by apply list_elem_of_singleton.
        - rewrite lookup_insert_ne by done. intros Hep. rewrite (Hcnt e ep Hep).
          erewrite bool_decide_ext; [reflexivity|].
          rewrite elem_of_app, list_elem_of_singleton. tauto. }
      repeat (split; [reflexivity|]). split.
      { intros e He. destruct (decide (e = d)) as [->|Hne].
        - rewrite lookup_insert_eq. eauto.
        - by rewrite lookup_insert_ne. }
      exists x, x'. cbn. rewrite lookup_insert_eq.
      repeat (split; [done|]). split.
      { apply elem_of_app. right. by apply list_elem_of_singleton. }
      intros e. rewrite elem_of_app, list_elem_of_singleton. tauto.
Qed.

Lemma elem_of_rev {A} (x : A) (l : list A) : x ∈ rev l <-> x ∈ l.
Proof. rewrite !list_elem_of_In. symmetry. apply in_rev. Qed.

Lemma NoDup_rev' {A} (l : list A) : NoDup l -> NoDup (rev l).
Proof. rewrite !NoDup_ListNoDup. apply NoDup_rev. Qed.

Lemma removeSub_eq (d w : nat) (s : RState) (dp : Dep) :
  depStore s !! d = Some dp ->
  removeSub d w s = Ok tt (set_depStore s (<[d := mkDep (remove (subs dp) w)]> (depStore s))).
Proof. intros H. unfold removeSub, bind, getDep, putDep. rewrite H. reflexivity. Qed.

(* the loop of cleanupDeps *)
Lemma prune_loop (w : nat) (nd : gset nat) (l : list nat) (s : RState) :
  NoDup l ->
  (forall d, d ∈ l -> is_Some (depStore s !! d)) ->
  exists ds,
    forEach l (fun d => when (negb (bool_decide (d ∈ nd))) (removeSub d w)) s
      = Ok tt (set_depStore s ds) /\
    forall d,
      ds !! d =
      if bool_decide (d ∈ l /\ d ∉ nd)
      then (fun dp => mkDep (remove (subs dp) w)) <$> depStore s !! d
      else depStore s !! d.
Proof.
  revert s. induction l as [|a l IH]; intros s Hnd Hex.
  - exists (depStore s). split; [destruct s; reflexivity|].
    intros d. rewrite bool_decide_eq_false_2; [done|]. intros [H _]. inversion H.
  - apply NoDup_cons in Hnd as [Ha Hnd].
    destruct (Hex a) as [dp Hdp]; [left|].
    cbn [forEach]. unfold bind at 1.
    destruct (bool_decide (a ∈ nd)) eqn:Ea; cbn [negb when].
    + apply bool_decide_eq_true in Ea. unfold ret at 1.
      destruct (IH s Hnd) as (ds & Hrun & Hds).
      { intros d Hd. apply Hex. by right. }
      exists ds. split; [exact Hrun|]. intros d. rewrite Hds.
      destruct (decide (d = a)) as [->|Hne].
      * rewrite !bool_decide_eq_false_2; [done|tauto|tauto].
      * erewrite bool_decide_ext; [reflexivity|]. rewrite elem_of_cons. tauto.
    + apply bool_decide_eq_false in Ea.
      rewrite (removeSub_eq a w s dp Hdp).
      set (s1 := set_depStore s (<[a:=mkDep (remove (subs dp) w)]> (depStore s))).
      destruct (IH s1 Hnd) as (ds & Hrun & Hds).
      { intros d Hd. cbn. destruct (decide (d = a)) as [->|Hne].
        - rewrite lookup_insert_eq. eauto.
        - rewrite lookup_insert_ne by done. apply Hex. by right. }
      exists ds. split; [rewrite Hrun; destruct s; reflexivity|].
      intros d. rewrite Hds. cbn.
      destruct (decide (d = a)) as [->|Hne].
      * rewrite lookup_insert_eq, Hdp.
        rewrite (bool_decide_eq_false_2 (a ∈ l ∧ a ∉ nd)) by tauto.
        rewrite bool_decide_eq_true_2; [done|]. split; [left|done].
      * rewrite lookup_insert_ne by done.
        erewrite bool_decide_ext; [reflexivity|]. rewrite elem_of_cons. tauto.
Qed.

Lemma cleanupDeps_ok (w : nat) (s : RState) (x : Watcher) :
  subscribed w s ->
  watchers s !! w = Some x ->
  exists s' x',
    cleanupDeps w s = Ok tt s' /\
    subscribed w s' /\
    watchers s' !! w = Some x' /\
    deps x' = newDeps x /\ depIds x' = newDepIds x /\
    newDeps x' = [] /\ newDepIds x' = ∅ /\
    value_ x' = value_ x /\ active x' = active x /\ deep x' = deep x /\
    user x' = user x /\
    target s' = target s /\ targetStack s' = targetStack s /\
    rlog s' = rlog s /\ heap s' = heap s /\
    (forall e, is_Some (depStore s !! e) <-> is_Some (depStore s' !! e)).
Proof.
  intros (x0 & Hx0 & Hnd & Hnn & Hid & Hnid & Hex & Hcnt) Hx.
  assert (x0 = x) by congruence. subst x0.
  unfold cleanupDeps. unfold bind at 1. unfold getWatcher at 1. rewrite Hx.
  unfold bind at 1.
  destruct (prune_loop w (newDepIds x) (rev (deps x)) s) as (ds & Hrun & Hds).
  { by apply NoDup_rev'. }
  { intros d Hd. apply Hex. left. by apply (proj1 (elem_of_rev _ _)). }
  rewrite Hrun. unfold bind, getWatcher. cbn. rewrite Hx. unfold putWatcher.
  eexists _, _. split; [reflexivity|]. cbn. rewrite lookup_insert_eq. cbn.
  assert (Hsome : forall e, is_Some (depStore s !! e) <-> is_Some (ds !! e)).
  { intros e. rewrite Hds. destruct (bool_decide _); [|done].
    by rewrite fmap_is_Some. }
  split; [|repeat (split; [reflexivity|]); exact Hsome].
  eexists. cbn. rewrite lookup_insert_eq. split; [reflexivity|]. cbn.
  split; [done|]. split; [apply NoDup_nil_2|]. split; [done|].
  split; [intros d; split; intros Hd; [by apply elem_of_empty in Hd|inversion Hd]|].
  split.
  { intros d [Hd|Hd]; [|inversion Hd]. apply Hsome, Hex. by right. }
  intros d dp. rewrite Hds.
  destruct (bool_decide (d ∈ rev (deps x) ∧ d ∉ newDepIds x)) eqn:Ep.
  - apply bool_decide_eq_true in Ep as [Hd Hn]. apply (proj1 (elem_of_rev _ _)) in Hd.
    destruct (depStore s !! d) as [dp0|] eqn:Edp; [|discriminate].
    cbn. intros [= <-]. cbn. rewrite count_remove_same, (Hcnt d dp0 Edp).
    rewrite bool_decide_eq_true_2 by (left; exact Hd).
    rewrite bool_decide_eq_false_2; [done|].
    intros [Hc|Hc]; [by apply Hn, Hnid|inversion Hc].
  - apply bool_decide_eq_false in Ep. intros Hdp. rewrite (Hcnt d dp Hdp).
    destruct (decide (d ∈ newDeps x)) as [Hin|Hout].
    + rewrite !bool_decide_eq_true_2; auto.
    + destruct (decide (d ∈ deps x)) as [Hin2|Hout2].
      * exfalso. apply Ep. split; [by apply (proj2 (elem_of_rev _ _))|].
        intros Hc. by apply Hout, Hnid.
      * rewrite !bool_decide_eq_false_2; [done| |tauto].
        intros [Hc|Hc]; [done|inversion Hc].
Qed.

Lemma subscribed_ext (w : nat) (s s' : RState) :
  watchers s' = watchers s -> depStore s' = depStore s ->
  subscribed w s -> subscribed w s'.
Proof. unfold subscribed. intros -> ->. done. Qed.



Lemma subscribed_intro (w : nat) (s : RState) (x : Watcher) :
  watchers s !! w = Some x ->
  NoDup (deps x) -> NoDup (newDeps x) ->
  depIds x = list_to_set (deps x) ->
  newDepIds x = list_to_set (newDeps x) ->
  Forall (fun d => is_Some (depStore s !! d)) (deps x ++ newDeps x) ->
  map_Forall (fun d dp =>
                count_occ Nat.eq_dec (subs dp) w =
                if bool_decide (d ∈ deps x \/ d ∈ newDeps x) then 1%nat else 0%nat)
             (depStore s) ->
  subscribed w s.
Proof.
  intros Hx Hnd Hnn Hid Hnid Hex Hcnt. exists x.
  split; [done|]. split; [done|]. split; [done|].
  split; [intros d; rewrite Hid; apply elem_of_list_to_set|].
  split; [intros d; rewrite Hnid; apply elem_of_list_to_set|].
  split.
  - intros d Hd. rewrite Forall_forall in Hex. apply Hex.
    apply elem_of_app. exact Hd.
  - intros d dp Hdp. exact (Hcnt d dp Hdp).
Qed.

Section Claims.

Context `{Env} `{UserCode}.

(** C3.  [cleanupDeps] unsubscribes the watcher from every dependency
    node of the previous evaluation ([deps]) that was not read in this
    one (not in [newDeps]), makes the new set the current one and
    clears the working set; a later [notify()] on such a node calls
    [update()] on the watchers of its list, and the watcher is not
    among them. *)
Theorem cleanupDeps_unsubscribes_stale (fuel : nat) (w : nat) (s : RState)
    (x : Watcher) :
  subscribed w s ->
  watchers s !! w = Some x ->
  exists s' x',
    cleanupDeps w s = Ok tt s' /\
    watchers s' !! w = Some x' /\
    deps x' = newDeps x /\ depIds x' = newDepIds x /\
    newDeps x' = [] /\ newDepIds x' = ∅ /\
    forall d, d ∈ deps x -> d ∉ newDeps x ->
      exists dp,
        depStore s' !! d = Some dp /\
        (w ∉ subs dp) /\
        (w ∉ notifyList dp) /\
        notify fuel d s' = forEach (notifyList dp) (update fuel) s'.
Proof.
  intros Hsub Hx.
  destruct (cleanupDeps_ok w s x Hsub Hx) as
    (s' & x' & Hrun & Hsub' & Hx' & Hd & Hid & Hn & Hnid & _ & _ & _ & _ & _ & _ & _ & _ & Hex).
  exists s', x'. repeat (split; [assumption|]).
  intros d Hin Hout.
  destruct Hsub as (x0 & Hx0 & _ & _ & _ & _ & Hex0 & _).
  assert (x0 = x) by congruence. subst x0.
  destruct (proj1 (Hex d)) as [dp Hdp]; [apply Hex0; by left|].
  destruct Hsub' as (x1 & Hx1 & _ & _ & _ & _ & _ & Hcnt).
  assert (x1 = x') by congruence. subst x1.
  specialize (Hcnt d dp Hdp).
  rewrite bool_decide_eq_false_2 in Hcnt.
  2:{ rewrite Hd, Hn. intros [Hc|Hc]; [done|inversion Hc]. }
  exists dp. split; [exact Hdp|]. split; [by apply count_zero_not_elem|].
  split.
  - apply count_zero_not_elem. by rewrite count_notifyList.
  - unfold notify, bind, getDep. rewrite Hdp. reflexivity.
Qed.



End Claims.

Lemma staleState_subscribed : subscribed 5 staleState.
Proof.
  eapply subscribed_intro;
    [reflexivity | | | reflexivity | reflexivity | |]; compute_done.
Qed.


Lemma cleanupDeps_unsubscribes_stale_witness :
  exists s' x',
    cleanupDeps 5 staleState = Ok tt s' /\
    watchers s' !! 5%nat = Some x' /\
    deps x' = newDeps staleWatcher /\ depIds x' = newDepIds staleWatcher /\
    newDeps x' = [] /\ newDepIds x' = ∅ /\
    forall d, d ∈ deps staleWatcher -> d ∉ newDeps staleWatcher ->
      exists dp,
        depStore s' !! d = Some dp /\
        (5%nat ∉ subs dp) /\
        (5%nat ∉ @notifyList hostEnv dp) /\
        @notify hostEnv (readingCode [] VUndef) 1 d s' =
        forEach (@notifyList hostEnv dp)
                (@update (readingCode [] VUndef) 1) s'.
Proof.
  apply (@cleanupDeps_unsubscribes_stale hostEnv (readingCode [] VUndef)
           1%nat 5%nat staleState staleWatcher);
    [exact staleState_subscribed | reflexivity].
Defined.



Section MoreClaims.

Context `{Env} `{UserCode}.

Lemma forEach_removeSub_watchers (w : nat) (l : list nat) (s s' : RState) :
  forEach l (fun d => removeSub d w) s = Ok tt s' ->
  watchers s' = watchers s /\ rlog s' = rlog s.
Proof.
  revert s. induction l as [|d l IH]; intros s; cbn [forEach].
  - intros [= <-]. done.
  - unfold bind at 1. unfold removeSub at 1. unfold bind, getDep, putDep.
    destruct (depStore s !! d) as [dp|]; [|discriminate].
    intros Hrun. apply IH in Hrun as [-> ->]. done.
Qed.

Lemma teardown_inactive (w : nat) (s0 s : RState) :
  teardown w s0 = Ok tt s ->
  exists x, watchers s !! w = Some x /\ active x = false.
Proof.
  unfold teardown. unfold bind at 1. unfold getWatcher at 1.
  destruct (watchers s0 !! w) as [x0|] eqn:Hx0; [|discriminate].
  destruct (active x0) eqn:Ha.
  - unfold bind at 1. cbv beta.
    destruct (vms s0 !! vm x0) as [v|]; [|discriminate].
    set (s1 := if _isBeingDestroyed v then s0
               else set_vms s0 (<[vm x0 := mkVm (remove (_watchers v) w)
                                                (_isBeingDestroyed v)]> (vms s0))).
    assert (Hs1 : (if _isBeingDestroyed v then Ok tt s0
                   else Ok tt (set_vms s0 (<[vm x0 := mkVm (remove (_watchers v) w)
                                                (_isBeingDestroyed v)]> (vms s0))))
                  = Ok tt s1) by (unfold s1; destruct (_isBeingDestroyed v); reflexivity).
    rewrite Hs1.
    assert (Hw1 : watchers s1 = watchers s0)
      by (unfold s1; destruct (_isBeingDestroyed v); reflexivity).
    unfold bind at 1.
    destruct (forEach _ _ s1) as [[] s2| |] eqn:Hloop; [|discriminate..].
    apply forEach_removeSub_watchers in Hloop as [Hw2 _].
    unfold bind, getWatcher. rewrite Hw2, Hw1, Hx0. unfold putWatcher.
    intros [= <-]. eexists. cbn. rewrite lookup_insert_eq. done.
  - intros [= <-]. eauto.
Qed.

(** C10.  [run()] on an inactive watcher does nothing.  On an active
    watcher it re-evaluates, and then replaces the stored value and
    invokes the callback with the new and the old value exactly when
    the new value is not strictly equal to the stored one, or is an
    object, or the watcher is deep (an exception of the callback of a
    user watcher is handed to [handleError]); otherwise the state is the
    one the evaluation left.  After [teardown()], [run()] does
    nothing. *)
Theorem run_fires_on_change (fuel : nat) (w : nat) (s : RState) (x : Watcher) :
  watchers s !! w = Some x ->
  (active x = false -> run fuel w s = Ok tt s) /\
  (active x = true ->
   forall v s1 x1,
     get fuel w s = Ok v s1 ->
     watchers s1 !! w = Some x1 ->
     let fires := strict_neq v (value_ x1) || isObject v || deep x1 in
     let s2 := set_watchers s1 (<[w := set_value x1 v]> (watchers s1)) in
     (fires = false -> run fuel w s = Ok tt s1) /\
     (fires = true ->
      run fuel w s =
      match callCb w v (value_ x1) s2 with
      | Throw s3 =>
          if user x1 then handleError w (callbackInfo w) s3 else Throw s3
      | other => other
      end)) /\
  (forall s0, teardown w s0 = Ok tt s -> run fuel w s = Ok tt s).
Proof.
  intros Hx. split; [|split].
  - intros Ha. unfold run, bind, getWatcher. rewrite Hx, Ha. reflexivity.
  - intros Ha v s1 x1 Hget Hx1 fires s2.
    assert (Hrun : run fuel w s =
              (if fires then
                 putWatcher w (set_value x1 v) ;;
                 (if user x1 then
                    fun s => match callCb w v (value_ x1) s with
                             | Throw s1 => handleError w (callbackInfo w) s1
                             | other => other
                             end
                  else callCb w v (value_ x1))
               else ret tt) s1).
    { unfold run. unfold bind at 1. unfold getWatcher at 1. rewrite Hx, Ha.
      unfold bind at 1. rewrite Hget. unfold bind at 1. unfold getWatcher at 1.
      rewrite Hx1. reflexivity. }
    rewrite Hrun. split; intros Hf; rewrite Hf; [reflexivity|].
    unfold bind, putWatcher. fold s2.
    destruct (user x1); [reflexivity|].
    destruct (callCb w v (value_ x1) s2); reflexivity.
  - intros s0 Ht. apply teardown_inactive in Ht as (x' & Hx' & Ha).
    unfold run, bind, getWatcher. rewrite Hx', Ha. reflexivity.
Qed.

(** C2.  When the new value is strictly equal to the current value of
    the property, or both are [NaN], [reactiveSetter] returns in the
    state in which it read the current value: nothing is stored and
    [notify()] is not called.  For a property without an accessor of
    its own this is the state it was called in. *)
Theorem reactiveSetter_same_value_noop (fuel : nat) (obj : nat) (k : string)
    (newVal value : value) (s s1 : RState) (o : Obj) (c : PropCell) (dep : nat) :
  heap s !! obj = Some o ->
  lookupProp k (o_props o) = Some c ->
  p_dep c = Some dep ->
  match p_getter c with
  | Some g => accessorGet g obj
  | None => ret (p_val c)
  end s = Ok value s1 ->
  strict_eq newVal value = true \/ (newVal = VNum NaN /\ value = VNum NaN) ->
  reactiveSetter fuel obj k newVal s = Ok tt s1 /\
  (p_getter c = None -> s1 = s).
Proof.
  intros Ho Hc Hd Hv Hsame. split.
  - unfold reactiveSetter. unfold bind at 1. unfold getObj at 1. rewrite Ho.
    unfold bind at 1. rewrite Hc. unfold lift at 1, ret at 1.
    unfold bind at 1. rewrite Hd. unfold lift at 1, ret at 1.
    unfold bind at 1. rewrite Hv.
    destruct Hsame as [-> | [-> ->]]; reflexivity.
  - intros Hg. rewrite Hg in Hv. injection Hv as _ <-. reflexivity.
Qed.

Lemma bind_eq {A B} (m : R A) (k1 k2 : A -> R B) (s : RState) :
  (forall a s', m s = Ok a s' -> k1 a s' = k2 a s') ->
  bind m k1 s = bind m k2 s.
Proof. intros Hk. unfold bind. destruct (m s); auto. Qed.

Lemma original_keeps_ob (m : method) (a : nat) (args : list value)
    (s s' : RState) (o : Obj) (r : value) :
  heap s !! a = Some o ->
  original m a args s = Ok r s' ->
  exists o', heap s' !! a = Some o' /\ o_ob o' = o_ob o.
Proof.
  intros Ho. unfold original, bind, getObj. rewrite Ho.
  destruct m; unfold storeElems, throw, putObj, ret; cbn -[Z.ltb maxArrayLength].
  - destruct (_ && _); [discriminate|].
    intros [= _ <-]. cbn. rewrite lookup_insert_eq. eauto.
  - destruct (last (o_elems o)); intros [= _ <-]; cbn;
      [rewrite lookup_insert_eq|]; eauto.
  - destruct (o_elems o); intros [= _ <-]; cbn;
      [|rewrite lookup_insert_eq]; eauto.
  - destruct (_ && _); [discriminate|].
    intros [= _ <-]. cbn. rewrite lookup_insert_eq. eauto.
  - destruct (_ && _); [discriminate|].
    unfold allocArray. cbn. intros [= _ <-]. cbn.
    rewrite lookup_insert_ne.
    + rewrite lookup_insert_eq. eauto.
    + intros Heq.
      pose proof (is_fresh (dom (<[a:=set_elems o
         (take (Z.to_nat (spliceStart (Z.of_nat (length (o_elems o))) args)) (o_elems o) ++
          drop 2 args ++
          drop (Z.to_nat (spliceStart (Z.of_nat (length (o_elems o))) args) +
                Z.to_nat (spliceDeleteCount (Z.of_nat (length (o_elems o))) args))
               (o_elems o))]> (heap s)))) as Hf.
      rewrite Heq in Hf. apply Hf. rewrite dom_insert. set_solver.
  - intros [= _ <-]. cbn. rewrite lookup_insert_eq. eauto.
  - intros [= _ <-]. cbn. rewrite lookup_insert_eq. eauto.
Qed.

(** C8.  On an observed array, [mutator] is: the original array
    method; then [observe] on each inserted element (the arguments of
    [push] and [unshift], the arguments of [splice] after the second,
    none for the other methods); then one [notify()] on the dependency
    node of the array's observer; and the result of the original method
    is returned. *)
Theorem mutator_observes_inserted_and_notifies_once (fuel : nat) (m : method)
    (this : nat) (args : list value) (s : RState) (o : Obj) (ob : Observer) :
  heap s !! this = Some o ->
  o_ob o = Some ob ->
  mutator fuel m this args s =
  (do result <- original m this args;
   forEach (match m with
            | Push | Unshift => args
            | Splice => drop 2 args
            | Pop | Shift | Sort | Reverse => []
            end)
           (fun e => do _ <- observe fuel e false; ret tt) ;;
   notify fuel (ob_dep ob) ;;
   ret result) s.
Proof.
  intros Ho Hob. unfold mutator. apply bind_eq. intros r s1 Horig.
  destruct (original_keeps_ob m this args s s1 o r Ho Horig) as (o' & Ho' & Hob').
  unfold bind at 1. unfold getObj at 1. rewrite Ho', Hob', Hob.
  destruct m; reflexivity.
Qed.

(** C9 (as amended).  [set(target, key, val)] on a Vue instance or on
    a root data object (a plain object whose observer has a non-zero
    [vmCount]), for a key that is not in the target, returns [val] and
    changes nothing but the log: outside production it appends one
    warning, in production it appends nothing. *)
Theorem set_on_root_leaves_target (fuel : nat) (a : nat) (key_ val : value)
    (s : RState) (o : Obj) :
  heap s !! a = Some o ->
  o_kind o = KVue \/
  (o_kind o = KPlain /\ exists ob, o_ob o = Some ob /\ vmCount ob <> 0%nat) ->
  hasProperty o (propertyKey key_) = false ->
  set fuel (VRef a) key_ val s =
  Ok val (if production then s else set_rlog s (rlog s ++ [EvWarn rootWarning])).
Proof.
  intros Ho Hroot Hin. unfold set.
  unfold bind at 1. unfold when at 1. cbn [isUndef isPrimitive orb].
  rewrite Bool.andb_false_r. unfold ret at 1.
  unfold bind at 1. unfold getObj at 1. rewrite Ho.
  assert (Hk : bool_decide (o_kind o = KArray) = false).
  { apply bool_decide_eq_false. destruct Hroot as [->|[-> _]]; discriminate. }
  rewrite Hk, Hin. cbn [andb].
  assert (Hr : bool_decide (o_kind o = KVue)
               || match o_ob o with
                  | Some b => negb (Nat.eqb (vmCount b) 0)
                  | None => false
                  end = true).
  { destruct Hroot as [->|[_ (ob & -> & Hn)]]; [reflexivity|].
    apply Bool.orb_true_iff. right. apply Bool.negb_true_iff.
    by apply Nat.eqb_neq. }
  rewrite Hr. destruct production; cbn; [reflexivity|].
  unfold bind, warn, emit, ret. reflexivity.
Qed.

End MoreClaims.

Lemma run_fires_on_change_witness :
  let code := readingCode [0%nat] (VNum (Num 1)) in
  (active rootWatcher = false -> @run code 1 5 rootState = Ok tt rootState) /\
  (active rootWatcher = true ->
   forall v s1 x1,
     @get code 1 5 rootState = Ok v s1 ->
     watchers s1 !! 5%nat = Some x1 ->
     let fires := strict_neq v (value_ x1) || isObject v || deep x1 in
     let s2 := set_watchers s1 (<[5%nat := set_value x1 v]> (watchers s1)) in
     (fires = false -> @run code 1 5 rootState = Ok tt s1) /\
     (fires = true ->
      @run code 1 5 rootState =
      match @callCb code 5 v (value_ x1) s2 with
      | Throw s3 =>
          if user x1 then handleError 5 (callbackInfo 5) s3 else Throw s3
      | other => other
      end)) /\
  (forall s0, teardown 5 s0 = Ok tt rootState ->
              @run code 1 5 rootState = Ok tt rootState).
Proof.
  apply (@run_fires_on_change (readingCode [0%nat] (VNum (Num 1)))
           1%nat 5%nat rootState rootWatcher).
  reflexivity.
Defined.

Lemma reactiveSetter_same_value_noop_witness :
  @reactiveSetter hostEnv (readingCode [] VUndef) 1 1 "count" (VNum (Num 0))
                  rootState = Ok tt rootState /\
  (p_getter (mkProp (VNum (Num 0)) (Some 0%nat) None false None None true false)
     = None -> rootState = rootState).
Proof.
  apply (@reactiveSetter_same_value_noop hostEnv (readingCode [] VUndef)
           1%nat 1%nat "count"%string (VNum (Num 0)) (VNum (Num 0))
           rootState rootState rootData
           (mkProp (VNum (Num 0)) (Some 0%nat) None false None None true false)
           0%nat);
    [reflexivity | reflexivity | reflexivity | reflexivity
    | left; reflexivity].
Defined.

Lemma mutator_observes_inserted_and_notifies_once_witness :
  @mutator hostEnv (readingCode [] VUndef) 2 Push 2 [VNum (Num 2)] rootState =
  (do result <- @original hostEnv Push 2 [VNum (Num 2)];
   forEach [VNum (Num 2)]
           (fun e => do _ <- @observe hostEnv (readingCode [] VUndef) 2 e false;
                     ret tt) ;;
   @notify hostEnv (readingCode [] VUndef) 2 (ob_dep (mkObserver 2 0)) ;;
   ret result) rootState.
Proof.
  apply (@mutator_observes_inserted_and_notifies_once hostEnv
           (readingCode [] VUndef) 2%nat Push 2%nat [VNum (Num 2)] rootState
           observedArray (mkObserver 2 0));
    reflexivity.
Defined.

Lemma set_on_root_leaves_target_witness :
  @set hostEnv (readingCode [] VUndef) 2 (VRef 1) (VStr "extra") (VNum (Num 1))
       rootState =
  Ok (VNum (Num 1))
     (if @production hostEnv then rootState
      else set_rlog rootState (rlog rootState ++ [EvWarn rootWarning])).
Proof.
  apply (@set_on_root_leaves_target hostEnv (readingCode [] VUndef) 2%nat 1%nat
           (VStr "extra") (VNum (Num 1)) rootState rootData);
    [reflexivity
    | right; split; [reflexivity | exists (mkObserver 1 1); split;
                                     [reflexivity | simpl; lia]]
    | reflexivity].
Defined.

(** C9, counterexample.  In a production build the same call on the
    root data object returns [val] and leaves the log empty: no warning
    is emitted. *)
Lemma set_on_root_silent_in_production :
  exists s',
    @set productionEnv (readingCode [] VUndef) 2 (VRef 1) (VStr "extra")
         (VNum (Num 1)) rootState = Ok (VNum (Num 1)) s' /\
    rlog s' = [].
Proof.
  exists rootState. split; reflexivity.
Qed.

End ReactiveFacts.

(** * Further properties of the virtual-DOM reconciler *)

Module VDomMore.
Import JS VDom JSFacts VDomFacts.

Lemma strict_eq_comm (a b : value) : strict_eq a b = strict_eq b a.
Proof.
  destruct a as [| |x|[|x]|x|x], b as [| |y|[|y]|y|y]; cbn; try reflexivity.
  - by destruct x, y.
  - apply Z.eqb_sym.
  - apply String.eqb_sym.
  - apply Nat.eqb_sym.
Qed.

Lemma bool_eqb_comm (x y : bool) : Bool.eqb x y = Bool.eqb y x.
Proof. by destruct x, y. Qed.

Lemma strict_eq_trans (a b c : value) :
  strict_eq a b = true -> strict_eq b c = true -> strict_eq a c = true.
Proof.
  intros [E1 _]%strict_eq_spec H2. by subst b.
Qed.

(** Among nodes that are not async placeholders [sameVnode] never
    throws and is a partial equivalence: it is symmetric, and
    transitive.  (A node with a [NaN] key is the same as no node, itself
    included.) *)
Theorem sameVnode_partial_equivalence (isT : value -> bool) (a b c : VNode) :
  isAsyncPlaceholder a = false ->
  isAsyncPlaceholder b = false ->
  sameVnode isT a b = sameVnode isT b a /\
  is_Some (sameVnode isT a b) /\
  (sameVnode isT a b = Some true -> sameVnode isT b c = Some true ->
   sameVnode isT a c = Some true).
Proof.
  intros Ha Hb.
  assert (Hsym : forall x y, sameInputType isT x y && strict_eq (ostr (tag x)) (ostr (tag y))
                             = sameInputType isT y x && strict_eq (ostr (tag x)) (ostr (tag y))).
  { intros x y. destruct (strict_eq (ostr (tag x)) (ostr (tag y))) eqn:E;
      [|by rewrite !andb_false_r].
    rewrite !andb_true_r. apply ostr_eq in E. unfold sameInputType. rewrite E.
    destruct (negb _); [done|].
    by rewrite (strict_eq_comm (inputTypeOf x)), (andb_comm (isT (inputTypeOf x))). }
  split; [|split].
  - unfold sameVnode. rewrite Ha, Hb. cbn [andb].
    rewrite (strict_eq_comm (key a)).
    destruct (strict_eq (key b) (key a)); [|done].
    rewrite (strict_eq_comm (ostr (tag a))).
    rewrite (bool_eqb_comm (isComment a)).
    rewrite (bool_eqb_comm (bool_decide (is_Some (data a)))).
    specialize (Hsym a b). rewrite (strict_eq_comm (ostr (tag a))) in Hsym.
    destruct (strict_eq (ostr (tag b)) (ostr (tag a))); cbn [andb]; [|done].
    rewrite !andb_true_r in Hsym. by rewrite Hsym.
  - unfold sameVnode. rewrite Ha. cbn [andb].
    destruct (strict_eq (key a) (key b)); [|eauto].
    destruct (_ && _ && _ && _); eauto.
  - unfold sameVnode. rewrite Ha, Hb. cbn [andb].
    destruct (strict_eq (key a) (key b)) eqn:K1; [|discriminate].
    destruct (strict_eq (key b) (key c)) eqn:K2; [|discriminate].
    rewrite (strict_eq_trans _ _ _ K1 K2).
    destruct (strict_eq (ostr (tag a)) (ostr (tag b))) eqn:T1; [|discriminate].
    destruct (strict_eq (ostr (tag b)) (ostr (tag c))) eqn:T2; [|discriminate].
    rewrite (strict_eq_trans _ _ _ T1 T2). cbn [andb].
    destruct (Bool.eqb (isComment a) (isComment b)) eqn:C1; [|discriminate].
    destruct (Bool.eqb (isComment b) (isComment c)) eqn:C2; [|discriminate].
    apply Bool.eqb_prop in C1, C2. rewrite C1, C2, Bool.eqb_reflx. cbn [andb].
    destruct (Bool.eqb (bool_decide (is_Some (data a))) (bool_decide (is_Some (data b)))) eqn:D1;
      [|discriminate].
    destruct (Bool.eqb (bool_decide (is_Some (data b))) (bool_decide (is_Some (data c)))) eqn:D2;
      [|discriminate].
    apply Bool.eqb_prop in D1, D2. rewrite D1, D2, Bool.eqb_reflx. cbn [andb].
    destruct (sameInputType isT a b) eqn:I1; [|discriminate].
    destruct (sameInputType isT b c) eqn:I2; [|discriminate].
    intros _ _.
    assert (I3 : sameInputType isT a c = true).
    { apply ostr_eq in T1. unfold sameInputType in *. rewrite <- T1 in I2.
      destruct (negb (strict_eq (ostr (tag a)) (VStr "input"))); [done|].
      apply orb_true_iff in I1, I2. apply orb_true_iff.
      destruct I1 as [I1|[I1a I1b]%andb_true_iff], I2 as [I2|[I2a I2b]%andb_true_iff].
      - left. by eapply strict_eq_trans.
      - right. apply strict_eq_spec in I1 as [-> _]. by rewrite I2a, I2b.
      - right. apply strict_eq_spec in I2 as [<- _]. by rewrite I1a, I1b.
      - right. by rewrite I1a, I2b. }
    by rewrite I3.
Qed.

Section KeyTable.

Lemma createKeyToOldIdxFrom_last (ch : list (option VNode)) (n : nat) (i : Z)
    (m : gmap string Z) :
  (forall j, i <= j < i + Z.of_nat n -> is_Some (mjoin (at_ ch j))) ->
  exists t,
    createKeyToOldIdxFrom n ch i m = Some t /\
    forall k x, t !! k = Some x <->
      (k <> "__proto__"%string /\ i <= x < i + Z.of_nat n /\ hasKeyAt ch x k /\
       forall j, x < j < i + Z.of_nat n -> ~ hasKeyAt ch j k) \/
      (m !! k = Some x /\
       (k = "__proto__"%string \/
        forall j, i <= j < i + Z.of_nat n -> ~ hasKeyAt ch j k)).
Proof.
  revert i m. induction n as [|n IH]; intros i m Hdef.
  - exists m. split; [reflexivity|]. intros k x. split.
    + intros Hm. right. split; [done|]. right. intros j Hj. lia.
    + intros [(_ & Hx & _)|[Hm _]]; [lia|done].
  - cbn [createKeyToOldIdxFrom].
    destruct (Hdef i) as [c Hc]; [lia|]. rewrite Hc.
    set (m' := if isDef (key c) then assignKey (toPropertyKey (key c)) i m else m).
    destruct (IH (i + 1) m') as (t & Hrun & Ht).
    { intros j Hj. apply Hdef. lia. }
    exists t. split; [exact Hrun|]. intros k x. rewrite Ht. clear Ht Hrun IH.
    assert (Hi : hasKeyAt ch i k <-> isDef (key c) = true /\ toPropertyKey (key c) = k).
    { split.
      - intros (c' & Hc' & ? & ?). assert (c' = c) by congruence. by subst c'.
      - intros [? ?]. by exists c. }
    assert (Hm' : m' !! k =
              if bool_decide (k <> "__proto__"%string /\ isDef (key c) = true /\
                              toPropertyKey (key c) = k)
              then Some i else m !! k).
    { unfold m', assignKey. destruct (isDef (key c)) eqn:Hd.
      - destruct (String.eqb_spec (toPropertyKey (key c)) "__proto__") as [E|E].
        + rewrite bool_decide_eq_false_2; [done|]. intros (Hk & _ & Hk'). congruence.
        + destruct (decide (toPropertyKey (key c) = k)) as [<-|Hne].
          * rewrite lookup_insert_eq. by rewrite bool_decide_eq_true_2.
          * rewrite lookup_insert_ne by done.
            rewrite bool_decide_eq_false_2; [done|]. intros (_ & _ & ?). done.
      - rewrite bool_decide_eq_false_2; [done|]. intros (_ & ? & _). done. }
    rewrite Hm'. case_bool_decide as HP.
    + destruct HP as (Hkp & Hd & Hk).
      assert (HiT : hasKeyAt ch i k) by (by apply Hi).
      split.
      * intros [(_ & Hx & Hk' & Hlater)|[Hm Hnone]].
        -- left. split; [done|]. split; [lia|]. split; [done|].
           intros j Hj. apply Hlater. lia.
        -- injection Hm as <-. destruct Hnone as [?|Hnone]; [done|].
           left. split; [done|]. split; [lia|]. split; [done|].
           intros j Hj. apply Hnone. lia.
      * intros [(_ & Hx & Hk' & Hlater)|[Hm Hnone]].
        -- destruct (decide (x = i)) as [->|Hne].
           ++ right. split; [done|]. right. intros j Hj. apply Hlater. lia.
           ++ left. split; [done|]. split; [lia|]. split; [done|].
              intros j Hj. apply Hlater. lia.
        -- destruct Hnone as [?|Hnone]; [done|].
           exfalso. apply (Hnone i); [lia|done].
    + assert (Hcase : k = "__proto__"%string \/ ~ hasKeyAt ch i k).
      { destruct (decide (k = "__proto__"%string)) as [?|Hkp]; [by left|].
        right. rewrite Hi. intros [? ?]. by apply HP. }
      split.
      * intros [(Hkp & Hx & Hk' & Hlater)|[Hm Hnone]].
        -- left. split; [done|]. split; [lia|]. split; [done|].
           intros j Hj. apply Hlater. lia.
        -- right. split; [done|]. destruct Hnone as [?|Hnone]; [by left|].
           destruct Hcase as [?|Hno]; [by left|]. right. intros j Hj.
           destruct (decide (j = i)) as [->|?]; [done|]. apply Hnone. lia.
      * intros [(Hkp & Hx & Hk' & Hlater)|[Hm Hnone]].
        -- destruct (decide (x = i)) as [->|Hne].
           ++ exfalso. destruct Hcase as [?|Hno]; done.
           ++ left. split; [done|]. split; [lia|]. split; [done|].
              intros j Hj. apply Hlater. lia.
        -- right. split; [done|]. destruct Hnone as [?|Hnone]; [by left|].
           right. intros j Hj. apply Hnone. lia.
Qed.

(** [createKeyToOldIdx(children, beginIdx, endIdx)] over a range whose
    slots are all defined and whose keys are primitives: a name is in
    the table exactly when it is not [__proto__] and a child of the
    range carries a key of that name, and it is mapped to the last such
    child (a later index overwrites an earlier one); children without a
    key, and a key named [__proto__], are left out. *)
Theorem createKeyToOldIdx_last_wins (ch : list (option VNode)) (b e : Z) :
  (forall j, b <= j <= e -> is_Some (mjoin (at_ ch j))) ->
  (forall j c, b <= j <= e -> mjoin (at_ ch j) = Some c ->
               isObject (key c) = false) ->
  exists t,
    createKeyToOldIdx ch b e = Some t /\
    forall k x, t !! k = Some x <->
      k <> "__proto__"%string /\ b <= x <= e /\ hasKeyAt ch x k /\
      forall j, x < j <= e -> ~ hasKeyAt ch j k.
Proof.
  intros Hdef _. unfold createKeyToOldIdx.
  destruct (createKeyToOldIdxFrom_last ch (Z.to_nat (e - b + 1)) b ∅)
    as (t & Hrun & Ht).
  { intros j Hj. apply Hdef. lia. }
  exists t. split; [exact Hrun|]. intros k x. rewrite Ht. split.
  - intros [(Hp & Hx & Hk & Hl)|[Hm _]]; [|by rewrite lookup_empty in Hm].
    split; [done|]. split; [lia|]. split; [done|]. intros j Hj. apply Hl. lia.
  - intros (Hp & Hx & Hk & Hl). left. split; [done|]. split; [lia|].
    split; [done|]. intros j Hj. apply Hl. lia.
Qed.

End KeyTable.

Section DuplicateKeys.
Context {D : Type} `{Backend D}.

Lemma addLog_nil (s : PState D) : addLog s [] = s.
Proof. unfold addLog. rewrite app_nil_r. by destruct s. Qed.

Lemma addLog_app (s : PState D) (e1 e2 : list event) :
  addLog (addLog s e1) e2 = addLog s (e1 ++ e2).
Proof. unfold addLog. cbn. by rewrite app_assoc. Qed.

Lemma count_zero_NoDup (l : list string) :
  (forall k, count_occ String.string_dec l k <= 1)%nat <-> NoDup l.
Proof.
  rewrite NoDup_ListNoDup. symmetry. apply NoDup_count_occ.
Qed.

Lemma checkDuplicateKeys_run (l : list VNode) (s : PState D) :
  exists ws,
    checkDuplicateKeys l s = Ok tt (addLog s (EvWarn ∘ dupWarning <$> ws)) /\
    (forall k, count_occ String.string_dec ws k =
               if bool_decide (k ∈ objectPrototypeNames)
               then count_occ String.string_dec (keyedNames l) k
               else pred (count_occ String.string_dec (keyedNames l) k)).
Proof.
  set (go := fix go (l : list VNode) (seenKeys : gset string) : M D unit :=
         match l with
         | [] => ret tt
         | vnode :: l' =>
             if isDef (key vnode) then
               let k := toPropertyKey (key vnode) in
               if bool_decide (k ∈ seenKeys)
                  || bool_decide (k ∈ objectPrototypeNames) then
                 warn ("Duplicate keys detected: '" +:+ k +:+
                       "'. This may cause an update error.") ;;
                 go l' seenKeys
               else go l' ({[ k ]} ∪ seenKeys)
             else go l' seenKeys
         end).
  assert (Hstep : forall v l seen,
    go (v :: l) seen =
    if isDef (key v) then
      if bool_decide (keyName v ∈ seen)
         || bool_decide (keyName v ∈ objectPrototypeNames) then
        warn (dupWarning (keyName v)) ;; go l seen
      else go l ({[ keyName v ]} ∪ seen)
    else go l seen) by reflexivity.
  assert (Hgen : forall (l : list VNode) (seen : gset string) (s : PState D),
    exists ws,
      go l seen s = Ok tt (addLog s (EvWarn ∘ dupWarning <$> ws)) /\
      forall k, count_occ String.string_dec ws k =
                if bool_decide (k ∈ seen \/ k ∈ objectPrototypeNames)
                then count_occ String.string_dec (keyedNames l) k
                else pred (count_occ String.string_dec (keyedNames l) k)).
  { clear l s. induction l as [|v l IH]; intros seen s.
    - exists []. split; [by rewrite addLog_nil|]. intros k. by case_bool_decide.
    - rewrite Hstep. unfold keyedNames. rewrite filter_cons.
      destruct (decide (isDef (key v) = true)) as [Hd|Hd].
      + rewrite Hd. rewrite fmap_cons. fold (keyedNames l).
        destruct (bool_decide (keyName v ∈ seen)
                  || bool_decide (keyName v ∈ objectPrototypeNames)) eqn:Hin.
        * assert (Hin' : keyName v ∈ seen \/ keyName v ∈ objectPrototypeNames).
          { apply orb_true_iff in Hin as [Hin|Hin];
              apply bool_decide_eq_true in Hin; tauto. }
          destruct (IH seen (addLog s [EvWarn (dupWarning (keyName v))]))
            as (ws & Hrun & Hc).
          exists (keyName v :: ws). split.
          -- unfold bind at 1.
             change (warn _ s) with (Ok tt (addLog s [EvWarn (dupWarning (keyName v))])).
             cbv beta iota. rewrite Hrun, addLog_app. reflexivity.
          -- intros k. destruct (decide (keyName v = k)) as [<-|Hne].
             ++ rewrite !count_occ_cons_eq by done. rewrite Hc.
                rewrite bool_decide_eq_true_2 by done. done.
             ++ rewrite !count_occ_cons_neq by done. apply Hc.
        * assert (Hin' : ~ (keyName v ∈ seen \/ keyName v ∈ objectPrototypeNames)).
          { apply orb_false_iff in Hin as [Hi1 Hi2].
            apply bool_decide_eq_false in Hi1, Hi2. tauto. }
          destruct (IH ({[keyName v]} ∪ seen) s) as (ws & Hrun & Hc).
          exists ws. split; [exact Hrun|].
          intros k. rewrite Hc. destruct (decide (keyName v = k)) as [<-|Hne].
          -- rewrite count_occ_cons_eq by done.
             rewrite bool_decide_eq_true_2
               by (left; apply elem_of_union; left; by apply elem_of_singleton).
             rewrite bool_decide_eq_false_2 by done. done.
          -- rewrite count_occ_cons_neq by done.
             apply not_eq_sym in Hne.
             erewrite bool_decide_ext; [reflexivity|].
             rewrite elem_of_union, elem_of_singleton. tauto.
      + apply not_true_is_false in Hd. rewrite Hd. fold (keyedNames l). apply IH. }
  destruct (Hgen l ∅ s) as (ws & Hrun & Hc).
  exists ws. split; [exact Hrun|].
  intros k. rewrite Hc. apply (f_equal (fun b : bool => if b then _ else _)).
  apply bool_decide_ext. rewrite elem_of_empty. tauto.
Qed.

(** [checkDuplicateKeys(children)], on primitive keys, only writes
    warnings: for a key name that [Object.prototype] does not have, one
    for every occurrence after the first among the children that have a
    key; and for a name that [Object.prototype] has, one for every
    occurrence, the first included.  It warns about nothing exactly
    when no two keyed children share a name and no name is one of
    [Object.prototype]. *)
Theorem checkDuplicateKeys_warnings (l : list VNode) (s : PState D) :
  Forall (fun v => isObject (key v) = false) l ->
  exists ws,
    checkDuplicateKeys l s = Ok tt (addLog s (EvWarn ∘ dupWarning <$> ws)) /\
    (forall k, count_occ String.string_dec ws k =
               if bool_decide (k ∈ objectPrototypeNames)
               then count_occ String.string_dec (keyedNames l) k
               else pred (count_occ String.string_dec (keyedNames l) k)) /\
    (ws = [] <->
     NoDup (keyedNames l) /\
     forall k, k ∈ keyedNames l -> k ∉ objectPrototypeNames).
Proof.
  intros _. destruct (checkDuplicateKeys_run l s) as (ws & Hrun & Hc).
  exists ws. split; [exact Hrun|]. split; [exact Hc|].
  assert (Hmem : forall k, k ∈ keyedNames l <->
                           (0 < count_occ String.string_dec (keyedNames l) k)%nat).
  { intros k. rewrite list_elem_of_In. apply count_occ_In. }
  split.
  - intros ->. split.
    + apply count_zero_NoDup. intros k. specialize (Hc k). cbn in Hc.
      destruct (bool_decide _); lia.
    + intros k Hk Hp. specialize (Hc k). cbn in Hc.
      rewrite bool_decide_eq_true_2 in Hc by done. apply Hmem in Hk. lia.
  - intros [Hnd Hnp]. destruct ws as [|k ws]; [done|]. exfalso.
    specialize (Hc k). rewrite count_occ_cons_eq in Hc by done.
    pose proof (proj2 (count_zero_NoDup _) Hnd k) as Hle.
    case_bool_decide as Hp.
    + apply (Hnp k); [|done]. apply Hmem. lia.
    + lia.
Qed.

End DuplicateKeys.

Section Budget.
Context {D : Type} `{Backend D}.
Variable env : BuildEnv.

Lemma inBudget_ret {A} (a : A) : inBudget (ret (D:=D) a).
Proof. by intros s. Qed.

Lemma inBudget_throw {A} : inBudget (throw (D:=D) (A:=A)).
Proof. by intros s. Qed.

Lemma inBudget_bind {A B} (m : M D A) (k : A -> M D B) :
  inBudget m -> (forall a, inBudget (k a)) -> inBudget (bind m k).
Proof.
  intros Hm Hk s. unfold bind. specialize (Hm s).
  destruct (m s) as [a s1| |]; [apply Hk|done..].
Qed.

Lemma inBudget_when (b : bool) (m : M D unit) :
  inBudget m -> inBudget (when b m).
Proof. destruct b; [done|]. intros _. apply inBudget_ret. Qed.

Lemma inBudget_forUpTo (n : nat) (f : nat -> M D unit) :
  (forall i, inBudget (f i)) -> inBudget (forUpTo n f).
Proof.
  intros Hf. induction n as [|n IH]; cbn [forUpTo].
  - apply inBudget_ret.
  - apply inBudget_bind; auto.
Qed.

Lemma inBudget_lift {A} (o : option A) : inBudget (lift (D:=D) o).
Proof. destruct o; [apply inBudget_ret|apply inBudget_throw]. Qed.

Lemma inBudget_allocDom (f : D -> handle * D) : inBudget (allocDom f).
Proof. intros s. unfold allocDom. by destruct (f (dom s)). Qed.

Ltac budget :=
  repeat first
    [ apply inBudget_ret | apply inBudget_allocDom | apply inBudget_throw | apply inBudget_lift
    | apply inBudget_when
    | apply inBudget_forUpTo; intros ?
    | apply inBudget_bind; [|intros ?]
    | by intros ? ].

Lemma inBudget_emit (e : event) : inBudget (emit (D:=D) e).
Proof. by intros s. Qed.

Lemma inBudget_insert (p e r : option handle) : inBudget (insert p e r).
Proof.
  unfold insert. destruct (bool_decide (is_Some p)); [|budget].
  destruct (bool_decide (is_Some r)); [|budget].
  apply inBudget_bind; [budget|]. intros q.
  destruct (bool_decide (q = p)); budget.
Qed.

Lemma inBudget_callModuleHook k i o v : inBudget (callModuleHook k i o v).
Proof. unfold callModuleHook. budget. Qed.

Lemma inBudget_callNodeHook k o v : inBudget (callNodeHook k o v).
Proof. unfold callNodeHook. budget. Qed.

Lemma inBudget_invokeCreateHooks (v : VNode) : inBudget (invokeCreateHooks v).
Proof.
  unfold invokeCreateHooks. apply inBudget_bind.
  - apply inBudget_forUpTo. intros i. apply inBudget_callModuleHook.
  - intros _. destruct (data v) as [d|]; [|budget].
    destruct (hook d); [|budget].
    apply inBudget_bind; [apply inBudget_when, inBudget_callNodeHook|].
    intros _. budget.
Qed.

Lemma inBudget_setScope (v : VNode) : inBudget (setScope v).
Proof.
  unfold setScope. apply inBudget_bind.
  - destruct (fnScopeId v); [budget|].
    induction (scopeIds v) as [|i l IH]; cbn [foldr]; [budget|].
    apply inBudget_bind; [budget|]. intros _. exact IH.
  - intros _. destruct (activeInstance_scopeId v); budget.
Qed.

Lemma inBudget_initComponent (v : VNode) : inBudget (initComponent v).
Proof.
  unfold initComponent. destruct (data v) as [d|]; [|budget].
  destruct (componentInstance v) as [ci|]; [|budget].
  apply inBudget_bind.
  { destruct (pendingInsert d); budget. }
  intros v1. cbv zeta.
  destruct (isPatchable (set_elm v1 (inst_el ci))) as [[|]|].
  - apply inBudget_bind; [apply inBudget_invokeCreateHooks|]. intros _.
    apply inBudget_bind; [apply inBudget_setScope|]. intros _. budget.
  - unfold registerRef. budget.
  - budget.
Qed.

Lemma inBudget_reactivateInner (v : VNode) : inBudget (reactivateInner v).
Proof.
  revert v. fix IH 1. intros v.
  destruct v as [r tg d ch rc tx e nsv k co cin st ri ic icl io af iap fs sc].
  cbn [reactivateInner componentInstance].
  destruct cin as [ci|]; [|budget].
  destruct ci as [el [inner|]]; cbn [inst_vnode]; [|budget].
  destruct (match data inner with Some d => transition d | None => false end).
  - apply inBudget_bind.
    + apply inBudget_forUpTo. intros i. apply inBudget_callModuleHook.
    + intros _. budget.
  - apply IH.
Qed.

Lemma inBudget_createComponent (v : VNode) (p r : option handle) :
  inBudget (createComponent v p r).
Proof.
  unfold createComponent. destruct (data v) as [d|]; [|budget].
  apply inBudget_bind.
  { destruct (match hook d with Some hk => h_init hk | None => false end); budget. }
  intros v1. destruct (bool_decide (is_Some (componentInstance v1))); [|budget].
  apply inBudget_bind; [apply inBudget_initComponent|]. intros v2.
  apply inBudget_bind; [apply inBudget_insert|]. intros _.
  apply inBudget_bind; [|intros _; budget].
  apply inBudget_when. unfold reactivateComponent.
  apply inBudget_bind; [apply inBudget_reactivateInner|]. intros _.
  apply inBudget_insert.
Qed.

Lemma inBudget_checkDuplicateKeys (l : list VNode) :
  inBudget (D:=D) (checkDuplicateKeys l).
Proof.
  intros s. destruct (checkDuplicateKeys_run l s) as (ws & -> & _). done.
Qed.

Lemma inBudget_createElm (v : VNode) (p r : option handle) (n h : bool) :
  inBudget (createElm env v p r n h).
Proof.
  revert v p r n h. fix IH 1. intros v p r n h.
  destruct v as [rf tg d ch rc tx e nsv k co cin st ri ic icl io af iap fs sc].
  cbn [createElm].
  apply inBudget_bind.
  { destruct (_ && _); budget. }
  intros v0. apply inBudget_bind; [apply inBudget_createComponent|].
  intros [isC v2]. destruct isC; [budget|].
  destruct (tag v2) as [tg2|].
  - apply inBudget_bind.
    { apply inBudget_when. apply inBudget_bind; [budget|]. intros _.
      apply inBudget_bind; [budget|]. intros z. budget. }
    intros _. apply inBudget_bind.
    { destruct (ns v2); [destruct (nsTruthy v2)|]; unfold op_createElementNS, op_createElement;
        budget. }
    intros hd. apply inBudget_bind; [apply inBudget_setScope|]. intros _.
    apply inBudget_bind.
    { cbn [children]. destruct ch as [ch|].
      - apply inBudget_bind; [apply inBudget_when, inBudget_checkDuplicateKeys|].
        intros _. apply inBudget_bind; [|intros l; budget].
        revert ch. fix IHl 1. intros ch. destruct ch as [|c ch]; [budget|].
        apply inBudget_bind; [apply IH|]. intros c'.
        apply inBudget_bind; [apply IHl|]. intros l. budget.
      - destruct (text _); [|budget]. unfold op_createTextNode, op_appendChild. budget. }
    intros ch'. apply inBudget_bind.
    { apply inBudget_when, inBudget_invokeCreateHooks. }
    intros _. apply inBudget_bind; [apply inBudget_insert|]. intros _. budget.
  - destruct (isComment v2).
    + apply inBudget_bind; [unfold op_createComment; budget|]. intros hd.
      apply inBudget_bind; [apply inBudget_insert|]. intros _. budget.
    + apply inBudget_bind; [unfold op_createTextNode; budget|]. intros hd.
      apply inBudget_bind; [apply inBudget_insert|]. intros _. budget.
Qed.

Lemma inBudget_addVnodesFrom (n : nat) (p r : option handle) (l : list VNode) (i : Z) :
  inBudget (addVnodesFrom env n p r l i).
Proof.
  revert l i. induction n as [|n IH]; intros l i; cbn [addVnodesFrom]; [budget|].
  destruct (at_ l i); [|budget].
  apply inBudget_bind; [apply inBudget_createElm|]. intros v'. apply IH.
Qed.

Lemma inBudget_removeNode (e : option handle) : inBudget (removeNode e).
Proof.
  unfold removeNode. apply inBudget_bind; [budget|]. intros p.
  destruct (bool_decide (is_Some p)); unfold op_removeChild; budget.
Qed.

Lemma inBudget_callRm (rm : nat) : inBudget (callRm rm).
Proof.
  intros s. unfold callRm. destruct (rmCbs s !! rm) as [cb|]; [|done].
  destruct (Z.eqb _ 0); [apply inBudget_removeNode|done].
Qed.

Lemma inBudget_addListeners (rm : nat) (n : Z) :
  inBudget (D:=D) (addListeners rm n).
Proof. intros s. unfold addListeners. by destruct (rmCbs s !! rm). Qed.

Lemma inBudget_removeAndInvokeRemoveHook (v : VNode) (rm : option nat) :
  inBudget (removeAndInvokeRemoveHook v rm).
Proof.
  revert v rm. fix IH 1. intros v rm.
  destruct v as [rf tg d ch rc tx e nsv k co cin st ri ic icl io af iap fs sc].
  cbn [removeAndInvokeRemoveHook data componentInstance elm].
  destruct (_ || _); [|apply inBudget_removeNode].
  apply inBudget_bind.
  { destruct rm; [|by intros s].
    apply inBudget_bind; [apply inBudget_addListeners|]. intros _. budget. }
  intros rm'. apply inBudget_bind.
  { destruct cin as [[el [i|]]|]; cbn [inst_vnode]; [|budget..].
    destruct (bool_decide (is_Some (data i))); [apply IH|budget]. }
  intros _. apply inBudget_bind.
  { apply inBudget_forUpTo. intros i.
    apply inBudget_bind; [apply inBudget_callModuleHook|]. intros _.
    apply inBudget_when, inBudget_callRm. }
  intros _. destruct d as [d|]; [|budget].
  destruct (match hook d with Some hk => h_remove hk | None => false end).
  - apply inBudget_bind; [apply inBudget_callNodeHook|]. intros _.
    apply inBudget_when, inBudget_callRm.
  - apply inBudget_callRm.
Qed.

Lemma inBudget_invokeDestroyHook (v : VNode) : inBudget (invokeDestroyHook v).
Proof.
  revert v. fix IH 1. intros v.
  destruct v as [rf tg d ch rc tx e nsv k co cin st ri ic icl io af iap fs sc].
  cbn [invokeDestroyHook data children].
  apply inBudget_bind.
  { destruct d as [d|]; [|budget].
    apply inBudget_bind; [apply inBudget_when, inBudget_callNodeHook|]. intros _.
    apply inBudget_forUpTo. intros i. apply inBudget_callModuleHook. }
  intros _. destruct ch as [ch|]; [|budget].
  revert ch. fix IHl 1. intros ch. destruct ch as [|c ch]; [budget|].
  apply inBudget_bind; [apply IH|]. intros _. apply IHl.
Qed.

Lemma inBudget_removeVnodesFrom (n : nat) (l : list (option VNode)) (i : Z) :
  inBudget (removeVnodesFrom n l i).
Proof.
  revert i. induction n as [|n IH]; intros i; cbn [removeVnodesFrom]; [budget|].
  apply inBudget_bind; [|intros _; apply IH].
  destruct (mjoin (at_ l i)) as [c|]; [|budget].
  destruct (bool_decide (is_Some (tag c))); [|apply inBudget_removeNode].
  apply inBudget_bind; [apply inBudget_removeAndInvokeRemoveHook|]. intros _.
  apply inBudget_invokeDestroyHook.
Qed.

Section Loop.
Variable patch : VNode -> VNode -> M D VNode.
Variable parentElm : option handle.
Variable canMove : bool.
Hypothesis Hpatch : forall a b, inBudget (patch a b).

Lemma inBudget_step (ls : LoopState) :
  inBudget (step env patch parentElm canMove ls).
Proof using Hpatch.
  destruct ls as [oSI nSI oEI oSV oEV nEI nSV nEV k2i oCh nCh]. unfold step.
  destruct oSV as [oldStart|]; [|budget].
  destruct oEV as [oldEnd|]; [|budget].
  apply inBudget_bind; [budget|]. intros newStart.
  apply inBudget_bind; [budget|]. intros [|].
  { apply inBudget_bind; [apply Hpatch|]. intros v. budget. }
  apply inBudget_bind; [budget|]. intros newEnd.
  apply inBudget_bind; [budget|]. intros [|].
  { apply inBudget_bind; [apply Hpatch|]. intros v. budget. }
  apply inBudget_bind; [budget|]. intros [|].
  { apply inBudget_bind; [apply Hpatch|]. intros v.
    apply inBudget_bind; [|intros _; budget].
    apply inBudget_when. apply inBudget_bind; [budget|]. intros sib.
    unfold op_insertBefore. budget. }
  apply inBudget_bind; [budget|]. intros [|].
  { apply inBudget_bind; [apply Hpatch|]. intros v.
    apply inBudget_bind; [|intros _; budget].
    apply inBudget_when. unfold op_insertBefore. budget. }
  apply inBudget_bind.
  { destruct k2i; budget. }
  intros table. apply inBudget_bind.
  { destruct (isDef (key newStart)); [budget|].
    apply inBudget_bind; [budget|]. intros i. budget. }
  intros idx. apply inBudget_bind.
  { destruct idx as [[i|]|]; [|budget|].
    - apply inBudget_bind; [budget|]. intros vnodeToMove.
      apply inBudget_bind; [budget|]. intros [|].
      + apply inBudget_bind; [apply Hpatch|]. intros v.
        apply inBudget_bind; [|intros _; budget].
        apply inBudget_when. unfold op_insertBefore. budget.
      + apply inBudget_bind; [apply inBudget_createElm|]. intros v. budget.
    - apply inBudget_bind; [apply inBudget_createElm|]. intros v. budget. }
  intros [oCh' nCh']. budget.
Qed.

(** What one iteration does to the cursors. *)
Lemma step_shrinks (ls ls' : LoopState) (s s' : PState D) :
  step env patch parentElm canMove ls s = Ok ls' s' ->
  measure ls' < measure ls.
Proof.
  destruct ls as [oSI nSI oEI oSV oEV nEI nSV nEV k2i oCh nCh]. unfold step, measure.
  destruct oSV as [oldStart|]; [|intros [= <- _]; cbn; lia].
  destruct oEV as [oldEnd|]; [|intros [= <- _]; cbn; lia].
  intros Hrun.
  apply bind_Ok in Hrun as (newStart & s1 & _ & Hrun).
  apply bind_Ok in Hrun as ([|] & s2 & _ & Hrun).
  { apply bind_Ok in Hrun as (v & s3 & _ & Hrun).
    apply ret_Ok in Hrun as [-> _]. cbn. lia. }
  apply bind_Ok in Hrun as (newEnd & s3 & _ & Hrun).
  apply bind_Ok in Hrun as ([|] & s4 & _ & Hrun).
  { apply bind_Ok in Hrun as (v & s5 & _ & Hrun).
    apply ret_Ok in Hrun as [-> _]. cbn. lia. }
  apply bind_Ok in Hrun as ([|] & s5 & _ & Hrun).
  { apply bind_Ok in Hrun as (v & s6 & _ & Hrun).
    apply bind_Ok in Hrun as (u & s7 & _ & Hrun).
    apply ret_Ok in Hrun as [-> _]. cbn. lia. }
  apply bind_Ok in Hrun as ([|] & s6 & _ & Hrun).
  { apply bind_Ok in Hrun as (v & s7 & _ & Hrun).
    apply bind_Ok in Hrun as (u & s8 & _ & Hrun).
    apply ret_Ok in Hrun as [-> _]. cbn. lia. }
  apply bind_Ok in Hrun as (table & s7 & _ & Hrun).
  apply bind_Ok in Hrun as (idx & s8 & _ & Hrun).
  apply bind_Ok in Hrun as ([oCh' nCh'] & s9 & _ & Hrun).
  apply ret_Ok in Hrun as [-> _]. cbn. lia.
Qed.

Lemma inBudget_loop (fuel : nat) (ls : LoopState) :
  measure ls <= Z.of_nat fuel ->
  inBudget (loop env patch parentElm canMove fuel ls).
Proof using Hpatch.
  revert ls. induction fuel as [|fuel IH]; intros ls Hm s; cbn [loop].
  - destruct (loopCond ls) eqn:Hc; [|done]. exfalso.
    unfold loopCond in Hc. apply andb_true_iff in Hc as [?%Z.leb_le ?%Z.leb_le].
    unfold measure in Hm. lia.
  - destruct (loopCond ls) eqn:Hc; [|done]. unfold bind.
    pose proof (inBudget_step ls s) as Hs.
    destruct (step env patch parentElm canMove ls s) as [ls' s'| |] eqn:Hstep;
      [|done..].
    apply IH. apply step_shrinks in Hstep. lia.
Qed.

(** The loop of [updateChildren] ends within
    [oldCh.length + newCh.length] iterations: every iteration that
    completes brings the cursors of the old or of the new list closer,
    so that the call exhausts no budget of the model unless a nested
    patch does. *)
Theorem updateChildren_within_budget (oldCh_ : list (option VNode))
    (newCh_ : list VNode) :
  (forall (ls ls' : LoopState) (s s' : PState D),
      step env patch parentElm canMove ls s = Ok ls' s' ->
      measure ls' < measure ls) /\
  inBudget (updateChildrenWith env patch parentElm canMove oldCh_ newCh_).
Proof using Hpatch.
  split; [apply step_shrinks|].
  unfold updateChildrenWith.
  apply inBudget_bind; [apply inBudget_when, inBudget_checkDuplicateKeys|].
  intros _. apply inBudget_bind.
  { apply inBudget_loop. unfold measure, initLoop. cbn. lia. }
  intros ls. unfold finish.
  destruct (Z.gtb _ _); [apply inBudget_addVnodesFrom|].
  destruct (Z.gtb _ _); [|budget].
  apply inBudget_bind; [apply inBudget_removeVnodesFrom|]. intros _. budget.
Qed.

End Loop.

End Budget.

Section InPlace.
Context {D : Type} `{Backend D}.
Variable env : BuildEnv.
Variable patch : VNode -> VNode -> M D VNode.
Variable parentElm : option handle.
Variable canMove : bool.

Lemma bind_ext_s {A B} (m : M D A) (k1 k2 : A -> M D B) (s : PState D) :
  (forall a s', k1 a s' = k2 a s') -> bind m k1 s = bind m k2 s.
Proof. intros E. unfold bind. destruct (m s); [apply E|done..]. Qed.

Lemma bind_m_s {A B} (m m' : M D A) (k : A -> M D B) (s : PState D) :
  m s = m' s -> bind m k s = bind m' k s.
Proof. intros E. unfold bind. by rewrite E. Qed.

Lemma bind_assoc_s {A B C} (m : M D A) (f : A -> M D B) (g : B -> M D C)
    (s : PState D) :
  bind (bind m f) g s = bind m (fun a => bind (f a) g) s.
Proof. unfold bind. by destruct (m s). Qed.

Lemma loop_prefix (o1 n1 : list VNode) :
  Forall2 (fun o n => sameVnode isTextInputType o n = Some true) o1 n1 ->
  forall (pre vs o2 n2 : list VNode) (oe ne : VNode) (fuel : nat) (s : PState D),
    length pre = length vs ->
    (length o1 <= fuel)%nat ->
    let oCh := Some <$> (pre ++ o1 ++ o2) in
    let oEI := Z.of_nat (length (pre ++ o1 ++ o2)) - 1 in
    let nEI := Z.of_nat (length (vs ++ n1 ++ n2)) - 1 in
    let st (k : nat) (nCh : list VNode) :=
      mkLoopState (Z.of_nat k) (Z.of_nat k) oEI (mjoin (at_ oCh (Z.of_nat k)))
                  (Some oe) nEI (at_ nCh (Z.of_nat k)) (Some ne) None oCh nCh in
    loop env patch parentElm canMove fuel (st (length vs) (vs ++ n1 ++ n2)) s =
    (do vs1 <- patchPairs patch o1 n1;
     loop env patch parentElm canMove (fuel - length o1)
          (st (length vs + length o1)%nat (vs ++ vs1 ++ n2))) s.
Proof.
  induction 1 as [|o n o1 n1 Hsame HF IH];
    intros pre vs o2 n2 oe ne fuel s Hlen Hfuel oCh oEI nEI st.
  - cbn [patchPairs length]. rewrite Nat.add_0_r, Nat.sub_0_r. reflexivity.
  - cbn [length] in Hfuel. destruct fuel as [|fuel]; [lia|].
    cbn [loop].
    assert (Hcond : loopCond (st (length vs) (vs ++ (n :: n1) ++ n2)) = true).
    { unfold loopCond, st, oEI, nEI. cbn.
      rewrite !length_app. cbn [length]. rewrite !length_app.
      apply andb_true_iff. split; apply Z.leb_le; lia. }
    rewrite Hcond.
    assert (HoS : mjoin (at_ oCh (Z.of_nat (length vs))) = Some o).
    { unfold oCh. rewrite at_Some_fmap. apply at_Some. split; [lia|].
      rewrite Nat2Z.id, <- Hlen. rewrite lookup_app_r by lia.
      by rewrite Nat.sub_diag. }
    assert (HnS : at_ (vs ++ (n :: n1) ++ n2) (Z.of_nat (length vs)) = Some n).
    { apply at_Some. split; [lia|]. rewrite Nat2Z.id.
      rewrite lookup_app_r by lia. by rewrite Nat.sub_diag. }
    unfold bind at 1.
    assert (Hstep :
      step env patch parentElm canMove (st (length vs) (vs ++ (n :: n1) ++ n2)) s =
      (do v <- patch o n;
       ret (st (length (vs ++ [v])) ((vs ++ [v]) ++ n1 ++ n2))) s).
    { unfold st at 1. rewrite HoS, HnS.
      rewrite (step_first_probe env patch parentElm canMove o n) by done.
      unfold bind. destruct (patch o n s) as [v s1| |]; [|done..].
      unfold ret. f_equal. unfold st. rewrite length_app. cbn [length].
      assert (E : storeNew (vs ++ (n :: n1) ++ n2) (Z.of_nat (length vs)) v
                  = (vs ++ [v]) ++ n1 ++ n2).
      { unfold storeNew. rewrite Nat2Z.id.
        rewrite insert_app_r_alt by lia. rewrite Nat.sub_diag. cbn.
        by rewrite <- app_assoc. }
      rewrite E.
      replace (Z.of_nat (length vs) + 1) with (Z.of_nat (length vs + 1)) by lia.
      reflexivity. }
    rewrite Hstep. cbn [patchPairs]. unfold bind.
    destruct (patch o n s) as [v s1| |]; [|done..].
    unfold ret at 1.
    specialize (IH (pre ++ [o]) (vs ++ [v]) o2 n2 oe ne fuel s1).
    cbv zeta in IH.
    rewrite <- !(app_assoc pre [o]) in IH. cbn [app] in IH.
    assert (E1 : Z.of_nat (length ((vs ++ [v]) ++ n1 ++ n2)) - 1 = nEI).
    { unfold nEI. rewrite !length_app. cbn [length]. rewrite ?length_app.
      cbn [length]. lia. }
    rewrite E1 in IH.
    assert (Hl2 : length (pre ++ [o]) = length (vs ++ [v]))
      by (rewrite !length_app; cbn; lia).
    assert (Hf2 : (length o1 <= fuel)%nat) by lia.
    specialize (IH Hl2 Hf2).
    etransitivity; [exact IH|]. clear IH.
    unfold bind.
    destruct (patchPairs patch o1 n1 s1) as [vs1 s2| |]; [|done..].
    unfold ret. cbn [Nat.sub length].
    rewrite length_app. cbn [length].
    replace (length vs + 1 + length o1)%nat with (length vs + S (length o1))%nat by lia.
    rewrite <- (app_assoc vs [v]). cbn [app]. reflexivity.
Qed.

Lemma patchPairs_length (os ns vs : list VNode) (s s' : PState D) :
  patchPairs patch os ns s = Ok vs s' ->
  length vs = (length os `min` length ns)%nat.
Proof.
  revert ns vs s. induction os as [|o os IH]; intros ns vs s.
  - cbn. intros Hr. apply ret_Ok in Hr as [-> _]. reflexivity.
  - destruct ns as [|n ns].
    + cbn. intros Hr. apply ret_Ok in Hr as [-> _]. reflexivity.
    + cbn [patchPairs]. intros Hrun.
      apply bind_Ok in Hrun as (v & s1 & _ & Hrun).
      apply bind_Ok in Hrun as (vs' & s2 & Hrec & Hrun).
      apply ret_Ok in Hrun as [-> ->]. cbn. f_equal. eapply IH; eauto.
Qed.

(** When the new children match the old ones pairwise from the start
    ([sameVnode]) and one of the two lists only has more at its end,
    [updateChildren] patches the pairs in order, moves nothing, and then
    creates the new children that are left, appending them (no
    reference node), or removes the old children that are left. *)
Theorem updateChildren_in_place (o1 o2 n1 n2 : list VNode) (s : PState D) :
  Forall2 (fun o n => sameVnode isTextInputType o n = Some true) o1 n1 ->
  o2 = [] \/ n2 = [] ->
  updateChildrenWith env patch parentElm canMove (Some <$> (o1 ++ o2))
                     (n1 ++ n2) s =
  (when (negb (production env)) (checkDuplicateKeys (n1 ++ n2)) ;;
   do vs <- patchPairs patch o1 n1;
   match o2 with
   | [] =>
       addVnodes env parentElm None (vs ++ n2) (Z.of_nat (length n1))
                 (Z.of_nat (length (n1 ++ n2)) - 1)
   | _ :: _ =>
       removeVnodes (Some <$> (o1 ++ o2)) (Z.of_nat (length o1))
                    (Z.of_nat (length (o1 ++ o2)) - 1) ;;
       ret vs
   end) s.
Proof.
  intros HF Hend. pose proof (Forall2_length _ _ _ HF) as Hlen.
  unfold updateChildrenWith. apply bind_ext_s. intros [] s0.
  set (oCh := Some <$> (o1 ++ o2)).
  set (fuel := (length oCh + length (n1 ++ n2))%nat).
  set (final := fun vs : list VNode =>
     mkLoopState (Z.of_nat (length o1)) (Z.of_nat (length o1))
            (Z.of_nat (length (o1 ++ o2)) - 1)
            (mjoin (at_ oCh (Z.of_nat (length o1))))
            (mjoin (at_ oCh (Z.of_nat (length (o1 ++ o2)) - 1)))
            (Z.of_nat (length (n1 ++ n2)) - 1)
            (at_ (vs ++ n2) (Z.of_nat (length o1)))
            (at_ (n1 ++ n2) (Z.of_nat (length (n1 ++ n2)) - 1))
            None oCh (vs ++ n2)).
  assert (Hdone : forall vs a b c d,
      loopCond
        (mkLoopState (Z.of_nat (length o1)) (Z.of_nat (length o1))
           (Z.of_nat (length (o1 ++ o2)) - 1) a b
           (Z.of_nat (length (n1 ++ n2)) - 1) c d None oCh vs) = false).
  { intros. unfold loopCond. cbn. rewrite !length_app.
    apply andb_false_iff.
    destruct Hend as [->| ->]; cbn [length]; [left|right]; apply Z.leb_gt; lia. }
  assert (Hloop :
    loop env patch parentElm canMove fuel (initLoop oCh (n1 ++ n2)) s0 =
    (do vs <- patchPairs patch o1 n1; ret (final vs)) s0).
  { destruct (decide (o1 = [])) as [->|Hne1].
    - apply Forall2_nil_inv_l in HF. subst n1.
      cbn [patchPairs]. rewrite bind_ret. unfold ret.
      assert (E : initLoop oCh ([] ++ n2) = final []).
      { unfold initLoop, final, oCh. rewrite length_fmap. reflexivity. }
      rewrite E. unfold final. destruct fuel; cbn [loop]; by rewrite Hdone.
    - assert (Hpos : (0 < length o1)%nat) by (destruct o1; [done|cbn; lia]).
      destruct (at_is_Some (o1 ++ o2) (Z.of_nat (length (o1 ++ o2)) - 1)) as [oe Hoe].
      { rewrite length_app. lia. }
      destruct (at_is_Some (n1 ++ n2) (Z.of_nat (length (n1 ++ n2)) - 1)) as [ne Hne].
      { rewrite length_app. lia. }
      pose proof (loop_prefix o1 n1 HF [] [] o2 n2 oe ne fuel s0 eq_refl) as Hp.
      cbv zeta in Hp. cbn [app length Nat.add] in Hp.
      assert (Hf : (length o1 <= fuel)%nat).
      { unfold fuel, oCh. rewrite length_fmap, length_app. lia. }
      specialize (Hp Hf).
      assert (E : initLoop oCh (n1 ++ n2) =
                  mkLoopState (Z.of_nat 0) (Z.of_nat 0)
                    (Z.of_nat (length (o1 ++ o2)) - 1)
                    (mjoin (at_ oCh (Z.of_nat 0))) (Some oe)
                    (Z.of_nat (length (n1 ++ n2)) - 1)
                    (at_ (n1 ++ n2) (Z.of_nat 0)) (Some ne) None oCh (n1 ++ n2)).
      { unfold initLoop, oCh. rewrite length_fmap, !at_Some_fmap, Hoe, Hne.
        reflexivity. }
      rewrite E. etransitivity; [exact Hp|]. clear Hp E.
      apply bind_ext_s. intros vs s1.
      assert (E2 : mkLoopState (Z.of_nat (length o1)) (Z.of_nat (length o1))
                     (Z.of_nat (length (o1 ++ o2)) - 1)
                     (mjoin (at_ (Some <$> o1 ++ o2) (Z.of_nat (length o1))))
                     (Some oe) (Z.of_nat (length (n1 ++ n2)) - 1)
                     (at_ (vs ++ n2) (Z.of_nat (length o1))) (Some ne) None
                     (Some <$> o1 ++ o2) (vs ++ n2) = final vs).
      { unfold final, oCh. rewrite !at_Some_fmap, Hoe, Hne. reflexivity. }
      etransitivity; [|exact (f_equal (fun l => Ok l s1) E2)].
      destruct (fuel - length o1)%nat; cbn [loop]; rewrite Hdone; reflexivity. }
  rewrite (bind_m_s _ _ _ _ Hloop), bind_assoc_s.
  unfold bind at 1. unfold bind at 2.
  destruct (patchPairs patch o1 n1 s0) as [vs s1| |] eqn:Hpp; [|done..].
  rewrite bind_ret. apply patchPairs_length in Hpp.
  rewrite <- Hlen, Nat.min_id in Hpp.
  unfold finish, final. cbn [oldStartIdx oldEndIdx newStartIdx newEndIdx newCh VDom.oldCh].
  destruct o2 as [|o o2'].
  - rewrite app_nil_r.
    destruct (Z.gtb_spec (Z.of_nat (length o1)) (Z.of_nat (length o1) - 1)); [|lia].
    rewrite (proj2 (at_None (vs ++ n2) _)).
    2: { right. rewrite !length_app. lia. }
    rewrite Hlen. reflexivity.
  - destruct Hend as [?| ->]; [done|].
    destruct (Z.gtb_spec (Z.of_nat (length o1))
                (Z.of_nat (length (o1 ++ o :: o2')) - 1)) as [Hgt|_].
    { rewrite length_app in Hgt. cbn [length] in Hgt. lia. }
    rewrite !app_nil_r.
    destruct (Z.gtb_spec (Z.of_nat (length o1)) (Z.of_nat (length n1) - 1)); [|lia].
    reflexivity.
Qed.

End InPlace.

Section Handle.
Context {D : Type} `{Backend D}.
Variable env : BuildEnv.

Lemma patchVnode_result (depth : nat) (o n v : VNode)
    (hasOwner removeOnly : bool) (s s' : PState D) :
  patchVnode env depth o n hasOwner removeOnly s = Ok v s' ->
  ref o <> ref n ->
  (isAsyncPlaceholder o = true ->
   forall af, asyncFactory n = Some af -> isDef (af_resolved af) = false) ->
  elm v = elm o /\ key v = key n /\ tag v = tag n.
Proof.
  intros Hrun Href Hasync. destruct depth as [|d]; [discriminate|].
  cbn [patchVnode] in Hrun.
  destruct (Nat.eqb_spec (ref o) (ref n)) as [E|_]; [done|].
  apply bind_Ok in Hrun as (vnode0 & s1 & H0 & Hrun).
  assert (P0 : key vnode0 = key n /\ tag vnode0 = tag n /\
               asyncFactory vnode0 = asyncFactory n).
  { destruct (bool_decide (is_Some (elm n)) && hasOwner).
    - cbv in H0. by injection H0 as <- _.
    - by apply ret_Ok in H0 as [-> _]. }
  destruct P0 as (K0 & T0 & A0).
  set (vnode1 := set_elm vnode0 (elm o)) in *.
  assert (P1 : elm vnode1 = elm o /\ key vnode1 = key n /\ tag vnode1 = tag n)
    by done.
  assert (A1 : asyncFactory vnode1 = asyncFactory n) by done.
  clearbody vnode1.
  destruct (isAsyncPlaceholder o).
  { apply bind_Ok in Hrun as (af & s2 & Haf & Hrun).
    rewrite A1 in Haf. destruct (asyncFactory n) as [af'|] eqn:En; [|discriminate].
    apply ret_Ok in Haf as [-> _].
    rewrite (Hasync eq_refl af' eq_refl) in Hrun.
    by apply ret_Ok in Hrun as [-> _]. }
  destruct (_ && _ && _ && _).
  { by apply ret_Ok in Hrun as [-> _]. }
  apply bind_Ok in Hrun as (vnode2 & s2 & H2 & Hrun).
  apply bind_Ok in Hrun as (u & s3 & _ & Hrun).
  apply bind_Ok in Hrun as (vnode3 & s4 & H3 & Hrun).
  apply bind_Ok in Hrun as (u' & s5 & _ & Hrun).
  apply ret_Ok in Hrun as [-> _].
  assert (P2 : elm vnode2 = elm o /\ key vnode2 = key n /\ tag vnode2 = tag n).
  { destruct (match data vnode1 ≫= hook with Some h => h_prepatch h | None => false end).
    - apply bind_Ok in H2 as (? & ? & _ & H2). by apply ret_Ok in H2 as [-> _].
    - by apply ret_Ok in H2 as [-> _]. }
  clear -H3 P2.
  destruct (text vnode2).
  { apply bind_Ok in H3 as (? & ? & _ & H3). by apply ret_Ok in H3 as [-> _]. }
  destruct (children o), (children vnode2).
  - destruct (negb _).
    + apply bind_Ok in H3 as (? & ? & _ & H3). by apply ret_Ok in H3 as [-> _].
    + by apply ret_Ok in H3 as [-> _].
  - apply bind_Ok in H3 as (? & ? & _ & H3). by apply ret_Ok in H3 as [-> _].
  - apply bind_Ok in H3 as (? & ? & _ & H3).
    apply bind_Ok in H3 as (? & ? & _ & H3).
    apply bind_Ok in H3 as (? & ? & _ & H3). by apply ret_Ok in H3 as [-> _].
  - apply bind_Ok in H3 as (? & ? & _ & H3). by apply ret_Ok in H3 as [-> _].
Qed.

(** [patchVnode(oldVnode, vnode)] on two different objects, when it
    returns and did not hydrate a resolved async placeholder: the node
    it leaves in the new tree (the new vnode, or the clone made of it)
    holds the handle of the old vnode, and has the key and the tag of
    the new one. *)
Theorem patchVnode_hands_over_handle (depth : nat) (o n v : VNode)
    (hasOwner removeOnly : bool) (s s' : PState D) :
  patchVnode env depth o n hasOwner removeOnly s = Ok v s' ->
  ref o <> ref n ->
  (isAsyncPlaceholder o = true ->
   forall af, asyncFactory n = Some af -> isDef (af_resolved af) = false) ->
  elm v = elm o /\ key v = key n /\ tag v = tag n.
Proof. apply patchVnode_result. Qed.

End Handle.

Section Creating.
Context {D : Type} `{Backend D}.
Variable env : BuildEnv.

Lemma creates_refl (s : PState D) : creates 0 s s.
Proof. split; [lia|]. exists []. by rewrite app_nil_r. Qed.

Lemma creates_same (s s' : PState D) :
  creatingElmInVPre s' = creatingElmInVPre s -> log s' = log s -> creates 0 s s'.
Proof. intros E L. split; [lia|]. exists []. by rewrite app_nil_r. Qed.

Lemma creates_trans (d1 d2 : Z) (s1 s2 s3 : PState D) :
  creates d1 s1 s2 -> creates d2 s2 s3 -> creates (d1 + d2) s1 s3.
Proof.
  intros [E1 (e1 & L1 & F1)] [E2 (e2 & L2 & F2)]. split; [lia|].
  exists (e1 ++ e2). split; [by rewrite L2, L1, app_assoc|by apply Forall_app].
Qed.

Lemma creating_ret {A} (a : A) : creating 0 (ret (D:=D) a).
Proof. intros s a' s' [= _ <-]. apply creates_refl. Qed.

Lemma creating_throw {A} : creating 0 (throw (D:=D) (A:=A)).
Proof. intros s a s' [=]. Qed.

Lemma creating_bind {A B} (d1 d2 : Z) (m : M D A) (k : A -> M D B) :
  creating d1 m -> (forall a, creating d2 (k a)) -> creating (d1 + d2) (bind m k).
Proof.
  intros Hm Hk s b s' Hrun. apply bind_Ok in Hrun as (a & s1 & H1 & H2).
  eapply creates_trans; [eapply Hm; exact H1|eapply Hk; exact H2].
Qed.

Lemma creating_bind0 {A B} (m : M D A) (k : A -> M D B) :
  creating 0 m -> (forall a, creating 0 (k a)) -> creating 0 (bind m k).
Proof. apply (creating_bind 0 0). Qed.

Lemma creating_when (b : bool) (m : M D unit) :
  creating 0 m -> creating 0 (when b m).
Proof. destruct b; [done|]. intros _. apply creating_ret. Qed.

Lemma creating_forUpTo (n : nat) (f : nat -> M D unit) :
  (forall i, creating 0 (f i)) -> creating 0 (forUpTo n f).
Proof.
  intros Hf. induction n as [|n IH]; cbn [forUpTo].
  - apply creating_ret.
  - apply creating_bind0; auto.
Qed.

Lemma creating_emit (e : event) : removes e = false -> creating 0 (emit (D:=D) e).
Proof.
  intros He s a s' [= _ <-]. split; [cbn; lia|].
  exists [e]. split; [done|]. by constructor.
Qed.

Lemma creating_onDom (f : D -> D) : creating 0 (onDom f).
Proof. intros s a s' [= _ <-]. by apply creates_same. Qed.

Lemma creating_readDom {A} (f : D -> A) : creating 0 (readDom f).
Proof. intros s a s' [= _ <-]. apply creates_refl. Qed.

Lemma creating_allocDom (f : D -> handle * D) : creating 0 (allocDom f).
Proof.
  intros s a s'. unfold allocDom. destruct (f (dom s)).
  intros [= _ <-]. by apply creates_same.
Qed.

Lemma creating_freshRef : creating 0 (freshRef (D:=D)).
Proof. intros s a s' [= _ <-]. by apply creates_same. Qed.

Lemma creating_pushInserted (l : list nat) : creating 0 (pushInserted (D:=D) l).
Proof. intros s a s' [= _ <-]. by apply creates_same. Qed.

Lemma creating_getVPre : creating 0 (getVPre (D:=D)).
Proof. intros s a s' [= _ <-]. apply creates_refl. Qed.

Lemma creating_addVPre (z : Z) : creating z (addVPre (D:=D) z).
Proof.
  intros s a s' [= _ <-]. split; [done|]. exists []. by rewrite app_nil_r.
Qed.

Lemma creating_lift {A} (o : option A) : creating 0 (lift (D:=D) o).
Proof. destruct o; [apply creating_ret|apply creating_throw]. Qed.

Ltac crt :=
  repeat first
    [ apply creating_ret | apply creating_throw | apply creating_lift
    | apply creating_onDom | apply creating_readDom | apply creating_allocDom
    | apply creating_freshRef | apply creating_pushInserted
    | apply creating_getVPre
    | apply creating_emit; reflexivity
    | apply creating_when
    | apply creating_forUpTo; intros ?
    | apply creating_bind0; [|intros ?] ].

Lemma creating_insert (p e r : option handle) : creating 0 (insert p e r).
Proof.
  unfold insert. destruct (bool_decide (is_Some p)); [|crt].
  destruct (bool_decide (is_Some r)); [|unfold op_appendChild; crt].
  apply creating_bind0; [crt|]. intros q.
  destruct (bool_decide (q = p)); unfold op_insertBefore; crt.
Qed.

Lemma creating_invokeCreateHooks (v : VNode) : creating 0 (invokeCreateHooks v).
Proof.
  unfold invokeCreateHooks. apply creating_bind0.
  - apply creating_forUpTo. intros i. unfold callModuleHook. crt.
  - intros _. destruct (data v) as [d|]; [|crt].
    destruct (hook d); [|crt]. unfold callNodeHook. crt.
Qed.

Lemma creating_setScope (v : VNode) : creating 0 (setScope v).
Proof.
  unfold setScope. apply creating_bind0.
  - destruct (fnScopeId v); [unfold op_setStyleScope; crt|].
    induction (scopeIds v) as [|i l IH]; cbn [foldr]; [crt|].
    apply creating_bind0; [unfold op_setStyleScope; crt|]. intros _. exact IH.
  - intros _. destruct (activeInstance_scopeId v); unfold op_setStyleScope; crt.
Qed.

Lemma creating_initComponent (v : VNode) : creating 0 (initComponent v).
Proof.
  unfold initComponent. destruct (data v) as [d|]; [|crt].
  destruct (componentInstance v) as [ci|]; [|crt].
  apply creating_bind0.
  { destruct (pendingInsert d); crt. }
  intros v1. cbv zeta.
  destruct (isPatchable (set_elm v1 (inst_el ci))) as [[|]|].
  - apply creating_bind0; [apply creating_invokeCreateHooks|]. intros _.
    apply creating_bind0; [apply creating_setScope|]. intros _. crt.
  - unfold registerRef. crt.
  - crt.
Qed.

Lemma creating_reactivateInner (v : VNode) : creating 0 (reactivateInner v).
Proof.
  revert v. fix IH 1. intros v.
  destruct v as [r tg d ch rc tx e nsv k co cin st ri ic icl io af iap fs sc].
  cbn [reactivateInner componentInstance].
  destruct cin as [ci|]; [|crt].
  destruct ci as [el [inner|]]; cbn [inst_vnode]; [|crt].
  destruct (match data inner with Some d => transition d | None => false end).
  - apply creating_bind0.
    + apply creating_forUpTo. intros i. unfold callModuleHook. crt.
    + intros _. crt.
  - apply IH.
Qed.

Lemma creating_createComponent (v : VNode) (p r : option handle) :
  creating 0 (createComponent v p r).
Proof.
  unfold createComponent. destruct (data v) as [d|]; [|crt].
  apply creating_bind0.
  { destruct (match hook d with Some hk => h_init hk | None => false end); crt. }
  intros v1. destruct (bool_decide (is_Some (componentInstance v1))); [|crt].
  apply creating_bind0; [apply creating_initComponent|]. intros v2.
  apply creating_bind0; [apply creating_insert|]. intros _.
  apply creating_bind0; [|intros _; crt].
  apply creating_when. unfold reactivateComponent.
  apply creating_bind0; [apply creating_reactivateInner|]. intros _.
  apply creating_insert.
Qed.

Lemma creating_checkDuplicateKeys (l : list VNode) :
  creating (D:=D) 0 (checkDuplicateKeys l).
Proof.
  intros s a s' Hrun.
  destruct (checkDuplicateKeys_run l s) as (ws & Hr & _).
  rewrite Hr in Hrun. injection Hrun as Hs. subst s'. unfold addLog.
  split; [cbn; lia|].
  eexists. split; [reflexivity|]. apply Forall_fmap, Forall_forall. done.
Qed.

Lemma creating_createElm (v : VNode) (p r : option handle) (n h : bool) :
  creating 0 (createElm env v p r n h).
Proof.
  revert v p r n h. fix IH 1. intros v p r n h.
  destruct v as [rf tg d ch rc tx e nsv k co cin st ri ic icl io af iap fs sc].
  cbn [createElm].
  apply creating_bind0.
  { destruct (_ && _); crt. }
  intros v0. apply creating_bind0; [apply creating_createComponent|].
  intros [isC v2]. destruct isC; [crt|].
  destruct (tag v2) as [tg2|].
  - set (inPre := match data v2 with Some d0 => pre d0 | None => false end).
    set (delta := if negb (production env) && inPre then 1 else 0).
    replace 0 with (delta + (0 + (0 + (0 + (0 + (0 + (- delta + 0))))))) by lia.
    apply creating_bind.
    { unfold delta. destruct (production env); cbn [negb andb when]; [crt|].
      replace (if inPre then 1 else 0) with ((if inPre then 1 else 0) + 0) by lia.
      apply creating_bind.
      - destruct inPre; cbn [when]; [apply creating_addVPre|crt].
      - intros _. apply creating_bind0; [crt|]. intros z. unfold warn. crt. }
    intros _. apply creating_bind.
    { destruct (ns v2); [destruct (nsTruthy v2)|];
        unfold op_createElementNS, op_createElement; crt. }
    intros hd. apply creating_bind; [apply creating_setScope|]. intros _.
    apply creating_bind.
    { cbn [children]. destruct ch as [ch|].
      - apply creating_bind0; [apply creating_when, creating_checkDuplicateKeys|].
        intros _. apply creating_bind0; [|intros l; crt].
        revert ch. fix IHl 1. intros ch. destruct ch as [|c ch]; [crt|].
        apply creating_bind0; [apply IH|]. intros c'.
        apply creating_bind0; [apply IHl|]. intros l. crt.
      - destruct (text _); [|crt]. unfold op_createTextNode, op_appendChild. crt. }
    intros ch'. apply creating_bind.
    { apply creating_when, creating_invokeCreateHooks. }
    intros _. apply creating_bind; [apply creating_insert|]. intros _.
    apply creating_bind; [|intros _; crt].
    unfold delta. destruct (negb (production env) && inPre); cbn [when];
      [apply creating_addVPre|crt].
  - destruct (isComment v2).
    + apply creating_bind0; [unfold op_createComment; crt|]. intros hd.
      apply creating_bind0; [apply creating_insert|]. intros _. crt.
    + apply creating_bind0; [unfold op_createTextNode; crt|]. intros hd.
      apply creating_bind0; [apply creating_insert|]. intros _. crt.
Qed.

(** [createElm] only creates: when it returns, whatever the vnode and
    its subtree, the log has gained no [removeChild] and no [remove] or
    [destroy] hook, and the counter [creatingElmInVPre], raised while
    the children of a [v-pre] element are created, is back at the value
    it had. *)
Theorem createElm_only_creates (v : VNode) (p r : option handle) (n h : bool)
    (s : PState D) (v' : VNode) (s' : PState D) :
  createElm env v p r n h s = Ok v' s' ->
  creatingElmInVPre s' = creatingElmInVPre s /\
  exists evs, log s' = log s ++ evs /\
              Forall (fun e => removes e = false) evs.
Proof.
  intros Hrun. destruct (creating_createElm v p r n h s v' s' Hrun) as [Hc He].
  split; [lia|exact He].
Qed.

End Creating.

Lemma sameVnode_partial_equivalence_witness :
  let a := keyedItem 1 1 (Some 1%nat) in
  let b := keyedItem 21 1 None in
  let c := keyedItem 41 1 None in
  sameVnode webTextInputType a b = sameVnode webTextInputType b a /\
  is_Some (sameVnode webTextInputType a b) /\
  (sameVnode webTextInputType a b = Some true ->
   sameVnode webTextInputType b c = Some true ->
   sameVnode webTextInputType a c = Some true).
Proof.
  apply (sameVnode_partial_equivalence webTextInputType
           (keyedItem 1 1 (Some 1%nat)) (keyedItem 21 1 None)
           (keyedItem 41 1 None)); reflexivity.
Defined.

Lemma createKeyToOldIdx_last_wins_witness :
  exists t,
    createKeyToOldIdx (Some <$> protoOld) 0 3 = Some t /\
    forall k x, t !! k = Some x <->
      k <> "__proto__"%string /\ 0 <= x <= 3 /\
      hasKeyAt (Some <$> protoOld) x k /\
      forall j, x < j <= 3 -> ~ hasKeyAt (Some <$> protoOld) j k.
Proof.
  apply (createKeyToOldIdx_last_wins (Some <$> protoOld) 0 3).
  - intros j Hj.
    assert (Hc : j = 0 \/ j = 1 \/ j = 2 \/ j = 3) by lia.
    destruct Hc as [->|[->|[->| ->]]]; vm_compute; eauto.
  - intros j c Hj Hc.
    assert (Hj' : j = 0 \/ j = 1 \/ j = 2 \/ j = 3) by lia.
    destruct Hj' as [->|[->|[->| ->]]]; vm_compute in Hc;
      injection Hc as <-; reflexivity.
Defined.

Lemma checkDuplicateKeys_warnings_witness :
  let l := protoOld ++ [namedItem 15 "a" None] in
  exists ws,
    checkDuplicateKeys l (flatState protoDom) =
      Ok tt (addLog (flatState protoDom) (EvWarn ∘ dupWarning <$> ws)) /\
    (forall k, count_occ String.string_dec ws k =
               if bool_decide (k ∈ objectPrototypeNames)
               then count_occ String.string_dec (keyedNames l) k
               else pred (count_occ String.string_dec (keyedNames l) k)) /\
    (ws = [] <->
     NoDup (keyedNames l) /\
     forall k, k ∈ keyedNames l -> k ∉ objectPrototypeNames).
Proof.
  apply (checkDuplicateKeys_warnings (protoOld ++ [namedItem 15 "a" None])
           (flatState protoDom)).
  repeat constructor.
Defined.

Lemma updateChildren_within_budget_witness :
  let patch : VNode -> VNode -> M FlatDom VNode :=
    fun a b => ret (set_elm b (elm a)) in
  (forall (ls ls' : LoopState) (s s' : PState FlatDom),
      step (mkBuildEnv false) patch (Some 0%nat) true ls s = Ok ls' s' ->
      measure ls' < measure ls) /\
  inBudget (updateChildrenWith (mkBuildEnv false) patch (Some 0%nat) true
              (Some <$> rotOld) rotNew).
Proof.
  apply (updateChildren_within_budget (mkBuildEnv false)
           (fun a b => ret (set_elm b (elm a))) (Some 0%nat) true).
  intros a b s. discriminate.
Defined.

Lemma updateChildren_in_place_witness :
  let env := mkBuildEnv false in
  let patch := fun a b => patchVnode env 1 a b true false in
  let added := [keyedItem 24 4 None] in
  updateChildrenWith env patch (Some 0%nat) true (Some <$> (rotOld ++ []))
                     (sameOrderNew ++ added) (flatState rotDom) =
  (when (negb (production env)) (checkDuplicateKeys (sameOrderNew ++ added)) ;;
   do vs <- patchPairs patch rotOld sameOrderNew;
   addVnodes env (Some 0%nat) None (vs ++ added)
             (Z.of_nat (length sameOrderNew))
             (Z.of_nat (length (sameOrderNew ++ added)) - 1))
    (flatState rotDom).
Proof.
  apply (updateChildren_in_place (mkBuildEnv false)
           (fun a b => patchVnode (mkBuildEnv false) 1 a b true false)
           (Some 0%nat) true rotOld [] sameOrderNew [keyedItem 24 4 None]
           (flatState rotDom)).
  - repeat constructor.
  - left. reflexivity.
Defined.

Lemma patchVnode_hands_over_handle_witness :
  exists v s',
    patchVnode (mkBuildEnv false) 1 (keyedItem 1 1 (Some 1%nat))
               (keyedItem 21 1 None) true false (flatState rotDom) = Ok v s' /\
    elm v = Some 1%nat /\ key v = VNum (Num 1) /\ tag v = Some "li"%string.
Proof.
  eexists _, _. split; [vm_compute; reflexivity|].
  eapply (patchVnode_hands_over_handle (mkBuildEnv false) 1
            (keyedItem 1 1 (Some 1%nat)) (keyedItem 21 1 None) _ true false
            (flatState rotDom) _).
  - vm_compute. reflexivity.
  - simpl. lia.
  - intros Hp. discriminate Hp.
Defined.

Lemma createElm_only_creates_witness :
  exists v' s',
    createElm (mkBuildEnv false) preElement (Some 0%nat) None false true
              (flatState rotDom) = Ok v' s' /\
    creatingElmInVPre s' = creatingElmInVPre (flatState rotDom) /\
    exists evs, log s' = log (flatState rotDom) ++ evs /\
                Forall (fun e => removes e = false) evs.
Proof.
  eexists _, _. split; [vm_compute; reflexivity|].
  eapply (createElm_only_creates (mkBuildEnv false) preElement (Some 0%nat)
            None false true (flatState rotDom)).
  vm_compute. reflexivity.
Defined.

Section Rendered.
Context {D : Type} `{Backend D}.
Variable env : BuildEnv.

Lemma createComponent_plain (v : VNode) (p r : option handle) (s s' : PState D)
    (c : bool) (v' : VNode) :
  createComponent v p r s = Ok (c, v') s' ->
  match data v with
  | Some d => match hook d with Some hk => h_init hk | None => false end = false
  | None => True
  end ->
  componentInstance v = None ->
  c = false /\ v' = v.
Proof.
  unfold createComponent. intros Hrun Hd Hc.
  destruct (data v) as [d|]; [|by apply ret_Ok in Hrun as [[= <- <-] _]].
  rewrite Hd in Hrun.
  apply bind_Ok in Hrun as (v1 & s1 & H1 & Hrun).
  apply ret_Ok in H1 as [-> ->]. rewrite Hc in Hrun.
  rewrite bool_decide_eq_false_2 in Hrun by (intros [? ?]; discriminate).
  by apply ret_Ok in Hrun as [[= <- <-] _].
Qed.

(** [createElm] on a tree without components returns it with a native
    handle on every vnode: the vnode it returns has its [elm], and so
    has every child down the tree of an element that [createChildren]
    went through. *)
Theorem createElm_renders_tree (v : VNode) (p r : option handle) (n h : bool)
    (s : PState D) (v' : VNode) (s' : PState D) :
  createElm env v p r n h s = Ok v' s' ->
  plainTree v = true ->
  rendered v' = true.
Proof.
  revert v p r n h s v' s'. fix IH 1. intros v p r n h s v' s' Hrun Hp.
  destruct v as [rf tg d ch rc tx e nsv k co cin st ri ic icl io af iap fs sc].
  cbn [createElm] in Hrun. cbn [plainTree data componentInstance children] in Hp.
  apply andb_prop in Hp as [Hp Hch]. apply andb_prop in Hp as [Hd Hci].
  destruct cin as [?|]; [discriminate|]. clear Hci.
  apply bind_Ok in Hrun as (v0 & s0 & H0 & Hrun).
  assert (P0 : data v0 = d /\ componentInstance v0 = None /\ tag v0 = tg /\
               children v0 = ch /\ text v0 = tx /\ isComment v0 = ic).
  { destruct (_ && _).
    - apply bind_Ok in H0 as (r1 & s1 & _ & H0).
      apply bind_Ok in H0 as (r2 & s2 & _ & H0).
      by apply ret_Ok in H0 as [-> _].
    - by apply ret_Ok in H0 as [-> _]. }
  destruct P0 as (Pd & Pc & Pt & Pch & Ptx & Pic).
  apply bind_Ok in Hrun as ([isC v2] & s2 & H2 & Hrun).
  apply createComponent_plain in H2 as [-> ->].
  2:{ cbn. rewrite Pd. destruct d as [d0|]; [|done]. by apply negb_true_iff in Hd. }
  2:{ cbn. exact Pc. }
  cbn [tag data set_isRootInsert isComment text] in Hrun.
  rewrite Pt in Hrun. destruct tg as [tg1|].
  - apply bind_Ok in Hrun as (u1 & s3 & _ & Hrun).
    apply bind_Ok in Hrun as (hd & s4 & _ & Hrun).
    apply bind_Ok in Hrun as (u2 & s5 & _ & Hrun).
    apply bind_Ok in Hrun as (ch' & s6 & Hc & Hrun).
    apply bind_Ok in Hrun as (u3 & s7 & _ & Hrun).
    apply bind_Ok in Hrun as (u4 & s8 & _ & Hrun).
    apply bind_Ok in Hrun as (u5 & s9 & _ & Hrun).
    apply ret_Ok in Hrun as [-> _].
    cbn [rendered elm set_children set_elm children tag].
    rewrite bool_decide_eq_true_2 by eauto. cbn [andb].
    change (tag (set_isRootInsert v0 (negb n))) with (tag v0). rewrite Pt.
    cbn [children] in Hc. destruct ch as [l|].
    + apply bind_Ok in Hc as (u6 & s10 & _ & Hc).
      apply bind_Ok in Hc as (l' & s11 & Hl & Hc).
      apply ret_Ok in Hc as [-> _].
      clear -Hl Hch IH. revert l' s10 s11 Hl Hch.
      induction l as [|c l IHl]; intros l' sa sb Hl Hch.
      * by apply ret_Ok in Hl as [-> _].
      * apply bind_Ok in Hl as (c' & sc & Hc & Hl).
        apply bind_Ok in Hl as (r' & sd & Hr & Hl).
        apply ret_Ok in Hl as [-> _].
        apply andb_prop in Hch as [Hc1 Hc2].
        apply andb_true_intro. split.
        -- eapply IH; [exact Hc|exact Hc1].
        -- eapply IHl; [exact Hr|exact Hc2].
    + destruct (text _).
      * apply bind_Ok in Hc as (u6 & s10 & _ & Hc).
        apply bind_Ok in Hc as (u7 & s11 & _ & Hc).
        by apply ret_Ok in Hc as [-> _].
      * by apply ret_Ok in Hc as [-> _].
  - rewrite Pic in Hrun. destruct ic.
    + apply bind_Ok in Hrun as (hd & s3 & _ & Hrun).
      apply bind_Ok in Hrun as (u & s4 & _ & Hrun).
      apply ret_Ok in Hrun as [-> _].
      cbn [rendered elm set_elm children set_isRootInsert tag].
      rewrite bool_decide_eq_true_2 by eauto.
      change (tag (set_isRootInsert v0 (negb n))) with (tag v0). by rewrite Pt.
    + apply bind_Ok in Hrun as (hd & s3 & _ & Hrun).
      apply bind_Ok in Hrun as (u & s4 & _ & Hrun).
      apply ret_Ok in Hrun as [-> _].
      cbn [rendered elm set_elm children set_isRootInsert tag].
      rewrite bool_decide_eq_true_2 by eauto.
      change (tag (set_isRootInsert v0 (negb n))) with (tag v0). by rewrite Pt.
Qed.
End Rendered.

Lemma strict_eq_self (v : value) : strict_eq v v = negb (bool_decide (v = VNum NaN)).
Proof.
  destruct (strict_eq v v) eqn:E.
  - apply strict_eq_spec in E as [_ E]. by rewrite bool_decide_eq_false_2.
  - destruct (decide (v = VNum NaN)) as [->|Hn]; [done|].
    assert (strict_eq v v = true) by (apply strict_eq_spec; done). congruence.
Qed.

(** A clone and its original are the same logical node, in both
    directions, when the key is not [NaN] and the vnode is no [<input>]
    whose [type] attribute is [NaN]; when the key is [NaN] they are
    not, and neither is the vnode the same as itself; and for an
    [<input>] whose [type] is [NaN] (which is not a text-like type) the
    clone is not the same as the original.  The clone holds the handle
    of the original and is flagged [isCloned]. *)
Theorem cloneVNode_same (isT : value -> bool) (r rc : nat) (v : VNode) :
  (key v <> VNum NaN ->
   (tag v = Some "input"%string -> inputTypeOf v <> VNum NaN) ->
   sameVnode isT v (cloneVNode r rc v) = Some true /\
   sameVnode isT (cloneVNode r rc v) v = Some true) /\
  (key v = VNum NaN ->
   sameVnode isT v (cloneVNode r rc v) = Some false /\
   sameVnode isT (cloneVNode r rc v) v = Some false /\
   sameVnode isT v v = Some false) /\
  (tag v = Some "input"%string -> inputTypeOf v = VNum NaN ->
   isT (VNum NaN) = false ->
   sameVnode isT (cloneVNode r rc v) v = Some false) /\
  elm (cloneVNode r rc v) = elm v /\
  isCloned (cloneVNode r rc v) = true.
Proof.
  split; [|split; [|split; [|done]]].
  - intros Hk Ht.
    assert (E : forall a b, key a = key v -> key b = key v -> tag a = tag v ->
              tag b = tag v -> isComment a = isComment v ->
              isComment b = isComment v -> data a = data v -> data b = data v ->
              sameVnode isT a b = Some true).
    { intros a b Ka Kb Ta Tb Ca Cb Da Db.
      assert (Ia : inputTypeOf a = inputTypeOf v) by (unfold inputTypeOf; by rewrite Da).
      assert (Ib : inputTypeOf b = inputTypeOf v) by (unfold inputTypeOf; by rewrite Db).
      unfold sameVnode, sameInputType.
      rewrite Ka, Kb, Ta, Tb, Ca, Cb, Da, Db, Ia, Ib, !strict_eq_self.
      rewrite (bool_decide_eq_false_2 _ Hk). cbn [negb].
      rewrite bool_decide_eq_false_2 by (destruct (tag v); discriminate).
      rewrite !Bool.eqb_reflx. cbn [negb andb].
      destruct (strict_eq (ostr (tag v)) (VStr "input")) eqn:Ei; cbn [negb];
        [|reflexivity].
      assert (Hin : tag v = Some "input"%string).
      { apply strict_eq_spec in Ei as [Ei _].
        destruct (tag v); cbn in Ei; congruence. }
      rewrite (bool_decide_eq_false_2 _ (Ht Hin)). reflexivity. }
    split; apply E; reflexivity.
  - intros Hk. unfold sameVnode. cbn [key cloneVNode]. rewrite Hk. done.
  - intros Hin Hty HT. unfold sameVnode, sameInputType.
    cbn [key tag isComment data isAsyncPlaceholder cloneVNode].
    assert (Ic : inputTypeOf (cloneVNode r rc v) = inputTypeOf v) by reflexivity.
    rewrite Ic, Hty, Hin, HT. cbn.
    rewrite !Bool.andb_false_r. by destruct (strict_eq (key v) (key v)).
Qed.

Section Mounts.
Context {D : Type} `{Backend D}.
Variable env : BuildEnv.

Lemma lift_Ok {A} (o : option A) (a : A) (s s' : PState D) :
  lift o s = Ok a s' -> o = Some a /\ s' = s.
Proof. destruct o; [|discriminate]. by intros [= -> ->]. Qed.

Section Loop.
Variable patch : VNode -> VNode -> M D VNode.
Variable parentElm : option handle.
Variable canMove : bool.
Variables (olds news : list VNode) (Q : VNode -> Prop).
Hypothesis Hpatch : forall o n v s s',
  o ∈ olds -> n ∈ news -> patch o n s = Ok v s' -> Q v.
Hypothesis Hcreate : forall n p r v s s',
  n ∈ news -> createElm env n p r false true s = Ok v s' -> Q v.

Local Abbreviation Mnt := (Mounted olds news Q).

Lemma Mounted_store_start (ls : LoopState) (v : VNode) (oSI oEI : Z)
    (oSV oEV : option VNode) (t : option (gmap string Z))
    (oCh' : list (option VNode)) :
  Mnt ls -> newStartIdx ls <= newEndIdx ls -> Q v ->
  (forall j c, mjoin (at_ oCh' j) = Some c -> c ∈ olds) ->
  (forall c, oSV = Some c -> c ∈ olds) ->
  (forall c, oEV = Some c -> c ∈ olds) ->
  let nCh' := storeNew (newCh ls) (newStartIdx ls) v in
  Mnt (mkLoopState oSI (newStartIdx ls + 1) oEI oSV oEV (newEndIdx ls)
         (at_ nCh' (newStartIdx ls + 1)) (newEndVnode ls) t oCh' nCh').
Proof using Type.
  intros HI Hw Hv Hold Hosv Hoev nCh'. destruct HI.
  assert (Hr : 0 <= newStartIdx ls < Z.of_nat (length (newCh ls))) by lia.
  constructor; cbn.
  - unfold nCh', storeNew. by rewrite length_insert.
  - lia.
  - lia.
  - intros j x Hx Hj.
    destruct (decide (j = newStartIdx ls)) as [->|Hne].
    + unfold nCh', storeNew in Hx. rewrite at_insert_eq in Hx by lia. congruence.
    + unfold nCh', storeNew in Hx. rewrite at_insert_ne in Hx by lia.
      eapply m_done0; [exact Hx|lia].
  - intros j Hj. unfold nCh', storeNew. rewrite at_insert_ne by lia.
    apply m_todo0. lia.
  - exact Hold.
  - exact Hosv.
  - exact Hoev.
  - done.
  - intros Hw'. rewrite m_nev0 by lia. unfold nCh', storeNew.
    rewrite at_insert_ne by lia. done.
Qed.

Lemma Mounted_store_end (ls : LoopState) (v : VNode) (oSI oEI : Z)
    (oSV oEV : option VNode) (t : option (gmap string Z)) :
  Mnt ls -> newStartIdx ls <= newEndIdx ls -> Q v ->
  (forall c, oSV = Some c -> c ∈ olds) ->
  (forall c, oEV = Some c -> c ∈ olds) ->
  let nCh' := storeNew (newCh ls) (newEndIdx ls) v in
  Mnt (mkLoopState oSI (newStartIdx ls) oEI oSV oEV (newEndIdx ls - 1)
         (newStartVnode ls) (at_ nCh' (newEndIdx ls - 1)) t (oldCh ls) nCh').
Proof using Type.
  intros HI Hw Hv Hosv Hoev nCh'. destruct HI.
  assert (Hr : 0 <= newEndIdx ls < Z.of_nat (length (newCh ls))) by lia.
  constructor; cbn.
  - unfold nCh', storeNew. by rewrite length_insert.
  - lia.
  - lia.
  - intros j x Hx Hj.
    destruct (decide (j = newEndIdx ls)) as [->|Hne].
    + unfold nCh', storeNew in Hx. rewrite at_insert_eq in Hx by lia. congruence.
    + unfold nCh', storeNew in Hx. rewrite at_insert_ne in Hx by lia.
      eapply m_done0; [exact Hx|lia].
  - intros j Hj. unfold nCh', storeNew. rewrite at_insert_ne by lia.
    apply m_todo0. lia.
  - exact m_old0.
  - exact Hosv.
  - exact Hoev.
  - intros Hw'. rewrite m_nsv0 by lia. unfold nCh', storeNew.
    rewrite at_insert_ne by lia. done.
  - done.
Qed.

Lemma Mounted_newStart (ls : LoopState) (n : VNode) :
  Mnt ls -> newStartIdx ls <= newEndIdx ls ->
  newStartVnode ls = Some n -> n ∈ news.
Proof using Type.
  intros HI Hw Hn. rewrite (m_nsv _ _ _ _ HI Hw) in Hn.
  rewrite (m_todo _ _ _ _ HI) in Hn by lia. by eapply at_elem_of.
Qed.

Lemma Mounted_newEnd (ls : LoopState) (n : VNode) :
  Mnt ls -> newStartIdx ls <= newEndIdx ls ->
  newEndVnode ls = Some n -> n ∈ news.
Proof using Type.
  intros HI Hw Hn. rewrite (m_nev _ _ _ _ HI Hw) in Hn.
  rewrite (m_todo _ _ _ _ HI) in Hn by lia. by eapply at_elem_of.
Qed.

Lemma step_Mounted (ls ls' : LoopState) (s s' : PState D) :
  Mnt ls -> loopCond ls = true ->
  step env patch parentElm canMove ls s = Ok ls' s' ->
  Mnt ls'.
Proof using Hpatch Hcreate.
  intros HI Hc Hrun. unfold loopCond in Hc.
  apply andb_prop in Hc as [Hc1 Hc2]. apply Z.leb_le in Hc1, Hc2.
  pose proof (Mounted_newStart ls) as HnS.
  pose proof (Mounted_newEnd ls) as HnE.
  pose proof (Mounted_store_start ls) as HS.
  pose proof (Mounted_store_end ls) as HE.
  pose proof (m_old _ _ _ _ HI) as Hold.
  pose proof (m_osv _ _ _ _ HI) as Hosv.
  pose proof (m_oev _ _ _ _ HI) as Hoev.
  destruct ls as [oSI nSI oEI oSV oEV nEI nSV nEV k2i oCh nCh].
  cbn [newStartIdx newEndIdx newStartVnode newEndVnode oldCh newCh
       oldStartVnode oldEndVnode] in *.
  unfold step in Hrun.
  destruct oSV as [oldStart|].
  2:{ apply ret_Ok in Hrun as [-> _]. destruct HI. constructor; cbn in *; eauto. }
  destruct oEV as [oldEnd|].
  2:{ apply ret_Ok in Hrun as [-> _]. destruct HI. constructor; cbn in *; eauto. }
  apply bind_Ok in Hrun as (newStart & s1 & Hl & Hrun).
  apply lift_Ok in Hl as [-> ->].
  specialize (HnS newStart HI Hc2 eq_refl).
  apply bind_Ok in Hrun as (same1 & s1 & Hl & Hrun).
  apply lift_Ok in Hl as [_ ->].
  destruct same1.
  { apply bind_Ok in Hrun as (v & s2 & Hp & Hrun).
    apply ret_Ok in Hrun as [-> _].
    apply (HS v (oSI + 1) oEI _ _ k2i oCh HI Hc2); eauto. }
  apply bind_Ok in Hrun as (newEnd & s1 & Hl & Hrun).
  apply lift_Ok in Hl as [-> ->].
  specialize (HnE newEnd HI Hc2 eq_refl).
  apply bind_Ok in Hrun as (same2 & s1 & Hl & Hrun).
  apply lift_Ok in Hl as [_ ->].
  destruct same2.
  { apply bind_Ok in Hrun as (v & s2 & Hp & Hrun).
    apply ret_Ok in Hrun as [-> _].
    apply (HE v oSI (oEI - 1) _ _ k2i HI Hc2); eauto. }
  apply bind_Ok in Hrun as (same3 & s1 & Hl & Hrun).
  apply lift_Ok in Hl as [_ ->].
  destruct same3.
  { apply bind_Ok in Hrun as (v & s2 & Hp & Hrun).
    apply bind_Ok in Hrun as (u & s3 & _ & Hrun).
    apply ret_Ok in Hrun as [-> _].
    apply (HE v (oSI + 1) oEI _ _ k2i HI Hc2); eauto. }
  apply bind_Ok in Hrun as (same4 & s1 & Hl & Hrun).
  apply lift_Ok in Hl as [_ ->].
  destruct same4.
  { apply bind_Ok in Hrun as (v & s2 & Hp & Hrun).
    apply bind_Ok in Hrun as (u & s3 & _ & Hrun).
    apply ret_Ok in Hrun as [-> _].
    apply (HS v oSI (oEI - 1) _ _ k2i oCh HI Hc2); eauto. }
  apply bind_Ok in Hrun as (table & s1 & _ & Hrun).
  apply bind_Ok in Hrun as (idxInOld & s2 & _ & Hrun).
  apply bind_Ok in Hrun as ([oCh' nCh'] & s3 & Hr & Hrun).
  apply ret_Ok in Hrun as [-> _].
  assert (Hres : exists v, Q v /\ nCh' = storeNew nCh nSI v /\
                 (forall j c, mjoin (at_ oCh' j) = Some c -> c ∈ olds)).
  { destruct idxInOld as [[i|]|]; [|discriminate Hr|].
    - apply bind_Ok in Hr as (vnodeToMove & s4 & Hl & Hr).
      apply lift_Ok in Hl as [Hmv ->].
      apply bind_Ok in Hr as (same5 & s4 & Hl & Hr).
      apply lift_Ok in Hl as [_ ->].
      destruct same5.
      + apply bind_Ok in Hr as (v & s5 & Hp & Hr).
        apply bind_Ok in Hr as (u & s6 & _ & Hr).
        apply ret_Ok in Hr as [[= -> ->] _].
        exists v. split; [eapply Hpatch; [|exact HnS|exact Hp]; eauto|].
        split; [done|]. intros j c Hj.
        destruct (decide (Z.to_nat i = Z.to_nat j)) as [E|E].
        * exfalso. unfold at_ in Hj. destruct (Z.ltb j 0); [done|].
          rewrite <- E in Hj.
          destruct (decide (Z.to_nat i < length oCh)%nat).
          -- by rewrite list_lookup_insert_eq in Hj.
          -- rewrite list_insert_ge in Hj by lia.
             rewrite lookup_ge_None_2 in Hj by lia. done.
        * apply (Hold j). unfold at_ in *. destruct (Z.ltb j 0); [done|].
          by rewrite list_lookup_insert_ne in Hj.
      + apply bind_Ok in Hr as (v & s5 & Hp & Hr).
        apply ret_Ok in Hr as [[= -> ->] _].
        exists v. split; [eapply Hcreate; [exact HnS|exact Hp]|]. done.
    - apply bind_Ok in Hr as (v & s5 & Hp & Hr).
      apply ret_Ok in Hr as [[= -> ->] _].
      exists v. split; [eapply Hcreate; [exact HnS|exact Hp]|]. done. }
  destruct Hres as (v & Hv & -> & Hold').
  apply (HS v oSI oEI _ _ (Some table) oCh' HI Hc2); eauto.
Qed.

Lemma loop_Mounted (fuel : nat) (ls ls' : LoopState) (s s' : PState D) :
  Mnt ls -> loop env patch parentElm canMove fuel ls s = Ok ls' s' ->
  Mnt ls' /\ loopCond ls' = false.
Proof using Hpatch Hcreate.
  revert ls s. induction fuel as [|fuel IH]; intros ls s HI Hrun.
  - cbn in Hrun. destruct (loopCond ls) eqn:Hc; [discriminate|].
    by apply ret_Ok in Hrun as [-> _].
  - cbn [loop] in Hrun. destruct (loopCond ls) eqn:Hc.
    + apply bind_Ok in Hrun as (ls1 & s1 & Hstep & Hrun).
      eapply IH; [|exact Hrun]. eapply step_Mounted; eauto.
    + by apply ret_Ok in Hrun as [-> _].
Qed.

Lemma addVnodesFrom_Q (n : nat) (p r : option handle) (l res : list VNode)
    (i : Z) (s s' : PState D) :
  addVnodesFrom env n p r l i s = Ok res s' ->
  0 <= i ->
  (forall j, i <= j < i + Z.of_nat n -> forall v, at_ l j = Some v -> v ∈ news) ->
  length res = length l /\
  forall j v, at_ res j = Some v ->
    (i <= j < i + Z.of_nat n -> Q v) /\
    (~ (i <= j < i + Z.of_nat n) -> at_ l j = Some v).
Proof using Hcreate.
  revert l i s. induction n as [|n IH]; intros l i s Hrun Hi Hin.
  - apply ret_Ok in Hrun as [-> _]. split; [done|]. intros j v Hj. split; [lia|done].
  - cbn [addVnodesFrom] in Hrun.
    destruct (at_ l i) as [v0|] eqn:E; [|discriminate].
    apply bind_Ok in Hrun as (v' & s1 & Hc & Hrun).
    pose proof (at_range _ _ _ E) as Hr.
    apply IH in Hrun as [Hlen Hres]; [|lia|].
    2:{ intros j Hj v Hv. rewrite at_insert_ne in Hv by lia. eapply Hin; [|exact Hv]. lia. }
    rewrite length_insert in Hlen. split; [done|].
    intros j v Hv. destruct (Hres j v Hv) as [H1 H2].
    destruct (decide (j = i)) as [->|Hne].
    + split; [|lia]. intros _.
      assert (Hv' : at_ (<[Z.to_nat i := v']> l) i = Some v) by (apply H2; lia).
      rewrite at_insert_eq in Hv' by lia. injection Hv' as <-.
      eapply Hcreate; [|exact Hc]. eapply Hin; [|exact E]. lia.
    + split.
      * intros Hj. apply H1. lia.
      * intros Hj. rewrite <- (at_insert_ne l i j v') by lia. apply H2. lia.
Qed.

Lemma updateChildrenWith_Q (oldCh_ : list (option VNode)) (res : list VNode)
    (s s' : PState D) :
  updateChildrenWith env patch parentElm canMove oldCh_ news s = Ok res s' ->
  (forall c, Some c ∈ oldCh_ -> c ∈ olds) ->
  length res = length news /\ Forall Q res.
Proof using Hpatch Hcreate.
  intros Hrun Hold. unfold updateChildrenWith in Hrun.
  apply bind_Ok in Hrun as (u & s1 & _ & Hrun).
  apply bind_Ok in Hrun as (ls & s2 & Hloop & Hrun).
  assert (Hmj : forall j c, mjoin (at_ oldCh_ j) = Some c -> c ∈ olds).
  { intros j c Hj. apply Hold. destruct (at_ oldCh_ j) as [[x|]|] eqn:E; try done.
    cbn in Hj. injection Hj as ->. by eapply at_elem_of. }
  apply loop_Mounted in Hloop as [HI Hc].
  2:{ unfold initLoop. constructor; cbn -[at_]; eauto; try lia.
      intros j v Hv Hj; apply at_range in Hv; lia. }
  unfold finish in Hrun. unfold loopCond in Hc.
  destruct HI.
  assert (Hall : forall l, length l = length news ->
            (forall j v, at_ l j = Some v -> Q v) -> Forall Q l).
  { intros l _ Hl. apply Forall_forall. intros x Hx.
    apply elem_of_at in Hx as [j Hj]. eauto. }
  destruct (Z.gtb_spec (oldStartIdx ls) (oldEndIdx ls)) as [Hg|Hg].
  - unfold addVnodes in Hrun.
    apply addVnodesFrom_Q in Hrun as [Hlen Hres]; [|lia|].
    2:{ intros j Hj v Hv. rewrite m_todo0 in Hv by lia. by eapply at_elem_of. }
    split; [congruence|]. apply Hall; [congruence|].
    intros j v Hv. destruct (Hres j v Hv) as [H1 H2].
    destruct (decide (newStartIdx ls <= j < newStartIdx ls +
                Z.of_nat (Z.to_nat (newEndIdx ls - newStartIdx ls + 1)))) as [Hj|Hj].
    + by apply H1.
    + eapply m_done0; [apply H2, Hj|]. lia.
  - assert (Hn : newEndIdx ls < newStartIdx ls).
    { apply andb_false_iff in Hc as [Hc|Hc]; apply Z.leb_gt in Hc; lia. }
    assert (res = newCh ls) as ->.
    { destruct (Z.gtb_spec (newStartIdx ls) (newEndIdx ls)); [|lia].
      apply bind_Ok in Hrun as (u' & s3 & _ & Hrun).
      by apply ret_Ok in Hrun as [-> _]. }
    split; [done|]. apply Hall; [done|].
    intros j v Hv. eapply m_done0; [exact Hv|lia].
Qed.

End Loop.
End Mounts.

Section MountsAll.
Context {D : Type} `{Backend D}.
Variable env : BuildEnv.

Lemma createElm_elm (v : VNode) (p r : option handle) (n h : bool)
    (s : PState D) (v' : VNode) (s' : PState D) :
  createElm env v p r n h s = Ok v' s' ->
  plainNode v = true ->
  is_Some (elm v').
Proof.
  intros Hrun Hp.
  destruct v as [rf tg d ch rc tx e nsv k co cin st ri ic icl io af iap fs sc].
  cbn [createElm] in Hrun. unfold plainNode in Hp. cbn [data componentInstance] in Hp.
  apply andb_prop in Hp as [Hd Hci].
  destruct cin as [?|]; [discriminate|]. clear Hci.
  apply bind_Ok in Hrun as (v0 & s0 & H0 & Hrun).
  assert (P0 : data v0 = d /\ componentInstance v0 = None /\ tag v0 = tg /\
               isComment v0 = ic).
  { destruct (_ && _).
    - apply bind_Ok in H0 as (r1 & s1 & _ & H0).
      apply bind_Ok in H0 as (r2 & s2 & _ & H0).
      by apply ret_Ok in H0 as [-> _].
    - by apply ret_Ok in H0 as [-> _]. }
  destruct P0 as (Pd & Pc & Pt & Pic).
  apply bind_Ok in Hrun as ([isC v2] & s2 & H2 & Hrun).
  apply createComponent_plain in H2 as [-> ->].
  2:{ cbn. rewrite Pd. destruct d as [d0|]; [|done]. by apply negb_true_iff in Hd. }
  2:{ cbn. exact Pc. }
  cbn [tag data set_isRootInsert isComment text] in Hrun.
  rewrite Pt in Hrun. destruct tg as [tg1|].
  - apply bind_Ok in Hrun as (u1 & s3 & _ & Hrun).
    apply bind_Ok in Hrun as (hd & s4 & _ & Hrun).
    apply bind_Ok in Hrun as (u2 & s5 & _ & Hrun).
    apply bind_Ok in Hrun as (ch' & s6 & Hc & Hrun).
    apply bind_Ok in Hrun as (u3 & s7 & _ & Hrun).
    apply bind_Ok in Hrun as (u4 & s8 & _ & Hrun).
    apply bind_Ok in Hrun as (u5 & s9 & _ & Hrun).
    apply ret_Ok in Hrun as [-> _]. cbn. eauto.
  - rewrite Pic in Hrun. destruct ic.
    + apply bind_Ok in Hrun as (hd & s3 & _ & Hrun).
      apply bind_Ok in Hrun as (u & s4 & _ & Hrun).
      apply ret_Ok in Hrun as [-> _]. cbn. eauto.
    + apply bind_Ok in Hrun as (hd & s3 & _ & Hrun).
      apply bind_Ok in Hrun as (u & s4 & _ & Hrun).
      apply ret_Ok in Hrun as [-> _]. cbn. eauto.
Qed.

(** After [updateChildren] every child of the new list holds a native
    handle: given old children that are rendered and are no async
    placeholders, and new children that are no components, the call
    leaves a list of the length of the new one in which every vnode has
    its [elm], whether it was patched against an old child or
    created. *)
Theorem updateChildren_mounts_all (depth : nat) (parentElm : option handle)
    (removeOnly : bool) (old new res : list VNode) (s s' : PState D) :
  updateChildren env depth parentElm (Some <$> old) new removeOnly s
    = Ok res s' ->
  Forall (fun o => is_Some (elm o) /\ isAsyncPlaceholder o = false) old ->
  Forall (fun n => plainNode n = true) new ->
  (forall o n, o ∈ old -> n ∈ new -> ref o = ref n -> elm n = elm o) ->
  length res = length new /\ Forall (fun v => is_Some (elm v)) res.
Proof.
  intros Hrun Hold Hnew Href. unfold updateChildren in Hrun.
  rewrite Forall_forall in Hold. rewrite Forall_forall in Hnew.
  eapply (updateChildrenWith_Q env _ parentElm (negb removeOnly) old new
            (fun v => is_Some (elm v))); [| |exact Hrun|].
  - intros o n v s1 s2 Ho Hn Hp.
    destruct (Hold o Ho) as [He Ha].
    destruct (decide (ref o = ref n)) as [E|E].
    + destruct depth as [|d]; [discriminate|]. cbn [patchVnode] in Hp.
      rewrite (proj2 (Nat.eqb_eq _ _) E) in Hp.
      apply ret_Ok in Hp as [-> _]. rewrite (Href o n Ho Hn E). exact He.
    + apply patchVnode_result in Hp as (-> & _); [done|done|].
      rewrite Ha. discriminate.
  - intros n p r v s1 s2 Hn Hc. eapply createElm_elm; [exact Hc|]. by apply Hnew.
  - intros c Hc. apply list_elem_of_fmap in Hc as (x & [= ->] & Hx). done.
Qed.

End MountsAll.

Lemma createElm_renders_tree_witness :
  exists v' s',
    createElm (mkBuildEnv false) preElement (Some 0%nat) None false true
              (flatState rotDom) = Ok v' s' /\
    rendered v' = true.
Proof.
  eexists _, _. split; [vm_compute; reflexivity|].
  eapply (createElm_renders_tree (mkBuildEnv false) preElement (Some 0%nat)
            None false true (flatState rotDom)).
  - vm_compute. reflexivity.
  - reflexivity.
Defined.

Lemma cloneVNode_same_witness :
  let v := inputOfType 1 "text" in
  sameVnode webTextInputType v (cloneVNode 7 8 v) = Some true /\
  sameVnode webTextInputType (cloneVNode 7 8 v) v = Some true.
Proof.
  destruct (cloneVNode_same webTextInputType 7 8 (inputOfType 1 "text"))
    as [Hsame _].
  apply Hsame; [discriminate|intros _; discriminate].
Defined.

Lemma updateChildren_mounts_all_witness :
  exists res s',
    updateChildren (mkBuildEnv false) 1 (Some 0%nat) (Some <$> rotOld)
                   (rotNew ++ [keyedItem 24 4 None]) false (flatState rotDom)
      = Ok res s' /\
    length res = length (rotNew ++ [keyedItem 24 4 None]) /\
    Forall (fun v => is_Some (elm v)) res.
Proof.
  eexists _, _. split; [vm_compute; reflexivity|].
  eapply (updateChildren_mounts_all (mkBuildEnv false) 1 (Some 0%nat) false
            rotOld (rotNew ++ [keyedItem 24 4 None]) _ (flatState rotDom)).
  - vm_compute. reflexivity.
  - repeat constructor; eauto.
  - repeat constructor.
  - intros o n Ho Hn.
    repeat (apply elem_of_cons in Ho as [->|Ho]);
      repeat (apply elem_of_cons in Hn as [->|Hn]);
      try (by apply elem_of_nil in Ho); try (by apply elem_of_nil in Hn);
      discriminate.
Defined.

Section Remove.
Context {D : Type} `{Backend D}.


Lemma keepsMounted_refl (s : PState D) : keepsMounted s s.
Proof. exists []. by rewrite app_nil_r. Qed.

Lemma keepsMounted_trans (s1 s2 s3 : PState D) :
  keepsMounted s1 s2 -> keepsMounted s2 s3 -> keepsMounted s1 s3.
Proof.
  intros (e1 & L1 & F1) (e2 & L2 & F2). exists (e1 ++ e2).
  split; [by rewrite L2, L1, app_assoc|]. by apply Forall_app.
Qed.


Lemma countCalls_S (vnode : VNode) (j : nat) :
  countCalls vnode (S j) =
  countCalls vnode j + (if cbs_remove_calls_rm j vnode then 1 else 0).
Proof.
  unfold countCalls. rewrite seq_S, List.filter_app, length_app. cbn.
  destruct (cbs_remove_calls_rm j vnode); cbn; lia.
Qed.

Lemma countCalls_le (vnode : VNode) (j : nat) :
  0 <= countCalls vnode j <= Z.of_nat j.
Proof.
  induction j as [|j IH]; [unfold countCalls; cbn; lia|].
  rewrite countCalls_S. destruct (cbs_remove_calls_rm j vnode); lia.
Qed.

Lemma callRm_counts (rm : nat) (cbs0 : list RmCb) (e : option handle) (n : Z)
    (s s' : PState D) :
  rmCbs s = cbs0 ++ [mkRmCb e n] -> rm = length cbs0 ->
  callRm rm s = Ok tt s' ->
  let s1 := mkPState (dom s) (log s) (insertedVnodeQueue s) (nextRef s)
                     (creatingElmInVPre s) (cbs0 ++ [mkRmCb e (n - 1)]) in
  if Z.eqb (n - 1) 0 then removeNode e s1 = Ok tt s' else s' = s1.
Proof.
  intros Hcbs -> Hrun s1. unfold callRm in Hrun. rewrite Hcbs in Hrun.
  rewrite lookup_app_r in Hrun by lia. rewrite Nat.sub_diag in Hrun. cbn in Hrun.
  replace (<[length cbs0 := mkRmCb e (n - 1)]> (cbs0 ++ [mkRmCb e n]))
    with (cbs0 ++ [mkRmCb e (n - 1)]) in Hrun.
  2:{ rewrite insert_app_r_alt by lia. by rewrite Nat.sub_diag. }
  fold s1 in Hrun. destruct (Z.eqb (n - 1) 0); [exact Hrun|].
  by injection Hrun as <-.
Qed.

Lemma removeNode_rmCbs (e : option handle) (s s' : PState D) :
  removeNode e s = Ok tt s' -> rmCbs s' = rmCbs s.
Proof.
  unfold removeNode, bind, readDom. destruct (bool_decide _).
  - unfold op_removeChild, bind, emit, onDom. by intros [= <-].
  - by intros [= <-].
Qed.

Lemma hooks_loop (vnode : VNode) (cbs0 : list RmCb) (j : nat) (s s' : PState D) :
  (j <= cbs_length HRemove)%nat ->
  rmCbs s = cbs0 ++ [mkRmCb (elm vnode) (Z.of_nat (cbs_length HRemove) + 1)] ->
  forUpTo j (fun i => callModuleHook HRemove i None vnode ;;
                      when (cbs_remove_calls_rm i vnode) (callRm (length cbs0)))
          s = Ok tt s' ->
  rmCbs s' = cbs0 ++ [mkRmCb (elm vnode)
                        (Z.of_nat (cbs_length HRemove) + 1 - countCalls vnode j)] /\
  keepsMounted s s'.
Proof.
  intros Hj Hcbs. revert s'. induction j as [|j IH]; intros s' Hrun.
  - apply ret_Ok in Hrun as [_ ->]. unfold countCalls. cbn.
    rewrite Z.sub_0_r. split; [done|apply keepsMounted_refl].
  - cbn [forUpTo] in Hrun. apply bind_Ok in Hrun as ([] & s1 & H1 & Hrun).
    destruct (IH ltac:(lia) s1 H1) as [Hc1 K1].
    apply bind_Ok in Hrun as ([] & s2 & H2 & Hrun).
    assert (Hc2 : rmCbs s2 = rmCbs s1 /\ keepsMounted s1 s2).
    { unfold callModuleHook, bind, emit, onDom in H2. injection H2 as <-. cbn.
      split; [done|]. eexists. split; [reflexivity|]. by repeat constructor. }
    destruct Hc2 as [Hc2 K2]. rewrite Hc1 in Hc2.
    rewrite countCalls_S. pose proof (countCalls_le vnode j) as Hle.
    destruct (cbs_remove_calls_rm j vnode); cbn [when] in Hrun.
    + apply (callRm_counts _ _ _ _ _ _ Hc2 eq_refl) in Hrun.
      cbv zeta in Hrun.
      destruct (Z.eqb_spec (Z.of_nat (cbs_length HRemove) + 1 - countCalls vnode j - 1) 0)
        as [E|E]; [lia|].
      subst s'. cbn. split; [f_equal; f_equal; f_equal; lia|].
      eapply keepsMounted_trans; [exact K1|].
      destruct K2 as (evs & L & F). exists evs. done.
    + apply ret_Ok in Hrun as [_ ->]. rewrite Z.add_0_r.
      split; [done|]. by eapply keepsMounted_trans.
Qed.

(** Removing an element vnode with [data] waits for its [remove]
    hooks: the callback made for it counts one listener per module
    hook plus one; while the hooks run, no native node is removed; and
    the element is taken out of its parent ([removeNode]) by the last
    of the calls of [rm], that is exactly when every module hook and
    the vnode's own hook, if it has one, have called [rm] back before
    returning. *)
Theorem remove_waits_for_hooks (vnode : VNode) (s s' : PState D) :
  is_Some (data vnode) ->
  componentInstance vnode = None ->
  removeAndInvokeRemoveHook vnode None s = Ok tt s' ->
  let n := Z.of_nat (cbs_length HRemove) + 1 in
  rmCbs s' = rmCbs s ++ [mkRmCb (elm vnode) (n - removeCalls vnode)] /\
  0 <= n - removeCalls vnode /\
  exists s1,
    keepsMounted s s1 /\
    if Z.eqb (removeCalls vnode) n then removeNode (elm vnode) s1 = Ok tt s'
    else s' = s1.
Proof.
  intros [d Hd] Hci Hrun n. subst n.
  destruct vnode as [rf tg d0 ch rc tx e nsv k co cin st ri ic icl io af iap fs sc].
  cbn [data componentInstance elm] in *. subst d0 cin.
  cbn [removeAndInvokeRemoveHook data componentInstance elm] in Hrun.
  rewrite (bool_decide_eq_true_2 (is_Some (Some d))) in Hrun by eauto.
  rewrite Bool.orb_true_r in Hrun.
  apply bind_Ok in Hrun as (rm & s1 & Hcr & Hrun).
  unfold createRmCb in Hcr. injection Hcr as <- <-.
  apply bind_Ok in Hrun as ([] & s2 & H2 & Hrun).
  apply ret_Ok in H2 as [_ ->].
  apply bind_Ok in Hrun as ([] & s3 & Hloop & Hrun).
  set (v := mkVNode rf tg (Some d) ch rc tx e nsv k co None st ri ic icl io af
                    iap fs sc) in *.
  apply (hooks_loop v (rmCbs s) (cbs_length HRemove)) in Hloop as [Hc3 K3];
    [|lia|reflexivity].
  assert (K03 : keepsMounted s s3).
  { destruct K3 as (evs & L & F). exists evs. done. }
  pose proof (countCalls_le v (cbs_length HRemove)) as Hle.
  unfold removeCalls. fold (countCalls v (cbs_length HRemove)).
  change (data v ≫= hook) with (hook d).
  change (elm v) with e in *.
  destruct (hook d) as [hk|] eqn:Ehk.
  - destruct (h_remove hk) eqn:Er.
    + apply bind_Ok in Hrun as ([] & s4 & H4 & Hrun).
      assert (Hc4 : rmCbs s4 = rmCbs s3 /\ keepsMounted s3 s4).
      { unfold callNodeHook, bind, emit, onDom in H4. injection H4 as <-. cbn.
        split; [done|]. eexists. split; [reflexivity|]. by repeat constructor. }
      destruct Hc4 as [Hc4 K4]. rewrite Hc3 in Hc4.
      assert (K04 : keepsMounted s s4) by (by eapply keepsMounted_trans).
      destruct (hook_remove_calls_rm v); cbn [when] in Hrun.
      * apply (callRm_counts _ _ _ _ _ _ Hc4 eq_refl) in Hrun. cbv zeta in Hrun.
        set (s5 := mkPState _ _ _ _ _ _) in Hrun.
        assert (K05 : keepsMounted s s5).
        { destruct K04 as (evs & L & F). exists evs. done. }
        assert (Hc5 : rmCbs s5 = rmCbs s ++
                  [mkRmCb e (Z.of_nat (cbs_length HRemove) + 1 - (countCalls v (cbs_length HRemove) + 1))]).
        { unfold s5. cbn. f_equal. f_equal. f_equal. lia. }
        destruct (Z.eqb_spec (Z.of_nat (cbs_length HRemove) + 1 - countCalls v (cbs_length HRemove) - 1) 0) as [E|E].
        -- rewrite (proj2 (Z.eqb_eq _ _)) by lia.
           split; [by rewrite (removeNode_rmCbs _ _ _ Hrun)|].
           split; [lia|]. exists s5. done.
        -- rewrite (proj2 (Z.eqb_neq _ _)) by lia. subst s'.
           split; [done|]. split; [lia|]. exists s5. done.
      * apply ret_Ok in Hrun as [_ ->].
        rewrite (proj2 (Z.eqb_neq _ _)) by lia. rewrite Z.add_0_r.
        split; [done|]. split; [lia|]. exists s4. done.
    + apply (callRm_counts _ _ _ _ _ _ Hc3 eq_refl) in Hrun. cbv zeta in Hrun.
      set (s5 := mkPState _ _ _ _ _ _) in Hrun.
      assert (K05 : keepsMounted s s5).
      { destruct K03 as (evs & L & F). exists evs. done. }
      assert (Hc5 : rmCbs s5 = rmCbs s ++
                [mkRmCb e (Z.of_nat (cbs_length HRemove) + 1 - (countCalls v (cbs_length HRemove) + 1))]).
      { unfold s5. cbn. f_equal. f_equal. f_equal. lia. }
      destruct (Z.eqb_spec (Z.of_nat (cbs_length HRemove) + 1 - countCalls v (cbs_length HRemove) - 1) 0) as [E|E].
      * rewrite (proj2 (Z.eqb_eq _ _)) by lia.
        split; [by rewrite (removeNode_rmCbs _ _ _ Hrun)|].
        split; [lia|]. exists s5. done.
      * rewrite (proj2 (Z.eqb_neq _ _)) by lia. subst s'.
        split; [done|]. split; [lia|]. exists s5. done.
  - apply (callRm_counts _ _ _ _ _ _ Hc3 eq_refl) in Hrun. cbv zeta in Hrun.
    set (s5 := mkPState _ _ _ _ _ _) in Hrun.
    assert (K05 : keepsMounted s s5).
    { destruct K03 as (evs & L & F). exists evs. done. }
    assert (Hc5 : rmCbs s5 = rmCbs s ++
              [mkRmCb e (Z.of_nat (cbs_length HRemove) + 1 - (countCalls v (cbs_length HRemove) + 1))]).
    { unfold s5. cbn. f_equal. f_equal. f_equal. lia. }
    destruct (Z.eqb_spec (Z.of_nat (cbs_length HRemove) + 1 - countCalls v (cbs_length HRemove) - 1) 0) as [E|E].
    + rewrite (proj2 (Z.eqb_eq _ _)) by lia.
      split; [by rewrite (removeNode_rmCbs _ _ _ Hrun)|].
      split; [lia|]. exists s5. done.
    + rewrite (proj2 (Z.eqb_neq _ _)) by lia. subst s'.
      split; [done|]. split; [lia|]. exists s5. done.
Qed.

End Remove.

Lemma remove_waits_for_hooks_witness :
  let v := keyedItem 1 1 (Some 1%nat) in
  let s := flatState rotDom in
  exists s',
    removeAndInvokeRemoveHook v None s = Ok tt s' /\
    let n := Z.of_nat (cbs_length HRemove) + 1 in
    rmCbs s' = rmCbs s ++ [mkRmCb (elm v) (n - removeCalls v)] /\
    0 <= n - removeCalls v /\
    exists s1,
      keepsMounted s s1 /\
      if Z.eqb (removeCalls v) n then removeNode (elm v) s1 = Ok tt s'
      else s' = s1.
Proof.
  intros v s.
  destruct (removeAndInvokeRemoveHook v None s) as [[] s'| |] eqn:E;
    [|vm_compute in E; discriminate..].
  exists s'. split; [reflexivity|].
  apply (remove_waits_for_hooks v s s');
    [eexists; reflexivity | reflexivity | exact E].
Defined.

Section ReplaceAll.
Context {D : Type} `{Backend D}.
Variable env : BuildEnv.
Variable patch : VNode -> VNode -> M D VNode.
Variable parentElm : option handle.
Variable canMove : bool.
Variables (o1 : VNode) (olds new : list VNode).

Hypothesis Hdiff : forall a b, a ∈ o1 :: olds -> b ∈ new ->
  sameVnode isTextInputType a b = Some false /\
  sameVnode isTextInputType b a = Some false.
Hypothesis Hnames : forall b, b ∈ new ->
  isObject (key b) = false /\ keyName b ∉ objectPrototypeNames.
Hypothesis Holdkeys : forall a, a ∈ o1 :: olds -> isObject (key a) = false.

Local Abbreviation old := (o1 :: olds).
Local Abbreviation oCh := (Some <$> o1 :: olds).
Local Abbreviation oEI := (Z.of_nat (length (o1 :: olds)) - 1).
Local Abbreviation nEI := (Z.of_nat (length new) - 1).

Lemma old_slot (j : Z) (c : VNode) : mjoin (at_ oCh j) = Some c -> c ∈ old.
Proof using Type. rewrite at_Some_fmap. apply at_elem_of. Qed.

Lemma table_exists :
  exists t, createKeyToOldIdx oCh 0 oEI = Some t /\
            forall k x, t !! k = Some x ->
              exists c, mjoin (at_ oCh x) = Some c /\ c ∈ old.
Proof using Type.
  unfold createKeyToOldIdx.
  destruct (createKeyToOldIdxFrom_last oCh (Z.to_nat (oEI - 0 + 1)) 0 ∅)
    as (t & Hrun & Ht).
  { intros j Hj. rewrite at_Some_fmap. apply at_is_Some. lia. }
  exists t. split; [exact Hrun|]. intros k x Hx.
  apply Ht in Hx as [(_ & _ & (c & Hc & _) & _)|[Hx _]];
    [|by rewrite lookup_empty in Hx].
  exists c. split; [done|]. by eapply old_slot.
Qed.

Lemma step_creates (t : gmap string Z) (topt : option (gmap string Z))
    (oe n ne : VNode) (k : Z) (nCh : list VNode) (s : PState D) :
  createKeyToOldIdx oCh 0 oEI = Some t ->
  (forall k x, t !! k = Some x ->
     exists c, mjoin (at_ oCh x) = Some c /\ c ∈ old) ->
  topt = None \/ topt = Some t ->
  oe ∈ old -> n ∈ new -> ne ∈ new ->
  step env patch parentElm canMove
    (mkLoopState 0 k oEI (Some o1) (Some oe) nEI (Some n) (Some ne) topt oCh nCh)
    s =
  (do v <- createElm env n parentElm (elm o1) false true;
   ret (mkLoopState 0 (k + 1) oEI (Some o1) (Some oe) nEI
          (at_ (storeNew nCh k v) (k + 1)) (Some ne) (Some t) oCh
          (storeNew nCh k v))) s.
Proof using Hdiff Hnames.
  intros Ht Hspec Htopt Hoe Hn Hne.
  assert (Ho1 : o1 ∈ old) by left.
  destruct (Hdiff o1 n Ho1 Hn) as [S1 _].
  destruct (Hdiff oe ne Hoe Hne) as [S2 _].
  destruct (Hdiff o1 ne Ho1 Hne) as [S3 _].
  destruct (Hdiff oe n Hoe Hn) as [S4 _].
  unfold step.
  unfold bind at 1. unfold lift at 1, ret at 1.
  unfold bind at 1. rewrite S1. unfold lift at 1, ret at 1.
  unfold bind at 1. unfold lift at 1, ret at 1.
  unfold bind at 1. rewrite S2. unfold lift at 1, ret at 1.
  unfold bind at 1. rewrite S3. unfold lift at 1, ret at 1.
  unfold bind at 1. rewrite S4. unfold lift at 1, ret at 1.
  assert (Htab : match topt with
                 | Some t0 => ret t0
                 | None => lift (createKeyToOldIdx oCh 0 oEI)
                 end s = Ok t s).
  { destruct Htopt as [-> | ->]; [by rewrite Ht|done]. }
  unfold bind at 1. rewrite Htab.
  destruct (isDef (key n)) eqn:Ek.
  - unfold bind at 1. unfold ret at 1. unfold readKey.
    destruct (t !! toPropertyKey (key n)) as [i|] eqn:Ei.
    + destruct (Hspec _ _ Ei) as (c & Hc & Hcin).
      destruct (Hdiff c n Hcin Hn) as [S5 _].
      unfold bind at 1. unfold bind at 1. rewrite Hc. unfold lift at 1, ret at 1.
      unfold bind at 1. rewrite S5. unfold lift at 1, ret at 1.
      unfold bind. destruct (createElm env n parentElm (elm o1) false true s);
        reflexivity.
    + rewrite bool_decide_eq_false_2 by (apply (Hnames n Hn)).
      unfold bind. destruct (createElm env n parentElm (elm o1) false true s);
        reflexivity.
  - assert (Hfind : findIdxInOld n oCh 0 oEI = Some None).
    { unfold findIdxInOld. apply findIdxInOldFrom_none.
      intros j c _ Hc. apply old_slot in Hc. by destruct (Hdiff c n Hc Hn). }
    unfold bind at 1. unfold bind at 1. rewrite Hfind.
    unfold lift at 1, ret at 1. unfold ret at 1. cbn [fmap option_fmap option_map].
    unfold bind. destruct (createElm env n parentElm (elm o1) false true s);
      reflexivity.
Qed.

Lemma loop_creates (t : gmap string Z) (oe : VNode) :
  createKeyToOldIdx oCh 0 oEI = Some t ->
  (forall k x, t !! k = Some x ->
     exists c, mjoin (at_ oCh x) = Some c /\ c ∈ old) ->
  oe ∈ old ->
  forall (rest vs : list VNode) (topt : option (gmap string Z)) (fuel : nat)
         (s : PState D),
    topt = None \/ topt = Some t ->
    (length rest <= fuel)%nat ->
    length (vs ++ rest) = length new ->
    (forall n, n ∈ rest -> n ∈ new) ->
    (do ls <- loop env patch parentElm canMove fuel
                (mkLoopState 0 (Z.of_nat (length vs)) oEI (Some o1) (Some oe) nEI
                   (at_ (vs ++ rest) (Z.of_nat (length vs))) (at_ new nEI) topt
                   oCh (vs ++ rest));
     finish env parentElm ls) s =
    (do vs1 <- createEach env parentElm (elm o1) rest;
     removeVnodes oCh 0 oEI ;; ret (vs ++ vs1)) s.
Proof using Hdiff Hnames.
  intros Ht Hspec Hoe rest.
  induction rest as [|n rest IH]; intros vs topt fuel s Htopt Hfuel Hlen Hin.
  - cbn [createEach]. rewrite bind_ret.
    assert (Hc : forall a b c d e,
              loopCond (mkLoopState 0 (Z.of_nat (length vs)) oEI a b nEI c d e
                                    oCh (vs ++ [])) = false).
    { intros. unfold loopCond. cbn [oldStartIdx oldEndIdx newStartIdx newEndIdx].
      rewrite length_app in Hlen. cbn [length] in Hlen.
      apply andb_false_iff. right. apply Z.leb_gt. lia. }
    unfold bind at 1.
    destruct fuel; cbn [loop]; rewrite Hc; unfold ret at 1;
      unfold finish; cbn [oldStartIdx oldEndIdx newStartIdx newEndIdx newCh oldCh];
      rewrite length_app in Hlen; cbn [length] in Hlen;
      (destruct (Z.gtb_spec 0 oEI); [cbn [length] in *; lia|]);
      (destruct (Z.gtb_spec (Z.of_nat (length vs)) nEI); [|lia]);
      reflexivity.
  - cbn [length] in Hfuel. destruct fuel as [|fuel]; [lia|].
    assert (Hn : n ∈ new) by (apply Hin; left).
    destruct (at_is_Some new nEI) as [ne Hne].
    { rewrite <- Hlen, length_app. cbn [length]. lia. }
    assert (Hne' : ne ∈ new) by (by eapply at_elem_of).
    assert (HnS : at_ (vs ++ n :: rest) (Z.of_nat (length vs)) = Some n).
    { apply at_Some. split; [lia|]. rewrite Nat2Z.id.
      rewrite lookup_app_r by lia. by rewrite Nat.sub_diag. }
    rewrite HnS, Hne.
    assert (Hc : loopCond (mkLoopState 0 (Z.of_nat (length vs)) oEI (Some o1)
                (Some oe) nEI (Some n) (Some ne) topt oCh (vs ++ n :: rest)) = true).
    { unfold loopCond. cbn [oldStartIdx oldEndIdx newStartIdx newEndIdx].
      rewrite length_app in Hlen. cbn [length] in *.
      apply andb_true_iff. split; apply Z.leb_le; lia. }
    cbn [loop]. rewrite Hc.
    transitivity
      ((do v <- createElm env n parentElm (elm o1) false true;
        do ls <- loop env patch parentElm canMove fuel
                   (mkLoopState 0 (Z.of_nat (length vs) + 1) oEI (Some o1) (Some oe)
                      nEI (at_ (storeNew (vs ++ n :: rest) (Z.of_nat (length vs)) v)
                               (Z.of_nat (length vs) + 1))
                      (Some ne) (Some t) oCh
                      (storeNew (vs ++ n :: rest) (Z.of_nat (length vs)) v));
        finish env parentElm ls) s).
    { rewrite bind_assoc_s. unfold bind at 1.
      rewrite (step_creates t topt oe n ne _ _ s Ht Hspec Htopt Hoe Hn Hne').
      unfold bind.
      destruct (createElm env n parentElm (elm o1) false true s); reflexivity. }
    transitivity
      ((do v <- createElm env n parentElm (elm o1) false true;
        do vs1 <- createEach env parentElm (elm o1) rest;
        removeVnodes oCh 0 oEI ;; ret (vs ++ v :: vs1)) s).
    2:{ cbn [createEach]. unfold bind.
        destruct (createElm env n parentElm (elm o1) false true s) as [v s1| |];
          [|reflexivity..].
        destruct (createEach env parentElm (elm o1) rest s1) as [vs1 s2| |];
          reflexivity. }
    apply bind_ext_s. intros v s1.
    assert (E : storeNew (vs ++ n :: rest) (Z.of_nat (length vs)) v
                = (vs ++ [v]) ++ rest).
    { unfold storeNew. rewrite Nat2Z.id.
      rewrite insert_app_r_alt by lia. rewrite Nat.sub_diag. cbn.
      by rewrite <- app_assoc. }
    rewrite E.
    specialize (IH (vs ++ [v]) (Some t) fuel s1 (or_intror eq_refl)).
    replace (Z.of_nat (length vs) + 1) with (Z.of_nat (length (vs ++ [v])))
      by (rewrite length_app; cbn [length]; lia).
    rewrite <- Hne.
    etransitivity; [apply IH|].
    + lia.
    + rewrite <- Hlen, !length_app. cbn [length]. lia.
    + intros n0 Hn0. apply Hin. by right.
    + apply bind_ext_s. intros vs1 s2. by rewrite <- app_assoc.
Qed.

(** When no new child is the same logical node as an old child, no
    key is an object, and the keys of the new children are not named
    like a member of [Object.prototype], [updateChildren] replaces the
    list: it
    creates every new child in order, each inserted before the element
    of the first old child; nothing is patched or moved; and then it
    removes every old child. *)
Theorem updateChildren_replaces_all (s : PState D) :
  updateChildrenWith env patch parentElm canMove oCh new s =
  (when (negb (production env)) (checkDuplicateKeys new) ;;
   do vs <- createEach env parentElm (elm o1) new;
   removeVnodes oCh 0 oEI ;;
   ret vs) s.
Proof using Hdiff Hnames Holdkeys.
  unfold updateChildrenWith.
  apply bind_ext_s. intros [] s0.
  destruct table_exists as (t & Ht & Hspec).
  destruct (at_is_Some old oEI) as [oe Hoe]; [cbn [length]; lia|].
  assert (Hoe' : oe ∈ old) by (by eapply at_elem_of).
  pose proof (loop_creates t oe Ht Hspec Hoe' new [] None
                (length oCh + length new) s0 (or_introl eq_refl)) as L.
  cbn [app length] in L.
  assert (E : initLoop oCh new =
              mkLoopState 0 (Z.of_nat 0) oEI (Some o1) (Some oe) nEI
                          (at_ new (Z.of_nat 0)) (at_ new nEI) None oCh new).
  { unfold initLoop. rewrite length_fmap, !at_Some_fmap, Hoe. reflexivity. }
  rewrite E. etransitivity; [apply L; [lia|done|done]|].
  reflexivity.
Qed.

End ReplaceAll.

Lemma updateChildren_replaces_all_witness :
  let env := mkBuildEnv false in
  let patch := fun a b => patchVnode env 1 a b true false in
  updateChildrenWith env patch (Some 0%nat) true (Some <$> rotOld) otherNew
                     (flatState rotDom) =
  (when (negb (production env)) (checkDuplicateKeys otherNew) ;;
   do vs <- createEach env (Some 0%nat) (Some 1%nat) otherNew;
   removeVnodes (Some <$> rotOld) 0 (Z.of_nat (length rotOld) - 1) ;;
   ret vs) (flatState rotDom).
Proof.
  apply (updateChildren_replaces_all (mkBuildEnv false)
           (fun a b => patchVnode (mkBuildEnv false) 1 a b true false)
           (Some 0%nat) true (keyedItem 11 1 (Some 1%nat))
           [keyedItem 12 2 (Some 2%nat); keyedItem 13 3 (Some 3%nat)] otherNew).
  - intros a b Ha Hb.
    repeat (apply elem_of_cons in Ha as [->|Ha]);
      repeat (apply elem_of_cons in Hb as [->|Hb]);
      try (by apply elem_of_nil in Ha); try (by apply elem_of_nil in Hb);
      split; reflexivity.
  - intros b Hb.
    repeat (apply elem_of_cons in Hb as [->|Hb]);
      try (by apply elem_of_nil in Hb);
      (split; [reflexivity|apply (bool_decide_unpack _); vm_compute; exact I]).
  - intros a Ha.
    repeat (apply elem_of_cons in Ha as [->|Ha]);
      try (by apply elem_of_nil in Ha); reflexivity.
Defined.

Section AnyOrder.
Context {D : Type} `{Backend D}.
Variable env : BuildEnv.

(** The keyed diff reuses every native node for any reordering of the
    children, not only for rotations: when the keys of the new children
    are a permutation of the keys of the old ones (the keys primitives
    with distinct names, none of them [__proto__]; nodes with equal
    keys the same logical node whose own patch creates and removes
    nothing), [updateChildren] returns without creating,
    mounting or removing a native node, every new child is the result
    of patching the old child with its key and holds that child's
    handle, and every old handle is held by a new child. *)
Theorem updateChildren_any_order_reuses_handles (depth : nat)
    (parentElm : option handle) (removeOnly : bool) (old new : list VNode)
    (s : PState D) :
  NoDup (keyName <$> old) ->
  Forall (fun v => isPrimitive (key v) = true) old ->
  Forall (fun v => keyName v <> "__proto__"%string) old ->
  key <$> new ≡ₚ key <$> old ->
  (forall o n, o ∈ old -> n ∈ new -> key o = key n ->
     sameVnode isTextInputType o n = Some true) ->
  (forall o n, o ∈ old -> n ∈ new -> ref o = ref n -> elm n = elm o) ->
  (forall o n s1, o ∈ old -> n ∈ new -> key o = key n ->
     exists v s2, patchVnode env depth o n true false s1 = Ok v s2 /\
                  quietSince s1 s2) ->
  exists res s',
    updateChildren env depth parentElm (Some <$> old) new removeOnly s
      = Ok res s' /\
    quietSince s s' /\
    length res = length new /\
    (forall j n, at_ new j = Some n ->
       exists o v s1 s2,
         o ∈ old /\ key o = key n /\
         quietSince s s1 /\
         patchVnode env depth o n true false s1 = Ok v s2 /\
         quietSince s2 s' /\
         at_ res j = Some v /\ elm v = elm o) /\
    (forall o, o ∈ old -> exists j v, at_ res j = Some v /\ elm v = elm o).
Proof. apply updateChildren_keyed_permutation. Qed.

End AnyOrder.

Lemma updateChildren_any_order_reuses_handles_witness :
  exists res s',
    updateChildren (mkBuildEnv false) 1 (Some 0%nat) (Some <$> rotOld) swapNew
                   false (flatState rotDom) = Ok res s' /\
    quietSince (flatState rotDom) s' /\
    length res = length swapNew /\
    (forall j n, at_ swapNew j = Some n ->
       exists o v s1 s2,
         o ∈ rotOld /\ key o = key n /\
         quietSince (flatState rotDom) s1 /\
         patchVnode (mkBuildEnv false) 1 o n true false s1 = Ok v s2 /\
         quietSince s2 s' /\
         at_ res j = Some v /\ elm v = elm o) /\
    (forall o, o ∈ rotOld -> exists j v, at_ res j = Some v /\ elm v = elm o).
Proof.
  apply (updateChildren_any_order_reuses_handles (mkBuildEnv false) 1
           (Some 0%nat) false rotOld swapNew (flatState rotDom)).
  - apply (bool_decide_unpack _). vm_compute. exact I.
  - repeat constructor.
  - repeat constructor; discriminate.
  - apply (perm_swap (VNum (Num 1)) (VNum (Num 2)) [VNum (Num 3)]).
  - intros o n Ho Hn.
    repeat (apply elem_of_cons in Ho as [->|Ho]);
      repeat (apply elem_of_cons in Hn as [->|Hn]);
      try (by apply elem_of_nil in Ho); try (by apply elem_of_nil in Hn);
      (reflexivity || discriminate).
  - intros o n Ho Hn.
    repeat (apply elem_of_cons in Ho as [->|Ho]);
      repeat (apply elem_of_cons in Hn as [->|Hn]);
      try (by apply elem_of_nil in Ho); try (by apply elem_of_nil in Hn);
      discriminate.
  - intros o n s1 Ho Hn _.
    repeat (apply elem_of_cons in Ho as [->|Ho]);
      repeat (apply elem_of_cons in Hn as [->|Hn]);
      try (by apply elem_of_nil in Ho); try (by apply elem_of_nil in Hn);
      apply keyedItem_patch_quiet; discriminate.
Defined.

End VDomMore.

(** * Further properties of the observer *)

Module ReactiveMore.
Import JS Reactive ReactiveFacts.

Lemma state_eta (s : RState) :
  mkRState (heap s) (depStore s) (depUid s) (watchers s) (vms s) (target s)
           (targetStack s) (shouldObserve s) (queue s) (has s) (waiting s)
           (rlog s) = s.
Proof. by destruct s. Qed.

(** [pushTarget(t)] followed by [popTarget()] gives back the state it
    started from exactly when [Dep.target] was the top of [targetStack]
    (or [undefined] on an empty stack): [popTarget] reads the target
    back from the stack, not from what [pushTarget] replaced. *)
Theorem pushTarget_popTarget_restores (t : option nat) (s : RState) :
  (pushTarget t ;; popTarget) s = Ok tt s <->
  target s = mjoin (last (targetStack s)).
Proof.
  unfold bind, pushTarget, popTarget, set_target. cbn.
  rewrite removelast_last. split.
  - intros [= E]. rewrite <- E at 1. reflexivity.
  - intros <-. by rewrite state_eta.
Qed.

Section KeepsTarget.
Context `{Env} `{UserCode}.

Lemma keepsTarget_ret {A} (a : A) : keepsTarget (ret a).
Proof. intros s. done. Qed.

Lemma keepsTarget_throw {A} : keepsTarget (@throw A).
Proof. intros s. done. Qed.

Lemma keepsTarget_bind {A B} (m : R A) (k : A -> R B) :
  keepsTarget m -> (forall a, keepsTarget (k a)) -> keepsTarget (bind m k).
Proof.
  intros Hm Hk s. unfold bind. specialize (Hm s).
  destruct (m s) as [a s1|s1|]; [|done..].
  specialize (Hk a s1). destruct (k a s1) as [b s2|s2|]; [| |done];
    intuition congruence.
Qed.

Lemma keepsTarget_when (b : bool) (m : R unit) :
  keepsTarget m -> keepsTarget (when b m).
Proof. destruct b; [done|]. intros _. apply keepsTarget_ret. Qed.

Lemma keepsTarget_forEach {A} (l : list A) (f : A -> R unit) :
  (forall a, keepsTarget (f a)) -> keepsTarget (forEach l f).
Proof.
  intros Hf. induction l as [|a l IH]; cbn [forEach].
  - apply keepsTarget_ret.
  - apply keepsTarget_bind; auto.
Qed.

Lemma keepsTarget_lift {A} (o : option A) : keepsTarget (lift o).
Proof. destruct o; [apply keepsTarget_ret|apply keepsTarget_throw]. Qed.

Lemma keepsTarget_emit (e : revent) : keepsTarget (emit e).
Proof. intros s. done. Qed.

Lemma keepsTarget_getWatcher (w : nat) : keepsTarget (getWatcher w).
Proof. intros s. unfold getWatcher. by destruct (watchers s !! w). Qed.

Lemma keepsTarget_putWatcher (w : nat) (x : Watcher) : keepsTarget (putWatcher w x).
Proof. intros s. done. Qed.

Lemma keepsTarget_getDep (d : nat) : keepsTarget (getDep d).
Proof. intros s. unfold getDep. by destruct (depStore s !! d). Qed.

Lemma keepsTarget_putDep (d : nat) (x : Dep) : keepsTarget (putDep d x).
Proof. intros s. done. Qed.

Lemma keepsTarget_getObj (a : nat) : keepsTarget (getObj a).
Proof. intros s. unfold getObj. by destruct (heap s !! a). Qed.

Lemma keepsTarget_addSub (d w : nat) : keepsTarget (addSub d w).
Proof.
  apply keepsTarget_bind; [apply keepsTarget_getDep|].
  intros x. apply keepsTarget_putDep.
Qed.

Lemma keepsTarget_removeSub (d w : nat) : keepsTarget (removeSub d w).
Proof.
  apply keepsTarget_bind; [apply keepsTarget_getDep|].
  intros x. apply keepsTarget_putDep.
Qed.

Lemma keepsTarget_addDep (w d : nat) : keepsTarget (addDep w d).
Proof.
  apply keepsTarget_bind; [apply keepsTarget_getWatcher|]. intros x.
  destruct (bool_decide (d ∈ newDepIds x)); [apply keepsTarget_ret|].
  apply keepsTarget_bind; [apply keepsTarget_putWatcher|]. intros _.
  apply keepsTarget_when, keepsTarget_addSub.
Qed.

Lemma keepsTarget_depend (d : nat) : keepsTarget (depend d).
Proof.
  intros s. unfold depend.
  destruct (target s) as [w|] eqn:E; [|done].
  rewrite <- E. apply keepsTarget_addDep.
Qed.

Lemma keepsTarget_cleanupDeps (w : nat) : keepsTarget (cleanupDeps w).
Proof.
  apply keepsTarget_bind; [apply keepsTarget_getWatcher|]. intros x.
  apply keepsTarget_bind.
  - apply keepsTarget_forEach. intros d.
    apply keepsTarget_when, keepsTarget_removeSub.
  - intros _. apply keepsTarget_bind; [apply keepsTarget_getWatcher|].
    intros x'. apply keepsTarget_putWatcher.
Qed.

Lemma keepsTarget_isArray (v : value) : keepsTarget (isArray v).
Proof.
  intros s. unfold isArray. destruct v; try done.
  by destruct (heap s !! a).
Qed.

Lemma keepsTarget_dependOnOb (e : value) : keepsTarget (dependOnOb e).
Proof.
  destruct e; try apply keepsTarget_ret. cbn.
  apply keepsTarget_bind; [apply keepsTarget_getObj|]. intros o.
  destruct (o_ob o); [apply keepsTarget_depend|apply keepsTarget_ret].
Qed.

Lemma keepsTarget_dependArray (fuel : nat) (a : nat) :
  keepsTarget (dependArray fuel a).
Proof.
  revert a. induction fuel as [|fuel IH]; intros a; [by intros s|].
  cbn [dependArray].
  apply keepsTarget_bind; [apply keepsTarget_getObj|]. intros o.
  apply keepsTarget_forEach. intros e.
  apply keepsTarget_bind; [apply keepsTarget_dependOnOb|]. intros _.
  apply keepsTarget_bind; [apply keepsTarget_isArray|]. intros isA.
  destruct e; try apply keepsTarget_ret.
  apply keepsTarget_when, IH.
Qed.

Hypothesis Haccessor : forall g o, keepsTarget (accessorGet g o).

Lemma keepsTarget_reactiveGetter (fuel : nat) (obj : nat) (k : string) :
  keepsTarget (reactiveGetter fuel obj k).
Proof using Haccessor.
  unfold reactiveGetter.
  apply keepsTarget_bind; [apply keepsTarget_getObj|]. intros o.
  apply keepsTarget_bind; [apply keepsTarget_lift|]. intros c.
  apply keepsTarget_bind; [apply keepsTarget_lift|]. intros dep.
  apply keepsTarget_bind.
  { destruct (p_getter c); [apply Haccessor|apply keepsTarget_ret]. }
  intros value. apply keepsTarget_bind; [|intros _; apply keepsTarget_ret].
  intros s. destruct (bool_decide (is_Some (target s))); [|done].
  revert s. apply keepsTarget_bind; [apply keepsTarget_depend|]. intros _.
  destruct (p_childOb c); [|apply keepsTarget_ret].
  apply keepsTarget_bind; [apply keepsTarget_dependOnOb|]. intros _.
  apply keepsTarget_bind; [apply keepsTarget_isArray|]. intros isA.
  destruct value; try apply keepsTarget_ret.
  apply keepsTarget_when, keepsTarget_dependArray.
Qed.

Lemma keepsTarget_getProp (fuel : nat) (obj : nat) (k : string) :
  keepsTarget (getProp fuel obj k).
Proof using Haccessor.
  unfold getProp.
  apply keepsTarget_bind; [apply keepsTarget_getObj|]. intros o.
  destruct (lookupProp k (o_props o)) as [c|]; [|apply keepsTarget_ret].
  destruct (p_dep c); [apply keepsTarget_reactiveGetter|].
  destruct (p_getter c); [apply Haccessor|apply keepsTarget_ret].
Qed.

Lemma keepsTarget_traverse_ (fuel : nat) (val : value) (seen : gset nat) :
  keepsTarget (_traverse fuel val seen).
Proof using Haccessor.
  revert val seen. induction fuel as [|fuel IH]; intros val seen; [by intros s|].
  cbn [_traverse]. destruct val; try apply keepsTarget_ret.
  apply keepsTarget_bind; [apply keepsTarget_getObj|]. intros o.
  destruct (o_frozen o || bool_decide (o_kind o = KVNode));
    [apply keepsTarget_ret|].
  assert (Hvisit : forall seen1,
    keepsTarget
      (if bool_decide (o_kind o = KArray) then
         foldr (fun e k seen2 => do seen3 <- _traverse fuel e seen2; k seen3)
               ret (rev (o_elems o)) seen1
       else
         foldr (fun kc k seen2 =>
                  do v <- getProp fuel a (fst kc);
                  do seen3 <- _traverse fuel v seen2; k seen3)
               ret (rev (o_props o)) seen1)).
  { intros seen1. destruct (bool_decide (o_kind o = KArray)).
    - generalize (rev (o_elems o)). intros l. revert seen1.
      induction l as [|e l IHl]; intros seen1; cbn [foldr].
      + apply keepsTarget_ret.
      + apply keepsTarget_bind; [apply IH|]. intros seen3. apply IHl.
    - generalize (rev (o_props o)). intros l. revert seen1.
      induction l as [|e l IHl]; intros seen1; cbn [foldr].
      + apply keepsTarget_ret.
      + apply keepsTarget_bind; [apply keepsTarget_getProp|]. intros v.
        apply keepsTarget_bind; [apply IH|]. intros seen3. apply IHl. }
  destruct (o_ob o) as [ob|]; [|apply Hvisit].
  destruct (bool_decide (ob_dep ob ∈ seen)); [apply keepsTarget_ret|apply Hvisit].
Qed.

Lemma keepsTarget_traverse (fuel : nat) (val : value) :
  keepsTarget (traverse fuel val).
Proof using Haccessor.
  apply keepsTarget_bind; [apply keepsTarget_traverse_|].
  intros _. apply keepsTarget_ret.
Qed.

(** [watcher.get()] leaves [targetStack] as it found it and
    [Dep.target] at the top of that stack when it returns, and also
    when it throws unless the watcher is deep (an exception of
    [traverse] leaves the [finally] block before [popTarget]);
    provided the getter and the accessor functions reached do so
    themselves. *)
Theorem get_restores_target (fuel : nat) (w : nat) (s : RState) (x : Watcher) :
  watchers s !! w = Some x ->
  keepsTarget (getterOf w) ->
  match get fuel w s with
  | Ok _ s' =>
      targetStack s' = targetStack s /\
      target s' = mjoin (last (targetStack s))
  | Throw s' =>
      deep x = false ->
      targetStack s' = targetStack s /\
      target s' = mjoin (last (targetStack s))
  | OutOfFuel => True
  end.
Proof using Haccessor.
  intros Hx Hg. unfold get. unfold bind at 1. unfold pushTarget at 1.
  set (s1 := set_target s (Some w) (targetStack s ++ [Some w])).
  unfold bind at 1. unfold getWatcher at 1.
  change (watchers s1) with (watchers s). rewrite Hx.
  assert (Hfin : forall v s2,
    target s2 = target s1 -> targetStack s2 = targetStack s1 ->
    match (when (deep x) (traverse fuel v) ;; popTarget ;; cleanupDeps w) s2 with
    | Ok _ s' =>
        targetStack s' = targetStack s /\
        target s' = mjoin (last (targetStack s))
    | Throw s' =>
        deep x = false ->
        targetStack s' = targetStack s /\
        target s' = mjoin (last (targetStack s))
    | OutOfFuel => True
    end).
  { intros v s2 Ht Hst. unfold bind at 1.
    pose proof (keepsTarget_when (deep x) _ (keepsTarget_traverse fuel v) s2) as Hw.
    destruct (when (deep x) (traverse fuel v) s2) as [[] s3|s3|] eqn:Ew; [| |done].
    - destruct Hw as [Ht3 Hst3]. unfold bind at 1. unfold popTarget at 1.
      set (s4 := set_target s3 _ _).
      assert (targetStack s4 = targetStack s /\
              target s4 = mjoin (last (targetStack s))) as [E1 E2].
      { unfold s4. cbn. rewrite Hst3, Hst. unfold s1. cbn.
        rewrite removelast_last. done. }
      pose proof (keepsTarget_cleanupDeps w s4) as Hc.
      destruct (cleanupDeps w s4) as [[] s5|s5|]; [| |done];
        destruct Hc as [-> ->]; done.
    - intros Hd. rewrite Hd in Ew. discriminate. }
  cbv beta. specialize (Hg s1).
  destruct (getterOf w s1) as [v s2|s2|]; [| |done]; destruct Hg as [Ht Hst].
  - specialize (Hfin v s2 Ht Hst). unfold bind at 1.
    destruct ((when (deep x) (traverse fuel v);; popTarget;; cleanupDeps w) s2)
      as [[] s3|s3|]; done.
  - destruct (user x).
    + unfold bind at 1. unfold handleError, emit.
      specialize (Hfin VUndef (set_rlog s2 (rlog s2 ++ [EvHandleError w (getterInfo w)])) Ht Hst).
      unfold bind at 1.
      destruct ((when (deep x) (traverse fuel VUndef);; popTarget;; cleanupDeps w) _)
        as [[] s3|s3|]; done.
    + specialize (Hfin VUndef s2 Ht Hst).
      destruct ((when (deep x) (traverse fuel VUndef);; popTarget;; cleanupDeps w) s2)
        as [[] s3|s3|]; [|done..].
      intros _. done.
Qed.

End KeepsTarget.

Section Teardown.
Context `{Env} `{UserCode}.

Lemma forEach_ext {A} (l : list A) (f g : A -> R unit) :
  (forall a, f a = g a) -> forEach l f = forEach l g.
Proof.
  intros E. induction l as [|a l IH]; [reflexivity|].
  cbn [forEach]. by rewrite E, IH.
Qed.

(** [teardown()] of an active watcher that is subscribed once to each
    of its [deps]: it is taken out of the subscriber list of every one
    of them and marked inactive, and out of [vm._watchers] unless the
    instance is being destroyed; a second [teardown()] changes
    nothing. *)
Theorem teardown_unsubscribes (w : nat) (s : RState) (x : Watcher) (v : Vm) :
  subscribed w s ->
  watchers s !! w = Some x ->
  active x = true ->
  vms s !! vm x = Some v ->
  exists s',
    teardown w s = Ok tt s' /\
    watchers s' !! w = Some (set_active x false) /\
    (forall d dp, d ∈ deps x -> depStore s' !! d = Some dp -> w ∉ subs dp) /\
    (forall d, d ∉ deps x -> depStore s' !! d = depStore s !! d) /\
    vms s' = (if _isBeingDestroyed v then vms s
              else <[vm x := mkVm (remove (_watchers v) w) false]> (vms s)) /\
    teardown w s' = Ok tt s'.
Proof.
  intros (x0 & Hx0 & Hnd & _ & _ & _ & Hex & Hcount) Hx Ha Hv.
  assert (x0 = x) by congruence. subst x0.
  set (s1 := if _isBeingDestroyed v then s
             else set_vms s (<[vm x := mkVm (remove (_watchers v) w)
                                              (_isBeingDestroyed v)]> (vms s))).
  assert (Hd1 : depStore s1 = depStore s)
    by (unfold s1; destruct (_isBeingDestroyed v); reflexivity).
  assert (Hw1 : watchers s1 = watchers s)
    by (unfold s1; destruct (_isBeingDestroyed v); reflexivity).
  destruct (prune_loop w ∅ (rev (deps x)) s1) as (ds & Hloop & Hds).
  { by apply NoDup_rev'. }
  { intros d Hd. apply (proj1 (elem_of_rev _ _)) in Hd.
    rewrite Hd1. apply Hex. by left. }
  rewrite (forEach_ext _ _ (fun d => removeSub d w)) in Hloop.
  2: { intros d. rewrite bool_decide_eq_false_2 by set_solver. reflexivity. }
  set (s2 := set_depStore s1 ds) in *.
  set (s3 := set_watchers s2 (<[w := set_active x false]> (watchers s2))).
  exists s3.
  assert (Hrun : teardown w s = Ok tt s3).
  { unfold teardown. unfold bind at 1. unfold getWatcher at 1. rewrite Hx, Ha.
    unfold bind at 1. cbv beta. rewrite Hv.
    assert (Hs1 : (if _isBeingDestroyed v then Ok tt s
                   else Ok tt (set_vms s (<[vm x := mkVm (remove (_watchers v) w)
                                                (_isBeingDestroyed v)]> (vms s))))
                  = Ok tt s1) by (unfold s1; destruct (_isBeingDestroyed v); reflexivity).
    rewrite Hs1. unfold bind at 1. rewrite Hloop.
    unfold bind, getWatcher. change (watchers s2) with (watchers s1).
    rewrite Hw1, Hx. reflexivity. }
  split; [exact Hrun|]. split.
  { unfold s3. cbn. by rewrite lookup_insert_eq. }
  split.
  { intros d dp Hd Hdp. change (depStore s3) with ds in Hdp.
    rewrite Hds in Hdp.
    rewrite bool_decide_eq_true_2 in Hdp
      by (split; [by apply (proj2 (elem_of_rev _ _))|set_solver]).
    rewrite Hd1 in Hdp. destruct (depStore s !! d) as [dp0|] eqn:E; [|done].
    injection Hdp as <-. cbn. apply count_zero_not_elem.
    rewrite count_remove_same, (Hcount d dp0 E).
    rewrite bool_decide_eq_true_2 by (by left). reflexivity. }
  split.
  { intros d Hd. change (depStore s3) with ds. rewrite Hds.
    rewrite bool_decide_eq_false_2; [by rewrite Hd1|].
    intros [Hin _]. apply (proj1 (elem_of_rev _ _)) in Hin. done. }
  split.
  { change (vms s3) with (vms s1). unfold s1.
    destruct (_isBeingDestroyed v) eqn:Eb; [reflexivity|]. reflexivity. }
  unfold teardown. unfold bind at 1. unfold getWatcher at 1.
  unfold s3 at 1. cbn [watchers set_watchers]. rewrite lookup_insert_eq.
  reflexivity.
Qed.

End Teardown.

Section DelFacts.
Context `{Env} `{UserCode}.

Lemma lookupProp_storeProp (k : string) (c : PropCell) (l : list (string * PropCell)) :
  lookupProp k (storeProp k c l) = Some c.
Proof.
  induction l as [|[k' c'] l IH]; cbn.
  - by rewrite String.eqb_refl.
  - destruct (String.eqb k k') eqn:E; cbn; rewrite ?String.eqb_refl, ?E; done.
Qed.

Lemma dropProp_storeProp (k : string) (c : PropCell) (l : list (string * PropCell)) :
  lookupProp k l = None -> dropProp k (storeProp k c l) = l.
Proof.
  induction l as [|[k' c'] l IH]; cbn.
  - by rewrite String.eqb_refl.
  - destruct (String.eqb k k') eqn:E; [discriminate|].
    intros Hl. cbn. rewrite E. by rewrite IH.
Qed.

Lemma lookupProp_dropProp (k : string) (l : list (string * PropCell)) :
  NoDup l.*1 -> lookupProp k (dropProp k l) = None.
Proof.
  induction l as [|[k' c'] l IH]; cbn; [done|].
  intros [Hk Hnd]%NoDup_cons.
  destruct (String.eqb k k') eqn:E; cbn.
  - apply String.eqb_eq in E. subst k'.
    clear IH. induction l as [|[k2 c2] l IH]; cbn; [done|].
    destruct (String.eqb k k2) eqn:E2.
    + apply String.eqb_eq in E2. subst k2. exfalso. apply Hk. cbn. left.
    + apply IH.
      * intros Hin. apply Hk. cbn. by right.
      * by apply NoDup_cons in Hnd as [_ ?].
  - rewrite E. by apply IH.
Qed.

Lemma put_back (a : nat) (o o1 : Obj) (s : RState) :
  heap s !! a = Some o ->
  set_heap (set_heap s (<[a := o1]> (heap s)))
           (<[a := o]> (heap (set_heap s (<[a := o1]> (heap s))))) = s.
Proof.
  intros Ho. unfold set_heap. cbn. rewrite insert_insert_eq, insert_id by done.
  apply state_eta.
Qed.

(** On an object without observer that is neither an array nor a Vue
    instance, extensible and not frozen, and for a primitive key that
    is not in the object (own or inherited), [set(target, key, val)]
    followed by [del(target, key)] gives back the state it started
    from, and calls nobody. *)
Theorem set_then_del_restores (fuel : nat) (a : nat) (key_ val : value)
    (o : Obj) (s : RState) :
  heap s !! a = Some o ->
  o_kind o <> KArray -> o_kind o <> KVue ->
  o_ob o = None ->
  o_extensible o = true -> o_frozen o = false ->
  isObject key_ = false ->
  hasProperty o (propertyKey key_) = false ->
  (do _ <- set fuel (VRef a) key_ val; del fuel (VRef a) key_) s = Ok tt s.
Proof.
  intros Ho Hna Hnv Hob Hext Hfr _ Hin.
  set (k := propertyKey key_) in *.
  assert (Hl : lookupProp k (o_props o) = None).
  { unfold hasProperty, hasOwn in Hin.
    apply orb_false_iff in Hin as [Hin _]. apply orb_false_iff in Hin as [Hin _].
    apply orb_false_iff in Hin as [Hin _]. apply orb_false_iff in Hin as [Hin _].
    apply bool_decide_eq_false in Hin. destruct (lookupProp k (o_props o)); [|done].
    exfalso. eauto. }
  set (c := mkProp val None None false None None true false).
  set (o1 := mkObj (o_kind o) (storeProp k c (o_props o)) (o_elems o) (o_ob o)
                   (o_extensible o) (o_frozen o)).
  set (s1 := set_heap s (<[a := o1]> (heap s))).
  assert (Hset : set fuel (VRef a) key_ val s = Ok val s1).
  { unfold set. unfold bind at 1.
    rewrite andb_false_r. cbn [when ret].
    unfold bind at 1. unfold getObj at 1. rewrite Ho.
    rewrite (bool_decide_eq_false_2 (o_kind o = KArray)) by done. cbn [andb].
    fold k. rewrite Hin. cbn [andb].
    rewrite (bool_decide_eq_false_2 (o_kind o = KVue)) by done.
    rewrite Hob. cbn [orb].
    unfold bind at 1. unfold assign. unfold bind at 1. unfold getObj at 1.
    rewrite Ho, Hl, Hob, Hext.
    rewrite (bool_decide_eq_false_2 (o_kind o = KArray)) by done.
    rewrite (bool_decide_eq_false_2 (is_Some None)) by (by intros [? ?]).
    cbn [andb]. unfold putProp, bind, getObj. rewrite Ho.
    reflexivity. }
  unfold bind at 1. rewrite Hset.
  unfold del. unfold bind at 1. rewrite andb_false_r. cbn [when ret].
  unfold bind at 1. unfold getObj at 1.
  assert (Ho1 : heap s1 !! a = Some o1) by (unfold s1; cbn; apply lookup_insert_eq).
  rewrite Ho1.
  change (o_kind o1) with (o_kind o). change (o_ob o1) with (o_ob o).
  rewrite (bool_decide_eq_false_2 (o_kind o = KArray)) by done. cbn [andb].
  rewrite (bool_decide_eq_false_2 (o_kind o = KVue)) by done.
  rewrite Hob. cbn [orb]. fold k.
  assert (Hown : hasOwn o1 k = true).
  { unfold hasOwn. cbn. rewrite lookupProp_storeProp.
    rewrite bool_decide_eq_true_2 by eauto. reflexivity. }
  rewrite Hown. cbn [negb].
  unfold bind at 1. unfold deleteProp. unfold bind at 1. unfold getObj at 1.
  rewrite Ho1. change (o_frozen o1) with (o_frozen o). rewrite Hfr.
  change (o_props o1) with (storeProp k c (o_props o)).
  rewrite lookupProp_storeProp. cbn [p_configurable c].
  rewrite dropProp_storeProp by done.
  unfold putObj, ret. f_equal.
  match goal with
  | |- set_heap s1 (<[a := ?x]> _) = _ =>
      replace x with o by (destruct o; cbn in *; congruence)
  end.
  unfold s1. by apply put_back.
Qed.

(** [del(target, key)] on a Vue instance or on a root data object (an
    observer with a nonzero [vmCount]): nothing is deleted and nobody is
    notified; the call warns once outside production builds and is
    silent in them. *)
Theorem del_on_root_leaves_target (fuel : nat) (a : nat) (key_ : value)
    (o : Obj) (s : RState) :
  heap s !! a = Some o ->
  (o_kind o = KArray -> isValidArrayIndex key_ = false) ->
  (o_kind o = KVue \/ exists b, o_ob o = Some b /\ vmCount b <> 0%nat) ->
  del fuel (VRef a) key_ s =
  Ok tt (if production then s else set_rlog s (rlog s ++ [EvWarn delWarning])).
Proof.
  intros Ho Harr Hroot. unfold del. unfold bind at 1.
  rewrite andb_false_r. cbn [when ret].
  unfold bind at 1. unfold getObj at 1. rewrite Ho.
  assert (E1 : bool_decide (o_kind o = KArray) && isValidArrayIndex key_ = false).
  { case_bool_decide; [by rewrite Harr|done]. }
  rewrite E1.
  assert (E2 : bool_decide (o_kind o = KVue)
               || match o_ob o with
                  | Some b => negb (Nat.eqb (vmCount b) 0)
                  | None => false
                  end = true).
  { destruct Hroot as [Hv|(b & Hb & Hc)].
    - by rewrite bool_decide_eq_true_2.
    - rewrite Hb. apply Nat.eqb_neq in Hc. rewrite Hc. apply orb_true_r. }
  rewrite E2. destruct production; reflexivity.
Qed.

(** [del(target, key)] on an observed plain object that is not root
    data (and has no property named [__ob__] besides its observer): a
    key that is not an own property (missing or inherited) leaves
    everything as it is and notifies nobody; an own configurable
    property is removed, after which the key is no longer an own
    property, and [ob.dep] is notified once; an own property that is
    not configurable makes the call throw; and the key [__ob__] takes
    the observer off the object and notifies its [dep] once. *)
Theorem del_notifies_when_own (fuel : nat) (a : nat) (key_ : value)
    (o : Obj) (b : Observer) (s : RState) :
  heap s !! a = Some o ->
  o_kind o = KPlain ->
  o_ob o = Some b -> vmCount b = 0%nat ->
  o_frozen o = false ->
  NoDup (o_props o).*1 ->
  lookupProp "__ob__" (o_props o) = None ->
  let k := propertyKey key_ in
  let o' := mkObj (o_kind o) (dropProp k (o_props o)) (o_elems o) (o_ob o)
                  (o_extensible o) (o_frozen o) in
  (k <> "__ob__"%string -> hasOwn o' k = false) /\
  del fuel (VRef a) key_ s =
  match lookupProp k (o_props o) with
  | Some c =>
      if p_configurable c
      then notify fuel (ob_dep b) (set_heap s (<[a := o']> (heap s)))
      else Throw s
  | None =>
      if String.eqb k "__ob__"
      then notify fuel (ob_dep b) (set_heap s (<[a := set_ob o None]> (heap s)))
      else Ok tt s
  end.
Proof.
  intros Ho Hk Hob Hvm Hfr Hnd Hnone k o'.
  split.
  { intros Hne. apply String.eqb_neq in Hne.
    unfold hasOwn, o'. cbn. rewrite lookupProp_dropProp by done.
    rewrite Hk, Hne, andb_false_r.
    rewrite (bool_decide_eq_false_2 (is_Some None)) by (by intros [? ?]).
    rewrite (bool_decide_eq_false_2 (KPlain = KArray)) by done. reflexivity. }
  unfold del. unfold bind at 1. rewrite andb_false_r. cbn [when ret].
  unfold bind at 1. unfold getObj at 1. rewrite Ho, Hk, Hob, Hvm.
  rewrite !bool_decide_eq_false_2 by done. cbn [andb orb Nat.eqb negb].
  fold k. unfold hasOwn. rewrite Hk, Hob.
  rewrite (bool_decide_eq_false_2 (KPlain = KArray)) by done.
  rewrite (bool_decide_eq_true_2 (is_Some (Some b))) by eauto.
  cbn [andb]. rewrite orb_false_r.
  destruct (String.eqb k "__ob__") eqn:Hkey.
  - apply String.eqb_eq in Hkey. rewrite Hkey, Hnone.
    rewrite orb_true_r. cbn [negb].
    unfold bind at 1. unfold deleteProp. unfold bind at 1. unfold getObj at 1.
    rewrite Ho, Hfr, Hnone, Hob.
    rewrite (bool_decide_eq_true_2 (is_Some (Some b))) by eauto.
    cbn [andb]. rewrite ?String.eqb_refl.
    unfold putObj. rewrite ?Hob. reflexivity.
  - rewrite orb_false_r.
    destruct (lookupProp k (o_props o)) as [c|] eqn:El.
    + rewrite bool_decide_eq_true_2 by eauto. cbn [negb].
      unfold bind at 1. unfold deleteProp. unfold bind at 1. unfold getObj at 1.
      rewrite Ho, Hfr, El. destruct (p_configurable c); [|reflexivity].
      unfold putObj. unfold o'. rewrite Hfr. reflexivity.
    + rewrite bool_decide_eq_false_2 by (by intros [? ?]). reflexivity.
Qed.

Lemma splice_one (l : list value) (n : nat) (val : value) :
  let padded := l ++ replicate (n - length l) VUndef in
  let dc := Z.to_nat (Z.min (Z.max 1 0) (Z.of_nat (length padded) - Z.of_nat n)) in
  take n padded ++ [val] ++ drop (n + dc) padded =
  <[n := val]> (l ++ replicate (S n - length l) VUndef) /\
  take dc (drop n padded) = option_list (l !! n).
Proof.
  intros padded dc.
  destruct (decide (n < length l)%nat) as [Hlt|Hge].
  - assert (Hp : padded = l).
    { unfold padded. replace (n - length l)%nat with 0%nat by lia.
      apply app_nil_r. }
    assert (Hdc : dc = 1%nat) by (unfold dc; rewrite Hp; lia).
    rewrite Hp, Hdc. replace (S n - length l)%nat with 0%nat by lia.
    cbn [replicate]. rewrite app_nil_r.
    destruct (lookup_lt_is_Some_2 l n Hlt) as [x Hx]. rewrite Hx. cbn.
    split.
    + rewrite <- (take_drop_middle l n x Hx) at 3.
      rewrite insert_app_r_alt by (rewrite length_take; lia).
      rewrite length_take. replace (n - n `min` length l)%nat with 0%nat by lia.
      cbn. replace (n + 1)%nat with (S n) by lia. reflexivity.
    + erewrite drop_S by done. cbn. by rewrite take_0.
  - assert (Hlen : length padded = n).
    { unfold padded. rewrite length_app, length_replicate. lia. }
    assert (Hdc : dc = 0%nat) by (unfold dc; rewrite Hlen; lia).
    rewrite Hdc. rewrite take_0.
    rewrite lookup_ge_None_2 by lia. cbn. split; [|done].
    rewrite take_ge by lia. rewrite drop_ge by lia.
    replace (S n - length l)%nat with (S (n - length l)) by lia.
    rewrite replicate_S_end, app_assoc. fold padded.
    rewrite insert_app_r_alt by lia. rewrite Hlen, Nat.sub_diag. reflexivity.
Qed.

(** [set(target, key, val)] on an extensible array that is not
    frozen, with a valid index [n].  Up
    to the greatest index [2^32 - 2] the array gets [val] at index [n],
    the other elements stay where they are, and an array of length
    below [n] is first extended to [n] (the new slots read
    [undefined]); on an observed array the new element is observed and
    [ob.dep] is notified once, on another array nobody is notified; the
    array of removed elements that [splice] returns is allocated and
    dropped.  Beyond that index the call throws. *)
Theorem set_on_array_index (fuel : nat) (a : nat) (key_ val : value)
    (n : nat) (o : Obj) (s : RState) :
  heap s !! a = Some o ->
  o_kind o = KArray ->
  o_extensible o = true -> o_frozen o = false ->
  isValidArrayIndex key_ = true ->
  toInteger key_ = Z.of_nat n ->
  toInteger (VNum (Num 1)) = 1 ->
  Z.of_nat (length (o_elems o)) <= maxArrayLength ->
  (Z.of_nat n < maxArrayLength ->
   let l' := <[n := val]> (o_elems o ++ replicate (S n - length (o_elems o)) VUndef) in
   exists r,
     heap s !! r = None /\
     let s1 := set_heap s
                 (<[r := mkObj KArray [] (option_list (o_elems o !! n)) None true false]>
                    (<[a := set_elems o l']> (heap s))) in
     set fuel (VRef a) key_ val s =
     match o_ob o with
     | Some b => (observeArray fuel [val] ;; notify fuel (ob_dep b) ;; ret val) s1
     | None => Ok val s1
     end) /\
  (maxArrayLength <= Z.of_nat n ->
   exists s', set fuel (VRef a) key_ val s = Throw s').
Proof.
  intros Ho Hk Hext Hfrozen Hvalid Hint Hone Hlen.
  set (l := o_elems o) in *.
  set (padded := l ++ replicate (n - length l) VUndef).
  set (o1 := set_elems o padded).
  assert (Hplen : length padded = (length l `max` n)%nat).
  { unfold padded. rewrite length_app, length_replicate. lia. }
  assert (Hstart : Z.to_nat (spliceStart (Z.of_nat (length padded))
                               [key_; VNum (Num 1); val]) = n).
  { unfold spliceStart. rewrite Hint.
    destruct (Z.ltb_spec (Z.of_nat n) 0); [lia|]. lia. }
  assert (Hdc : Z.to_nat (spliceDeleteCount (Z.of_nat (length padded))
                            [key_; VNum (Num 1); val]) =
                Z.to_nat (Z.min (Z.max 1 0)
                            (Z.of_nat (length padded) - Z.of_nat n))).
  { unfold spliceDeleteCount. rewrite Hone. f_equal. f_equal.
    unfold spliceStart. rewrite Hint.
    destruct (Z.ltb_spec (Z.of_nat n) 0); [lia|]. lia. }
  destruct (splice_one l n val) as [Hnew Hrem]. fold padded in Hnew, Hrem.
  split.
  - intros Hn l'.
    set (o2 := set_elems o l').
    set (h2 := <[a := o2]> (heap s)).
    exists (fresh (dom h2)).
    assert (Hfresh : h2 !! fresh (dom h2) = None).
    { apply not_elem_of_dom. apply is_fresh. }
    assert (Hne : fresh (dom h2) <> a).
    { intros E. rewrite E in Hfresh. unfold h2 in Hfresh.
      by rewrite lookup_insert_eq in Hfresh. }
    split.
    { unfold h2 in Hfresh. by rewrite lookup_insert_ne in Hfresh. }
    intros s1.
    assert (Hl' : Z.of_nat (length l') <= maxArrayLength).
    { unfold l'. rewrite length_insert, length_app, length_replicate. lia. }
    assert (Horig : original Splice a [key_; VNum (Num 1); val]
                      (set_heap s (<[a := o1]> (heap s))) =
                    Ok (VRef (fresh (dom h2))) s1).
    { unfold original. unfold bind at 1. unfold getObj at 1.
      cbn [heap set_heap]. rewrite lookup_insert_eq.
      change (o_elems o1) with padded.
      rewrite Hstart, Hdc. cbn [drop]. rewrite Hnew, Hrem.
      unfold storeElems. change (o_elems o1) with padded. fold l l'.
      rewrite (proj2 (Z.ltb_ge _ _) Hl'), andb_false_r.
      unfold bind, putObj, allocArray. cbn [heap set_heap].
      rewrite insert_insert_eq.
      change (set_elems o1 l') with o2. fold h2.
      unfold s1. reflexivity. }
    unfold set. unfold bind at 1. rewrite andb_false_r. cbn [when ret].
    unfold bind at 1. unfold getObj at 1. rewrite Ho.
    rewrite bool_decide_eq_true_2 by done. rewrite Hvalid. cbn [andb].
    rewrite Hint, Nat2Z.id. fold l. fold padded. fold o1.
    rewrite Hfrozen. cbn [orb].
    rewrite (proj2 (Z.ltb_ge _ _)) by lia.
    unfold bind at 1. unfold putObj at 1.
    unfold bind at 1. unfold callMethod. unfold bind at 1. unfold getObj at 1.
    cbn [heap set_heap]. rewrite lookup_insert_eq.
    change (o_ob o1) with (o_ob o).
    destruct (o_ob o) as [b|] eqn:Hob.
    + rewrite bool_decide_eq_true_2 by eauto.
      unfold mutator. unfold bind at 1. rewrite Horig.
      unfold bind at 1. unfold getObj at 1.
      assert (Hs1a : heap s1 !! a = Some o2).
      { unfold s1. cbn [heap set_heap]. rewrite lookup_insert_ne by done.
        apply lookup_insert_eq. }
      rewrite Hs1a. change (o_ob o2) with (o_ob o). rewrite Hob.
      cbn [insertedBy drop].
      unfold bind.
      destruct (observeArray fuel [val] s1) as [[] s2|s2|]; [|reflexivity..].
      destruct (notify fuel (ob_dep b) s2) as [[] s3|s3|]; reflexivity.
    + rewrite bool_decide_eq_false_2 by (by intros [? ?]).
      rewrite Horig. reflexivity.
  - intros Hn.
    unfold set. unfold bind at 1. rewrite andb_false_r. cbn [when ret].
    unfold bind at 1. unfold getObj at 1. rewrite Ho.
    rewrite bool_decide_eq_true_2 by done. rewrite Hvalid. cbn [andb].
    rewrite Hint, Nat2Z.id. fold l. fold padded. fold o1.
    rewrite Hfrozen. cbn [orb].
    destruct (Z.ltb_spec maxArrayLength (Z.max (Z.of_nat (length l)) (Z.of_nat n)))
      as [Hbig|Hsmall].
    { eexists. reflexivity. }
    assert (Hthrow : original Splice a [key_; VNum (Num 1); val]
                       (set_heap s (<[a := o1]> (heap s))) =
                     Throw (set_heap s (<[a := o1]> (heap s)))).
    { unfold original. unfold bind at 1. unfold getObj at 1.
      cbn [heap set_heap]. rewrite lookup_insert_eq.
      change (o_elems o1) with padded.
      rewrite Hstart, Hdc. cbn [drop]. rewrite Hnew.
      unfold storeElems. change (o_elems o1) with padded.
      rewrite length_insert, length_app, length_replicate.
      rewrite (proj2 (Z.ltb_lt _ _)) by lia.
      rewrite (proj2 (Z.ltb_lt _ _)) by lia.
      reflexivity. }
    unfold bind at 1. unfold putObj at 1.
    unfold bind at 1. unfold callMethod. unfold bind at 1. unfold getObj at 1.
    cbn [heap set_heap]. rewrite lookup_insert_eq.
    change (o_ob o1) with (o_ob o).
    destruct (bool_decide (is_Some (o_ob o))).
    + unfold mutator. unfold bind at 1. rewrite Hthrow. eexists. reflexivity.
    + rewrite Hthrow. eexists. reflexivity.
Qed.

End DelFacts.

Lemma childState_subscribed : subscribed 5 childState.
Proof.
  eapply subscribed_intro;
    [reflexivity | | | reflexivity | reflexivity | |]; compute_done.
Qed.

Lemma get_restores_target_witness :
  match @get (readingCode [0%nat] (VNum (Num 1))) 1 5 rootState with
  | Ok _ s' =>
      targetStack s' = targetStack rootState /\
      target s' = mjoin (last (targetStack rootState))
  | Throw s' =>
      deep rootWatcher = false ->
      targetStack s' = targetStack rootState /\
      target s' = mjoin (last (targetStack rootState))
  | OutOfFuel => True
  end.
Proof.
  apply (@get_restores_target (readingCode [0%nat] (VNum (Num 1)))
           (fun g o => keepsTarget_ret VUndef) 1%nat 5%nat rootState rootWatcher).
  - reflexivity.
  - apply keepsTarget_bind; [|intros _; apply keepsTarget_ret].
    apply keepsTarget_forEach. intros d. apply keepsTarget_depend.
Defined.

Lemma teardown_unsubscribes_witness :
  exists s',
    teardown 5 childState = Ok tt s' /\
    watchers s' !! 5%nat = Some (set_active rootWatcher false) /\
    (forall d dp, d ∈ deps rootWatcher -> depStore s' !! d = Some dp ->
                  5%nat ∉ subs dp) /\
    (forall d, d ∉ deps rootWatcher ->
               depStore s' !! d = depStore childState !! d) /\
    vms s' = <[0%nat := mkVm (remove [5%nat] 5%nat) false]> (vms childState) /\
    teardown 5 s' = Ok tt s'.
Proof.
  apply (teardown_unsubscribes 5%nat childState rootWatcher
           (mkVm [5%nat] false));
    [exact childState_subscribed | reflexivity | reflexivity | reflexivity].
Defined.

Lemma set_then_del_restores_witness :
  (do _ <- @set hostEnv (readingCode [] VUndef) 2 (VRef 4) (VStr "b")
                (VNum (Num 1));
   @del hostEnv (readingCode [] VUndef) 2 (VRef 4) (VStr "b")) childState =
  Ok tt childState.
Proof.
  apply (@set_then_del_restores hostEnv (readingCode [] VUndef) 2%nat 4%nat
           (VStr "b") (VNum (Num 1)) plainObject childState);
    [reflexivity | discriminate | discriminate | reflexivity | reflexivity
    | reflexivity | reflexivity | reflexivity].
Defined.

Lemma del_on_root_leaves_target_witness :
  @del hostEnv (readingCode [] VUndef) 2 (VRef 1) (VStr "count") rootState =
  Ok tt (if @production hostEnv then rootState
         else set_rlog rootState (rlog rootState ++ [EvWarn delWarning])).
Proof.
  apply (@del_on_root_leaves_target hostEnv (readingCode [] VUndef) 2%nat 1%nat
           (VStr "count") rootData rootState);
    [reflexivity
    | discriminate
    | right; exists (mkObserver 1 1); split; [reflexivity | simpl; lia]].
Defined.

Lemma del_notifies_when_own_witness :
  let o' := mkObj KPlain [] [] (Some (mkObserver 4 0)) true false in
  ("a"%string <> "__ob__"%string -> hasOwn o' "a" = false) /\
  @del hostEnv (readingCode [] VUndef) 2 (VRef 3) (VStr "a") childState =
  @notify hostEnv (readingCode [] VUndef) 2 4
          (set_heap childState (<[3%nat := o']> (heap childState))).
Proof.
  apply (@del_notifies_when_own hostEnv (readingCode [] VUndef) 2%nat 3%nat
           (VStr "a") observedChild (mkObserver 4 0) childState);
    [reflexivity | reflexivity | reflexivity | reflexivity | reflexivity
    | repeat constructor; set_solver | reflexivity].
Defined.

Lemma set_on_array_index_witness :
  exists r,
    heap rootState !! r = None /\
    let s1 :=
      set_heap rootState
        (<[r := mkObj KArray [] [] None true false]>
           (<[2%nat := set_elems observedArray
                         [VNum (Num 1); VUndef; VUndef; VNum (Num 7)]]>
              (heap rootState))) in
    @set hostEnv (readingCode [] VUndef) 2 (VRef 2) (VNum (Num 3))
         (VNum (Num 7)) rootState =
    (@observeArray hostEnv (readingCode [] VUndef) 2 [VNum (Num 7)] ;;
     @notify hostEnv (readingCode [] VUndef) 2 2 ;; ret (VNum (Num 7))) s1.
Proof.
  destruct (@set_on_array_index hostEnv (readingCode [] VUndef) 2%nat 2%nat
              (VNum (Num 3)) (VNum (Num 7)) 3%nat observedArray rootState)
    as [Hok _];
    [reflexivity | reflexivity | reflexivity | reflexivity | reflexivity
    | reflexivity | reflexivity | vm_compute; discriminate | ].
  apply Hok. reflexivity.
Defined.

Section Forward.
Context `{Env} `{UserCode}.


End Forward.

Section ReadWrite.
Context `{Env} `{UserCode}.


Lemma getProp_reads (f : nat) (a : nat) (k : string) (o : Obj) (c : PropCell)
    (d : nat) (s : RState) :
  heap s !! a = Some o ->
  lookupProp k (o_props o) = Some c ->
  p_dep c = Some d -> p_getter c = None -> p_childOb c = None ->
  getProp f a k s = (depend d ;; ret (p_val c)) s.
Proof.
  intros Ho Hc Hd Hg Hch.
  unfold getProp, reactiveGetter, bind, getObj, lift, ret, depend.
  rewrite Ho, Hc, Hd. cbn. rewrite Ho. cbn. rewrite Hc, Hd, Hg.
  destruct (target s) as [w|] eqn:Et; cbn.
  - rewrite Hch. destruct (addDep w d s); reflexivity.
  - reflexivity.
Qed.


End ReadWrite.

Section Grows.
Context `{Env} `{UserCode}.

Lemma cellGrows_refl c : cellGrows c c.
Proof. by split. Qed.

Lemma objGrows_refl o : objGrows o o.
Proof.
  split; [done|]. split; [eauto|]. intros k c Hc. exists c. split; [done|apply cellGrows_refl].
Qed.

Lemma objGrows_trans o1 o2 o3 : objGrows o1 o2 -> objGrows o2 o3 -> objGrows o1 o3.
Proof.
  intros (K1 & B1 & P1) (K2 & B2 & P2). split; [congruence|]. split.
  - intros b Hb. destruct (B1 b Hb) as (b' & Hb' & E1).
    destruct (B2 b' Hb') as (b'' & Hb'' & E2). exists b''. split; [done|congruence].
  - intros k c Hc. destruct (P1 k c Hc) as (c' & Hc' & G1 & G1').
    destruct (P2 k c' Hc') as (c'' & Hc'' & G2 & G2').
    exists c''. split; [done|]. split; auto.
Qed.

Lemma grows_refl s : grows s s.
Proof. intros a o Ho. exists o. split; [done|apply objGrows_refl]. Qed.

Lemma grows_trans s1 s2 s3 : grows s1 s2 -> grows s2 s3 -> grows s1 s3.
Proof.
  intros G1 G2 a o Ho. destruct (G1 a o Ho) as (o' & Ho' & Go).
  destruct (G2 a o' Ho') as (o'' & Ho'' & Go'). exists o''.
  split; [done|]. by eapply objGrows_trans.
Qed.

Lemma grows_same_heap s s' : heap s' = heap s -> grows s s'.
Proof. intros E a o Ho. exists o. rewrite E. split; [done|apply objGrows_refl]. Qed.

Lemma grows_put (s : RState) (a : nat) (o o' : Obj) :
  heap s !! a = Some o -> objGrows o o' ->
  grows s (set_heap s (<[a := o']> (heap s))).
Proof.
  intros Ho G b ob Hb. cbn. destruct (decide (b = a)) as [->|Hne].
  - rewrite lookup_insert_eq. exists o'. split; [done|]. congruence.
  - rewrite lookup_insert_ne by done. exists ob. split; [done|apply objGrows_refl].
Qed.

Lemma rbind_Ok {A B} (m : R A) (k : A -> R B) (s s' : RState) (b : B) :
  bind m k s = Ok b s' -> exists a s1, m s = Ok a s1 /\ k a s1 = Ok b s'.
Proof. unfold bind. destruct (m s) as [a s1| |]; [|discriminate..]. eauto. Qed.

Lemma rret_Ok {A} (a b : A) (s s' : RState) :
  ret a s = Ok b s' -> b = a /\ s' = s.
Proof. unfold ret. by intros [= -> ->]. Qed.

Lemma getObj_Ok (a : nat) (o : Obj) (s s' : RState) :
  getObj a s = Ok o s' -> heap s !! a = Some o /\ s' = s.
Proof. unfold getObj. destruct (heap s !! a); [|discriminate]. by intros [= -> ->]. Qed.

Lemma rlift_Ok {A} (o : option A) (a : A) (s s' : RState) :
  lift o s = Ok a s' -> o = Some a /\ s' = s.
Proof. destruct o; [|discriminate]. by intros [= -> ->]. Qed.

Lemma growing_ret {A} (a : A) : growing (ret a).
Proof. intros s b s' [-> ->]%rret_Ok. apply grows_refl. Qed.

Lemma growing_bind {A B} (m : R A) (k : A -> R B) :
  growing m -> (forall a, growing (k a)) -> growing (bind m k).
Proof.
  intros Hm Hk s b s' (a & s1 & H1 & H2)%rbind_Ok.
  eapply grows_trans; [eapply Hm; exact H1|eapply Hk; exact H2].
Qed.

Lemma growing_forEach {A} (l : list A) (f : A -> R unit) :
  (forall x, growing (f x)) -> growing (forEach l f).
Proof.
  intros Hf. induction l as [|x l IH]; [apply growing_ret|].
  cbn [forEach]. apply growing_bind; [apply Hf|]. intros _. exact IH.
Qed.

Lemma lookupProp_storeProp_ne (k k' : string) (c : PropCell)
    (l : list (string * PropCell)) :
  k' <> k -> lookupProp k' (storeProp k c l) = lookupProp k' l.
Proof.
  intros Hne. induction l as [|[k0 c0] l IH]; cbn.
  - by rewrite (proj2 (String.eqb_neq _ _) Hne).
  - destruct (String.eqb k k0) eqn:E; cbn.
    + apply String.eqb_eq in E. subst k0.
      by rewrite (proj2 (String.eqb_neq _ _) Hne).
    + destruct (String.eqb k' k0); [done|exact IH].
Qed.

Lemma objGrows_storeProp (o : Obj) (k : string) (c' : PropCell) :
  (forall c, lookupProp k (o_props o) = Some c -> cellGrows c c') ->
  objGrows o (mkObj (o_kind o) (storeProp k c' (o_props o)) (o_elems o)
                    (o_ob o) (o_extensible o) (o_frozen o)).
Proof.
  intros Hc. split; [done|]. split; [eauto|]. cbn. intros k0 c0 Hk0.
  destruct (decide (k0 = k)) as [->|Hne].
  - exists c'. rewrite lookupProp_storeProp. split; [done|]. by apply Hc.
  - exists c0. rewrite lookupProp_storeProp_ne by done. split; [done|apply cellGrows_refl].
Qed.

Hypothesis Haccessor : forall g o, growing (accessorGet g o).

Lemma newDep_Ok (d : nat) (s s' : RState) :
  newDep s = Ok d s' -> heap s' = heap s.
Proof. unfold newDep. by intros [= _ <-]. Qed.

Lemma growing_observe (fuel : nat) :
  (forall v r, growing (observe fuel v r)) /\
  (forall obj k val cs sh, growing (defineReactive fuel obj k val cs sh)).
Proof using Haccessor.
  induction fuel as [|fuel [IHo IHd]].
  { split; intros; intros s a s' Hrun; discriminate. }
  split.
  - intros v r s res s' Hrun. cbn [observe] in Hrun.
    destruct v as [| | | | |a]; try (apply rret_Ok in Hrun as [_ ->]; apply grows_refl).
    apply rbind_Ok in Hrun as (o & s1 & [Ho ->]%getObj_Ok & Hrun).
    destruct (bool_decide (o_kind o = KVNode)).
    { apply rret_Ok in Hrun as [_ ->]. apply grows_refl. }
    apply rbind_Ok in Hrun as (ob & s2 & Hob & Hrun).
    assert (G1 : grows s s2).
    { destruct (o_ob o) as [b|] eqn:Eb.
      - apply rret_Ok in Hob as [_ ->]. apply grows_refl.
      - apply rbind_Ok in Hob as (should & s3 & Hs & Hob).
        injection Hs as <- <-.
        destruct (_ && _ && _ && _ && _).
        2:{ apply rret_Ok in Hob as [_ ->]. apply grows_refl. }
        apply rbind_Ok in Hob as (d & s3 & Hd & Hob).
        apply rbind_Ok in Hob as (u & s4 & Hput & Hob).
        apply rbind_Ok in Hob as (u' & s5 & Hwalk & Hob).
        apply rret_Ok in Hob as [_ ->].
        apply newDep_Ok in Hd as Hh.
        injection Hput as Hput. subst s4.
        eapply grows_trans; [apply grows_same_heap; exact Hh|].
        eapply grows_trans.
        { apply (grows_put s3 a o (set_ob o (Some (mkObserver d 0))));
            [by rewrite Hh|].
          split; [done|]. split; [rewrite Eb; discriminate|].
          intros k c Hc. exists c. split; [done|apply cellGrows_refl]. }
        destruct (bool_decide (o_kind o = KArray)).
        + eapply growing_forEach; [|exact Hwalk]. intros e.
          apply growing_bind; [apply IHo|]. intros _. apply growing_ret.
        + eapply growing_forEach; [|exact Hwalk]. intros kc. apply IHd. }
    eapply grows_trans; [exact G1|].
    destruct ob as [b|]; [|apply rret_Ok in Hrun as [_ ->]; apply grows_refl].
    apply rbind_Ok in Hrun as (u & s3 & Hroot & Hrun).
    apply rret_Ok in Hrun as [_ ->].
    destruct r; [|apply rret_Ok in Hroot as [_ ->]; apply grows_refl].
    cbn [when] in Hroot.
    apply rbind_Ok in Hroot as (o1 & s4 & [Ho1 ->]%getObj_Ok & Hroot).
    destruct (o_ob o1) as [x|] eqn:Ex; [|discriminate].
    injection Hroot as Hroot. subst s3.
    apply (grows_put s2 b o1); [done|].
    split; [done|]. split.
    + intros b0 Hb0. rewrite Ex in Hb0. injection Hb0 as <-. cbn. eauto.
    + intros k c Hc. exists c. split; [done|apply cellGrows_refl].
  - intros obj k val cs sh s res s' Hrun. cbn [defineReactive] in Hrun.
    apply rbind_Ok in Hrun as (dep & s1 & Hd & Hrun).
    apply newDep_Ok in Hd as Hh.
    eapply grows_trans; [apply grows_same_heap; exact Hh|].
    apply rbind_Ok in Hrun as (o & s2 & [Ho ->]%getObj_Ok & Hrun).
    destruct (match lookupProp k (o_props o) with
              | Some c => negb (p_configurable c) | None => false end).
    { apply rret_Ok in Hrun as [_ ->]. apply grows_refl. }
    destruct (lookupProp k (o_props o) ≫= p_dep) eqn:Edep; [discriminate|].
    apply rbind_Ok in Hrun as (val1 & s2 & Hval & Hrun).
    assert (G1 : grows s1 s2).
    { destruct val as [v|]; [apply rret_Ok in Hval as [_ ->]; apply grows_refl|].
      destruct (_ || _); [|apply rret_Ok in Hval as [_ ->]; apply grows_refl].
      destruct (lookupProp k (o_props o)) as [c|];
        [|apply rret_Ok in Hval as [_ ->]; apply grows_refl].
      destruct (p_getter c) as [g|];
        [|apply rret_Ok in Hval as [_ ->]; apply grows_refl].
      eapply Haccessor; exact Hval. }
    eapply grows_trans; [exact G1|].
    apply rbind_Ok in Hrun as (childOb & s3 & Hch & Hrun).
    assert (G2 : grows s2 s3).
    { destruct sh; [apply rret_Ok in Hch as [_ ->]; apply grows_refl|].
      eapply IHo; exact Hch. }
    eapply grows_trans; [exact G2|].
    apply rbind_Ok in Hrun as (o1 & s4 & [Ho1 ->]%getObj_Ok & Hrun).
    destruct (_ && _); [discriminate|].
    unfold putProp in Hrun.
    apply rbind_Ok in Hrun as (o2 & s4 & [Ho2 ->]%getObj_Ok & Hrun).
    injection Hrun as Hrun. subst s'.
    apply (grows_put s3 obj o2); [done|].
    apply objGrows_storeProp. intros c _. split; [eauto|done].
Qed.

End Grows.

Section Observe.
Context `{Env} `{UserCode}.
Hypothesis Haccessor : forall g o, growing (accessorGet g o).

Lemma observe_result (fuel : nat) (v : value) (r : bool) (a : nat)
    (s s' : RState) :
  observe fuel v r s = Ok (Some a) s' ->
  v = VRef a /\
  exists o o' b,
    heap s !! a = Some o /\ heap s' !! a = Some o' /\ o_ob o' = Some b /\
    o_kind o' = o_kind o /\ o_kind o <> KVNode /\
    (forall b0, o_ob o = Some b0 -> ob_dep b = ob_dep b0) /\
    grows s s'.
Proof using Haccessor.
  intros Hrun. pose proof (proj1 (growing_observe Haccessor fuel) v r s _ _ Hrun) as G.
  destruct fuel as [|fuel]; [discriminate|]. cbn [observe] in Hrun.
  destruct v as [| | | | |a0]; try (apply rret_Ok in Hrun as [[=] _]).
  apply rbind_Ok in Hrun as (o & s1 & [Ho ->]%getObj_Ok & Hrun).
  destruct (bool_decide (o_kind o = KVNode)) eqn:Ek.
  { apply rret_Ok in Hrun as [[=] _]. }
  apply bool_decide_eq_false in Ek.
  apply rbind_Ok in Hrun as (ob & s2 & Hob & Hrun).
  assert (P : ob = Some a0 -> exists o2 b,
            heap s2 !! a0 = Some o2 /\ o_ob o2 = Some b /\ o_kind o2 = o_kind o /\
            (forall b0, o_ob o = Some b0 -> ob_dep b = ob_dep b0)).
  { intros Eob. destruct (o_ob o) as [b|] eqn:Eb.
    - apply rret_Ok in Hob as [_ ->]. exists o, b.
      split; [done|]. split; [done|]. split; [done|]. by intros b0 [= ->].
    - apply rbind_Ok in Hob as (should & s3 & Hs & Hob).
      injection Hs as <- <-.
      destruct (_ && _ && _ && _ && _).
      2:{ apply rret_Ok in Hob as [-> _]. discriminate Eob. }
      apply rbind_Ok in Hob as (d & s3 & Hd & Hob).
      apply rbind_Ok in Hob as (u & s4 & Hput & Hob).
      apply rbind_Ok in Hob as (u' & s5 & Hwalk & Hob).
      apply rret_Ok in Hob as [_ ->].
      injection Hput as Hput. subst s4.
      assert (G5 : grows (set_heap s3 (<[a0 := set_ob o (Some (mkObserver d 0))]>
                                         (heap s3))) s5).
      { destruct (bool_decide (o_kind o = KArray)).
        - eapply growing_forEach; [|exact Hwalk]. intros e.
          apply growing_bind; [apply (growing_observe Haccessor)|].
          intros _. apply growing_ret.
        - eapply growing_forEach; [|exact Hwalk]. intros kc.
          apply (growing_observe Haccessor). }
      destruct (G5 a0 (set_ob o (Some (mkObserver d 0)))) as (o2 & Ho2 & K2 & B2 & _).
      { cbn. by rewrite lookup_insert_eq. }
      destruct (B2 _ eq_refl) as (b' & Hb' & _).
      exists o2, b'. split; [done|]. split; [done|]. split; [done|]. done. }
  destruct ob as [b|]; [|apply rret_Ok in Hrun as [[=] _]].
  apply rbind_Ok in Hrun as (u & s3 & Hroot & Hrun).
  apply rret_Ok in Hrun as [[= <-] ->].
  assert (a0 = a) as ->.
  { destruct (o_ob o).
    - by apply rret_Ok in Hob as [[= ->] _].
    - apply rbind_Ok in Hob as (should & s4 & Hs & Hob).
      destruct (_ && _ && _ && _ && _).
      + apply rbind_Ok in Hob as (d & s5 & Hd & Hob).
        apply rbind_Ok in Hob as (u1 & s6 & Hput & Hob).
        apply rbind_Ok in Hob as (u' & s7 & Hwalk & Hob).
        by apply rret_Ok in Hob as [[= ->] _].
      + by apply rret_Ok in Hob as [[=] _]. }
  destruct (P eq_refl) as (o2 & b2 & Ho2 & Hb2 & K2 & D2).
  split; [done|]. exists o.
  destruct r; cbn [when] in Hroot.
  - apply rbind_Ok in Hroot as (o1 & s4 & [Ho1 ->]%getObj_Ok & Hroot).
    assert (o1 = o2) by congruence. subst o1. rewrite Hb2 in Hroot.
    injection Hroot as Hroot. subst s3.
    eexists _, _. cbn. rewrite lookup_insert_eq.
    split; [done|]. split; [reflexivity|]. split; [reflexivity|].
    cbn. split; [done|]. split; [done|]. split; [exact D2|exact G].
  - apply rret_Ok in Hroot as [_ ->]. exists o2, b2.
    split; [done|]. split; [done|]. split; [done|]. split; [done|].
    split; [done|]. split; [exact D2|exact G].
Qed.

(** [observe] is idempotent: once [observe(value)] has returned an
    observer, [value] is an object that carries it ([__ob__]), and any
    later [observe(value)] returns the same observer and changes
    nothing; provided the getters that [defineReactive] calls leave
    objects, observers and properties in place. *)
Theorem observe_idempotent (fuel : nat) (v : value) (r : bool) (a : nat)
    (s s' : RState) :
  observe fuel v r s = Ok (Some a) s' ->
  v = VRef a /\
  (exists o' b, heap s' !! a = Some o' /\ o_ob o' = Some b) /\
  forall f, observe (S f) v false s' = Ok (Some a) s'.
Proof using Haccessor.
  intros Hrun.
  destruct (observe_result fuel v r a s s' Hrun) as
    (-> & o & o' & b & Ho & Ho' & Hb & K & Kn & _ & _).
  split; [done|]. split; [eauto|].
  intros f. cbn [observe]. unfold bind at 1. unfold getObj at 1. rewrite Ho'.
  rewrite bool_decide_eq_false_2 by congruence.
  unfold bind at 1. rewrite Hb. reflexivity.
Qed.





End Observe.

Section SetNew.
Context `{Env} `{UserCode}.

Lemma storeProp_new (k : string) (c : PropCell) (l : list (string * PropCell)) :
  lookupProp k l = None -> storeProp k c l = l ++ [(k, c)].
Proof.
  induction l as [|[k0 c0] l IH]; cbn; [done|].
  destruct (String.eqb k k0); [discriminate|]. intros Hl. by rewrite IH.
Qed.

(** [set(target, key, val)] with a new key and a primitive value on an
    observed object that is not root data: the property is added at the
    end of the object's keys as a reactive property with a dependency
    node of its own (a new one, without subscribers), and [ob.dep] is
    notified once; [val] is returned. *)
Theorem set_adds_reactive_property (f : nat) (a : nat) (key_ val : value)
    (o : Obj) (b : Observer) (s : RState) :
  heap s !! a = Some o ->
  (o_kind o = KArray -> isValidArrayIndex key_ = false) ->
  o_kind o <> KVue ->
  hasProperty o (propertyKey key_) = false ->
  o_ob o = Some b -> vmCount b = 0%nat ->
  o_extensible o = true ->
  isObject val = false ->
  let k := propertyKey key_ in
  let cell := mkProp val (Some (depUid s)) None false None None true false in
  (forall c, lookupProp k (o_props o) <> Some c) /\
  set (S (S f)) (VRef a) key_ val s =
  (notify (S (S f)) (ob_dep b) ;; ret val)
    (set_heap
       (set_depUid (set_depStore s (<[depUid s := mkDep []]> (depStore s)))
                   (S (depUid s)))
       (<[a := mkObj (o_kind o) (o_props o ++ [(k, cell)]) (o_elems o)
                     (o_ob o) (o_extensible o) (o_frozen o)]> (heap s))).
Proof.
  intros Ho Harr Hvue Hhas Hob Hvm Hext Hval k cell.
  assert (Hnone : lookupProp k (o_props o) = None).
  { pose proof Hhas as Hh. unfold hasProperty, hasOwn in Hh. fold k in Hh.
    apply orb_false_elim in Hh as [Hh _].
    apply orb_false_elim in Hh as [Hh _].
    apply orb_false_elim in Hh as [Hh _].
    apply orb_false_elim in Hh as [Hh _].
    apply bool_decide_eq_false in Hh.
    destruct (lookupProp k (o_props o)); [|done]. exfalso. eauto. }
  split; [by rewrite Hnone|].
  unfold set. cbn [isUndef isPrimitive orb]. rewrite Bool.andb_false_r.
  cbn [when]. unfold bind at 1. unfold ret at 1.
  unfold bind at 1. unfold getObj at 1. rewrite Ho.
  assert (Hidx : bool_decide (o_kind o = KArray) && isValidArrayIndex key_ = false).
  { destruct (decide (o_kind o = KArray)) as [E|E].
    - by rewrite (Harr E), Bool.andb_false_r.
    - by rewrite bool_decide_eq_false_2. }
  rewrite Hidx. cbv zeta. rewrite Hhas. fold k. cbn [andb].
  rewrite bool_decide_eq_false_2 by done. rewrite Hob, Hvm. cbn [Nat.eqb negb orb].
  assert (Hdef : defineReactive (S (S f)) a k (Some val) false false s =
                 Ok tt (set_heap
       (set_depUid (set_depStore s (<[depUid s := mkDep []]> (depStore s)))
                   (S (depUid s)))
       (<[a := mkObj (o_kind o) (o_props o ++ [(k, cell)]) (o_elems o)
                     (o_ob o) (o_extensible o) (o_frozen o)]> (heap s)))).
  { unfold cell.
    destruct val; try discriminate Hval;
      cbn [defineReactive observe];
      do 4 (unfold bind, newDep, getObj, ret, putProp, putObj; cbn;
            rewrite ?Ho, ?Hnone, ?Hext);
      rewrite storeProp_new by done; reflexivity. }
  rewrite Hob in Hdef. unfold bind at 1. rewrite Hdef. reflexivity.
Qed.

(** [dep.notify()] calls [update()] once for every entry of [subs], in
    the order of subscription; outside production builds with
    [config.async] off, in ascending order of the watcher ids
    instead. *)
Theorem notify_calls_every_subscriber (fuel : nat) (d : nat) (dp : Dep)
    (s : RState) :
  depStore s !! d = Some dp ->
  exists l,
    notify fuel d s = forEach l (update fuel) s /\
    l ≡ₚ subs dp /\
    (production = false -> configAsync = false -> Sorted Nat.le l) /\
    (production = true \/ configAsync = true -> l = subs dp).
Proof.
  intros Hd. exists (notifyList dp). split.
  { unfold notify, bind, getDep. by rewrite Hd. }
  unfold notifyList. destruct production, configAsync; cbn.
  - split; [done|]. split; [discriminate|done].
  - split; [done|]. split; [discriminate|done].
  - split; [done|]. split; [discriminate|done].
  - split; [apply merge_sort_Permutation|].
    split; [|intros [?|?]; discriminate].
    intros _ _. apply (Sorted_merge_sort Nat.le).
Qed.

End SetNew.




Lemma observe_idempotent_witness :
  exists s',
    @observe hostEnv (readingCode [] VUndef) 2 (VRef 4) false childState
      = Ok (Some 4%nat) s' /\
    VRef 4 = VRef 4 /\
    (exists o' b, heap s' !! 4%nat = Some o' /\ o_ob o' = Some b) /\
    forall f, @observe hostEnv (readingCode [] VUndef) (S f) (VRef 4) false s'
              = Ok (Some 4%nat) s'.
Proof.
  eexists. split; [vm_compute; reflexivity|].
  eapply (@observe_idempotent hostEnv (readingCode [] VUndef)
            (fun g o => growing_ret VUndef) 2%nat (VRef 4) false 4%nat
            childState).
  vm_compute. reflexivity.
Defined.


Lemma set_adds_reactive_property_witness :
  let cell := mkProp (VNum (Num 2)) (Some (depUid childState)) None false None
                     None true false in
  (forall c, lookupProp "b" (o_props observedChild) <> Some c) /\
  @set hostEnv (readingCode [] VUndef) 2 (VRef 3) (VStr "b") (VNum (Num 2))
       childState =
  (@notify hostEnv (readingCode [] VUndef) 2 4 ;; ret (VNum (Num 2)))
    (set_heap
       (set_depUid
          (set_depStore childState
             (<[depUid childState := mkDep []]> (depStore childState)))
          (S (depUid childState)))
       (<[3%nat := mkObj KPlain (o_props observedChild ++ [("b"%string, cell)])
                         [] (Some (mkObserver 4 0)) true false]>
          (heap childState))).
Proof.
  apply (@set_adds_reactive_property hostEnv (readingCode [] VUndef) 0%nat
           3%nat (VStr "b") (VNum (Num 2)) observedChild (mkObserver 4 0)
           childState);
    try reflexivity; discriminate.
Defined.

Lemma notify_calls_every_subscriber_witness :
  exists l,
    @notify hostEnv (readingCode [] VUndef) 1 0 rootState =
      forEach l (@update (readingCode [] VUndef) 1) rootState /\
    l ≡ₚ [5%nat] /\
    (@production hostEnv = false -> @configAsync hostEnv = false ->
     Sorted Nat.le l) /\
    (@production hostEnv = true \/ @configAsync hostEnv = true -> l = [5%nat]).
Proof.
  apply (@notify_calls_every_subscriber hostEnv (readingCode [] VUndef) 1%nat
           0%nat (mkDep [5%nat]) rootState).
  reflexivity.
Defined.

Section Deep.
Context `{Env} `{UserCode}.

Lemma lookupProp_in (k : string) (c0 : PropCell) (l : list (string * PropCell)) :
  (k, c0) ∈ l -> is_Some (lookupProp k l).
Proof.
  induction l as [|[k1 c1] l IH]; [by intros ?%elem_of_nil|].
  intros Hin. cbn. destruct (String.eqb k k1) eqn:E; [eauto|].
  apply elem_of_cons in Hin as [[= -> ->]|Hin]; [|auto].
  by rewrite String.eqb_refl in E.
Qed.

Lemma traverse_primitive (f : nat) (v : value) (seen : gset nat) (s : RState) :
  isObject v = false -> _traverse (S f) v seen s = Ok seen s.
Proof. by destruct v. Qed.


Lemma traverse_props (f : nat) (a : nat) (w : nat) (o : Obj)
    (l : list (string * PropCell)) (seen : gset nat) (s : RState) :
  subscribed w s -> target s = Some w ->
  heap s !! a = Some o -> flatReactive s o ->
  (forall kc, kc ∈ l -> kc ∈ o_props o) ->
  exists s' y,
    foldr (fun kc k seen2 =>
             do v <- getProp (S f) a (fst kc);
             do seen3 <- _traverse (S f) v seen2; k seen3)
          ret l seen s = Ok seen s' /\
    subscribed w s' /\ target s' = Some w /\ heap s' = heap s /\
    targetStack s' = targetStack s /\ rlog s' = rlog s /\
    watchers s' !! w = Some y /\
    (forall x, watchers s !! w = Some x ->
       deps y = deps x /\ depIds y = depIds x /\ deep y = deep x /\
       user y = user x /\
       forall e, e ∈ newDeps x -> e ∈ newDeps y) /\
    (forall e, is_Some (depStore s !! e) -> is_Some (depStore s' !! e)) /\
    forall k c0 c d, (k, c0) ∈ l -> lookupProp k (o_props o) = Some c ->
      p_dep c = Some d -> d ∈ newDeps y.
Proof.
  revert s. induction l as [|[k c0] l IH]; intros s Hsub Ht Ho Hflat Hin.
  - destruct Hsub as (x & Hx & Hrest). exists s, x. cbn.
    split; [done|]. split; [by exists x|].
    repeat (split; [done|]). split.
    { intros x' Hx'. assert (x' = x) by congruence. subst. done. }
    split; [done|]. intros k c0 c d Hk. by apply elem_of_nil in Hk.
  - cbn [foldr fst].
    destruct (lookupProp_in k c0 (o_props o)) as [c Hc]; [apply Hin; left|].
    destruct (Hflat k c Hc) as (d & Hd & Hex & Hg & Hch & Hprim).
    unfold bind at 1.
    rewrite (getProp_reads (S f) a k o c d s Ho Hc Hd Hg Hch).
    unfold bind at 1. unfold depend at 1. rewrite Ht.
    destruct (addDep_ok w d s Hsub Hex) as
      (s1 & Hrun & Hsub1 & Ht1 & Hts1 & Hl1 & Hh1 & Hex1 & x & x1 & Hx & Hx1 &
       Hd1 & Hid1 & Hdeep1 & Huser1 & Hin1 & Hnew1).
    rewrite Hrun. unfold ret at 1.
    unfold bind at 1. rewrite (traverse_primitive f _ seen s1 Hprim).
    destruct (IH s1) as
      (s' & y & Hrun' & Hsub' & Ht' & Hh' & Hts' & Hl' & Hy & Hkeep & Hex' & Hall);
      [done|congruence|by rewrite Hh1| |by intros kc Hkc; apply Hin; right|].
    { intros k' c' Hc'. destruct (Hflat k' c' Hc') as (d' & ? & ? & ?).
      exists d'. split; [done|]. split; [by apply Hex1|done]. }
    exists s', y. split; [exact Hrun'|]. split; [exact Hsub'|].
    split; [exact Ht'|]. split; [congruence|]. split; [congruence|].
    split; [congruence|]. split; [exact Hy|].
    destruct (Hkeep x1 Hx1) as (K1 & K2 & K3 & K4 & K5).
    split.
    { intros x' Hx'. assert (x' = x) by congruence. subst x'.
      split; [congruence|]. split; [congruence|]. split; [congruence|].
      split; [congruence|]. intros e He. apply K5. apply Hnew1. by left. }
    split; [by intros e He; apply Hex', Hex1|].
    intros k' c0' c' d' Hk' Hc' Hd'.
    apply elem_of_cons in Hk' as [[= -> ->]|Hk'].
    + assert (c' = c) by congruence. subst c'.
      assert (d' = d) by congruence. subst d'. by apply K5.
    + eapply Hall; eauto.
Qed.

Lemma lookupProp_Some_in (k : string) (c : PropCell)
    (l : list (string * PropCell)) :
  lookupProp k l = Some c -> (k, c) ∈ l.
Proof.
  induction l as [|[k1 c1] l IH]; [discriminate|]. cbn.
  destruct (String.eqb k k1) eqn:E.
  - apply String.eqb_eq in E. subst. intros [= ->]. left.
  - intros Hl. right. auto.
Qed.

Lemma traverse_object (f : nat) (a : nat) (o : Obj) (s : RState) :
  heap s !! a = Some o -> o_kind o = KPlain -> o_frozen o = false ->
  _traverse (S (S f)) (VRef a) ∅ s =
  foldr (fun kc k seen2 =>
           do v <- getProp (S f) a (fst kc);
           do seen3 <- _traverse (S f) v seen2; k seen3)
        ret (rev (o_props o))
        (match o_ob o with Some ob => {[ ob_dep ob ]} ∪ ∅ | None => ∅ end) s.
Proof.
  intros Ho Hk Hfr. cbn [_traverse]. unfold bind at 1. unfold getObj at 1.
  rewrite Ho, Hfr, Hk. rewrite !bool_decide_eq_false_2 by discriminate.
  cbn [orb]. destruct (o_ob o); [|reflexivity].
  rewrite bool_decide_eq_false_2 by set_solver. reflexivity.
Qed.

(** A deep watcher whose getter returns a flat reactive object (every
    own property a reactive data property holding a primitive) is
    subscribed, once its evaluation returns, to the dependency node of
    every property of the object: [traverse] reads them all; the
    dependency nodes of the previous evaluation that were not read are
    dropped as for any watcher. *)
Theorem deep_get_subscribes_every_property (f : nat) (w a : nat) (s : RState)
    (x : Watcher) (o : Obj) :
  subscribed w s ->
  watchers s !! w = Some x ->
  deep x = true ->
  getterOf w = ret (VRef a) ->
  heap s !! a = Some o ->
  o_kind o = KPlain -> o_frozen o = false ->
  flatReactive s o ->
  exists s' x',
    get (S (S f)) w s = Ok (VRef a) s' /\
    subscribed w s' /\
    watchers s' !! w = Some x' /\
    heap s' = heap s /\ target s' = mjoin (last (targetStack s)) /\
    forall k c d, lookupProp k (o_props o) = Some c -> p_dep c = Some d ->
      d ∈ deps x' /\
      exists dp, depStore s' !! d = Some dp /\
                 count_occ Nat.eq_dec (subs dp) w = 1%nat.
Proof.
  intros Hsub Hx Hdeep Hget Ho Hk Hfr Hflat.
  set (s0 := set_target s (Some w) (targetStack s ++ [Some w])).
  assert (Hsub0 : subscribed w s0) by (by apply (subscribed_ext w s s0)).
  set (seen0 := match o_ob o with Some ob => {[ ob_dep ob ]} ∪ ∅ | None => ∅ end
                : gset nat).
  destruct (traverse_props f a w o (rev (o_props o)) seen0 s0 Hsub0 eq_refl Ho)
    as (s1 & y & Hrun & Hsub1 & Ht1 & Hh1 & Hts1 & Hl1 & Hy & Hkeep & Hex1 & Hall).
  { exact Hflat. }
  { intros kc Hkc. by apply elem_of_rev. }
  set (s2 := set_target s1 (mjoin (last (removelast (targetStack s1))))
                        (removelast (targetStack s1))).
  assert (Hsub2 : subscribed w s2) by (by apply (subscribed_ext w s1 s2)).
  destruct (cleanupDeps_ok w s2 y Hsub2 Hy) as
    (s' & x' & Hrun' & Hsub' & Hx' & Hd' & Hid' & Hn' & Hnid' & _ & _ & _ & _ &
     Ht' & _ & Hl' & Hh' & Hex').
  exists s', x'.
  split.
  { unfold get. unfold bind at 1. unfold pushTarget at 1. fold s0.
    unfold bind at 1. unfold getWatcher at 1.
    replace (watchers s0 !! w) with (Some x) by (symmetry; exact Hx).
    rewrite Hget. unfold ret at 1. rewrite Hdeep. cbn [when].
    unfold bind at 1. unfold bind at 1.
    assert (Htr : traverse (S (S f)) (VRef a) s0 = Ok tt s1).
    { unfold traverse. unfold bind at 1.
      rewrite (traverse_object f a o s0 Ho Hk Hfr). fold seen0.
      rewrite Hrun. reflexivity. }
    rewrite Htr.
    unfold bind at 1. unfold popTarget at 1. fold s2.
    rewrite Hrun'. reflexivity. }
  split; [exact Hsub'|]. split; [exact Hx'|].
  split; [rewrite Hh'; cbn; rewrite Hh1; done|].
  split.
  { rewrite Ht'. cbn. rewrite Hts1. cbn.
    by rewrite removelast_last. }
  intros k c d Hc Hd.
  assert (Hin : d ∈ deps x').
  { rewrite Hd'. eapply (Hall k c c d); [|exact Hc|exact Hd].
    apply elem_of_rev. by apply lookupProp_Some_in. }
  split; [exact Hin|].
  destruct Hsub' as (x0 & Hx0 & _ & _ & _ & _ & Hexs & Hcnt).
  assert (x0 = x') by congruence. subst x0.
  destruct (Hexs d) as [dp Hdp]; [by left|].
  exists dp. split; [exact Hdp|]. rewrite (Hcnt d dp Hdp).
  rewrite bool_decide_eq_true_2; [done|]. by left.
Qed.

End Deep.

Section DependArray.
Context `{Env} `{UserCode}.



End DependArray.

Lemma deepState_subscribed : subscribed 5 deepState.
Proof.
  eapply subscribed_intro;
    [reflexivity | | | reflexivity | reflexivity | |]; compute_done.
Qed.

Lemma deep_get_subscribes_every_property_witness :
  exists s' x',
    @get (readingCode [] (VRef 3)) 2 5 deepState = Ok (VRef 3) s' /\
    subscribed 5 s' /\
    watchers s' !! 5%nat = Some x' /\
    heap s' = heap deepState /\
    target s' = mjoin (last (targetStack deepState)) /\
    forall k c d, lookupProp k (o_props observedChild) = Some c ->
      p_dep c = Some d ->
      d ∈ deps x' /\
      exists dp, depStore s' !! d = Some dp /\
                 count_occ Nat.eq_dec (subs dp) 5%nat = 1%nat.
Proof.
  apply (@deep_get_subscribes_every_property (readingCode [] (VRef 3)) 0%nat
           5%nat 3%nat deepState deepWatcher observedChild);
    try reflexivity.
  - exact deepState_subscribed.
  - intros k c Hc. cbn in Hc.
    destruct (String.eqb k "a"); [|discriminate]. injection Hc as <-.
    exists 3%nat. repeat split; try reflexivity. vm_compute. eauto.
Defined.


Section DelArray.
Context `{Env} `{UserCode}.



(** In a user watcher an exception of the getter does not leave
    [get()]: it is handed to [handleError] with the words
    [getter for watcher] followed by the watcher's expression in double
    quotes, the evaluation is closed as usual ([popTarget],
    [cleanupDeps]: the dependencies read before the exception become
    the current ones) and [get()] returns [undefined]. *)
Theorem get_handles_getter_error (fuel : nat) (w : nat) (s s1 : RState)
    (x x1 : Watcher) :
  watchers s !! w = Some x ->
  user x = true -> deep x = false ->
  getterOf w (set_target s (Some w) (targetStack s ++ [Some w])) = Throw s1 ->
  subscribed w s1 ->
  watchers s1 !! w = Some x1 ->
  exists s' x',
    get fuel w s = Ok VUndef s' /\
    rlog s' = rlog s1 ++ [EvHandleError w (getterInfo w)] /\
    subscribed w s' /\
    watchers s' !! w = Some x' /\
    deps x' = newDeps x1 /\ newDeps x' = [] /\
    targetStack s' = removelast (targetStack s1) /\
    target s' = mjoin (last (removelast (targetStack s1))).
Proof.
  intros Hx Huser Hdeep Hthrow Hsub1 Hx1.
  set (s2 := set_rlog s1 (rlog s1 ++ [EvHandleError w (getterInfo w)])).
  set (s3 := set_target s2 (mjoin (last (removelast (targetStack s2))))
                        (removelast (targetStack s2))).
  assert (Hsub3 : subscribed w s3) by (by apply (subscribed_ext w s1 s3)).
  destruct (cleanupDeps_ok w s3 x1 Hsub3 Hx1) as
    (s' & x' & Hrun' & Hsub' & Hx' & Hd' & Hid' & Hn' & Hnid' & _ & _ & _ & _ &
     Ht' & Hts' & Hl' & Hh' & Hex').
  exists s', x'. split.
  { unfold get. unfold bind at 1. unfold pushTarget at 1.
    unfold bind at 1. unfold getWatcher at 1.
    cbn [watchers set_target]. rewrite Hx. rewrite Hthrow, Huser, Hdeep.
    unfold handleError. unfold bind at 1. unfold emit at 1. fold s2.
    cbn [when]. unfold bind at 1. unfold bind at 1. unfold ret at 1.
    unfold bind at 1. unfold popTarget at 1. fold s3.
    rewrite Hrun'. reflexivity. }
  split; [by rewrite Hl'|]. split; [exact Hsub'|]. split; [exact Hx'|].
  split; [exact Hd'|]. split; [exact Hn'|].
  split; [by rewrite Hts'|by rewrite Ht'].
Qed.

End DelArray.

Lemma userState_subscribed : subscribed 5 userState.
Proof.
  eapply subscribed_intro;
    [reflexivity | | | reflexivity | reflexivity | |]; compute_done.
Qed.


Lemma get_handles_getter_error_witness :
  let s1 := set_target userState (Some 5%nat) [Some 5%nat] in
  exists s' x',
    @get throwingCode 1 5 userState = Ok VUndef s' /\
    rlog s' = rlog s1 ++ [EvHandleError 5 (@getterInfo throwingCode 5)] /\
    subscribed 5 s' /\
    watchers s' !! 5%nat = Some x' /\
    deps x' = newDeps userWatcher /\ newDeps x' = [] /\
    targetStack s' = removelast (targetStack s1) /\
    target s' = mjoin (last (removelast (targetStack s1))).
Proof.
  apply (@get_handles_getter_error throwingCode 1%nat 5%nat userState
           (set_target userState (Some 5%nat) [Some 5%nat]) userWatcher
           userWatcher);
    try reflexivity.
  apply (subscribed_ext 5 userState _);
    [reflexivity | reflexivity | exact userState_subscribed].
Defined.

End ReactiveMore.
